(* ===== verification/_CoqProject ===== *)
-Q . S2P
Prelude.v
Logs.v
RustStd.v
Failure.v
DocumentErrors.v
CommandsParser.v
App.v
CpuInfo.v
EnclaveIds.v
Os.v
Bindings.v
Sample.v
Wire.v
Connection.v
Memory.v
EifWriter.v
Boot.v
Events.v
Enclave.v
Commands.v
Listener.v
SignalHandler.v
TerminateThread.v
EventLoop.v
Lifecycle.v
Threads.v
Process.v
DriverCalls.v
ClientComm.v
Conversation.v
RunConversation.v
TerminateConversation.v
Console.v
Logger.v
ImageBuild.v
BuildCommand.v
StandaloneBuild.v
Cli.v
NameConversation.v
Main.v
VsockProxy.v
Executer.v
ExecuterApp.v
