(* ===== verification/Prelude.v ===== *)
(** * Nitro Enclaves CLI: a verification development

    The program (src/) launches and manages Nitro Enclaves. A CLI instance
    parses its arguments, and for each enclave there is a detached process that
    owns it: it maps huge pages, writes the image into them, hands memory and
    CPUs over to the driver, starts the enclave, and then answers the requests
    of later CLI instances on a Unix socket until the enclave ends. This
    development models that program as functions over an explicit state and
    proves what each part promises. Paths below are relative to src/src unless
    they start with src/.

    ** How the code is modelled

    Fallible pure code returns [result]; code with effects is a computation
    [M E S A] over a state [S] ([Prelude]): it returns a [result], leaves the
    process ([Exit], Rust's process::exit) or panics ([Panic]), and the state
    reached is kept in every case, as mutations made before an early return are.
    The effects are system calls ([Os]): a [World] is the log of the calls made
    so far, the bytes of mapped memory, and the bytes still unread on each
    stream. What the kernel answers is the class [Kernel], an arbitrary function
    of the whole log; the environment of the process is [Env]; the libraries the
    code calls are [Serde] (serde_cbor, with the laws [SerdeLaws]), [ToJson] and
    [FromJson] (serde_json), [ImageFormat] and [ImageTools] (the image format
    library), and [ArgMatches] (clap). [Sample] has concrete instances of them,
    on which the witnesses evaluate the model.

    A method on [&mut self] is a computation on the pair of the record and the
    world ([IOS] of [Memory]); [zoom] runs one on a field. Destructors are
    written out where a value goes out of scope. A mutex is a value with its
    poison flag ([Mutex]), and one value stands for all clones of an [Arc]. An
    error carries the source file and the line of the macro that made it, as
    [file!()] and [line!()] do.

    Integers are [Z] with their width written out: [u64], [u32], [i64], [i32]
    wrap as the release build does, [checked_add] and the saturating operations
    are those of Rust. Strings are Rocq strings, one character for a byte.

    ** Files

    Foundations.
    - [Prelude] results, the monad, machine integers, [keeps] (what a computation
      preserves), the tactics [m_inv], [r_inv], [o_inv], the hint databases
      [nitro] and [keeps]; [Logs] which events a computation can emit ([emits]),
      which errors it can return ([errs]) and how it can leave the process
      ([exits]), with a tactic for each; [RustStd] the parts of Rust's standard
      library that the code uses.
    - [Os], [Sample]: the system and a concrete instance of it; [Events] classes
      of events for frame conditions.
    - [Bindings] (src/driver-bindings/src): the C structures of the driver, with
      their layout and their bytes in memory.

    The command line.
    - [Failure] and [DocumentErrors] (common/mod.rs, common/document_errors.rs):
      errors, their documented texts and exit statuses. An error is identified
      by its code ([error_codes_identify_errors]).
    - [CommandsParser] (common/commands_parser.rs): all arguments; [App] (the
      macro create_app of lib.rs): the declared arguments as data, and what clap
      promises of an accepted command line.
    - [Main] (main.rs): a definition for each sub-command, and main; [Cli] and
      [BuildCommand] (lib.rs): the library functions they call.
    - [ClientComm] (enclave_proc_comm.rs): the CLI's end of the protocol.
    - [Console] (utils.rs): the console's connection and its read loop.

    The enclave process.
    - [Process] (enclave_proc/mod.rs, enclave_proc_comm.rs): fork, daemon and the
      hand-over to the loop; [SignalHandler] (common/signal_handler.rs); [Logger]
      (common/logger.rs).
    - [TerminateThread] (enclave_proc/mod.rs, commands.rs): the thread that a
      request to terminate starts, with a step for each access to the shared
      handle. [EventLoop] (enclave_proc/mod.rs): every command, the round and the
      loop; the threads that are not joined yet are part of its state and go on
      while it waits ([meanwhile]), and joining one lets it take the steps it has
      left. [Lifecycle]: the abstract machine of an enclave process, which the
      loop refines. [Threads]: any number of threads next to the commands of the
      loop, in every interleaving.
    - [Listener] (enclave_proc/socket.rs, connection_listener.rs). The listener
      thread is a computation of its own; joining it runs it to its end.
    - [Wire] (common/mod.rs), [Connection] (enclave_proc/connection.rs): the
      protocol, and the access policy that [read_command] enforces.
    - [Commands] (enclave_proc/commands.rs, common/json_output.rs): run,
      terminate, describe.
    - [CpuInfo] (enclave_proc/cpu_info.rs): the CPU pool; [EnclaveIds]
      (enclave_proc/utils.rs, lib.rs): IDs, socket paths, names.
    - [Memory], [EifWriter], [Boot], [Enclave] (enclave_proc/resource_manager.rs,
      src/eif_loader): the allocator, the image in memory, the heart beat, the
      handle with its driver calls, the manager. [DriverCalls]: every driver call
      of the process, from its start to its end, fits the structure of [Bindings]
      that it hands over.

    Both ends.
    - [Conversation], [RunConversation], [TerminateConversation] and
      [NameConversation]: the client of [ClientComm] and the process of [Listener]
      and [EventLoop], each with a kernel and a world of its own; what one writes
      on the stream is what the other reads. The third adds the terminating thread
      and the other clients in every interleaving, the fourth has one client and
      any number of processes.

    The other programs.
    - [ImageBuild] (src/enclave_build/src): Docker credentials and images, the
      inputs of linuxkit, the build. Docker, linuxkit and the image format
      library are the class [BuildSystem]; its log is a list of [BuildEvent].
      [StandaloneBuild] (src/enclave_build/src/main.rs): the program around it.
    - [VsockProxy] (src/vsock_proxy/src): allow-list, name resolution with its
      cache, relay; the network is the class it declares, its log one of
      [NetEvent].
    - [Executer] (src/samples/command_executer/src): framing, server, client; two
      systems, one at each end of a connection. [ExecuterApp]: its command line.

    ** What is shown

    Refinement: the event loop, with the threads that run next to it, refines the
    life cycle of [Lifecycle] ([event_loop_refines_lifecycle]), so a process owns
    at most one enclave ([one_enclave_per_process]); terminating all enclaves
    refines the relation [reached] of [Cli] ([terminate_all_reaches_everything]).
    A thread that nobody interrupts is the function [terminate_enclaves], by the
    lemma [terminate_thread_alone].

    From end to end: what the command line shows is the enclave. A client that
    runs an enclave, asks for its description or for its numbers obtains what the
    handle in the process says ([run_conversation], [describe_conversation],
    [number_conversation]): these theorems compose the client's frames, the
    listener, the access policy, the handler with all it does on the way, the
    replies and the client's reading of them. A client that is told that the
    enclave was terminated is told the truth, in every interleaving of the
    thread, the status, other threads and any requests of other clients, further
    terminations included ([terminate_conversation]); a name leads
    to the ID of the one enclave that has it, and all names come back when asked
    for, whichever processes answer ([id_by_name_conversation],
    [all_names_conversation]).

    Interleavings: in every order of the steps of the terminating threads and of
    the commands of the loop, an enclave that is said to be empty has been cleared
    ([empty_enclave_is_cleared]); but two requests that overlap release it twice
    ([overlapping_terminations_release_twice]).

    Safety: commands of users without privileges change nothing
    ([unprivileged_connection_is_harmless], [read_command_authorised],
    [default_policy_exact]); an unverified image never starts
    ([unverified_image_never_starts]); a console is only opened in debug mode
    ([console_needs_debug_mode]); the proxy serves only what the list allows
    ([proxy_serves_only_allowed]).

    Function: the order and the arguments of the driver calls
    ([create_enclave_calls]), the place of every byte of the image
    ([write_eif_places_image]), the allocator's result ([allocate_correct]) and
    conservation of mappings ([allocator_free_conserves]), termination and
    description, the flow of a run and of a build ([run_command_flow],
    [build_command_builds], [create_builds_image]), the console and the proxy's
    relay, which lose and reorder nothing ([console_copies], [relay_forwards]).

    Round trips: command frames ([send_receive_roundtrip]), replies
    ([replies_reach_client]), pool lines, IDs, the requests of the executer
    ([upload_roundtrip], [run_roundtrip]). Termination: [allocate_outcomes],
    [daemon_start_ends]. Types: a parser asks only for arguments that its
    sub-command declares ([parsers_ask_for_declared]); the argument of every
    driver call has the size and the direction that its code announces
    ([driver_calls_well_formed]).

    The remaining theorems pin down errors and bounds, among them behaviours
    that are probably not intended: memory unmapped twice
    ([termination_unmaps_twice]), a boot failure that terminates nothing
    ([boot_failure_terminates_nothing]), a malformed read-only request that ends
    the process ([failed_command_ends_loop]), a listener that anybody may stop
    ([listener_stop_needs_no_permission]), a server that one client blocks
    ([closed_client_blocks_server]), an allow-list that ignores addresses
    ([allowlist_by_name]), a builder that ignores the certificate it is given
    ([standalone_builds_unsigned]).

    ** Bounds and fuel

    The loops of the allocator get [page_fuel], two more than the number of
    pages that fit; running out of it is a panic, which [allocate_outcomes]
    excludes. A client reads replies with one more round than there are unread
    bytes ([reply_fuel]); [replies_reach_client] shows that to be enough. A
    terminating thread gets [thread_fuel] steps when it is joined, which
    [finish_thread_ends] shows to be enough; which threads go on while the loop
    waits, and how far, the kernel says ([k_threads]). A wait that signals interrupt ends after a finite number of interruptions that
    the kernel chooses. [find_free_name] is bounded by the number of names. The
    loops that wait for other parties - the event loop, the wait for the parent,
    the console, the relay, the transfers of the executer - are given a number of
    rounds and say so when they have not ended by then; [daemon_start_ends],
    [relay_forwards] and the round trips of the executer say how many are enough.

    ** What is not modelled

    - Messages of the log crate, help texts and the version of the command line.
    - The kernel's part of fcntl, fork and signals: these calls are events with
      arbitrary answers.
    - Unwinding after a panic (destructors run then are left out), and partial
      writes on the streams of the protocol.
    - Terminating threads interleave with the loop between its commands, and with
      each other at every access to the handle; what the loop does for one event
      is taken as a whole. Threads and loop share one handle, as the manager is
      replaced only by the first run, before which no request to terminate can
      arrive: the socket of the process is created by that run. The monitoring
      thread of the socket and the thread for the measurements touch no shared
      handle and are not interleaved.
    - Files of the command executer are changed by the executer alone.
    - The shell scripts of src/bootstrap, and the trait ExitGracefully of the
      executer, which nothing uses. *)
From stdpp Require Import base numbers list strings gmap.
From Stdlib Require Import ZArith Lia.

(** ** Results, outcomes and the error monad *)

(** Rust's [Result<A, E>]. *)
Inductive result (E A : Type) : Type :=
| Ok (a : A)
| Err (e : E).
Arguments Ok {E A} a.
Arguments Err {E A} e.

(** What a call may do besides returning: the process may leave through
    [std::process::exit], or the thread may panic. *)
Inductive outcome (A : Type) : Type :=
| Return (a : A)
| Exit (code : Z)
| Panic.
Arguments Return {A} a.
Arguments Exit {A} code.
Arguments Panic {A}.

(** A computation over a state [S] that returns a [Result]; the state reached
    is kept whatever the outcome, as the mutations made before an early return
    are in the code. *)
Definition M (E S A : Type) : Type := S -> outcome (result E A) * S.

Section Monad.
Context {E S : Type}.

Definition ret {A} (a : A) : M E S A := fun s => (Return (Ok a), s).
Definition fail {A} (e : E) : M E S A := fun s => (Return (Err e), s).
Definition panic {A} : M E S A := fun s => (Panic, s).
Definition exit {A} (code : Z) : M E S A := fun s => (Exit code, s).
Definition get : M E S S := fun s => (Return (Ok s), s).
Definition put (s' : S) : M E S unit := fun _ => (Return (Ok tt), s').
Definition modify (f : S -> S) : M E S unit := fun s => (Return (Ok tt), f s).
Definition gets {A} (f : S -> A) : M E S A := fun s => (Return (Ok (f s)), s).

(** [let x = m?; k] *)
Definition bind {A B} (m : M E S A) (k : A -> M E S B) : M E S B :=
  fun s =>
    match m s with
    | (Return (Ok a), s') => k a s'
    | (Return (Err e), s') => (Return (Err e), s')
    | (Exit c, s') => (Exit c, s')
    | (Panic, s') => (Panic, s')
    end.

(** [Result::map_err] *)
Definition map_err {A} (f : E -> E) (m : M E S A) : M E S A :=
  fun s =>
    match m s with
    | (Return (Err e), s') => (Return (Err (f e)), s')
    | r => r
    end.

(** Observe the [Result] without propagating it (a [match] or [if let]). *)
Definition try {A} (m : M E S A) : M E S (result E A) :=
  fun s =>
    match m s with
    | (Return r, s') => (Return (Ok r), s')
    | (Exit c, s') => (Exit c, s')
    | (Panic, s') => (Panic, s')
    end.

Definition of_result {A} (r : result E A) : M E S A := fun s => (Return r, s).
End Monad.

(** Change the error type of a computation. *)
Definition map_err_to {E F S A} (f : E -> F) (m : M E S A) : M F S A :=
  fun s =>
    match m s with
    | (Return (Ok a), s') => (Return (Ok a), s')
    | (Return (Err e), s') => (Return (Err (f e)), s')
    | (Exit c, s') => (Exit c, s')
    | (Panic, s') => (Panic, s')
    end.

(** Observe the result of a computation with another error type. *)
Definition attempt {E F S A} (m : M E S A) : M F S (result E A) :=
  fun s =>
    match m s with
    | (Return r, s') => (Return (Ok r), s')
    | (Exit c, s') => (Exit c, s')
    | (Panic, s') => (Panic, s')
    end.

(** Run a computation on a component of the state. *)
Definition zoom {E S T A} (g : T -> S) (p : S -> T -> T) (m : M E S A) : M E T A :=
  fun t => let '(r, s') := m (g t) in (r, p s' t).

Declare Scope nitro_scope.
Delimit Scope nitro_scope with nitro.
Notation "'let!' x ':=' m 'in' k" := (bind m (fun x => k))
  (at level 10, x binder, m at level 100, k at level 200) : nitro_scope.
Notation "'do!' m ';' k" := (bind m (fun _ => k))
  (at level 10, m at level 100, k at level 200) : nitro_scope.

(** The [?] operator on plain results. *)
Definition rbind {E A B} (r : result E A) (k : A -> result E B) : result E B :=
  match r with Ok a => k a | Err e => Err e end.
Definition rmap_err {E F A} (f : E -> F) (r : result E A) : result F A :=
  match r with Ok a => Ok a | Err e => Err (f e) end.
Definition ok_or {E A} (o : option A) (e : E) : result E A :=
  match o with Some a => Ok a | None => Err e end.
Definition is_ok {E A} (r : result E A) : bool :=
  match r with Ok _ => true | Err _ => false end.
Definition to_option {E A} (r : result E A) : option A :=
  match r with Ok a => Some a | Err _ => None end.
Notation "'let?' x ':=' r 'in' k" := (rbind r (fun x => k))
  (at level 10, x binder, r at level 100, k at level 200) : nitro_scope.

#[export] Instance result_eq_dec {E A} `{EqDecision E, EqDecision A} : EqDecision (result E A).
Proof. solve_decision. Defined.

(** ** Inversion lemmas shared by every component *)

Lemma bind_ok_inv {E S A B} (m : M E S A) (k : A -> M E S B) s b s' :
  bind m k s = (Return (Ok b), s') ->
  exists a s1, m s = (Return (Ok a), s1) /\ k a s1 = (Return (Ok b), s').
Proof.
  unfold bind. destruct (m s) as [[[a|e]|c|] s1]; intros H; try congruence. eauto.
Qed.

Lemma bind_inv {E S A B} (m : M E S A) (k : A -> M E S B) s o s' :
  bind m k s = (o, s') ->
  (exists a s1, m s = (Return (Ok a), s1) /\ k a s1 = (o, s')) \/
  (snd (m s) = s' /\ forall b, o <> Return (Ok b)).
Proof.
  unfold bind. destruct (m s) as [[[a|e]|c|] s1]; simpl; [by eauto 10|..];
    intros [= <- <-]; right; (split; [done|congruence]).
Qed.

Lemma bind_try {E S A B} (m : M E S A) (k : result E A -> M E S B) s :
  bind (try m) k s =
  match m s with
  | (Return r, s') => k r s'
  | (Exit c, s') => (Exit c, s')
  | (Panic, s') => (Panic, s')
  end.
Proof. unfold bind, try. by destruct (m s) as [[r|c|] s']. Qed.

Lemma map_err_ok_inv {E S A} (f : E -> E) (m : M E S A) s a s' :
  map_err f m s = (Return (Ok a), s') -> m s = (Return (Ok a), s').
Proof. unfold map_err. destruct (m s) as [[[?|?]|?|] ?]; congruence. Qed.

Lemma map_err_to_ok_inv {E F S A} (f : E -> F) (m : M E S A) s a s' :
  map_err_to f m s = (Return (Ok a), s') -> m s = (Return (Ok a), s').
Proof. unfold map_err_to. destruct (m s) as [[[?|?]|?|] ?]; congruence. Qed.

Lemma rbind_ok_inv {E A B} (r : result E A) (k : A -> result E B) b :
  rbind r k = Ok b -> exists a, r = Ok a /\ k a = Ok b.
Proof. destruct r; simpl; intros; [eauto | congruence]. Qed.

Lemma rmap_err_ok_inv {E F A} (f : E -> F) (r : result E A) a :
  rmap_err f r = Ok a -> r = Ok a.
Proof. destruct r; simpl; congruence. Qed.

Lemma rmap_err_is_ok {E F A} (f : E -> F) (r : result E A) : is_ok (rmap_err f r) = is_ok r.
Proof. by destruct r. Qed.

Lemma try_inv {E S A} (m : M E S A) s r s' : try m s = (Return (Ok r), s') -> m s = (Return r, s').
Proof. unfold try. destruct (m s) as [[?|?|] ?]; congruence. Qed.

Lemma attempt_inv {E F S A} (m : M E S A) (s : S) (r : result E A) s' :
  (attempt m : M F S (result E A)) s = (Return (Ok r), s') -> m s = (Return r, s').
Proof. unfold attempt. destruct (m s) as [[?|?|] ?]; congruence. Qed.

Lemma of_result_inv {E S A} (r : result E A) (s : S) a s' :
  of_result r s = (Return (Ok a), s') -> r = Ok a /\ s' = s.
Proof. unfold of_result. intros [= -> ->]. done. Qed.

Lemma ok_or_inv {E A} (o : option A) (e : E) a : ok_or o e = Ok a -> o = Some a.
Proof. by destruct o; intros [= ->]. Qed.

Lemma bind_ret_l {E S A B} (a : A) (k : A -> M E S B) : bind (ret a) k = k a.
Proof. reflexivity. Qed.

Lemma bind_run_ok {E S A B} (m : M E S A) (k : A -> M E S B) s a s1 :
  m s = (Return (Ok a), s1) -> bind m k s = k a s1.
Proof. unfold bind. by intros ->. Qed.

(** ** What a computation keeps

    [keeps R m]: however [m] ends, the state it reaches is related by [R] to the
    one it started from. *)

Definition keeps {E S A} (R : S -> S -> Prop) (m : M E S A) : Prop := forall s, R s (snd (m s)).

Section Keeps.
Context {E S : Type} (R : S -> S -> Prop).

Lemma keeps_same `{!Reflexive R} {A} (m : M E S A) : (forall s, snd (m s) = s) -> keeps R m.
Proof. intros Hm s. by rewrite Hm. Qed.

(** The step from one state, where what the first part returns is known. *)
Lemma bind_related `{!Transitive R} {A B} (m : M E S A) (k : A -> M E S B) s :
  R s (snd (m s)) ->
  (forall a s1, m s = (Return (Ok a), s1) -> R s1 (snd (k a s1))) ->
  R s (snd (bind m k s)).
Proof.
  intros Hm Hk. unfold bind. destruct (m s) as [[[a|e]|c|] s1] eqn:Em; simpl in *; try done.
  etrans; [exact Hm|]. by apply Hk.
Qed.

Lemma keeps_bind `{!Transitive R} {A B} (m : M E S A) (k : A -> M E S B) :
  keeps R m -> (forall a, keeps R (k a)) -> keeps R (bind m k).
Proof. intros Hm Hk s. apply bind_related; [apply Hm|]. intros a s1 _. apply Hk. Qed.

Lemma keeps_at {A} (m : M E S A) s : keeps R m -> R s (snd (m s)).
Proof. intros Hm. apply Hm. Qed.

Lemma keeps_try {A} (m : M E S A) : keeps R m -> keeps R (try m).
Proof. intros Hm s. specialize (Hm s). unfold try. by destruct (m s) as [[r|c|] s1]. Qed.

Lemma keeps_map_err {A} f (m : M E S A) : keeps R m -> keeps R (map_err f m).
Proof. intros Hm s. specialize (Hm s). unfold map_err. by destruct (m s) as [[[?|?]|?|] s1]. Qed.

Lemma keeps_impl (R' : S -> S -> Prop) {A} (m : M E S A) :
  keeps R m -> (forall s s', R s s' -> R' s s') -> keeps R' m.
Proof. intros Hm HR s. apply HR, Hm. Qed.
End Keeps.

(** Decompose a computation into parts that keep a preorder. *)
Create HintDb keeps.
Ltac keeps :=
  repeat match goal with
  | |- keeps _ (bind _ _) => apply keeps_bind; [typeclasses eauto| |intros ?]
  | |- keeps _ (try _) => apply keeps_try
  | |- keeps _ (map_err _ _) => apply keeps_map_err
  | |- keeps _ (ret _) => apply keeps_same; [typeclasses eauto|done]
  | |- keeps _ (fail _) => apply keeps_same; [typeclasses eauto|done]
  | |- keeps _ (of_result _) => apply keeps_same; [typeclasses eauto|done]
  | |- keeps _ (gets _) => apply keeps_same; [typeclasses eauto|done]
  | |- keeps _ (match ?x with _ => _ end) => destruct x
  | |- keeps _ (let _ := _ in _) => cbv zeta
  | _ => solve [eauto with keeps]
  end.

(** ** Machine integers *)

Definition wrap (w z : Z) : Z := (z mod 2 ^ w)%Z.
Definition wrap_signed (w z : Z) : Z :=
  (let u := z mod 2 ^ w in if u <? 2 ^ (w - 1) then u else u - 2 ^ w)%Z.
Definition u64 : Z -> Z := wrap 64.
Definition u32 : Z -> Z := wrap 32.
Definition u16 : Z -> Z := wrap 16.
Definition i64 : Z -> Z := wrap_signed 64.
Definition i32 : Z -> Z := wrap_signed 32.

Definition u64_MAX : Z := 18446744073709551615.
Definition u32_MAX : Z := 4294967295.
Definition u16_MAX : Z := 65535.
Definition i32_MAX : Z := 2147483647.
Definition i32_MIN : Z := -2147483648.

Lemma wrap_small w z : (0 <= z < 2 ^ w)%Z -> wrap w z = z.
Proof. apply Z.mod_small. Qed.

Lemma u64_small z : (0 <= z <= u64_MAX)%Z -> u64 z = z.
Proof. unfold u64, u64_MAX. intros. apply wrap_small. lia. Qed.

Lemma wrap_signed_small w z :
  (1 <= w)%Z -> (0 <= z < 2 ^ (w - 1))%Z -> wrap_signed w z = z.
Proof.
  intros Hw Hz. unfold wrap_signed.
  assert (2 ^ w = 2 * 2 ^ (w - 1))%Z as E.
  { rewrite <- Z.pow_succ_r by lia. f_equal. lia. }
  rewrite Z.mod_small by lia. destruct (Z.ltb_spec z (2 ^ (w - 1))); lia.
Qed.

Lemma i64_small z : (0 <= z < 2 ^ 63)%Z -> i64 z = z.
Proof. intros. apply wrap_signed_small; [lia|]. exact H. Qed.

Lemma u64_bound z : (0 <= u64 z <= u64_MAX)%Z.
Proof. unfold u64, wrap, u64_MAX. pose proof (Z.mod_pos_bound z (2 ^ 64)). lia. Qed.

(** [checked_add] and [saturating_sub] on 64-bit unsigned values. *)
Definition checked_add (a b : Z) : option Z :=
  if (a + b <=? u64_MAX)%Z then Some (a + b)%Z else None.
Definition saturating_sub (a b : Z) : Z := Z.max 0 (a - b).
(** [i32::saturating_mul] *)
Definition saturating_mul_i32 (a b : Z) : Z :=
  Z.max i32_MIN (Z.min i32_MAX (a * b)).

(** ** Generic list lemmas *)

Lemma elem_of_insert_inv {A} (l : list A) i x y : y ∈ <[i := x]> l -> y = x \/ y ∈ l.
Proof.
  intros [j [(_ & -> & _)|[_ Hj]]%list_lookup_insert_Some]%list_elem_of_lookup; [by left|].
  right. by eapply list_elem_of_lookup_2.
Qed.

Definition zsum (l : list Z) : Z := foldr Z.add 0%Z l.

Lemma zsum_app l1 l2 : zsum (l1 ++ l2) = (zsum l1 + zsum l2)%Z.
Proof. induction l1; simpl; [done|]. rewrite IHl1. lia. Qed.

Lemma zsum_nonneg l : Forall (fun x => 0 <= x)%Z l -> (0 <= zsum l)%Z.
Proof. induction 1; simpl; lia. Qed.

Lemma zsum_permutation l1 l2 : l1 ≡ₚ l2 -> zsum l1 = zsum l2.
Proof. induction 1; simpl; lia. Qed.

#[global] Arguments String.append !_ _ / : simpl nomatch.

(** ** Tactics *)

(** Break the run of a monadic computation that returned [Ok] into its steps. *)
Ltac m_inv :=
  repeat match goal with
  | H : bind _ _ _ = (Return (Ok _), _) |- _ =>
      let a := fresh "a" in let s := fresh "s" in
      let H1 := fresh H in let H2 := fresh H in
      apply bind_ok_inv in H as (a & s & H1 & H2)
  | H : map_err _ _ _ = (Return (Ok _), _) |- _ => apply map_err_ok_inv in H
  | u : unit |- _ => destruct u
  | H : ret _ _ = _ |- _ => unfold ret in H; simplify_eq
  | H : gets _ _ = _ |- _ => unfold gets in H; simplify_eq
  | H : modify _ _ = _ |- _ => unfold modify in H; simplify_eq
  end.

Ltac r_inv :=
  repeat match goal with
  | H : rbind _ _ = Ok _ |- _ =>
      let a := fresh "a" in let H1 := fresh H in let H2 := fresh H in
      apply rbind_ok_inv in H as (a & H1 & H2)
  | H : rmap_err _ _ = Ok _ |- _ => apply rmap_err_ok_inv in H
  end.

(** [m_inv], also through plain results and options. *)
Ltac o_inv :=
  repeat (m_inv;
    match goal with
    | H : of_result _ _ = (Return (Ok _), _) |- _ =>
        let E := fresh "E" in apply of_result_inv in H as [E ?]; simplify_eq
    | H : rmap_err _ _ = Ok _ |- _ => apply rmap_err_ok_inv in H
    | H : ok_or _ _ = Ok _ |- _ => apply ok_or_inv in H; simplify_eq
    end); m_inv.

Create HintDb nitro.
#[export] Hint Resolve u64_bound zsum_nonneg : nitro.
