(* ===== verification/Logs.v ===== *)
(** * Computations that write a log

    [emits Q m]: every run of [m], whatever its outcome, extends the log of its
    state by events that satisfy [Q]. The lemmas follow the structure of
    computations, so that the tactic [emits] and the hint database of the same
    name prove the frame conditions of the components. *)
From S2P Require Import Prelude.
From stdpp Require Import base list.
Local Open Scope nitro_scope.

(** States that contain a log of events. *)
Class HasLog (T Ev : Type) : Type := log_of : T -> list Ev.

#[export] Instance has_log_list {Ev} : HasLog (list Ev) Ev := fun l => l.

Definition emits {E T Ev A} `{HasLog T Ev} (Q : Ev -> Prop) (m : M E T A) : Prop :=
  forall s, exists evs, log_of (snd (m s)) = log_of s ++ evs /\ Forall Q evs.

Create HintDb emits.

Section Emits.
Context {E T Ev : Type} `{HasLog T Ev} (Q : Ev -> Prop).

Lemma emits_quiet {A} (m : M E T A) : (forall s, log_of (snd (m s)) = log_of s) -> emits Q m.
Proof. intros Hq s. exists []. by rewrite app_nil_r. Qed.

Lemma emits_ret {A} (a : A) : emits Q (ret a : M E T A).
Proof. by apply emits_quiet. Qed.
Lemma emits_fail {A} e : emits Q (fail e : M E T A).
Proof. by apply emits_quiet. Qed.
Lemma emits_panic {A} : emits Q (panic : M E T A).
Proof. by apply emits_quiet. Qed.
Lemma emits_exit {A} c : emits Q (exit c : M E T A).
Proof. by apply emits_quiet. Qed.
Lemma emits_gets {A} f : emits Q (gets f : M E T A).
Proof. by apply emits_quiet. Qed.
Lemma emits_of_result {A} r : emits Q (of_result r : M E T A).
Proof. by apply emits_quiet. Qed.

Lemma emits_bind {A B} (m : M E T A) (k : A -> M E T B) :
  emits Q m -> (forall a, emits Q (k a)) -> emits Q (bind m k).
Proof.
  intros Hm Hk s. destruct (Hm s) as (e1 & E1 & F1). unfold bind.
  destruct (m s) as [[[a|e]|c|] s1]; simpl in E1 |- *; try (by exists e1).
  destruct (Hk a s1) as (e2 & E2 & F2). exists (e1 ++ e2).
  rewrite E2, E1, app_assoc. split; [done|]. by apply Forall_app.
Qed.

Lemma emits_map_err {A} f (m : M E T A) : emits Q m -> emits Q (map_err f m).
Proof. intros Hm s. specialize (Hm s). unfold map_err. by destruct (m s) as [[[?|?]|?|] ?]. Qed.

Lemma emits_try {A} (m : M E T A) : emits Q m -> emits Q (try m).
Proof. intros Hm s. specialize (Hm s). unfold try. by destruct (m s) as [[?|?|] ?]. Qed.

Lemma emits_map_err_to {F A} (f : F -> E) (m : M F T A) : emits Q m -> emits Q (map_err_to f m).
Proof. intros Hm s. specialize (Hm s). unfold map_err_to. by destruct (m s) as [[[?|?]|?|] ?]. Qed.

Lemma emits_attempt {F A} (m : M F T A) : emits Q m -> emits Q (attempt m : M E T (result F A)).
Proof. intros Hm s. specialize (Hm s). unfold attempt. by destruct (m s) as [[?|?|] ?]. Qed.

(** Running on a part of the state that holds the same log. *)
Lemma emits_zoom {S A} `{HasLog S Ev} (g : T -> S) (p : S -> T -> T) (m : M E S A) :
  (forall t, log_of (g t) = log_of t) -> (forall s t, log_of (p s t) = log_of s) ->
  emits Q m -> emits Q (zoom g p m).
Proof.
  intros Hg Hp Hm t. destruct (Hm (g t)) as (evs & E1 & F1). exists evs. unfold zoom.
  destruct (m (g t)) as [r s]. simpl in *. by rewrite Hp, E1, Hg.
Qed.

Lemma emits_one {A} (m : M E T A) :
  (forall s, exists e, log_of (snd (m s)) = log_of s ++ [e] /\ Q e) -> emits Q m.
Proof. intros Hm s. destruct (Hm s) as (e & E1 & Q1). exists [e]. eauto. Qed.
End Emits.

#[export] Hint Resolve emits_ret emits_fail emits_panic emits_exit emits_gets emits_of_result
  emits_bind emits_map_err emits_try emits_map_err_to emits_attempt : emits.

Lemma emits_impl {E T Ev A} `{HasLog T Ev} (P Q : Ev -> Prop) (m : M E T A) :
  emits P m -> (forall e, P e -> Q e) -> emits Q m.
Proof. intros Hm HPQ s. destruct (Hm s) as (evs & ? & ?). exists evs. eauto using Forall_impl. Qed.

(** What such a computation leaves unchanged: the events selected by [f], when
    [Q] excludes them. *)
Lemma emits_omap {E T Ev A B} `{HasLog T Ev} (Q : Ev -> Prop) (f : Ev -> option B) (m : M E T A) s r s' :
  emits Q m -> (forall e, Q e -> f e = None) -> m s = (r, s') ->
  omap f (log_of s') = omap f (log_of s).
Proof.
  intros Hm Hf Es. destruct (Hm s) as (evs & E1 & F1). rewrite Es in E1. simpl in E1.
  rewrite E1, omap_app. replace (omap f evs) with (@nil B); [by rewrite app_nil_r|].
  clear E1. induction F1 as [|e evs He _ IH]; simpl; [done|]. by rewrite (Hf _ He).
Qed.

(** Take computations apart: binds, branches, and the leaves known so far;
    [emits_step] is extended by the components with combinators of their own. *)
Ltac emits_step := fail.
Ltac emits :=
  repeat match goal with
  | |- emits _ (bind _ _) => apply emits_bind; [|intros ?]
  | |- emits _ (map_err _ _) => apply emits_map_err
  | |- emits _ (map_err_to _ _) => apply emits_map_err_to
  | |- emits _ (try _) => apply emits_try
  | |- emits _ (attempt _) => apply emits_attempt
  | |- emits _ _ => emits_step
  | |- emits _ (let _ := _ in _) => cbv zeta
  | |- emits _ (match ?x with _ => _ end) => destruct x
  | _ => solve [eauto with emits]
  end.

(** A computation whose run logs an event that its first part cannot log
    reaches its second part. *)
Lemma bind_reaches {E T Ev A B} `{HasLog T Ev} (Q : Ev -> Prop) (m : M E T A) (k : A -> M E T B)
    s r s' e :
  emits Q m -> ~ Q e -> e ∉ log_of s -> bind m k s = (r, s') -> e ∈ log_of s' ->
  exists a s1, m s = (Return (Ok a), s1) /\ k a s1 = (r, s') /\ e ∉ log_of s1.
Proof.
  intros Hm HQ Hn Hb He. destruct (Hm s) as (evs & El & F). unfold bind in Hb.
  assert (e ∉ log_of (snd (m s))) as Hn'.
  { rewrite El. intros [?|Hin]%elem_of_app; [done|]. by eapply HQ, (proj1 (Forall_forall _ _) F). }
  destruct (m s) as [[[a|x]|c|] s1]; simplify_eq; simpl in *; try done. eauto.
Qed.

Lemma emits_incl {E T Ev A} `{HasLog T Ev} (Q : Ev -> Prop) (m : M E T A) s r s' e :
  emits Q m -> m s = (r, s') -> e ∈ log_of s -> e ∈ log_of s'.
Proof.
  intros Hm Es He. destruct (Hm s) as (evs & El & _). rewrite Es in El. simpl in El.
  rewrite El. apply elem_of_app. by left.
Qed.

Lemma emits_new {E T Ev A} `{HasLog T Ev} (Q : Ev -> Prop) (m : M E T A) s r s' e :
  emits Q m -> m s = (r, s') -> e ∈ log_of s' -> e ∉ log_of s -> Q e.
Proof.
  intros Hm Es He Hn. destruct (Hm s) as (evs & El & F). rewrite Es in El. simpl in El. rewrite El in He.
  apply elem_of_app in He as [?|He]; [done|]. by eapply (proj1 (Forall_forall _ _) F).
Qed.

(** *** Events that a run has logged *)

(** [e] is among the events that [l'] has and its beginning [l] has not. *)
Definition new_in {Ev} (l l' : list Ev) (e : Ev) : Prop := exists evs, l' = l ++ evs /\ e ∈ evs.

Lemma new_in_before {Ev} (l l1 l2 : list Ev) e : l `prefix_of` l1 -> new_in l1 l2 e -> new_in l l2 e.
Proof. intros [evs ->] (evs2 & -> & He). exists (evs ++ evs2). rewrite app_assoc, elem_of_app. auto. Qed.
Lemma new_in_after {Ev} (l l1 l2 : list Ev) e : new_in l l1 e -> l1 `prefix_of` l2 -> new_in l l2 e.
Proof. intros (evs & -> & He) [evs2 ->]. exists (evs ++ evs2). rewrite app_assoc, elem_of_app. auto. Qed.
Lemma new_in_one {Ev} (l : list Ev) e : new_in l (l ++ [e]) e.
Proof. exists [e]. split; [done|]. by apply list_elem_of_singleton. Qed.

Lemma emits_prefix {E T Ev A} `{HasLog T Ev} (Q : Ev -> Prop) (m : M E T A) s r s' :
  emits Q m -> m s = (r, s') -> log_of s `prefix_of` log_of s'.
Proof. intros Hm Es. destruct (Hm s) as (evs & El & _). rewrite Es in El. by exists evs. Qed.

(** [does P m]: every run of [m], whatever its outcome, logs an event with [P]. *)
Definition does {E T Ev A} `{HasLog T Ev} (P : Ev -> Prop) (m : M E T A) : Prop :=
  forall s, exists e, new_in (log_of s) (log_of (snd (m s))) e /\ P e.

Section Does.
Context {E T Ev : Type} `{HasLog T Ev} (P : Ev -> Prop).

Lemma does_one {A} (m : M E T A) :
  (forall s, exists e, log_of (snd (m s)) = log_of s ++ [e] /\ P e) -> does P m.
Proof. intros Hm s. destruct (Hm s) as (e & -> & He). exists e. split; [apply new_in_one|done]. Qed.
Lemma does_bind {A B} Q (m : M E T A) (k : A -> M E T B) :
  does P m -> (forall a, emits Q (k a)) -> does P (bind m k).
Proof.
  intros Hm Hk s. destruct (Hm s) as (e & Hn & He). exists e. split; [|done]. unfold bind.
  destruct (m s) as [[[a|x]|c|] s1]; simpl in Hn |- *; try done.
  eapply new_in_after; [exact Hn|]. eapply emits_prefix; [apply Hk|apply surjective_pairing].
Qed.
Lemma does_map_err {A} f (m : M E T A) : does P m -> does P (map_err f m).
Proof. intros Hm s. specialize (Hm s). unfold map_err. by destruct (m s) as [[[?|?]|?|] ?]. Qed.
Lemma does_map_err_to {F A} (f : F -> E) (m : M F T A) : does P m -> does P (map_err_to f m).
Proof. intros Hm s. specialize (Hm s). unfold map_err_to. by destruct (m s) as [[[?|?]|?|] ?]. Qed.
Lemma does_try {A} (m : M E T A) : does P m -> does P (try m).
Proof. intros Hm s. specialize (Hm s). unfold try. by destruct (m s) as [[?|?|] ?]. Qed.
End Does.

(** ** Computations that neither leave the process nor panic *)

Definition returns {E S A} (m : M E S A) : Prop := forall s, exists r s', m s = (Return r, s').

Section Returns.
Context {E S : Type}.

Lemma returns_ret {A} (a : A) : returns (ret a : M E S A).
Proof. intros s. by eexists _, _. Qed.
Lemma returns_fail {A} e : returns (fail e : M E S A).
Proof. intros s. by eexists _, _. Qed.
Lemma returns_gets {A} f : returns (gets f : M E S A).
Proof. intros s. by eexists _, _. Qed.
Lemma returns_of_result {A} r : returns (of_result r : M E S A).
Proof. intros s. by eexists _, _. Qed.
Lemma returns_bind {A B} (m : M E S A) (k : A -> M E S B) :
  returns m -> (forall a, returns (k a)) -> returns (bind m k).
Proof.
  intros Hm Hk s. unfold bind. destruct (Hm s) as ([a|e] & s1 & ->); [apply Hk|by eexists _, _].
Qed.
Lemma returns_map_err {A} f (m : M E S A) : returns m -> returns (map_err f m).
Proof. intros Hm s. unfold map_err. destruct (Hm s) as ([a|e] & s1 & ->); by eexists _, _. Qed.
Lemma returns_map_err_to {F A} (f : F -> E) (m : M F S A) : returns m -> returns (map_err_to f m).
Proof. intros Hm s. unfold map_err_to. destruct (Hm s) as ([a|e] & s1 & ->); by eexists _, _. Qed.
Lemma returns_try {A} (m : M E S A) : returns m -> returns (try m).
Proof. intros Hm s. unfold try. destruct (Hm s) as ([a|e] & s1 & ->); by eexists _, _. Qed.
Lemma returns_attempt {F A} (m : M F S A) : returns m -> returns (attempt m : M E S (result F A)).
Proof. intros Hm s. unfold attempt. destruct (Hm s) as ([a|e] & s1 & ->); by eexists _, _. Qed.
End Returns.

Create HintDb returns.
#[export] Hint Resolve returns_ret returns_fail returns_gets returns_of_result returns_bind
  returns_map_err returns_map_err_to returns_try returns_attempt : returns.

Ltac returns :=
  repeat match goal with
  | |- returns (bind _ _) => apply returns_bind; [|intros ?]
  | |- returns (map_err _ _) => apply returns_map_err
  | |- returns (map_err_to _ _) => apply returns_map_err_to
  | |- returns (try _) => apply returns_try
  | |- returns (attempt _) => apply returns_attempt
  | |- returns (match ?x with _ => _ end) => destruct x
  | _ => solve [eauto with returns]
  end.

(** ** The errors a computation can return *)

Definition errs {E S A} (P : E -> Prop) (m : M E S A) : Prop :=
  forall s e s', m s = (Return (Err e), s') -> P e.

Section Errs.
Context {E S : Type} (P : E -> Prop).

Lemma errs_ret {A} (a : A) : errs P (ret a : M E S A).
Proof. by intros s e s' [=]. Qed.
Lemma errs_exit {A} c : errs P (exit c : M E S A).
Proof. by intros s e s' [=]. Qed.
Lemma errs_panic {A} : errs P (panic : M E S A).
Proof. by intros s e s' [=]. Qed.
Lemma errs_gets {A} f : errs P (gets f : M E S A).
Proof. by intros s e s' [=]. Qed.
Lemma errs_modify f : errs P (modify f : M E S unit).
Proof. by intros s e s' [=]. Qed.
Lemma errs_fail {A} e : P e -> errs P (fail e : M E S A).
Proof. by intros He s e' s' [= <- _]. Qed.
Lemma errs_of_result {A} r : (forall e, r = Err e -> P e) -> errs P (of_result r : M E S A).
Proof. intros Hr s e s' [= Er _]. by apply Hr. Qed.
Lemma errs_bind {A B} (m : M E S A) (k : A -> M E S B) :
  errs P m -> (forall a, errs P (k a)) -> errs P (bind m k).
Proof.
  intros Hm Hk s e s' Eb. unfold bind in Eb. destruct (m s) as [[[a|x]|c|] s1] eqn:Em; try done.
  - by eapply Hk.
  - injection Eb as -> _. by eapply Hm.
Qed.
Lemma errs_map_err {A} f (m : M E S A) : errs (fun e => P (f e)) m -> errs P (map_err f m).
Proof.
  intros Hm s e s' Em. unfold map_err in Em. destruct (m s) as [[[a|x]|c|] s1] eqn:E1; try done.
  injection Em as <- _. by eapply Hm.
Qed.
Lemma errs_map_err_to {F A} (f : F -> E) (m : M F S A) : (forall e, P (f e)) -> errs P (map_err_to f m).
Proof.
  intros Hf s e s' Em. unfold map_err_to in Em. destruct (m s) as [[[a|x]|c|] s1]; try done.
  injection Em as <- _. apply Hf.
Qed.
Lemma errs_try {A} (m : M E S A) : errs P (try m).
Proof. intros s e s' Em. unfold try in Em. by destruct (m s) as [[?|?|] ?]. Qed.
Lemma errs_attempt {F A} (m : M F S A) : errs P (attempt m : M E S (result F A)).
Proof. intros s e s' Em. unfold attempt in Em. by destruct (m s) as [[?|?|] ?]. Qed.
End Errs.

Lemma errs_impl {E S A} (P Q : E -> Prop) (m : M E S A) :
  errs P m -> (forall e, P e -> Q e) -> errs Q m.
Proof. intros Hm HPQ s e s' Em. eauto. Qed.

Create HintDb errs.
#[export] Hint Resolve errs_ret errs_exit errs_panic errs_gets errs_modify errs_try errs_attempt : errs.

(** The side conditions that remain are about single errors. *)
Ltac errs :=
  repeat match goal with
  | |- errs _ (bind _ _) => apply errs_bind; [|intros ?]
  | |- errs _ (map_err _ _) => apply errs_map_err
  | |- errs _ (map_err_to _ _) => apply errs_map_err_to; intros ?
  | |- errs _ (fail _) => apply errs_fail
  | |- errs _ (match ?x with _ => _ end) => destruct x
  | _ => solve [eauto with errs]
  end.

(** ** How a computation can leave the process *)

Definition exits {E S A} (P : Z -> S -> Prop) (m : M E S A) : Prop :=
  forall s c s', m s = (Exit c, s') -> P c s'.

Section Exits.
Context {E S : Type} (P : Z -> S -> Prop).

Lemma exits_returned {A} (m : M E S A) :
  (forall s, match fst (m s) with Exit _ => False | _ => True end) -> exits P m.
Proof. intros Hm s c s' Es. specialize (Hm s). by rewrite Es in Hm. Qed.
Lemma exits_ret {A} (a : A) : exits P (ret a : M E S A).
Proof. by apply exits_returned. Qed.
Lemma exits_fail {A} e : exits P (fail e : M E S A).
Proof. by apply exits_returned. Qed.
Lemma exits_panic {A} : exits P (panic : M E S A).
Proof. by apply exits_returned. Qed.
Lemma exits_gets {A} f : exits P (gets f : M E S A).
Proof. by apply exits_returned. Qed.
Lemma exits_modify f : exits P (modify f : M E S unit).
Proof. by apply exits_returned. Qed.
Lemma exits_of_result {A} r : exits P (of_result r : M E S A).
Proof. by apply exits_returned. Qed.
Lemma exits_bind {A B} (m : M E S A) (k : A -> M E S B) :
  exits P m -> (forall a, exits P (k a)) -> exits P (bind m k).
Proof.
  intros Hm Hk s c s' Eb. unfold bind in Eb. destruct (m s) as [[[a|x]|c1|] s1] eqn:Em; try done.
  - by eapply Hk.
  - injection Eb as -> ->. by eapply Hm.
Qed.
Lemma exits_map_err {A} f (m : M E S A) : exits P m -> exits P (map_err f m).
Proof.
  intros Hm s c s' Em. unfold map_err in Em. destruct (m s) as [[[a|x]|c1|] s1] eqn:E1; try done.
  injection Em as -> ->. by eapply Hm.
Qed.
Lemma exits_map_err_to {F A} (f : F -> E) (m : M F S A) : exits P m -> exits P (map_err_to f m).
Proof.
  intros Hm s c s' Em. unfold map_err_to in Em. destruct (m s) as [[[a|x]|c1|] s1] eqn:E1; try done.
  injection Em as -> ->. by eapply Hm.
Qed.
Lemma exits_try {A} (m : M E S A) : exits P m -> exits P (try m).
Proof.
  intros Hm s c s' Em. unfold try in Em. destruct (m s) as [[a|c1|] s1] eqn:E1; try done.
  injection Em as -> ->. by eapply Hm.
Qed.
Lemma exits_attempt {F A} (m : M F S A) : exits P m -> exits P (attempt m : M E S (result F A)).
Proof.
  intros Hm s c s' Em. unfold attempt in Em. destruct (m s) as [[a|c1|] s1] eqn:E1; try done.
  injection Em as -> ->. by eapply Hm.
Qed.
Lemma exits_zoom {T A} (g : S -> T) (p : T -> S -> S) (m : M E T A) :
  exits (fun _ _ => False) m -> exits P (zoom g p m).
Proof.
  intros Hm s c s' Em. unfold zoom in Em. destruct (m (g s)) as [r t] eqn:E1. injection Em as -> _.
  by apply Hm in E1.
Qed.
End Exits.

Create HintDb exits.
#[export] Hint Resolve exits_ret exits_fail exits_panic exits_gets exits_modify exits_of_result : exits.

Ltac exits :=
  repeat match goal with
  | |- exits _ (bind _ _) => apply exits_bind; [|intros ?]
  | |- exits _ (map_err _ _) => apply exits_map_err
  | |- exits _ (map_err_to _ _) => apply exits_map_err_to
  | |- exits _ (try _) => apply exits_try
  | |- exits _ (attempt _) => apply exits_attempt
  | |- exits _ (match ?x with _ => _ end) => destruct x
  | _ => solve [eauto with exits]
  end.
