(* ===== verification/RustStd.v ===== *)
(** * The parts of Rust's standard library the program computes with

    Strings are sequences of ASCII characters (the inputs the program handles
    itself: CPU lists, sizes, CIDs, identifiers). Integer parsing follows
    [core::num]'s [from_str_radix]; number formatting follows [{}], [{:x}] and
    [{:X}]; [split], [rsplit], [trim], [lines] follow [core::str]. *)
From S2P Require Import Prelude.
From stdpp Require Import base numbers list strings.
From Stdlib Require Import ZArith Lia Ascii.
Local Open Scope Z_scope.

(** ** Characters *)

Definition code (c : ascii) : Z := Z.of_N (N_of_ascii c).

Definition is_whitespace (c : ascii) : bool :=
  ((9 <=? code c) && (code c <=? 13)) || (code c =? 32).

Definition is_numeric (c : ascii) : bool := (48 <=? code c) && (code c <=? 57).

(** The value of an alphanumeric character as a digit. *)
Definition digit_val (c : ascii) : option Z :=
  if (48 <=? code c) && (code c <=? 57) then Some (code c - 48)
  else if (97 <=? code c) && (code c <=? 122) then Some (code c - 87)
  else if (65 <=? code c) && (code c <=? 90) then Some (code c - 55)
  else None.

(** [char::to_digit] *)
Definition to_digit (radix : Z) (c : ascii) : option Z :=
  match digit_val c with
  | Some d => if d <? radix then Some d else None
  | None => None
  end.

(** ** Integer parsing *)

Inductive ParseIntError := ParseEmpty | InvalidDigit | PosOverflow.

(** The digit loop: [checked_mul], then the digit, then [checked_add]. *)
Fixpoint parse_digits (radix max acc : Z) (s : string) : result ParseIntError Z :=
  match s with
  | EmptyString => Ok acc
  | String c s' =>
      match to_digit radix c with
      | None => Err InvalidDigit
      | Some d =>
          if max <? acc * radix then Err PosOverflow
          else if max <? acc * radix + d then Err PosOverflow
          else parse_digits radix max (acc * radix + d) s'
      end
  end.

(** [from_str_radix] of an unsigned type with maximum [max]. *)
Definition from_str_radix (radix max : Z) (s : string) : result ParseIntError Z :=
  match s with
  | EmptyString => Err ParseEmpty
  | String c EmptyString =>
      if Ascii.eqb c "+" || Ascii.eqb c "-" then Err InvalidDigit
      else parse_digits radix max 0 s
  | String c s' =>
      if Ascii.eqb c "+" then parse_digits radix max 0 s' else parse_digits radix max 0 s
  end.

Definition parse_u64 : string -> result ParseIntError Z := from_str_radix 10 u64_MAX.
Definition parse_u32 : string -> result ParseIntError Z := from_str_radix 10 u32_MAX.
Definition parse_u16 : string -> result ParseIntError Z := from_str_radix 10 u16_MAX.

(** ** Integer formatting *)

Definition digit_char (upper : bool) (d : Z) : ascii :=
  ascii_of_N (Z.to_N (if d <? 10 then 48 + d else if upper then 55 + d else 87 + d)).

Fixpoint show_go (upper : bool) (fuel : nat) (radix n : Z) (acc : string) : string :=
  match fuel with
  | O => acc
  | S f =>
      let acc' := String (digit_char upper (n mod radix)) acc in
      if n <? radix then acc' else show_go upper f radix (n / radix) acc'
  end.

(** One digit per bit is always enough fuel. *)
Definition show_radix (upper : bool) (radix n : Z) : string :=
  show_go upper (S (Z.to_nat (Z.log2 n))) radix n EmptyString.

Definition show_u (n : Z) : string := show_radix false 10 n.
Definition show_hex (n : Z) : string := show_radix false 16 n.
Definition show_HEX (n : Z) : string := show_radix true 16 n.
Definition show_i (n : Z) : string :=
  if n <? 0 then String "-" (show_u (- n)) else show_u n.

(** ** Strings *)

Fixpoint str_filter (p : ascii -> bool) (s : string) : string :=
  match s with
  | EmptyString => EmptyString
  | String c s' => if p c then String c (str_filter p s') else str_filter p s'
  end.

(** [String::retain(|c| !c.is_whitespace())] *)
Definition retain_non_whitespace (s : string) : string :=
  str_filter (fun c => negb (is_whitespace c)) s.

Fixpoint str_forall (p : ascii -> bool) (s : string) : bool :=
  match s with
  | EmptyString => true
  | String c s' => p c && str_forall p s'
  end.

(** [s.trim().is_empty()] *)
Definition trim_is_empty (s : string) : bool := str_forall is_whitespace s.

Fixpoint str_rev_app (s acc : string) : string :=
  match s with
  | EmptyString => acc
  | String c s' => str_rev_app s' (String c acc)
  end.
Definition str_rev (s : string) : string := str_rev_app s EmptyString.

Fixpoint trim_start (s : string) : string :=
  match s with
  | EmptyString => EmptyString
  | String c s' => if is_whitespace c then trim_start s' else s
  end.
(** [str::trim] *)
Definition str_trim (s : string) : string := str_rev (trim_start (str_rev (trim_start s))).

Definition cons_head (c : ascii) (l : list string) : list string :=
  match l with
  | [] => [String c EmptyString]
  | h :: t => String c h :: t
  end.

(** [s.split(c)] for a character *)
Fixpoint split_char (sep : ascii) (s : string) : list string :=
  match s with
  | EmptyString => [EmptyString]
  | String c s' =>
      if Ascii.eqb c sep then EmptyString :: split_char sep s'
      else cons_head c (split_char sep s')
  end.

(** [s.starts_with(pat)] *)
Fixpoint starts_with (pat s : string) : bool :=
  match pat, s with
  | EmptyString, _ => true
  | String a p', String b s' => Ascii.eqb a b && starts_with p' s'
  | String _ _, EmptyString => false
  end.
Definition ends_with (pat s : string) : bool := starts_with (str_rev pat) (str_rev s).

(** [s.split(pat)] for a non-empty string pattern, matches taken from the left;
    [skip] counts the characters of the current match still to be dropped. *)
Fixpoint split_str_go (pat : string) (skip : nat) (s : string) : list string :=
  match s with
  | EmptyString => [EmptyString]
  | String c s' =>
      match skip with
      | S k => split_str_go pat k s'
      | O =>
          if starts_with pat s then EmptyString :: split_str_go pat (String.length pat - 1) s'
          else cons_head c (split_str_go pat 0 s')
      end
  end.
Definition split_str (pat s : string) : list string := split_str_go pat 0 s.

(** [s.rsplit(pat)]: the pieces from the right, matches taken from the right. *)
Definition rsplit_str (pat s : string) : list string :=
  map str_rev (split_str (str_rev pat) (str_rev s)).

(** [s.contains(pat)] *)
Fixpoint str_contains (pat s : string) : bool :=
  starts_with pat s ||
  match s with
  | EmptyString => false
  | String _ s' => str_contains pat s'
  end.

Fixpoint str_drop (n : nat) (s : string) : string :=
  match n, s with
  | O, _ => s
  | S n', String _ s' => str_drop n' s'
  | S _, EmptyString => EmptyString
  end.

(** [s.trim_end_matches(pat)] for a non-empty pattern; on the reversed string,
    with the length as fuel, since every match removes a character. *)
Fixpoint strip_prefixes (fuel : nat) (pat s : string) : string :=
  match fuel with
  | O => s
  | S f => if starts_with pat s then strip_prefixes f pat (str_drop (String.length pat) s) else s
  end.
Definition trim_end_matches (pat s : string) : string :=
  str_rev (strip_prefixes (String.length s) (str_rev pat) (str_rev s)).

(** [match s.find(p) { Some(i) => s.split_at(i), None => (s, "") }] *)
Fixpoint split_at_find (p : ascii -> bool) (s : string) : string * string :=
  match s with
  | EmptyString => (EmptyString, EmptyString)
  | String c s' =>
      if p c then (EmptyString, s)
      else let '(a, b) := split_at_find p s' in (String c a, b)
  end.

(** [BufRead::lines]: the pieces between line feeds, a trailing empty piece
    dropped and one carriage return before the line feed removed. *)
Definition LF : ascii := ascii_of_N 10.
Definition CR : ascii := ascii_of_N 13.
Definition chop_cr (s : string) : string :=
  match str_rev s with
  | String c r => if Ascii.eqb c CR then str_rev r else s
  | EmptyString => s
  end.
Fixpoint lines_of_pieces (l : list string) : list string :=
  match l with
  | [] => []
  | [last] => if decide (last = EmptyString) then [] else [last]
  | p :: rest => chop_cr p :: lines_of_pieces rest
  end.
Definition lines (s : string) : list string := lines_of_pieces (split_char LF s).

(** [{:?}] of a string: quoted, with the escapes of [char::escape_debug] for
    ASCII characters. *)
Definition escape_debug (c : ascii) : string :=
  let n := code c in
  if n =? 34 then String (ascii_of_N 92) (String c "")
  else if n =? 92 then String c (String c "")
  else if n =? 0 then String (ascii_of_N 92) "0"
  else if n =? 9 then String (ascii_of_N 92) "t"
  else if n =? 10 then String (ascii_of_N 92) "n"
  else if n =? 13 then String (ascii_of_N 92) "r"
  else if (n <? 32) || (n =? 127)
  then String (ascii_of_N 92) ("u{" +:+ show_hex n +:+ "}")
  else String c "".
Fixpoint escape_string (s : string) : string :=
  match s with
  | "" => ""
  | String c s => escape_debug c +:+ escape_string s
  end.
Definition show_str (s : string) : string :=
  String (ascii_of_N 34) (escape_string s) +:+ String (ascii_of_N 34) "".

Fixpoint str_join (sep : string) (l : list string) : string :=
  match l with
  | [] => EmptyString
  | [x] => x
  | x :: rest => (x +:+ sep +:+ str_join sep rest)%string
  end.

(** [{:?}] of a list of integers. *)
Definition show_list (l : list Z) : string :=
  ("[" +:+ str_join ", " (map show_u l) +:+ "]")%string.

(** ** Little-endian bytes *)

Fixpoint to_le_bytes (n : nat) (v : Z) : list Z :=
  match n with
  | O => []
  | S n' => v mod 256 :: to_le_bytes n' (v / 256)
  end.
Fixpoint from_le_bytes (bs : list Z) : Z :=
  match bs with
  | [] => 0
  | b :: bs' => b + 256 * from_le_bytes bs'
  end.

(** ** Bytes and text *)

(** The bytes of a string, and the string of some bytes. *)
Definition bytes_of (s : string) : list Z := map code (String.list_ascii_of_string s).
Definition string_of (bs : list Z) : string :=
  String.string_of_list_ascii (map (fun b => ascii_of_N (Z.to_N b)) bs).

Lemma string_of_bytes s : string_of (bytes_of s) = s.
Proof.
  unfold string_of, bytes_of. rewrite map_map, (map_ext _ (fun c => c)), map_id.
  - apply String.string_of_list_ascii_of_string.
  - intros c. unfold code. by rewrite N2Z.id, ascii_N_embedding.
Qed.

Definition cont (b : Z) : bool := (0x80 <=? b) && (b <=? 0xBF).

(** The range of the byte that follows a leading byte, and how many
    continuation bytes come after that one. *)
Definition utf8_lead (b : Z) : option (Z * Z * nat) :=
  if (0xC2 <=? b) && (b <=? 0xDF) then Some (0x80, 0xBF, 0%nat)
  else if b =? 0xE0 then Some (0xA0, 0xBF, 1%nat)
  else if (0xE1 <=? b) && (b <=? 0xEC) || (b =? 0xEE) || (b =? 0xEF) then Some (0x80, 0xBF, 1%nat)
  else if b =? 0xED then Some (0x80, 0x9F, 1%nat)
  else if b =? 0xF0 then Some (0x90, 0xBF, 2%nat)
  else if (0xF1 <=? b) && (b <=? 0xF3) then Some (0x80, 0xBF, 2%nat)
  else if b =? 0xF4 then Some (0x80, 0x8F, 2%nat)
  else None.

(** Where validation stops: the number of valid bytes and, unless the input
    ended too early, the length of the offending sequence. [expect] is what the
    current character still needs: the range of the next byte and the number of
    bytes after it; [seen] counts the bytes of the current character. *)
Fixpoint utf8_check (valid : nat) (seen : nat) (expect : option (Z * Z * nat)) (bs : list Z)
    : option (nat * option nat) :=
  match expect, bs with
  | None, [] => None
  | Some _, [] => Some (valid, None)
  | None, b :: bs =>
      if b <? 0x80 then utf8_check (S valid) 0 None bs
      else
        match utf8_lead b with
        | None => Some (valid, Some 1%nat)
        | Some e => utf8_check valid 1 (Some e) bs
        end
  | Some (lo, hi, more), b :: bs =>
      if (lo <=? b) && (b <=? hi) then
        match more with
        | O => utf8_check (valid + seen + 1) 0 None bs
        | S more => utf8_check valid (S seen) (Some (0x80, 0xBF, more)) bs
        end
      else Some (valid, Some seen)
  end.

Definition utf8_valid (bs : list Z) : bool :=
  match utf8_check 0 0 None bs with None => true | Some _ => false end.

(** [std::str::from_utf8], with the [Debug] text of its error. *)
Definition from_utf8 (bs : list Z) : result string string :=
  match utf8_check 0 0 None bs with
  | None => Ok (string_of bs)
  | Some (valid_up_to, error_len) =>
      Err ("Utf8Error { valid_up_to: " +:+ show_u (Z.of_nat valid_up_to) +:+ ", error_len: " +:+
           match error_len with
           | Some n => "Some(" +:+ show_u (Z.of_nat n) +:+ ")"
           | None => "None"
           end +:+ " }")%string
  end.

Lemma from_utf8_ok text : utf8_valid (bytes_of text) = true -> from_utf8 (bytes_of text) = Ok text.
Proof.
  unfold utf8_valid, from_utf8. destruct (utf8_check _ _ _ _); [done|]. by rewrite string_of_bytes.
Qed.

(** ** Lemmas *)

Lemma le_bytes_roundtrip n v :
  0 <= v < 256 ^ Z.of_nat n -> from_le_bytes (to_le_bytes n v) = v.
Proof.
  revert v; induction n as [|n IH]; intros v Hv; simpl.
  - change (256 ^ Z.of_nat 0) with 1 in Hv. lia.
  - rewrite Nat2Z.inj_succ, Z.pow_succ_r in Hv by lia.
    rewrite IH.
    + pose proof (Z.div_mod v 256). lia.
    + split; [apply Z.div_pos; lia | apply Z.div_lt_upper_bound; lia].
Qed.

Lemma length_to_le_bytes n v : length (to_le_bytes n v) = n.
Proof. revert v; induction n; intros; simpl; auto. Qed.

Lemma code_ascii_of_N n : (n < 256)%N -> code (ascii_of_N n) = Z.of_N n.
Proof. intros. unfold code. by rewrite N_ascii_embedding. Qed.

(** Case analysis over the sixteen digit values. *)
Lemma digit_cases (P : Z -> Prop) d :
  0 <= d < 16 -> Forall P (map Z.of_nat (seq 0 16)) -> P d.
Proof.
  intros Hd HP. rewrite Forall_forall in HP. apply HP.
  apply list_elem_of_In, in_map_iff. exists (Z.to_nat d).
  split; [lia|]. apply in_seq. lia.
Qed.

Lemma digit_val_digit_char upper d :
  0 <= d < 16 -> digit_val (digit_char upper d) = Some d.
Proof. intros Hd. pattern d. apply digit_cases; [done|]. destruct upper; repeat constructor. Qed.

Lemma to_digit_digit_char upper radix d :
  2 <= radix <= 16 -> 0 <= d < radix -> to_digit radix (digit_char upper d) = Some d.
Proof.
  intros Hr Hd. unfold to_digit. rewrite digit_val_digit_char by lia.
  by rewrite (proj2 (Z.ltb_lt d radix)) by lia.
Qed.

Lemma digit_char_not_sign upper d :
  0 <= d < 16 -> Ascii.eqb (digit_char upper d) "+" = false /\
                 Ascii.eqb (digit_char upper d) "-" = false.
Proof. intros Hd. pattern d. apply digit_cases; [done|].
  destruct upper; repeat constructor. Qed.

Section ShowParse.
Context (upper : bool) (radix max : Z) (Hradix : 2 <= radix <= 16).

(** Parsing what [show_go] prints continues from the printed value. *)
Lemma parse_show_go fuel n acc :
  0 <= n <= max -> n < radix ^ Z.of_nat fuel -> (0 < fuel)%nat ->
  parse_digits radix max 0 (show_go upper fuel radix n acc) = parse_digits radix max n acc.
Proof.
  revert n acc; induction fuel as [|f IH]; intros n acc Hn Hf Hpos; [lia|].
  assert (Hmod : 0 <= n mod radix < radix) by (apply Z.mod_pos_bound; lia).
  pose proof (Z.div_mod n radix ltac:(lia)) as Hdm.
  assert (Hdiv : 0 <= n / radix) by (apply Z.div_pos; lia).
  cbn [show_go]. destruct (Z.ltb_spec n radix) as [Hlt|Hge].
  - cbn [parse_digits]. rewrite to_digit_digit_char by lia.
    rewrite Z.mod_small by lia.
    rewrite (proj2 (Z.ltb_ge max (0 * radix))), (proj2 (Z.ltb_ge max (0 * radix + n))) by lia.
    f_equal; lia.
  - rewrite Nat2Z.inj_succ, Z.pow_succ_r in Hf by lia.
    rewrite IH.
    + cbn [parse_digits]. rewrite to_digit_digit_char by lia.
      rewrite (proj2 (Z.ltb_ge max _)) by nia. rewrite (proj2 (Z.ltb_ge max _)) by nia.
      f_equal; lia.
    + nia.
    + apply Z.div_lt_upper_bound; lia.
    + destruct f; [|lia]. change (radix ^ Z.of_nat 0) with 1 in Hf. lia.
Qed.

Lemma fuel_enough n : 0 <= n -> n < radix ^ Z.of_nat (S (Z.to_nat (Z.log2 n))).
Proof.
  intros Hn. pose proof (Z.log2_nonneg n).
  rewrite Nat2Z.inj_succ, Z2Nat.id by lia.
  apply Z.lt_le_trans with (2 ^ Z.succ (Z.log2 n)).
  - destruct (Z.eq_dec n 0) as [->|]; [done|]. apply Z.log2_spec. lia.
  - apply Z.pow_le_mono_l. lia.
Qed.

Lemma show_radix_nonempty n :
  0 <= n -> exists d s, 0 <= d < radix /\ show_radix upper radix n = String (digit_char upper d) s.
Proof.
  intros Hn. unfold show_radix.
  assert (forall fuel m acc, 0 <= m -> m < radix ^ Z.of_nat fuel -> (0 < fuel)%nat ->
    exists d s, 0 <= d < radix /\ show_go upper fuel radix m acc = String (digit_char upper d) s) as H.
  { induction fuel as [|f IH]; intros m acc Hm Hlt Hpos; [lia|]. cbn [show_go].
    assert (0 <= m mod radix < radix) by (apply Z.mod_pos_bound; lia).
    destruct (Z.ltb_spec m radix); [eauto|].
    rewrite Nat2Z.inj_succ, Z.pow_succ_r in Hlt by lia.
    apply IH; [apply Z.div_pos; lia | apply Z.div_lt_upper_bound; lia |].
    destruct f; [|lia]. change (radix ^ Z.of_nat 0) with 1 in Hlt. lia. }
  apply H; [done | by apply fuel_enough | lia].
Qed.

(** Printing an integer and parsing it back is the identity. *)
Lemma from_str_radix_show n :
  0 <= n <= max -> from_str_radix radix max (show_radix upper radix n) = Ok n.
Proof.
  intros Hn.
  assert (Hp : parse_digits radix max 0 (show_radix upper radix n) = Ok n).
  { unfold show_radix. rewrite parse_show_go; [done | done | apply fuel_enough; lia | lia]. }
  destruct (show_radix_nonempty n ltac:(lia)) as (d & s & Hd & E).
  rewrite E in *. destruct (digit_char_not_sign upper d ltac:(lia)) as [H1 H2].
  unfold from_str_radix. rewrite H1, H2. destruct s; simpl orb; exact Hp.
Qed.
End ShowParse.

Lemma show_radix_inj upper radix m n :
  2 <= radix <= 16 -> 0 <= m -> 0 <= n ->
  show_radix upper radix m = show_radix upper radix n -> m = n.
Proof.
  intros Hr Hm Hn E.
  pose proof (from_str_radix_show upper radix (Z.max m n) Hr m ltac:(lia)) as H1.
  pose proof (from_str_radix_show upper radix (Z.max m n) Hr n ltac:(lia)) as H2.
  rewrite E in H1. congruence.
Qed.

(** *** String lemmas *)

Lemma str_app_assoc s1 s2 s3 : ((s1 +:+ s2) +:+ s3 = s1 +:+ (s2 +:+ s3))%string.
Proof. induction s1; simpl; congruence. Qed.

Lemma str_app_nil_r s : (s +:+ "" = s)%string.
Proof. induction s; simpl; congruence. Qed.

Lemma str_app_inj_l s t1 t2 : (s +:+ t1 = s +:+ t2)%string -> t1 = t2.
Proof. induction s; simpl; intros; [done|]. simplify_eq; auto. Qed.

Lemma str_rev_app_spec s acc : str_rev_app s acc = (str_rev s +:+ acc)%string.
Proof.
  unfold str_rev. revert acc; induction s as [|c s IH]; intros acc; simpl; [done|].
  rewrite (IH (String c acc)), (IH (String c "")). by rewrite str_app_assoc.
Qed.

Lemma str_rev_cons c s : str_rev (String c s) = (str_rev s +:+ String c "")%string.
Proof. unfold str_rev at 1. simpl. by rewrite str_rev_app_spec. Qed.

Lemma str_rev_append s t : str_rev (s +:+ t)%string = (str_rev t +:+ str_rev s)%string.
Proof.
  induction s as [|c s IH]; simpl.
  - by rewrite str_app_nil_r.
  - rewrite !str_rev_cons, IH. by rewrite str_app_assoc.
Qed.

Lemma str_rev_involutive s : str_rev (str_rev s) = s.
Proof.
  induction s as [|c s IH]; [done|].
  rewrite str_rev_cons, str_rev_append, IH. done.
Qed.

Lemma str_rev_inj s t : str_rev s = str_rev t -> s = t.
Proof. intros E. by rewrite <- (str_rev_involutive s), E, str_rev_involutive. Qed.

Lemma starts_with_app p s : starts_with p (p +:+ s)%string = true.
Proof. induction p; simpl; [done|]. by rewrite Ascii.eqb_refl. Qed.

Lemma str_forall_app p s t : str_forall p (s +:+ t)%string = str_forall p s && str_forall p t.
Proof. induction s; simpl; [done|]. rewrite IHs. by rewrite andb_assoc. Qed.

Lemma str_forall_rev p s : str_forall p (str_rev s) = str_forall p s.
Proof.
  induction s as [|c s IH]; [done|].
  rewrite str_rev_cons, str_forall_app, IH. simpl. rewrite andb_true_r. apply andb_comm.
Qed.

Lemma str_filter_forall p s : str_forall p (str_filter p s) = true.
Proof. induction s as [|c s IH]; simpl; [done|]. destruct (p c) eqn:E; simpl; by rewrite ?E. Qed.

(** A pattern whose head does not occur in the string is not found in it. *)
Lemma split_str_go_absent c pat s :
  str_forall (fun a => negb (Ascii.eqb c a)) s = true ->
  split_str_go (String c pat) 0 s = [s].
Proof.
  induction s as [|a s IH]; [done|]. intros H. cbn [str_forall] in H.
  apply andb_true_iff in H as [H1 H2]. apply negb_true_iff in H1.
  cbn [split_str_go starts_with]. rewrite H1. cbn [andb]. by rewrite IH.
Qed.

(** Up to the first occurrence of a pattern whose head is not in the prefix. *)
Lemma split_str_go_skip pat s t :
  split_str_go pat (String.length s) (s +:+ t)%string = split_str_go pat 0 t.
Proof. induction s; simpl; auto. Qed.

Lemma split_str_go_first c pat s t :
  str_forall (fun a => negb (Ascii.eqb c a)) s = true ->
  split_str_go (String c pat) 0 (s +:+ String c pat +:+ t)%string =
  s :: split_str_go (String c pat) 0 t.
Proof.
  induction s as [|a s IH]; intros H.
  - simpl String.append. cbn [split_str_go starts_with].
    rewrite Ascii.eqb_refl, starts_with_app. cbn [andb String.length].
    rewrite Nat.sub_succ, Nat.sub_0_r. by rewrite split_str_go_skip.
  - cbn [str_forall] in H. apply andb_true_iff in H as [H1 H2]. apply negb_true_iff in H1.
    cbn [String.append split_str_go starts_with]. rewrite H1. cbn [andb].
    cbn [String.append] in IH. by rewrite IH.
Qed.
