(* ===== verification/Failure.v ===== *)
(** * Errors of the CLI and of the enclave process (src/src/common/mod.rs)

    The error enumeration, the failure record that is built up while an error
    travels through the calls, the command and reply types of the enclave
    process, and the conversion of an error into a process exit status. *)
From S2P Require Import Prelude.
From S2P Require Import RustStd.
From stdpp Require Import base list strings.
From Stdlib Require Import ZArith Lia.
Local Open Scope Z_scope.

(* src/src/common/mod.rs NitroCliErrorEnum *)
Inductive NitroCliErrorEnum : Type :=
| UnspecifiedError
| MissingArgument
| ConflictingArgument
| InvalidArgument
| SocketPairCreationFailure
| ProcessSpawnFailure
| DaemonizeProcessFailure
| ReadFromDiskFailure
| UnusableConnectionError
| SocketCloseError
| SocketConnectTimeoutError
| SocketError
| EpollError
| InotifyError
| InvalidCommand
| LockAcquireFailure
| ThreadJoinFailure
| SerdeError
| FilePermissionsError
| FileOperationFailure
| InvalidCpuConfiguration
| NoSuchCpuAvailableInPool
| InsufficientCpus
| MalformedCpuId
| CpuError
| NoSuchHugepageFlag
| InsufficientMemoryRequested
| InsufficientMemoryAvailable
| InvalidEnclaveFd
| IoctlFailure
| IoctlImageLoadInfoFailure
| IoctlSetMemoryRegionFailure
| IoctlAddVcpuFailure
| IoctlEnclaveStartFailure
| MemoryOverflow
| EifParsingError
| EnclaveBootFailure
| EnclaveEventWaitError
| EnclaveProcessCommandNotExecuted
| EnclaveProcessConnectionFailure
| SocketPathNotFound
| EnclaveProcessSendReplyFailure
| EnclaveMmapError
| EnclaveMunmapError
| EnclaveConsoleConnectionFailure
| EnclaveConsoleReadError
| EnclaveConsoleWriteOutputError
| IntegerParsingError
| EifBuildingError
| DockerImageBuildError
| DockerImagePullError
| ArtifactsPathNotSet
| BlobsPathNotSet
| ClockSkewError
| SignalMaskingError
| SignalUnmaskingError
| LoggerError
| HasherError
| EnclaveNamingError
| EIFSignatureCheckerError.

#[export] Instance NitroCliErrorEnum_eq_dec : EqDecision NitroCliErrorEnum.
Proof. solve_decision. Defined.

(** The enumeration in declaration order. *)
Definition all_errors : list NitroCliErrorEnum :=
  [UnspecifiedError; MissingArgument; ConflictingArgument;
   InvalidArgument; SocketPairCreationFailure; ProcessSpawnFailure;
   DaemonizeProcessFailure; ReadFromDiskFailure; UnusableConnectionError;
   SocketCloseError; SocketConnectTimeoutError; SocketError;
   EpollError; InotifyError; InvalidCommand;
   LockAcquireFailure; ThreadJoinFailure; SerdeError;
   FilePermissionsError; FileOperationFailure; InvalidCpuConfiguration;
   NoSuchCpuAvailableInPool; InsufficientCpus; MalformedCpuId;
   CpuError; NoSuchHugepageFlag; InsufficientMemoryRequested;
   InsufficientMemoryAvailable; InvalidEnclaveFd; IoctlFailure;
   IoctlImageLoadInfoFailure; IoctlSetMemoryRegionFailure; IoctlAddVcpuFailure;
   IoctlEnclaveStartFailure; MemoryOverflow; EifParsingError;
   EnclaveBootFailure; EnclaveEventWaitError; EnclaveProcessCommandNotExecuted;
   EnclaveProcessConnectionFailure; SocketPathNotFound; EnclaveProcessSendReplyFailure;
   EnclaveMmapError; EnclaveMunmapError; EnclaveConsoleConnectionFailure;
   EnclaveConsoleReadError; EnclaveConsoleWriteOutputError; IntegerParsingError;
   EifBuildingError; DockerImageBuildError; DockerImagePullError;
   ArtifactsPathNotSet; BlobsPathNotSet; ClockSkewError;
   SignalMaskingError; SignalUnmaskingError; LoggerError;
   HasherError; EnclaveNamingError; EIFSignatureCheckerError].

(** The discriminant of a variant: [e as i32]. *)
(* src/src/common/mod.rs NitroCliErrorEnum *)
Definition error_discriminant (e : NitroCliErrorEnum) : Z :=
  match e with
  | UnspecifiedError => 0
  | MissingArgument => 1
  | ConflictingArgument => 2
  | InvalidArgument => 3
  | SocketPairCreationFailure => 4
  | ProcessSpawnFailure => 5
  | DaemonizeProcessFailure => 6
  | ReadFromDiskFailure => 7
  | UnusableConnectionError => 8
  | SocketCloseError => 9
  | SocketConnectTimeoutError => 10
  | SocketError => 11
  | EpollError => 12
  | InotifyError => 13
  | InvalidCommand => 14
  | LockAcquireFailure => 15
  | ThreadJoinFailure => 16
  | SerdeError => 17
  | FilePermissionsError => 18
  | FileOperationFailure => 19
  | InvalidCpuConfiguration => 20
  | NoSuchCpuAvailableInPool => 21
  | InsufficientCpus => 22
  | MalformedCpuId => 23
  | CpuError => 24
  | NoSuchHugepageFlag => 25
  | InsufficientMemoryRequested => 26
  | InsufficientMemoryAvailable => 27
  | InvalidEnclaveFd => 28
  | IoctlFailure => 29
  | IoctlImageLoadInfoFailure => 30
  | IoctlSetMemoryRegionFailure => 31
  | IoctlAddVcpuFailure => 32
  | IoctlEnclaveStartFailure => 33
  | MemoryOverflow => 34
  | EifParsingError => 35
  | EnclaveBootFailure => 36
  | EnclaveEventWaitError => 37
  | EnclaveProcessCommandNotExecuted => 38
  | EnclaveProcessConnectionFailure => 39
  | SocketPathNotFound => 40
  | EnclaveProcessSendReplyFailure => 41
  | EnclaveMmapError => 42
  | EnclaveMunmapError => 43
  | EnclaveConsoleConnectionFailure => 44
  | EnclaveConsoleReadError => 45
  | EnclaveConsoleWriteOutputError => 46
  | IntegerParsingError => 47
  | EifBuildingError => 48
  | DockerImageBuildError => 49
  | DockerImagePullError => 50
  | ArtifactsPathNotSet => 51
  | BlobsPathNotSet => 52
  | ClockSkewError => 53
  | SignalMaskingError => 54
  | SignalUnmaskingError => 55
  | LoggerError => 56
  | HasherError => 57
  | EnclaveNamingError => 58
  | EIFSignatureCheckerError => 59
  end.

(* src/src/common/mod.rs EnclaveProcessCommandType *)
Inductive EnclaveProcessCommandType : Type :=
| Run
| Terminate
| TerminateComplete
| Describe
| GetEnclaveCID
| GetEnclaveFlags
| GetEnclaveName
| GetIDbyName
| ConnectionListenerStop
| NotPermitted.

#[export] Instance EnclaveProcessCommandType_eq_dec : EqDecision EnclaveProcessCommandType.
Proof. solve_decision. Defined.

(* src/src/common/mod.rs EnclaveProcessReply *)
Inductive EnclaveProcessReply : Type :=
| StdOutMessage (msg : string)
| StdErrMessage (msg : string)
| Status (code : Z).

(* src/src/common/mod.rs NitroCliFailure *)
Record NitroCliFailure : Type := mk_failure {
  action : string;
  subactions : list string;
  error_code : NitroCliErrorEnum;
  file : string;
  line : Z;
  additional_info : list string;
}.

(* src/src/common/mod.rs NitroCliResult *)
Definition NitroCliResult (A : Type) : Type := result NitroCliFailure A.

(** ** The builder methods of [NitroCliFailure] *)

(* src/src/common/mod.rs NitroCliFailure::new *)
Definition new_failure : NitroCliFailure :=
  mk_failure "" [] UnspecifiedError "" 0 [].

(* src/src/common/mod.rs NitroCliFailure::set_action *)
Definition set_action (a : string) (f : NitroCliFailure) : NitroCliFailure :=
  mk_failure a (subactions f) (error_code f) (file f) (line f) (additional_info f).

(* src/src/common/mod.rs NitroCliFailure::add_subaction *)
Definition add_subaction (s : string) (f : NitroCliFailure) : NitroCliFailure :=
  mk_failure (action f) (subactions f ++ [s]) (error_code f) (file f) (line f) (additional_info f).

(* src/src/common/mod.rs NitroCliFailure::set_error_code *)
Definition set_error_code (c : NitroCliErrorEnum) (f : NitroCliFailure) : NitroCliFailure :=
  mk_failure (action f) (subactions f) c (file f) (line f) (additional_info f).

(* src/src/common/mod.rs NitroCliFailure::set_file *)
Definition set_file (p : string) (f : NitroCliFailure) : NitroCliFailure :=
  mk_failure (action f) (subactions f) (error_code f) p (line f) (additional_info f).

(* src/src/common/mod.rs NitroCliFailure::set_line *)
Definition set_line (l : Z) (f : NitroCliFailure) : NitroCliFailure :=
  mk_failure (action f) (subactions f) (error_code f) (file f) l (additional_info f).

(* src/src/common/mod.rs NitroCliFailure::set_file_and_line *)
Definition set_file_and_line (p : string) (l : Z) (f : NitroCliFailure) : NitroCliFailure :=
  mk_failure (action f) (subactions f) (error_code f) p l (additional_info f).

(* src/src/common/mod.rs NitroCliFailure::add_info *)
Definition add_info (info : list string) (f : NitroCliFailure) : NitroCliFailure :=
  mk_failure (action f) (subactions f) (error_code f) (file f) (line f)
    (fold_left (fun acc i => acc ++ [i]) info (additional_info f)).

(** The macro; [at_file] and [at_line] are what [file!()] and [line!()] expand
    to at the call. *)
(* src/src/common/mod.rs:299-307 new_nitro_cli_failure *)
Definition new_nitro_cli_failure (subaction : string) (code : NitroCliErrorEnum)
    (at_file : string) (at_line : Z) : NitroCliFailure :=
  set_file_and_line at_file at_line (set_error_code code (add_subaction subaction new_failure)).

(** Constants of the module. *)
(* src/src/common/mod.rs VMADDR_CID_PARENT *)
Definition VMADDR_CID_PARENT : Z := 3.
(* src/src/common/mod.rs ENCLAVE_READY_VSOCK_PORT *)
Definition ENCLAVE_READY_VSOCK_PORT : Z := 9000.
(* src/src/common/mod.rs ENCLAVE_PROC_WAIT_TIMEOUT_MSEC *)
Definition ENCLAVE_PROC_WAIT_TIMEOUT_MSEC : Z := 3000.
(* src/src/common/mod.rs MSG_ENCLAVE_CONFIRM *)
Definition MSG_ENCLAVE_CONFIRM : Z := 0xEEC0.

(** ** Properties *)

Lemma all_errors_complete e : e ∈ all_errors.
Proof. apply list_elem_of_In. destruct e; simpl; tauto. Qed.

Lemma error_discriminant_bounds e : 0 <= error_discriminant e < 60.
Proof. destruct e; simpl; lia. Qed.

Lemma all_errors_discriminants :
  map error_discriminant all_errors = map Z.of_nat (seq 0 60).
Proof. reflexivity. Qed.

Lemma error_discriminant_inj e1 e2 :
  error_discriminant e1 = error_discriminant e2 -> e1 = e2.
Proof.
  intros E.
  assert (forall e, all_errors !! Z.to_nat (error_discriminant e) = Some e) as H
    by (intros e; destruct e; reflexivity).
  pose proof (H e1) as H1. rewrite E, (H e2) in H1. congruence.
Qed.

Lemma add_info_additional info f :
  additional_info (add_info info f) = additional_info f ++ info.
Proof.
  unfold add_info; simpl. generalize (additional_info f).
  induction info as [|i info IH]; intros l; simpl; [by rewrite app_nil_r|].
  rewrite IH, <- app_assoc. done.
Qed.
