(* ===== verification/DocumentErrors.v ===== *)
(** * Documented error messages (src/src/common/document_errors.rs)

    The code of each error, the message shown with a failure, the backtrace
    text, and the texts of [nitro-cli explain]; with the assembly of the final
    message of src/src/common/mod.rs. *)
From S2P Require Import Prelude.
From S2P Require Import RustStd.
From S2P Require Import Failure.
From stdpp Require Import base list strings.
From Stdlib Require Import ZArith Lia Ascii.
Local Open Scope string_scope.
Local Open Scope nat_scope.

(* src/src/common/document_errors.rs:9-71 ERROR_CODES *)
Definition ERROR_CODES : list (NitroCliErrorEnum * string) :=
  [(UnspecifiedError, "E00");
   (MissingArgument, "E01");
   (ConflictingArgument, "E02");
   (InvalidArgument, "E03");
   (SocketPairCreationFailure, "E04");
   (ProcessSpawnFailure, "E05");
   (DaemonizeProcessFailure, "E06");
   (ReadFromDiskFailure, "E07");
   (UnusableConnectionError, "E08");
   (SocketCloseError, "E09");
   (SocketConnectTimeoutError, "E10");
   (SocketError, "E11");
   (EpollError, "E12");
   (InotifyError, "E13");
   (InvalidCommand, "E14");
   (LockAcquireFailure, "E15");
   (ThreadJoinFailure, "E16");
   (SerdeError, "E17");
   (FilePermissionsError, "E18");
   (FileOperationFailure, "E19");
   (InvalidCpuConfiguration, "E20");
   (NoSuchCpuAvailableInPool, "E21");
   (InsufficientCpus, "E22");
   (MalformedCpuId, "E23");
   (CpuError, "E24");
   (NoSuchHugepageFlag, "E25");
   (InsufficientMemoryRequested, "E26");
   (InsufficientMemoryAvailable, "E27");
   (InvalidEnclaveFd, "E28");
   (IoctlFailure, "E29");
   (IoctlImageLoadInfoFailure, "E30");
   (IoctlSetMemoryRegionFailure, "E31");
   (IoctlAddVcpuFailure, "E32");
   (IoctlEnclaveStartFailure, "E33");
   (MemoryOverflow, "E34");
   (EifParsingError, "E35");
   (EnclaveBootFailure, "E36");
   (EnclaveEventWaitError, "E37");
   (EnclaveProcessCommandNotExecuted, "E38");
   (EnclaveProcessConnectionFailure, "E39");
   (SocketPathNotFound, "E40");
   (EnclaveProcessSendReplyFailure, "E41");
   (EnclaveMmapError, "E42");
   (EnclaveMunmapError, "E43");
   (EnclaveConsoleConnectionFailure, "E44");
   (EnclaveConsoleReadError, "E45");
   (EnclaveConsoleWriteOutputError, "E46");
   (IntegerParsingError, "E47");
   (EifBuildingError, "E48");
   (DockerImageBuildError, "E49");
   (DockerImagePullError, "E50");
   (ArtifactsPathNotSet, "E51");
   (BlobsPathNotSet, "E52");
   (ClockSkewError, "E53");
   (SignalMaskingError, "E54");
   (SignalUnmaskingError, "E55");
   (LoggerError, "E56");
   (HasherError, "E57");
   (EnclaveNamingError, "E58");
   (EIFSignatureCheckerError, "E59")].

Fixpoint assoc_get {K A} `{EqDecision K} (k : K) (l : list (K * A)) : option A :=
  match l with
  | [] => None
  | (k', v) :: l' => if decide (k = k') then Some v else assoc_get k l'
  end.

(** [ERROR_CODES.get(&e).unwrap_or(&"E00")] *)
(* src/src/common/mod.rs:344-347 construct_error_message *)
Definition error_code_str (e : NitroCliErrorEnum) : string :=
  default "E00" (assoc_get e ERROR_CODES).

Definition info_placeholder : string := "MISSING_INFO".

(** [additional_info.get(i).unwrap_or(&info_placeholder)] *)
Definition arg (info : list string) (i : nat) : string := default info_placeholder (info !! i).

(** The arms of the [match] of [get_detailed_info]. *)
(* src/src/common/document_errors.rs:75-226 get_detailed_info *)
Definition DETAILED_INFO_1 : list (string * (list string -> string)) :=
  [("E00", fun info =>
   "Unspecified error. This is used as a catch-all error and should not be used in the code.");
   ("E01", fun info =>
   "Missing mandatory argument. User did not provide the `" +:+ arg info 0 +:+ "` argument.");
   ("E02", fun info =>
   "Conflicting arguments. User provided both `" +:+ arg info 0 +:+ "` and `" +:+ arg info 1 +:+ "`.");
   ("E03", fun info =>
   "Invalid argument provided. The parameter `" +:+ arg info 0 +:+ "` is not a valid integer (`" +:+ arg info 1 +:+ "`)");
   ("E04", fun info =>
   "Socket pair creation failure. Such error appears when the Nitro CLI process attempts to open a stream pair in order to send a command to the enclave process but the stream initialization fails.");
   ("E05", fun info =>
   "Process spawn failure. Such error appears when the main Nitro CLI process fails to spawn the enclave process, in order to complete a `run-enclave` command.");
   ("E06", fun info =>
   "Daemonize process failure. Such error appears when the system fails to daemonize a newly spawned enclave process.");
   ("E07", fun info =>
   "Read from disk failure. Such error appears when the Nitro CLI process fails to read the content of the enclave sockets directory (usually '/run/nitro_enclaves/') in order to perform a `describe-enclave` operation. Check that the directory exists and it has proper permissions, or run the Nitro Enclaves configuration script in order to (re)configure the environment.");
   ("E08", fun info =>
   "Unusable connection error. Such error appears when the Nitro CLI process attempts to open a connection to a non-existing or previously closed enclave descriptor");
   ("E09", fun info =>
   "Socket close error. Such error appears when the system fails to successfully close a communication channel.");
   ("E10", fun info =>
   "Socket connect set timeout error. Such error appears when the system fails to configure a specific timeout for a given socket. May arise when trying to connect to an enclave's console.");
   ("E11", fun info =>
   "Socket error. This is used as an error for catching any other socket operation errors not covered by previous custom errors.");
   ("E12", fun info =>
   "Epoll error. Such error appears, for instance, when the system fails to register a specific enclave descriptor with epoll in order to monitor events for it.");
   ("E13", fun info =>
   "Inotify error. Such error appears when the system fails to configure a socket for monitorization.");
   ("E14", fun info =>
   "Invalid command. Such error appears when an unknown command and / or unknown arguments are sent through a socket.");
   ("E15", fun info =>
   "Lock acquire failure. Such error appears when the system fails to obtain the lock for an object with concurrent access, such as a structure containing information about a running enclave.");
   ("E16", fun info =>
   "Thread join failure. Such error appears when the system fails to successfully join a thread, after it finished executing.");
   ("E17", fun info =>
   "Serde error. Such error appears when serializing / deserializing a command or response fails.");
   ("E18", fun info =>
   "File permissions error. Such error appears when a user other than the owner of the logging file (usually '/var/log/nitro_enclaves/nitro_enclaves.log') attempts to change the file permissions");
   ("E19", fun info =>
   "File operation failure. Such error appears when the system fails to perform the requested file operations, such as opening the EIF file when launching an enclave, or seeking to a specific offset in the EIF file, or writing to the log file." +:+
     (if 2 <=? length info then "
File: '" +:+ arg info 0 +:+ "', failing operation: '" +:+ arg info 1 +:+ "'." else ""));
   ("E20", fun info =>
   "Invalid CPU configuration. User provided `" +:+ arg info 0 +:+ "` contains same CPU(s) (CPU(s) " +:+ arg info 1 +:+ ") multiple times.");
   ("E21", fun info =>
   "No such CPU available in the pool. User provided `" +:+ arg info 0 +:+ "` contains CPU " +:+ arg info 1 +:+ ", which is not available in the pool.
You can add a specific CPU to the CPU pool by editing the `cpu_pool` value from '/etc/nitro_enclaves/allocator.yaml' and then enable the nitro-enclaves-allocator.service.");
   ("E22", fun info =>
   "Insufficient CPUs available in the pool. User provided `" +:+ arg info 0 +:+ "` is " +:+ arg info 1 +:+ ", which is more than the configured CPU pool size.
You can increase the CPU pool size by editing the `cpu_count` value from '/etc/nitro_enclaves/allocator.yaml' and then enable the nitro-enclaves-allocator.service.");
   ("E23", fun info =>
   "Malformed CPU ID error. Such error appears when a `lscpu` line is malformed and reports an invalid online CPUs list.");
   ("E24", fun info =>
   "CPU error. Such error appears when a CPU line interval is invalid (for instance, 0-3-7)");
   ("E25", fun info =>
   "No such hugepage flag error. Such error appears when the enclave process attempts to use an invalid hugepage size (size other than the known hugepage sizes) for initializing the enclave memory.");
   ("E26", fun info =>
   if 3 <=? length info then
     "Insufficient memory requested. User provided `" +:+ arg info 0 +:+ "` is " +:+ arg info 1 +:+ " MB, but based on the EIF file size, the minimum memory should be " +:+ arg info 2 +:+ " MB"
   else
     "Insufficient memory requested. User provided `" +:+ arg info 0 +:+ "` is " +:+ arg info 1 +:+ " MB, and memory should be greater than 0 MB.")].

(* src/src/common/document_errors.rs:227-335 get_detailed_info *)
Definition DETAILED_INFO_2 : list (string * (list string -> string)) :=
  [("E27", fun info =>
   "Insufficient memory available. User provided `" +:+ arg info 0 +:+ "` is " +:+ arg info 1 +:+ " MB, which is more than the available hugepage memory.
You can increase the available memory by editing the `memory_mib` value from '/etc/nitro_enclaves/allocator.yaml' and then restart the nitro-enclaves-allocator.service.");
   ("E28", fun info =>
   "Invalid enclave descriptor. Such error appears when the NE_CREATE_VM ioctl returns with an error.");
   ("E29", fun info =>
   "Ioctl failure. Such error is used as a general ioctl error and appears whenever an ioctl fails. In this case, the error backtrace provides detailed information on what specifically failed during the ioctl.");
   ("E30", fun info =>
   "Ioctl image get load info failure. Such error appears when the ioctl used for getting the memory load information fails. In this case, the error backtrace provides detailed information on what specifically failed during the ioctl.");
   ("E31", fun info =>
   "Ioctl set memory region failure. Such error appears when the ioctl used for setting a given memory region fails. In this case, the error backtrace provides detailed information on what specifically failed during the ioctl.");
   ("E32", fun info =>
   "Ioctl add vCPU failure. Such error appears when the ioctl used for adding a vCPU fails. In this case, the error backtrace provides detailed information on what specifically failed during the ioctl.");
   ("E33", fun info =>
   "Ioctl start enclave failure. Such error appears when the ioctl used for starting an enclave fails. In this case, the error backtrace provides details information on what specifically failed during the ioctl.");
   ("E34", fun info =>
   "Memory overflow. Such error may appear during loading the EIF in the memory regions which will be conceded to the future enclave, if the regions offset plus the EIF file size exceeds the maximum address of the target platform.");
   ("E35", fun info =>
   "EIF file parsing error. Such errors appear when attempting to fill a memory region with a section of the EIF file, but reading the entire section fails. This might indicate that the required hugepages are not available.");
   ("E36", fun info =>
   "Enclave boot failure. Such error appears when attempting to receive the `ready` signal from a freshly booted enclave. It arises in several contexts, for instance, when the enclave is booted from an invalid EIF file and the enclave process immediately exits, failing to submit the `ready` signal. In this case, the error backtrace provides detailed information on what specifically failed during the enclave boot process.");
   ("E37", fun info =>
   "Enclave event wait error. Such error appears when monitoring an enclave descriptor for events fails.");
   ("E38", fun info =>
   "Enclave process command not executed error. Such error appears when at least one enclave fails to provide the description information.");
   ("E39", fun info =>
   "Enclave process connection failure. Such error appears when the enclave manager fails to connect to at least one enclave process for retrieving the description information.");
   ("E40", fun info =>
   "Socket path not found. Such error appears when the Nitro CLI process fails to build the corresponding socket path starting from a given enclave ID.");
   ("E41", fun info =>
   "Enclave process send reply failure. Such error appears when the enclave process fails to submit the status code to the Nitro CLI process after performing a run / describe / terminate command.");
   ("E42", fun info =>
   "Enclave mmap error. Such error appears when allocating the enclave memory fails.");
   ("E43", fun info =>
   "Enclave munmap error. Such error appears when unmapping the enclave memory fails.");
   ("E44", fun info =>
   "Enclave console connection failure. Such error appears when the Nitro CLI process fails to establish a connection to a running enclave's console.");
   ("E45", fun info =>
   "Enclave console read error. Such error appears when reading from a running enclave's console fails.");
   ("E46", fun info =>
   "Enclave console write output error. Such error appears when writing the information retrieved from a running enclave's console (to a given stream) fails.");
   ("E47", fun info =>
   "Integer parsing error. Such error appears when trying to connect to a running enclave's console, but the enclave CID cannot be parsed correctly.");
   ("E48", fun info =>
   "EIF building error. Such error appears when trying to build an EIF file. In this case, the error backtrace provides detailed information on the failure reason.");
   ("E49", fun info =>
   "Docker image build error. Such error appears when trying to build and EIF file, but building the corresponding docker image fails. In this case, the error backtrace provides detailed information on the failure reason.");
   ("E50", fun info =>
   "Docker image pull error. Such error appears when trying to build an EIF file, but pulling the corresponding docker image fails. In this case, the error backtrace provides detailed informatino on the failure reason.");
   ("E51", fun info =>
   "Artifacts path environment variable not set. Such error appears when trying to build an EIF file, but the artifacts path environment variable is not set.");
   ("E52", fun info =>
   "Blobs path environment variable not set. Such error appears when trying to build an EIF file, but the blobs path environment variable is not set.");
   ("E53", fun info =>
   "Clock skew error. Such error appears when continuously reading from a running enclave's console, but measuring the time elapsed between consecutive reads failed.");
   ("E54", fun info =>
   "Signal masking error. Such error appears if attempting to mask specific signals before creating an enclave process fails.");
   ("E55", fun info =>
   "Signal unmasking error. Such error appears if attempting to unmask specific signals after creating an enclave process fails.");
   ("E56", fun info =>
   "Logger error. Such error appears when attempting to initialize the underlying logging system fails.");
   ("E57", fun info =>
   "Hasher error. Such error appears when trying to initialize a hasher or write bytes to it, resulting in a IO error.");
   ("E58", fun info =>
   "Naming error. Such error appears when trying to perform an enclave operation using the enclave name and the name is invalid.");
   ("E59", fun info =>
   "EIF signature checker error. Such error appears when validation of the signing certificate fails.")].

(* src/src/common/document_errors.rs:336-341 get_detailed_info *)
Definition get_detailed_info (error_code_str : string) (additional_info : list string) : string :=
  "[ " +:+ error_code_str +:+ " ] " +:+
  match assoc_get error_code_str (DETAILED_INFO_1 ++ DETAILED_INFO_2) with
  | Some text => text additional_info
  | None => "No such error code " +:+ error_code_str
  end.

(* src/src/common/document_errors.rs construct_help_link *)
Definition construct_help_link (error_code_str : string) : string :=
  "https://docs.aws.amazon.com/enclaves/latest/user/cli-errors.html#" +:+ error_code_str.

Definition nl : string := String LF "".
Definition quote : string := String (ascii_of_nat 34) "".

(** [env!("CARGO_PKG_VERSION")] of Cargo.toml. *)
Definition CARGO_PKG_VERSION : string := "1.3.1".

(* src/src/common/document_errors.rs construct_backtrace *)
Definition construct_backtrace (f : NitroCliFailure) : string :=
  "  Action: " +:+ action f +:+ nl +:+
  "  Subactions:" +:+
     fold_left (fun acc x => acc +:+ nl +:+ "    " +:+ x) (rev (subactions f)) "" +:+ nl +:+
  "  Root error file: " +:+ file f +:+ nl +:+
  "  Root error line: " +:+ show_u (line f) +:+ nl +:+
  "  Version: " +:+ CARGO_PKG_VERSION.

(** The texts of [nitro-cli explain]. *)
(* src/src/common/document_errors.rs:367-451 explain_error *)
Definition EXPLAIN_1 : list (string * string) :=
  [("E00", "Unspecified error. This is used as a catch-all error and should not be used in the code.");
   ("E01", "Missing mandatory argument. Such error appears when the Nitro CLI is requested to perform an operation, but not all of the mandatory arguments were supplied.
	Example: `nitro-cli run-enclave --cpu-count 2 --eif-path /path/to/my/eif`. Note that in this case, the mandatory parameter `--memory` is missing a value.");
   ("E02", "CLI conflicting arguments. Such error appears when the Nitro CLI is supplied two contradicting arguments at the same time, such as `--cpu-count` and `--cpu-ids`.
In this case, only one of the parameters should be supplied.");
   ("E03", "Invalid argument provided. Such error appears when the type of at least one of the arguments provided to the Nitro CLI does not match the expected type of that parameter.
	Example: `nitro-cli run-enclave --cpu-count 1z --memory 80 --eif-path /path/to/my/eif`. In this case, `cpu-count` is not a valid integer value.");
   ("E04", "Socket pair creation failure. Such error apears when the Nitro CLI process attempts to open a stream pair in order to send a command to the enclave process, but the stream initialization fails.");
   ("E05", "Process spawn failure. Such error appears when the main Nitro CLI process failed to spawn the enclave process, in order to complete a `run-enclave` command.");
   ("E06", "Daemonize process failure. Such error appears when the system fails to daemonize the newly spawned enclave process.");
   ("E07", "Read from disk failure. Such error appears when the Nitro CLI process fails to read the content of the enclave sockets directory (usually '/run/nitro_enclaves/') in order to perform a `describe-enclave` operation. Check that the directory exists and it has proper permissions, or run the Nitro Enclaves configuration script in order to (re)configure the environment.");
   ("E08", "Unusable connection error. Such error appears when the Nitro CLI process attempts to open a connection to a non-existing or previously closed enclave descriptor");
   ("E09", "Socket close error. Such error appears when the system fails to successfully close a communication channel.");
   ("E10", "Socket connect set timeout error. Such error appears when the system fails to configure a specific timeout for a given socket. May arise when trying to connect to an enclave's console.");
   ("E11", "Socket error. This is used as an error for catching any other socket operation errors not covered by previous custom errors.");
   ("E12", "Epoll error. Such error appears, for instance, when the system fails to register a specific enclave descriptor with epoll in order to monitor events for it.");
   ("E13", "Inotify error. Such error appears when the system fails to configure a socket for monitorization.");
   ("E14", "Invalid command. Such error appears when an unknown command and / or unknown arguments are sent through a socket.");
   ("E15", "Lock acquire failure. Such error appears when the system fails to obtain the lock for an object with concurrent access, such as a structure containing information about a running enclave.");
   ("E16", "Thread join failure. Such error appears when the system fails to successfully join a thread, after it finished executing.");
   ("E17", "Serde error. Such error appears when serializing / deserializing a command or response fails.");
   ("E18", "File permissions error. Such error appears when a user other than the owner of the logging file (usually '/var/log/nitro_enclaves/nitro_enclaves.log') attempts to change the file permissions");
   ("E19", "File operation failure. Such error appears when the system fails to perform the requested file operations, such as opening the EIF file when launching an enclave, or seeking to a specific offset in the EIF file, or writing to the log file.");
   ("E20", "Invalid CPU configuration. Such error appears when the user supplies the same CPU ID multiple times.
	Example: `nitro-cli run-enclave --cpu-ids 1 1 --memory 80 --eif-path /path/to/my/eif`. In this case, CPU ID `1` has been selected twice.");
   ("E21", "No such CPU available in the pool. Such error appears when the user requests to run an enclave with at least one CPU ID which does not exist in the CPU pool.
	Example: (configured CPU pool: [1,9]) `nitro-cli run-enclave --cpu-ids 1 2 --memory 80 --eif-path /path/to/my/eif`. In this case, CPU 2 is not in the configured CPU pool.");
   ("E22", "Insufficient CPUs available in the pool. Such error appears when the user requests to run an enclave with more CPUs that available in the CPU pool.
	Example: (configured CPU pool: [1,9]) `nitro-cli run-enclave --cpu-count 4 --memory 80 --eif-path /path/to/my/eif`. In this case, the user requested 4 CPUs, but the CPU pool contains only 2.");
   ("E23", "Malformed CPU ID error. Such error appears when a `lscpu` line is malformed and reports an invalid online CPUs list.");
   ("E24", "CPU error. Such error appears when a CPU line interval is invalid (as in 0-3-7)");
   ("E25", "No such hugepage flag error. Such error appears when the enclave process attempts to use an invalid hugepage size (size other than the known hugepage sizes) for initializing the enclave memory.");
   ("E26", "Insufficient memory requested. Such error appears when the user requests to launch an enclave with not enough memory. The enclave memory should be at least equal to the size of the EIF file used for launching the enclave.
	Example: (EIF file size: 11MB) `nitro-cli run-enclave --cpu-count 2 --memory 5 --eif-path /path/to/my/eif`. In this case, the user requested to run an enclave with only 5MB of memory, whereas the EIF file alone requires 11MB.")].

(* src/src/common/document_errors.rs:452-545 explain_error *)
Definition EXPLAIN_2 : list (string * string) :=
  [("E27", "Insufficient memory available. Such error appears when the user requests to launch an enclave with more memory than available. The enclave memory should be at most equal to the size of the configured hugepage memory.
	Example: (previously configured 80MB of hugepage memory) `nitro-cli run-enclave --cpu-count 2 --memory 100 --eif-path /path/to/my/eif`. In this case, the user requested to run an enclave with 100MB of memory, whereas the system has only 80MB available for enclaves. As a solution, (re)configure the Nitro Enclaves environment, specifying a higher value for the available memory.");
   ("E28", "Invalid enclave descriptor. Such error appears when the NE_CREATE_VM ioctl returns with an error.");
   ("E29", "Ioctl failure. Such error is used as a general ioctl error and appears whenever an ioctl fails. In this case, the error backtrace provides detailed information on what specifically failed during the ioctl.");
   ("E30", "Ioctl image get load info failure. Such error appears when the ioctl used for getting the memory load information fails. In this case, the error backtrace provides detailed information on what specifically failed during the ioctl.");
   ("E31", "Ioctl set memory region failure. Such error appears when the ioctl used for setting a given memory region fails. In this case, the error backtrace provides detailed information on what specifically failed during the ioctl.");
   ("E32", "Ioctl add vCPU failure. Such error appears when the ioctl used for adding a vCPU fails. In this case, the error backtrace provides detailed information on what specifically failed during the ioctl.");
   ("E33", "Ioctl start enclave failure. Such error appears when the ioctl used for starting an enclave fails. In this case, the error backtrace provides details information on what specifically failed during the ioctl.");
   ("E34", "Memory overflow. Such error may appear during loading the EIF in the memory regions which will be conceded to the future enclave, if the regions offset plus the EIF file size exceeds the maximum address of the target platform.");
   ("E35", "EIF file parsing error. Such errors appear when attempting to fill a memory region with a section of the EIF file, but reading the entire section fails. This might indicate that the required hugepages are not available.");
   ("E36", "Enclave boot failure. Such error appears when attempting to receive the `ready` signal from a freshly booted enclave. It arises in several contexts, for instance, when the enclave is booted from an invalid EIF file and the enclave process immediately exits, failing to submit the `ready` signal. In this case, the error backtrace provides detailed information on what specifically failed during the enclave boot process.");
   ("E37", "Enclave event wait error. Such error appears when monitoring an enclave descriptor for events fails.");
   ("E38", "Enclave process command not executed error. Such error appears when at least one enclave fails to provide the description information.");
   ("E39", "Enclave process connection failure. Such error appears when the enclave manager fails to connect to at least one enclave process for retrieving the description information.");
   ("E40", "Socket path not found. Such error appears when the Nitro CLI process fails to build the corresponding socket path starting from a given enclave ID.");
   ("E41", "Enclave process send reply failure. Such error appears when the enclave process fails to submit the status code to the Nitro CLI process after performing a run / describe / terminate command.");
   ("E42", "Enclave mmap error. Such error appears when allocating the enclave memory fails.");
   ("E43", "Enclave munmap error. Such error appears when unmapping the enclave memory fails.");
   ("E44", "Enclave console connection failure. Such error appears when the Nitro CLI process fails to establish a connection to a running enclave's console.");
   ("E45", "Enclave console read error. Such error appears when reading from a running enclave's console fails.");
   ("E46", "Enclave console write output error. Such error appears when writing the information retrieved from a running enclave's console (to a given stream) fails.");
   ("E47", "Integer parsing error. Such error appears when trying to connect to a running enclave's console, but the enclave CID cannot be parsed correctly.");
   ("E48", "EIF building error. Such error appears when trying to build an EIF file. In this case, the error backtrace provides detailed information on the failure reason.");
   ("E49", "Docker image build error. Such error appears when trying to build and EIF file, but building the corresponding docker image fails. In this case, the error backtrace provides detailed information on the failure reason.");
   ("E50", "Docker image pull error. Such error appears when trying to build an EIF file, but pulling the corresponding docker image fails. In this case, the error backtrace provides detailed informatino on the failure reason.");
   ("E51", "Artifacts path environment variable not set. Such error appears when trying to build an EIF file, but the artifacts path environment variable is not set.");
   ("E52", "Blobs path environment variable not set. Such error appears when trying to build an EIF file, but the blobs path environment variable is not set.");
   ("E53", "Clock skew error. Such error appears when continuously reading from a running enclave's console, but measuring the time elapsed between consecutive reads failed.");
   ("E54", "Signal masking error. Such error appears if attempting to mask specific signals before creating an enclave process fails.");
   ("E55", "Signal unmasking error. Such error appears if attempting to unmask specific signals after creating an enclave process fails.");
   ("E56", "Logger error. Such error appears when attempting to initialize the underlying logging system fails.")].

(** What [explain_error] prints on standard error (without the final newline). *)
(* src/src/common/document_errors.rs:546-549 explain_error *)
Definition explain_error (error_code_str : string) : string :=
  match assoc_get error_code_str (EXPLAIN_1 ++ EXPLAIN_2) with
  | Some text => text
  | None => "No such error code " +:+ error_code_str
  end.

(** ** The final message (src/src/common/mod.rs) *)

(** What the file system and the clock answer while a backtrace is logged. *)
Record LogEnv : Type := mk_log_env {
  log_path_base : string;
  path_exists : bool;
  create_dir_all_ok : bool;
  utc_time_now : string;
  file_create_ok : bool;
  write_all_ok : bool;
}.

(** A path assembled from strings is valid UTF-8, so the last [match] of the
    function is on [Some]. *)
(* src/src/common/mod.rs log_backtrace *)
Definition log_backtrace (env : LogEnv) (backtrace : string) : result string string :=
  if negb (path_exists env) && negb (create_dir_all_ok env)
  then Err "Could not create backtrace logs directory"
  else
    let log_path_str := log_path_base env +:+ "/err" +:+ utc_time_now env +:+ ".log" in
    if negb (file_create_ok env) then Err "Could not create backtrace log file"
    else if negb (write_all_ok env) then Err "Could not write to backtrace log file"
    else Ok log_path_str.

(** [backtrace_var] is the value of the environment variable BACKTRACE. *)
(* src/src/common/mod.rs construct_error_message *)
Definition construct_error_message (env : LogEnv) (backtrace_var : option string)
    (failure : NitroCliFailure) : string :=
  let error_info := get_detailed_info (error_code_str (error_code failure)) (additional_info failure) in
  let help_link := construct_help_link (error_code_str (error_code failure)) in
  let backtrace := construct_backtrace failure in
  let log_path := log_backtrace env backtrace in
  let more := nl +:+ nl +:+ "For more details, please visit " in
  let bt := nl +:+ nl +:+ "Backtrace:" +:+ nl in
  let ticket :=
    nl +:+ nl +:+ "If you open a support ticket, please provide the error log found at " +:+ quote in
  match backtrace_var with
  | Some display_backtrace =>
      if decide (display_backtrace = "1") then
        match log_path with
        | Ok p => error_info +:+ more +:+ help_link +:+ bt +:+ backtrace +:+ ticket +:+ p +:+ quote
        | Err _ => error_info +:+ more +:+ help_link +:+ bt +:+ backtrace
        end
      else
        match log_path with
        | Ok p => error_info +:+ more +:+ help_link +:+ ticket +:+ p +:+ quote
        | Err _ => error_info +:+ more +:+ help_link
        end
  | None =>
      match log_path with
      | Ok p => error_info +:+ more +:+ help_link +:+ ticket +:+ p +:+ quote
      | Err _ => error_info +:+ more +:+ help_link
      end
  end.

(** ** Lemmas *)

(** The code that documentation gives a discriminant: "E" and two digits. *)
Definition documented_code (d : Z) : string :=
  "E" +:+ show_u (d / 10) +:+ show_u (d mod 10).

Lemma error_code_str_documented e :
  error_code_str e = documented_code (error_discriminant e).
Proof. destruct e; vm_compute; reflexivity. Qed.

Lemma assoc_get_mem {K A} `{EqDecision K} (k : K) (l : list (K * A)) :
  is_Some (assoc_get k l) <-> k ∈ map fst l.
Proof.
  induction l as [|[k' v] l IH]; simpl.
  - split; [intros [? ?]; done | intros H; by apply not_elem_of_nil in H].
  - destruct (decide (k = k')) as [->|Hne].
    + split; [intros _; left | intros _; eauto].
    + rewrite IH. split; [intros; by right | intros H; inversion H; subst; done].
Qed.

Lemma documented_code_inj e1 e2 : error_code_str e1 = error_code_str e2 -> e1 = e2.
Proof.
  intros E. apply error_discriminant_inj.
  assert (forall e, assoc_get (error_code_str e) (map (fun p => (snd p, fst p)) ERROR_CODES) = Some e)
    as H by (intros e; destruct e; vm_compute; reflexivity).
  pose proof (H e1) as H1. rewrite E, (H e2) in H1. congruence.
Qed.

(** ** Properties *)

(** Every error has a code of its own in [ERROR_CODES], "E" followed by the
    two digits of its discriminant, so the fall-back "E00" stands only for the
    unspecified error and the displayed code identifies the error. *)
Theorem error_codes_identify_errors :
  (forall e, e ∈ map fst ERROR_CODES /\ error_code_str e = documented_code (error_discriminant e)) /\
  (forall e1 e2, error_code_str e1 = error_code_str e2 -> e1 = e2).
Proof.
  split; [|exact documented_code_inj].
  intros e. split; [|apply error_code_str_documented].
  apply assoc_get_mem. destruct e; eexists; vm_compute; reflexivity.
Qed.

(** [get_detailed_info] has a text for the code of every error, while
    [explain_error] has one exactly for the errors up to E56: for E57, E58 and
    E59 it answers that there is no such code. *)
Theorem explain_error_gap (e : NitroCliErrorEnum) :
  is_Some (assoc_get (error_code_str e) (DETAILED_INFO_1 ++ DETAILED_INFO_2)) /\
  (explain_error (error_code_str e) = "No such error code " +:+ error_code_str e <->
   e ∈ [HasherError; EnclaveNamingError; EIFSignatureCheckerError]).
Proof.
  split.
  - destruct e; eexists; vm_compute; reflexivity.
  - rewrite !elem_of_cons, elem_of_nil. destruct e; vm_compute; intuition congruence.
Qed.
