(* ===== verification/CommandsParser.v ===== *)
(** * Command-line arguments (src/src/common/commands_parser.rs)

    [ArgMatches] stands for what clap answers about the matched command line;
    reading and decoding a JSON configuration file, and asking the running
    enclaves for the ID behind a name, are the parameters of the functions
    that use them. Arithmetic is that of the release profile (wrapping). *)
From S2P Require Import Prelude.
From S2P Require Import RustStd.
From S2P Require Import Failure.
From stdpp Require Import base list strings sets.
From Stdlib Require Import ZArith Lia Ascii.
Local Open Scope Z_scope.
Local Open Scope nitro_scope.

(** The queries of [clap::ArgMatches] that the parsers use. *)
Record ArgMatches : Type := mk_args {
  value_of : string -> option string;
  values_of : string -> option (list string);
  is_present : string -> bool;
}.

Definition failure_at (subaction : string) (code : NitroCliErrorEnum) (l : Z) : NitroCliFailure :=
  new_nitro_cli_failure subaction code "src/common/commands_parser.rs" l.

(** ** Data *)

(* src/src/common/commands_parser.rs RunEnclavesArgs *)
Record RunEnclavesArgs : Type := mk_run_args {
  run_eif_path : string;
  run_enclave_cid : option Z;
  run_memory_mib : Z;
  run_cpu_ids : option (list Z);
  run_debug_mode : bool;
  run_attach_console : bool;
  run_cpu_count : option Z;
  run_enclave_name : option string;
}.

(* src/src/common/commands_parser.rs BuildEnclavesArgs *)
Record BuildEnclavesArgs : Type := mk_build_args {
  build_docker_uri : string;
  build_docker_dir : option string;
  build_output : string;
  build_signing_certificate : option string;
  build_private_key : option string;
  build_img_name : option string;
  build_img_version : option string;
  build_metadata : option string;
}.

(* src/src/common/commands_parser.rs TerminateEnclavesArgs *)
Record TerminateEnclavesArgs : Type := mk_terminate_args { terminate_enclave_id : string }.

(* src/src/common/commands_parser.rs ConsoleArgs *)
Record ConsoleArgs : Type := mk_console_args {
  console_enclave_id : string;
  console_disconnect_timeout_sec : option Z;
}.

(* src/src/common/commands_parser.rs DescribeEnclavesArgs *)
Record DescribeEnclavesArgs : Type := mk_describe_args { describe_metadata : bool }.

(* src/src/common/commands_parser.rs ExplainArgs *)
Record ExplainArgs : Type := mk_explain_args { explain_error_code_str : string }.

(* src/src/utils.rs PcrType *)
Inductive PcrType : Type := DefaultType | SigningCertificate.

(* src/src/common/commands_parser.rs PcrArgs *)
Record PcrArgs : Type := mk_pcr_args { pcr_path : string; pcr_type : PcrType }.

(** ** Memory sizes *)

(* src/src/common/commands_parser.rs MemoryUnit *)
Inductive MemoryUnit : Type := Mebibytes | Gibibytes | Tebibytes.

(* src/src/common/commands_parser.rs MemoryUnit::to_mebibytes *)
Definition to_mebibytes (u : MemoryUnit) : Z :=
  match u with
  | Mebibytes => 1
  | Gibibytes => 1024
  | Tebibytes => 1024 * 1024
  end.

(** [Err tt] stands for [UnknownMemoryUnitErr]. *)
(* src/src/common/commands_parser.rs MemoryUnit::from_str *)
Definition memory_unit_from_str (s : string) : result unit MemoryUnit :=
  if decide (s = "M") then Ok Mebibytes
  else if decide (s = "m") then Ok Mebibytes
  else if decide (s = "") then Ok Mebibytes
  else if decide (s = "G") then Ok Gibibytes
  else if decide (s = "g") then Ok Gibibytes
  else if decide (s = "T") then Ok Tebibytes
  else if decide (s = "t") then Ok Tebibytes
  else Err tt.

(* src/src/common/commands_parser.rs parse_memory *)
Definition parse_memory (args : ArgMatches) : NitroCliResult Z :=
  let? memory := ok_or (value_of args "memory")
    (failure_at "`memory` argument not found" MissingArgument 336) in
  let '(num_str, size_str) := split_at_find (fun c => negb (is_numeric c)) memory in
  let? num := rmap_err (fun _ =>
    add_info ["memory"; memory]
      (failure_at "`memory` argument does not contain a number" InvalidArgument 347))
    (parse_u64 num_str) in
  let? unit := rmap_err (fun _ =>
    add_info ["memory"; memory]
      (failure_at "`memory` argument does not contain a valid size indicator" InvalidArgument 355))
    (memory_unit_from_str size_str) in
  Ok (u64 (num * to_mebibytes unit)).

(** ** The other arguments *)

(* src/src/common/commands_parser.rs parse_file_path *)
Definition parse_file_path (args : ArgMatches) (val_name : string) : NitroCliResult string :=
  ok_or (value_of args val_name)
    (failure_at "`input` or `signing-certificate` argument not found" MissingArgument 286).

(* src/src/common/commands_parser.rs parse_docker_tag *)
Definition parse_docker_tag (args : ArgMatches) : option string := value_of args "docker-uri".

(* src/src/common/commands_parser.rs parse_docker_dir *)
Definition parse_docker_dir (args : ArgMatches) : option string := value_of args "docker-dir".

(** libc's vsock address constant. *)
Definition VMADDR_CID_HOST : Z := 2.

Definition well_known_cid (c l : Z) : NitroCliFailure :=
  failure_at ("CID " +:+ show_u c +:+ " is a well-known CID, not to be used for enclaves")
    InvalidArgument l.

(** What [parse_enclave_cid] prints on standard error, line by line: the value
    below is its result. *)
(* src/src/common/commands_parser.rs:392-394 parse_enclave_cid *)
Definition cid_notice (args : ArgMatches) : list string :=
  match parse_u64 <$> value_of args "enclave-cid" with
  | Some (Ok enclave_cid) =>
      if enclave_cid =? 0 then ["The enclave CID will be auto-generated as the provided CID is 0"%string]
      else []
  | _ => []
  end.

(* src/src/common/commands_parser.rs parse_enclave_cid *)
Definition parse_enclave_cid (args : ArgMatches) : NitroCliResult (option Z) :=
  match value_of args "enclave-cid" with
  | Some cid_str =>
      let? enclave_cid := rmap_err (fun _ =>
        add_info ["enclave-cid"; cid_str]
          (failure_at "`enclave-cid` is not a number" InvalidArgument 378))
        (parse_u64 cid_str) in
      if (0 <? enclave_cid) && (enclave_cid <=? VMADDR_CID_HOST) then
        Err (well_known_cid enclave_cid 397)
      else if enclave_cid =? u32_MAX then
        Err (well_known_cid enclave_cid 407)
      else if enclave_cid =? VMADDR_CID_PARENT then
        Err (failure_at ("CID " +:+ show_u enclave_cid +:+
               " is the CID of the parent VM, not to be used for enclaves") InvalidArgument 418)
      else if u32_MAX <? enclave_cid then
        Err (failure_at ("CID " +:+ show_u enclave_cid +:+
               " is higher than the maximum supported (u32 max) for a vsock device")
               InvalidArgument 429)
      else Ok (Some enclave_cid)
  | None => Ok None
  end.

(* src/src/common/commands_parser.rs parse_eif_path *)
Definition parse_eif_path (args : ArgMatches) : NitroCliResult string :=
  ok_or (value_of args "eif-path")
    (failure_at "`eif-path` argument not found" MissingArgument 449).

(* src/src/common/commands_parser.rs parse_enclave_id *)
Definition parse_enclave_id (args : ArgMatches) : NitroCliResult string :=
  ok_or (value_of args "enclave-id")
    (failure_at "`enclave-id` argument not found" MissingArgument 460).

(* src/src/common/commands_parser.rs parse_disconnect_timeout *)
Definition parse_disconnect_timeout (args : ArgMatches) : NitroCliResult (option Z) :=
  match value_of args "disconnect-timeout" with
  | Some arg =>
      let? t := rmap_err (fun _ =>
        add_info ["disconnect-timeout"; arg]
          (failure_at "`disconnect-timeout` argument can't be parsed as a number"
             InvalidArgument 472))
        (parse_u64 arg) in
      Ok (Some t)
  | None => Ok None
  end.

Fixpoint parse_cpu_id_list (l : list string) : NitroCliResult (list Z) :=
  match l with
  | [] => Ok []
  | cpu_id :: rest =>
      let? v := rmap_err (fun _ =>
        add_info ["cpu-id"; cpu_id] (failure_at "`cpu-id` is not a number" InvalidArgument 494))
        (parse_u32 cpu_id) in
      let? vs := parse_cpu_id_list rest in
      Ok (v :: vs)
  end.

(* src/src/common/commands_parser.rs parse_cpu_ids *)
Definition parse_cpu_ids (args : ArgMatches) : NitroCliResult (option (list Z)) :=
  match values_of args "cpu-ids" with
  | Some iterator => let? cpu_ids := parse_cpu_id_list iterator in Ok (Some cpu_ids)
  | None => Ok None
  end.

(* src/src/common/commands_parser.rs parse_cpu_count *)
Definition parse_cpu_count (args : ArgMatches) : NitroCliResult (option Z) :=
  match value_of args "cpu-count" with
  | Some cpu_count =>
      let? v := rmap_err (fun _ =>
        add_info ["cpu-count"; cpu_count]
          (failure_at "`cpu-count` is not a number" InvalidArgument 511))
        (parse_u32 cpu_count) in
      Ok (Some v)
  | None => Ok None
  end.

(* src/src/common/commands_parser.rs parse_output *)
Definition parse_output (args : ArgMatches) : option string := value_of args "output-file".

(* src/src/common/commands_parser.rs debug_mode *)
Definition debug_mode (args : ArgMatches) : bool :=
  is_present args "debug-mode" || is_present args "attach-console".

(* src/src/common/commands_parser.rs attach_console *)
Definition attach_console (args : ArgMatches) : bool := is_present args "attach-console".

(* src/src/common/commands_parser.rs parse_enclave_name *)
Definition parse_enclave_name (args : ArgMatches) : NitroCliResult (option string) :=
  Ok (value_of args "enclave-name").

(* src/src/common/commands_parser.rs parse_signing_certificate *)
Definition parse_signing_certificate (args : ArgMatches) : option string :=
  value_of args "signing-certificate".

(* src/src/common/commands_parser.rs parse_private_key *)
Definition parse_private_key (args : ArgMatches) : option string := value_of args "private-key".

(* src/src/common/commands_parser.rs parse_image_name *)
Definition parse_image_name (args : ArgMatches) : option string := value_of args "image_name".

(* src/src/common/commands_parser.rs parse_image_version *)
Definition parse_image_version (args : ArgMatches) : option string := value_of args "image_version".

(* src/src/common/commands_parser.rs parse_metadata *)
Definition parse_metadata (args : ArgMatches) : option string := value_of args "metadata".

(* src/src/common/commands_parser.rs parse_error_code_str *)
Definition parse_error_code_str (args : ArgMatches) : NitroCliResult string :=
  ok_or (value_of args "error-code")
    (failure_at "`error-code` argument not found" MissingArgument 567).

(** ** The argument structures *)

Section Constructors.
(** Opening the JSON configuration file gives a handle or the error's text;
    serde decodes a handle into arguments; the enclave processes answer
    which ID a name has. *)
Context {File : Type}.
Context (file_open : string -> result string File).
Context (json_from_reader : File -> result string RunEnclavesArgs).
Context (get_id_by_name : string -> NitroCliResult string).

(* src/src/common/commands_parser.rs RunEnclavesArgs::new_with *)
Definition run_args_new_with (args : ArgMatches) : NitroCliResult RunEnclavesArgs :=
  match value_of args "config" with
  | Some config_file =>
      let? file := rmap_err (fun err =>
        add_info [config_file; "Open"]
          (failure_at ("Failed to open config file: " +:+ err) FileOperationFailure 47))
        (file_open config_file) in
      let? json := rmap_err (fun err =>
        failure_at ("Invalid JSON format for config file: " +:+ err) SerdeError 55)
        (json_from_reader file) in
      match run_cpu_count json, run_cpu_ids json with
      | None, None =>
          Err (failure_at "Missing both `cpu-count` and `cpu-ids`" MissingArgument 61)
      | Some _, Some _ =>
          Err (failure_at "`cpu-count` and `cpu-ids` cannot be used together"
                 ConflictingArgument 67)
      | _, _ =>
          Ok (mk_run_args (run_eif_path json) (run_enclave_cid json) (run_memory_mib json)
                (run_cpu_ids json) (run_debug_mode json || run_attach_console json)
                (run_attach_console json) (run_cpu_count json) (run_enclave_name json))
      end
  | None =>
      let? cpu_count := rmap_err (add_subaction "Parse CPU count") (parse_cpu_count args) in
      let? eif_path := rmap_err (add_subaction "Parse EIF path") (parse_eif_path args) in
      let? enclave_cid := rmap_err (add_subaction "Parse enclave CID") (parse_enclave_cid args) in
      let? memory_mib := rmap_err (add_subaction "Parse memory") (parse_memory args) in
      let? cpu_ids := rmap_err (add_subaction "Parse CPU IDs") (parse_cpu_ids args) in
      let? enclave_name := rmap_err (add_subaction "Parse enclave name") (parse_enclave_name args) in
      Ok (mk_run_args eif_path enclave_cid memory_mib cpu_ids (debug_mode args)
            (attach_console args) cpu_count enclave_name)
  end.

(** What constructing the arguments prints: the CID is parsed when the CPU count
    and the path are fine, and only without a configuration file. *)
(* src/src/common/commands_parser.rs:78-84 RunEnclavesArgs::new_with *)
Definition run_args_notice (args : ArgMatches) : list string :=
  match value_of args "config", parse_cpu_count args, parse_eif_path args with
  | None, Ok _, Ok _ => cid_notice args
  | _, _, _ => []
  end.

(* src/src/common/commands_parser.rs BuildEnclavesArgs::new_with *)
Definition build_args_new_with (args : ArgMatches) : NitroCliResult BuildEnclavesArgs :=
  let signing_certificate := parse_signing_certificate args in
  let private_key := parse_private_key args in
  let? _ :=
    match signing_certificate, private_key with
    | Some _, None =>
        Err (add_info ["private-key"]
               (failure_at "`private-key` argument not found" MissingArgument 127))
    | None, Some _ =>
        Err (add_info ["signing-certificate"]
               (failure_at "`signing-certificate` argument not found" MissingArgument 134))
    | _, _ => Ok tt
    end in
  let? docker_uri := ok_or (parse_docker_tag args)
    (add_info ["docker-uri"]
       (failure_at "`docker-uri` argument not found" MissingArgument 145)) in
  let? output := ok_or (parse_output args)
    (add_info ["output"] (failure_at "`output` argument not found" MissingArgument 153)) in
  Ok (mk_build_args docker_uri (parse_docker_dir args) output signing_certificate private_key
        (parse_image_name args) (parse_image_version args) (parse_metadata args)).

(* src/src/common/commands_parser.rs TerminateEnclavesArgs::new_with *)
Definition terminate_args_new_with (args : ArgMatches) : NitroCliResult TerminateEnclavesArgs :=
  let? name := rmap_err (add_subaction "Parse Enclave Name") (parse_enclave_name args) in
  match name with
  | Some name =>
      let? id := rmap_err (add_subaction "Get ID by Name") (get_id_by_name name) in
      Ok (mk_terminate_args id)
  | None =>
      let? id := rmap_err (add_subaction "Parse enclave ID") (parse_enclave_id args) in
      Ok (mk_terminate_args id)
  end.

(* src/src/common/commands_parser.rs ConsoleArgs::new_with *)
Definition console_args_new_with (args : ArgMatches) : NitroCliResult ConsoleArgs :=
  let? name := rmap_err (add_subaction "Parse Enclave Name") (parse_enclave_name args) in
  let? enclave_id :=
    match name with
    | Some name => rmap_err (add_subaction "Get ID by Name") (get_id_by_name name)
    | None => rmap_err (add_subaction "Parse enclave ID") (parse_enclave_id args)
    end in
  let? t := rmap_err (add_subaction "Parse disconnect timeout") (parse_disconnect_timeout args) in
  Ok (mk_console_args enclave_id t).

(* src/src/common/commands_parser.rs DescribeEnclavesArgs::new_with *)
Definition describe_args_new_with (args : ArgMatches) : DescribeEnclavesArgs :=
  mk_describe_args (is_present args "metadata").

(* src/src/common/commands_parser.rs ExplainArgs::new_with *)
Definition explain_args_new_with (args : ArgMatches) : NitroCliResult ExplainArgs :=
  let? s := rmap_err (add_subaction "Parse error code") (parse_error_code_str args) in
  Ok (mk_explain_args s).

(* src/src/common/commands_parser.rs PcrArgs::new_with *)
Definition pcr_args_new_with (args : ArgMatches) : NitroCliResult PcrArgs :=
  let '(val_name, ty) :=
    if is_present args "signing-certificate" then ("signing-certificate", SigningCertificate)
    else ("input", DefaultType) in
  let? path := rmap_err (add_subaction "Parse PCR file") (parse_file_path args val_name) in
  Ok (mk_pcr_args path ty).
End Constructors.

(** ** Lemmas *)

Lemma split_at_find_app p s t :
  str_forall (fun c => negb (p c)) s = true ->
  (exists c t', t = String c t' /\ p c = true) \/ t = EmptyString ->
  split_at_find p (s +:+ t)%string = (s, t).
Proof.
  intros Hs Ht. induction s as [|a s IH]; simpl.
  - destruct Ht as [(c & t' & -> & Hc)| ->]; simpl; [by rewrite Hc | done].
  - simpl in Hs. apply andb_true_iff in Hs as [Ha Hs]. apply negb_true_iff in Ha.
    rewrite Ha, IH by done. done.
Qed.

Lemma show_go_numeric fuel n acc :
  0 <= n -> str_forall is_numeric acc = true ->
  str_forall is_numeric (show_go false fuel 10 n acc) = true.
Proof.
  revert n acc; induction fuel as [|f IH]; intros n acc Hn Hacc; [done|].
  assert (is_numeric (digit_char false (n mod 10)) = true) as Hd.
  { assert (0 <= n mod 10 < 10) as Hm by (apply Z.mod_pos_bound; lia).
    generalize dependent (n mod 10). intros m Hm.
    enough (m < 10 -> is_numeric (digit_char false m) = true) by (apply H; lia).
    pattern m. apply digit_cases; [lia|]. repeat constructor; intros; try done; lia. }
  cbn [show_go].
  destruct (n <? 10); [cbn; by rewrite Hd|].
  apply IH; [apply Z.div_pos; lia | cbn; by rewrite Hd].
Qed.

Lemma show_u_numeric n : 0 <= n -> str_forall is_numeric (show_u n) = true.
Proof. intros. by apply show_go_numeric. Qed.

Lemma parse_u64_show n : 0 <= n <= u64_MAX -> parse_u64 (show_u n) = Ok n.
Proof. intros. unfold parse_u64, show_u. apply from_str_radix_show; lia. Qed.

Lemma parse_u32_show n : 0 <= n <= u32_MAX -> parse_u32 (show_u n) = Ok n.
Proof. intros. unfold parse_u32, show_u. apply from_str_radix_show; lia. Qed.

(** The values accepted by an unsigned parser are in range. *)
Lemma parse_digits_bound radix max acc s v :
  2 <= radix -> 0 <= acc <= max -> parse_digits radix max acc s = Ok v -> 0 <= v <= max.
Proof.
  intros Hr. revert acc; induction s as [|c s IH]; intros acc Hacc H; simpl in H; [by simplify_eq|].
  destruct (to_digit radix c) as [d|] eqn:Ed; [|done].
  assert (0 <= d) as Hd.
  { unfold to_digit, digit_val in Ed. repeat case_match; simplify_eq;
    repeat match goal with H : _ && _ = true |- _ => apply andb_true_iff in H as [? ?] end; lia. }
  destruct (Z.ltb_spec max (acc * radix)); [done|].
  destruct (Z.ltb_spec max (acc * radix + d)); [done|].
  eapply IH; [|exact H]. nia.
Qed.

Lemma from_str_radix_bound radix max s v :
  2 <= radix -> 0 <= max -> from_str_radix radix max s = Ok v -> 0 <= v <= max.
Proof.
  intros Hr Hm H. unfold from_str_radix in H.
  repeat case_match; try done; eapply parse_digits_bound; eauto; lia.
Qed.

(** ** Properties *)

(** The admissible enclave CIDs of a vsock device. *)
Definition usable_cid (c : Z) : Prop := c = 0 \/ 4 <= c < u32_MAX.

(** The CIDs that [parse_enclave_cid] lets through are exactly 0 (choose one
    automatically) and the values from 4 below the 32-bit maximum: the
    well-known CIDs, the parent's CID and 64-bit CIDs are refused, and every
    admissible number given in decimal is accepted unchanged. *)
Theorem parse_enclave_cid_exact (args : ArgMatches) (c : Z) :
  (parse_enclave_cid args = Ok (Some c) -> usable_cid c) /\
  (usable_cid c -> value_of args "enclave-cid" = Some (show_u c) ->
   parse_enclave_cid args = Ok (Some c)).
Proof.
  unfold usable_cid, parse_enclave_cid, VMADDR_CID_HOST, VMADDR_CID_PARENT. split.
  - destruct (value_of args "enclave-cid") as [s|]; [|done]. intros H.
    apply rbind_ok_inv in H as (v & Hv & H). apply rmap_err_ok_inv in Hv.
    apply from_str_radix_bound in Hv; unfold u64_MAX in *; try lia.
    repeat case_match; simplify_eq; unfold u32_MAX in *;
    repeat match goal with H : _ && _ = false |- _ => apply andb_false_iff in H as [H|H] end; lia.
  - intros Hc ->. rewrite parse_u64_show by (unfold u64_MAX, u32_MAX in *; lia). simpl.
    destruct (Z.ltb_spec 0 c), (Z.leb_spec c 2); simpl; try lia;
    rewrite (proj2 (Z.eqb_neq c u32_MAX)), (proj2 (Z.eqb_neq c 3)), (proj2 (Z.ltb_ge u32_MAX c));
    unfold u32_MAX in *; try lia; done.
Qed.

(** The notice is printed for the CID 0, which then is the one that is used, and
    only for it. *)
Lemma cid_notice_exact (args : ArgMatches) :
  cid_notice args <> [] <-> parse_enclave_cid args = Ok (Some 0).
Proof.
  unfold cid_notice, parse_enclave_cid. destruct (value_of args "enclave-cid") as [s|]; simpl; [|by split].
  destruct (parse_u64 s) as [c|e]; simpl; [|by split].
  destruct (Z.eqb_spec c 0) as [->|Hc]; [done|]. split; [done|].
  repeat case_match; congruence.
Qed.

Definition args_of (l : list (string * string)) : ArgMatches :=
  mk_args (fun k => match filter (fun p => p.1 = k) l with (_, v) :: _ => Some v | [] => None end)
          (fun _ => None) (fun k => existsb (fun p => bool_decide (p.1 = k)) l).

Lemma parse_enclave_cid_exact_witness :
  usable_cid 16 /\ parse_enclave_cid (args_of [("enclave-cid", "16")]) = Ok (Some 16).
Proof.
  assert (usable_cid 16) as H by (right; unfold u32_MAX; lia).
  split; [exact H|]. apply (parse_enclave_cid_exact (args_of [("enclave-cid", "16")]) 16); [exact H|].
  reflexivity.
Defined.

(** The suffixes of a memory size and their factor in MiB. *)
Definition unit_suffixes : list (string * Z) :=
  [("", 1); ("M", 1); ("m", 1); ("G", 1024); ("g", 1024); ("T", 1048576); ("t", 1048576)].

Lemma unit_suffix_inv s k :
  (s, k) ∈ unit_suffixes ->
  0 <= k /\ (exists u, memory_unit_from_str s = Ok u /\ to_mebibytes u = k) /\
  ((exists c t, s = String c t /\ negb (is_numeric c) = true) \/ s = EmptyString).
Proof.
  unfold unit_suffixes. rewrite !elem_of_cons, elem_of_nil. intros H.
  destruct_or?; simplify_eq; (split; [lia|]); (split; [by eexists|]); eauto; left; eauto.
Qed.

(** A decimal number followed by one of the accepted suffixes is read as the
    number of MiB it denotes, modulo 2^64: the product wraps silently when it
    does not fit (2^44 T is read as 0 MiB), and is exact when it does. *)
Theorem parse_memory_value (args : ArgMatches) (n k : Z) (suffix : string) :
  0 <= n <= u64_MAX -> (suffix, k) ∈ unit_suffixes ->
  value_of args "memory" = Some (show_u n +:+ suffix)%string ->
  parse_memory args = Ok (u64 (n * k)) /\ (n * k <= u64_MAX -> parse_memory args = Ok (n * k)).
Proof.
  intros Hn Hk Hv.
  destruct (unit_suffix_inv _ _ Hk) as (Hk0 & (u & Hu & <-) & Hhead).
  enough (parse_memory args = Ok (u64 (n * to_mebibytes u))) as E.
  { split; [done|]. intros Hle. rewrite E, u64_small; [done | lia]. }
  unfold parse_memory. rewrite Hv. simpl. rewrite split_at_find_app; [|clear Hhead|done].
  - rewrite parse_u64_show by lia. simpl. by rewrite Hu.
  - pose proof (show_u_numeric n ltac:(lia)) as Hnum.
    revert Hnum. generalize (show_u n). intros t. induction t; simpl; [done|].
    rewrite !andb_true_iff, negb_involutive. naive_solver.
Qed.

Lemma parse_memory_value_witness :
  parse_memory (args_of [("memory", "10G")]) = Ok 10240 /\
  parse_memory (args_of [("memory", "17592186044416T")]) = Ok 0.
Proof.
  split.
  - apply (parse_memory_value (args_of [("memory", "10G")]) 10 1024 "G");
      [unfold u64_MAX; lia | unfold unit_suffixes; rewrite !elem_of_cons; tauto | reflexivity | unfold u64_MAX; lia].
  - apply (parse_memory_value (args_of [("memory", "17592186044416T")]) 17592186044416 1048576 "T");
      [unfold u64_MAX; lia | unfold unit_suffixes; rewrite !elem_of_cons; tauto | reflexivity].
Defined.

(** C27: whatever the source of the arguments (JSON file or command line), an
    accepted set of run arguments that asks for the console is in debug mode;
    arguments from a file ask for CPUs in exactly one of the two ways. *)
Theorem run_args_consistent {File} (file_open : string -> result string File)
    (json : File -> result string RunEnclavesArgs) (args : ArgMatches) (r : RunEnclavesArgs) :
  run_args_new_with file_open json args = Ok r ->
  (run_attach_console r = true -> run_debug_mode r = true) /\
  (is_Some (value_of args "config") ->
   (is_Some (run_cpu_count r) /\ run_cpu_ids r = None) \/
   (run_cpu_count r = None /\ is_Some (run_cpu_ids r))).
Proof.
  unfold run_args_new_with. intros H.
  destruct (value_of args "config") as [cfg|] eqn:Ecfg.
  - r_inv. repeat case_match; simplify_eq; simpl; (split; [|intros _]);
      try (intros ->; by rewrite orb_true_r); [left|right]; eauto.
  - r_inv. simplify_eq. simpl. split; [|by intros [? ?]].
    unfold attach_console, debug_mode. intros ->. by rewrite orb_true_r.
Qed.

Lemma run_args_consistent_witness :
  let json (_ : unit) := Ok (mk_run_args "a.eif" None 512 None false true (Some 2) None) in
  exists r, run_args_new_with (fun _ => Ok tt) json (args_of [("config", "c.json")]) = Ok r /\
    run_debug_mode r = true.
Proof.
  intros json. eexists. split; [reflexivity|].
  apply (run_args_consistent (fun _ => Ok tt) json (args_of [("config", "c.json")]) _ eq_refl).
  reflexivity.
Defined.

(** The arguments of a build are accepted only with both or neither of the
    signing certificate and the private key, and then carry the values given. *)
Theorem build_args_signing_pair (args : ArgMatches) (b : BuildEnclavesArgs) :
  build_args_new_with args = Ok b ->
  (is_Some (build_signing_certificate b) <-> is_Some (build_private_key b)) /\
  build_signing_certificate b = value_of args "signing-certificate" /\
  build_private_key b = value_of args "private-key" /\
  Some (build_docker_uri b) = value_of args "docker-uri" /\
  Some (build_output b) = value_of args "output-file".
Proof.
  unfold build_args_new_with, parse_signing_certificate, parse_private_key, parse_docker_tag,
    parse_output. intros H.
  destruct (value_of args "signing-certificate"), (value_of args "private-key"); simpl in H;
  try discriminate; r_inv;
  destruct (value_of args "docker-uri"), (value_of args "output-file"); simpl in *; simplify_eq;
  simpl; rewrite ?is_Some_alt; naive_solver.
Qed.

Lemma build_args_signing_pair_witness :
  exists b, build_args_new_with (args_of [("docker-uri", "img"); ("output-file", "o.eif");
      ("signing-certificate", "c.pem"); ("private-key", "k.pem")]) = Ok b /\
    is_Some (build_private_key b).
Proof.
  eexists. split; [reflexivity|].
  apply (build_args_signing_pair (args_of [("docker-uri", "img"); ("output-file", "o.eif");
      ("signing-certificate", "c.pem"); ("private-key", "k.pem")]) _ eq_refl).
  eexists. reflexivity.
Defined.
