(* ===== verification/App.v ===== *)
(** * The command-line interface (the macro create_app of src/src/lib.rs)

    The sub-commands with their arguments, as they are declared to clap, and what
    clap promises about a command line that it accepts. Help texts and short
    descriptions are left out. *)
From S2P Require Import Prelude.
From S2P Require Import RustStd.
From S2P Require Import Failure.
From S2P Require Import CommandsParser.
From stdpp Require Import base list strings sets.
From Stdlib Require Import ZArith Lia.
Local Open Scope string_scope.
Local Open Scope nitro_scope.

(** The attributes of an argument, as given to its builder. *)
Record ArgSpec : Type := mk_arg {
  arg_name : string;
  arg_long : string;
  takes_value : bool;
  multiple : bool;
  required : bool;
  required_unless : list string;
  conflicts_with : list string;
}.
Record SubCommand : Type := mk_sub { sub_name : string; sub_args : list ArgSpec }.

(* src/src/lib.rs:585-671 create_app! *)
Definition run_enclave_spec : SubCommand :=
  mk_sub "run-enclave" [
    mk_arg "cpu-ids" "cpu-ids" true true false ["cpu-count"; "config"] ["cpu-count"; "config"];
    mk_arg "cpu-count" "cpu-count" true false false ["cpu-ids"; "config"] ["cpu-ids"; "config"];
    mk_arg "memory" "memory" true false false ["config"] ["config"];
    mk_arg "eif-path" "eif-path" true false false ["config"] ["config"];
    mk_arg "enclave-cid" "enclave-cid" true false false [] ["config"];
    mk_arg "debug-mode" "debug-mode" false false false [] ["config"];
    mk_arg "attach-console" "attach-console" false false false [] [];
    mk_arg "enclave-name" "enclave-name" true false false [] ["config"];
    mk_arg "config" "config" true false false [] []].

(* src/src/lib.rs:673-705 create_app! *)
Definition terminate_enclave_spec : SubCommand :=
  mk_sub "terminate-enclave" [
    mk_arg "enclave-id" "enclave-id" true false false ["all"; "enclave-name"] ["all"; "enclave-name"];
    mk_arg "all" "all" false false false ["enclave-id"; "enclave-name"] ["enclave-id"; "enclave-name"];
    mk_arg "enclave-name" "enclave-name" true false false ["enclave-id"; "all"] ["enclave-id"; "all"]].

(* src/src/lib.rs:707-763 create_app! *)
Definition build_enclave_spec : SubCommand :=
  mk_sub "build-enclave" [
    mk_arg "docker-uri" "docker-uri" true false true [] [];
    mk_arg "docker-dir" "docker-dir" true false false [] [];
    mk_arg "output-file" "output-file" true false true [] [];
    mk_arg "signing-certificate" "signing-certificate" true false false [] [];
    mk_arg "private-key" "private-key" true false false [] [];
    mk_arg "image_name" "name" true false false [] [];
    mk_arg "image_version" "version" true false false [] [];
    mk_arg "metadata" "metadata" true false false [] []].

(* src/src/lib.rs:765-774 create_app! *)
Definition describe_eif_spec : SubCommand :=
  mk_sub "describe-eif" [
    mk_arg "eif-path" "eif-path" true false true [] []].

(* src/src/lib.rs:776-783 create_app! *)
Definition describe_enclaves_spec : SubCommand :=
  mk_sub "describe-enclaves" [
    mk_arg "metadata" "metadata" false false false [] []].

(* src/src/lib.rs:785-810 create_app! *)
Definition console_spec : SubCommand :=
  mk_sub "console" [
    mk_arg "enclave-id" "enclave-id" true false false ["enclave-name"] ["enclave-name"];
    mk_arg "disconnect-timeout" "disconnect-timeout" true false false [] [];
    mk_arg "enclave-name" "enclave-name" true false false ["enclave-id"] ["enclave-id"]].

(* src/src/lib.rs:812-830 create_app! *)
Definition pcr_spec : SubCommand :=
  mk_sub "pcr" [
    mk_arg "signing-certificate" "signing-certificate" true false false ["input"] ["input"];
    mk_arg "input" "input" true false false ["signing-certificate"] ["signing-certificate"]].

(* src/src/lib.rs:832-841 create_app! *)
Definition explain_spec : SubCommand :=
  mk_sub "explain" [
    mk_arg "error-code" "error-code" true false true [] []].

(* src/src/lib.rs:578-584 create_app! *)
Definition create_app : list SubCommand :=
  [run_enclave_spec; terminate_enclave_spec; build_enclave_spec; describe_eif_spec;
   describe_enclaves_spec; console_spec; pcr_spec; explain_spec].

Definition names (sub : SubCommand) : list string := map arg_name (sub_args sub).

(** ** What clap accepts

    A value belongs to an argument that is present; an argument that takes a value
    has one when it is present; an argument is there when it is required, also
    when it is required unless others are there, and it is not there together with
    one that it conflicts with. *)
Record accepted (sub : SubCommand) (args : ArgMatches) : Prop := {
  accepted_value a : is_Some (value_of args a) -> is_present args a = true;
  accepted_values a : is_Some (values_of args a) -> is_present args a = true;
  accepted_takes s : s ∈ sub_args sub -> takes_value s = true -> is_present args (arg_name s) = true ->
    is_Some (value_of args (arg_name s)) /\ is_Some (values_of args (arg_name s));
  accepted_required s : s ∈ sub_args sub -> required s = true -> is_present args (arg_name s) = true;
  accepted_unless s : s ∈ sub_args sub -> required_unless s <> [] ->
    (forall a, a ∈ required_unless s -> is_present args a = false) -> is_present args (arg_name s) = true;
  accepted_conflicts s a : s ∈ sub_args sub -> a ∈ conflicts_with s ->
    is_present args (arg_name s) = true -> is_present args a = false;
}.

(** The two command lines agree about these arguments. *)
Definition agree (l : list string) (a b : ArgMatches) : Prop :=
  forall n, n ∈ l ->
    value_of a n = value_of b n /\ values_of a n = values_of b n /\ is_present a n = is_present b n.

Section Agree.
Context (l : list string) (a b : ArgMatches) (Hab : agree l a b).

Lemma agree_value n : n ∈ l -> value_of a n = value_of b n.
Proof. intros Hn. by destruct (Hab n Hn) as (? & _). Qed.
Lemma agree_values n : n ∈ l -> values_of a n = values_of b n.
Proof. intros Hn. by destruct (Hab n Hn) as (_ & ? & _). Qed.
Lemma agree_present n : n ∈ l -> is_present a n = is_present b n.
Proof. intros Hn. by destruct (Hab n Hn) as (_ & _ & ?). Qed.
End Agree.

(** Rewrite every query of the first command line into one of the second. *)
Ltac agree H :=
  rewrite ?(agree_value _ _ _ H) by (vm_compute; set_solver);
  rewrite ?(agree_values _ _ _ H) by (vm_compute; set_solver);
  rewrite ?(agree_present _ _ _ H) by (vm_compute; set_solver).

Section Properties.
Context {File : Type} (file_open : string -> result string File)
  (json_from_reader : File -> result string RunEnclavesArgs).

(** C38: The parsers ask clap only for arguments that their sub-command declares:
    their results are the same on command lines that agree on those. *)
Theorem parsers_ask_for_declared (get_id : string -> NitroCliResult string) (a b : ArgMatches) :
  (agree (names run_enclave_spec) a b ->
     run_args_new_with file_open json_from_reader a = run_args_new_with file_open json_from_reader b) /\
  (agree (names terminate_enclave_spec) a b ->
     is_present a "all" = is_present b "all" /\ terminate_args_new_with get_id a = terminate_args_new_with get_id b) /\
  (agree (names build_enclave_spec) a b -> build_args_new_with a = build_args_new_with b) /\
  (agree (names describe_eif_spec) a b -> value_of a "eif-path" = value_of b "eif-path") /\
  (agree (names describe_enclaves_spec) a b -> describe_args_new_with a = describe_args_new_with b) /\
  (agree (names console_spec) a b -> console_args_new_with get_id a = console_args_new_with get_id b) /\
  (agree (names pcr_spec) a b -> pcr_args_new_with a = pcr_args_new_with b) /\
  (agree (names explain_spec) a b -> explain_args_new_with a = explain_args_new_with b).
Proof.
  split_and!; intros H.
  - unfold run_args_new_with, parse_cpu_count, parse_eif_path, parse_enclave_cid, parse_memory, parse_cpu_ids,
      parse_enclave_name, debug_mode, attach_console. by agree H.
  - unfold terminate_args_new_with, parse_enclave_name, parse_enclave_id. by agree H.
  - unfold build_args_new_with, parse_signing_certificate, parse_private_key, parse_docker_tag, parse_docker_dir,
      parse_output, parse_image_name, parse_image_version, parse_metadata. by agree H.
  - by agree H.
  - unfold describe_args_new_with. by agree H.
  - unfold console_args_new_with, parse_enclave_name, parse_enclave_id, parse_disconnect_timeout. by agree H.
  - unfold pcr_args_new_with, parse_file_path. agree H. by destruct (is_present b "signing-certificate"); agree H.
  - unfold explain_args_new_with, parse_error_code_str. by agree H.
Qed.

(** Whether an argument that takes a value has one is whether it is present. *)
Lemma accepted_value_present sub args s :
  accepted sub args -> s ∈ sub_args sub -> takes_value s = true ->
  (is_Some (value_of args (arg_name s)) <-> is_present args (arg_name s) = true) /\
  (is_Some (values_of args (arg_name s)) <-> is_present args (arg_name s) = true).
Proof.
  intros Ha Hs Ht. destruct Ha as [V1 V2 T _ _ _].
  split; split; intros Hp; eauto; by destruct (T s Hs Ht Hp).
Qed.

Lemma parse_cpu_count_some args r :
  parse_cpu_count args = Ok r -> is_Some r <-> is_Some (value_of args "cpu-count").
Proof.
  unfold parse_cpu_count. destruct (value_of args "cpu-count"); intros E; r_inv; simplify_eq; [|done].
  split; by eexists.
Qed.
Lemma parse_cpu_ids_some args r :
  parse_cpu_ids args = Ok r -> is_Some r <-> is_Some (values_of args "cpu-ids").
Proof.
  unfold parse_cpu_ids. destruct (values_of args "cpu-ids"); intros E; r_inv; simplify_eq; [|done].
  split; by eexists.
Qed.

Lemma one_cpu_option args :
  accepted run_enclave_spec args -> value_of args "config" = None ->
  (is_present args "cpu-count" = true <-> is_present args "cpu-ids" = false).
Proof.
  intros Ha Hc.
  destruct (accepted_value_present _ _ (mk_arg "config" "config" true false false [] []) Ha) as [Hv _];
    [simpl; set_solver|done|]. cbn in Hv. rewrite Hc in Hv.
  assert (is_present args "config" = false) as Hf.
  { destruct (is_present args "config"); [|done]. by destruct (proj2 Hv eq_refl). }
  split.
  - apply (accepted_conflicts _ _ Ha (mk_arg "cpu-count" "cpu-count" true false false ["cpu-ids"; "config"]
      ["cpu-ids"; "config"])); simpl; set_solver.
  - intros Hi. apply (accepted_unless _ _ Ha (mk_arg "cpu-count" "cpu-count" true false false ["cpu-ids"; "config"]
      ["cpu-ids"; "config"])); [simpl; set_solver|done|].
    intros n. cbn. rewrite !elem_of_cons, elem_of_nil. by intros [->|[->|[]]].
Qed.

(** From a command line that clap accepts, a run gets exactly one of a number
    of CPUs and a list of CPUs, with and without a configuration file; and when a
    file is given, it alone decides: the flag attach-console is accepted next to
    it and ignored. *)
Theorem run_args_one_cpu_choice (args : ArgMatches) r :
  accepted run_enclave_spec args ->
  run_args_new_with file_open json_from_reader args = Ok r ->
  (is_Some (run_cpu_count r) <-> run_cpu_ids r = None) /\
  (forall other, value_of other "config" = value_of args "config" -> is_present args "config" = true ->
     run_args_new_with file_open json_from_reader other = Ok r).
Proof.
  intros Ha E. split.
  - unfold run_args_new_with in E. destruct (value_of args "config") as [cfg|] eqn:Ec.
    + r_inv. destruct (run_cpu_count _) eqn:Ecount, (run_cpu_ids _) eqn:Eids; simplify_eq; cbn;
        rewrite ?Ecount, ?Eids; split; intros X; try done; by destruct X.
    + r_inv. simplify_eq. cbn.
      repeat match goal with
      | X : parse_cpu_count _ = Ok ?r |- _ => apply parse_cpu_count_some in X
      | X : parse_cpu_ids _ = Ok ?r |- _ => apply parse_cpu_ids_some in X
      end.
      pose proof (one_cpu_option _ Ha Ec) as Ho.
      destruct (accepted_value_present _ _ (mk_arg "cpu-count" "cpu-count" true false false ["cpu-ids"; "config"]
        ["cpu-ids"; "config"]) Ha) as [Hv _]; [simpl; set_solver|done|]. cbn in Hv.
      destruct (accepted_value_present _ _ (mk_arg "cpu-ids" "cpu-ids" true true false ["cpu-count"; "config"]
        ["cpu-count"; "config"]) Ha) as [_ Hw]; [simpl; set_solver|done|]. cbn in Hw.
      rewrite eq_None_not_Some. destruct (is_present args "cpu-ids"), (is_present args "cpu-count"); naive_solver.
  - intros other Ho Hp.
    destruct (accepted_value_present _ _ (mk_arg "config" "config" true false false [] []) Ha) as [Hv _];
      [simpl; set_solver|done|]. cbn in Hv. apply Hv in Hp as [cfg Hc].
    unfold run_args_new_with in *. rewrite Ho, Hc in *. done.
Qed.
End Properties.

(** ** Two command lines *)

(** A run from a configuration file, with attach-console on the command line. *)
Definition config_line : ArgMatches :=
  mk_args (fun k => if String.eqb k "config" then Some "c.json" else None)
    (fun k => if String.eqb k "config" then Some ["c.json"] else None)
    (fun k => String.eqb k "config" || String.eqb k "attach-console").
Definition config_json (_ : unit) : result string RunEnclavesArgs :=
  Ok (mk_run_args "a.eif" None 512 None false false (Some 2%Z) None).

Lemma config_line_accepted : accepted run_enclave_spec config_line.
Proof.
  split; unfold config_line, run_enclave_spec; cbn [value_of values_of is_present sub_args].
  - intros a. destruct (String.eqb a "config"); [done|]. by intros [? ?].
  - intros a. destruct (String.eqb a "config"); [done|]. by intros [? ?].
  - intros s Hs. rewrite !elem_of_cons, elem_of_nil in Hs.
    destruct_or? Hs; subst; cbn; try done; intros; split; by eexists.
  - intros s Hs. rewrite !elem_of_cons, elem_of_nil in Hs. by destruct_or? Hs; subst.
  - intros s Hs. rewrite !elem_of_cons, elem_of_nil in Hs. destruct_or? Hs; subst; cbn; try done;
      intros _ Hn; specialize (Hn "config"); set_solver.
  - intros s a Hs. rewrite !elem_of_cons, elem_of_nil in Hs. destruct_or? Hs; subst; cbn; try done; set_solver.
Qed.

Lemma run_args_one_cpu_choice_witness :
  exists r, run_args_new_with (fun _ => Ok tt) config_json config_line = Ok r /\
    run_attach_console r = false /\ (is_Some (run_cpu_count r) <-> run_cpu_ids r = None).
Proof.
  eexists. split; [reflexivity|]. split; [reflexivity|].
  exact (proj1 (run_args_one_cpu_choice (fun _ => Ok tt) config_json config_line _ config_line_accepted eq_refl)).
Defined.

Lemma parsers_ask_for_declared_witness :
  pcr_args_new_with (args_of [("input", "a.txt")]) =
  pcr_args_new_with (args_of [("input", "a.txt"); ("verbose", "yes")]).
Proof.
  destruct (parsers_ask_for_declared (fun _ : string => Ok tt) config_json (fun s => Ok s)
    (args_of [("input", "a.txt")]) (args_of [("input", "a.txt"); ("verbose", "yes")]))
    as (_ & _ & _ & _ & _ & _ & H & _).
  apply H. intros n Hn. apply list_elem_of_In in Hn. simpl in Hn. destruct Hn as [<-|[<-|[]]]; vm_compute; tauto.
Defined.
