(* ===== verification/CpuInfo.v ===== *)
(** * The CPU pool (src/src/enclave_proc/cpu_info.rs)

    Parsing the pool file of the driver, and validating the CPUs that a run
    asks for against it. A buffered reader is the list of results that its
    [lines()] iterator yields. *)
From S2P Require Import Prelude.
From S2P Require Import RustStd.
From S2P Require Import Failure.
From S2P Require Import CommandsParser.
From stdpp Require Import base list numbers strings sets sorting.
From Stdlib Require Import ZArith Lia Ascii.
Local Open Scope Z_scope.
Local Open Scope nitro_scope.

Definition failure_at (subaction : string) (code : NitroCliErrorEnum) (l : Z) : NitroCliFailure :=
  new_nitro_cli_failure subaction code "src/enclave_proc/cpu_info.rs" l.

(* src/src/enclave_proc/cpu_info.rs POOL_FILENAME *)
Definition POOL_FILENAME : string := "/sys/module/nitro_enclaves/parameters/ne_cpus".

(* src/src/enclave_proc/cpu_info.rs EnclaveCpuConfig *)
Inductive EnclaveCpuConfig : Type :=
| CpuList (cpu_ids : list Z)
| Count (n : Z).

(* src/src/enclave_proc/cpu_info.rs EnclaveCpuConfig::default *)
Definition default_cpu_config : EnclaveCpuConfig := Count 0.

(* src/src/enclave_proc/cpu_info.rs CpuInfo *)
Record CpuInfo : Type := mk_cpu_info { pool : list Z }.

(** ** Parsing the pool *)

Definition show_parse_error (e : ParseIntError) : string :=
  match e with
  | ParseEmpty => "cannot parse integer from empty string"
  | InvalidDigit => "invalid digit found in string"
  | PosOverflow => "number too large to fit in target type"
  end.

(* src/src/enclave_proc/cpu_info.rs CpuInfo::get_value *)
Definition get_value (line : string) : NitroCliResult Z :=
  rmap_err (fun e =>
    failure_at ("Failed to parse CPU ID: " +:+ show_parse_error e) MalformedCpuId 140)
    (parse_u32 (retain_non_whitespace line)).

(** One interval of the line. The range loop pushes every ID from the first
    bound to the second, none when the first is the greater. *)
Definition parse_interval (interval : string) : NitroCliResult (list Z) :=
  match split_char "-" interval with
  | [b0] => let? v := get_value b0 in Ok [v]
  | [b0; b1] =>
      let? start_id := get_value b0 in
      let? end_id := get_value b1 in
      Ok (seqZ start_id (end_id - start_id + 1))
  | _ => Err (failure_at ("Invalid CPU ID interval (" +:+ interval +:+ ")") CpuError 164)
  end.

Fixpoint parse_intervals (l : list string) (acc : list Z) : NitroCliResult (list Z) :=
  match l with
  | [] => Ok acc
  | interval :: rest =>
      let? ids := parse_interval interval in
      parse_intervals rest (acc ++ ids)
  end.

(* src/src/enclave_proc/cpu_info.rs CpuInfo::parse_cpu_pool_line *)
Definition parse_cpu_pool_line (line_str : string) : NitroCliResult (list Z) :=
  parse_intervals (split_char "," line_str) [].

(** The lines of a reader: each either the line or the text of an I/O error. *)
Definition reader : Type := list (result string string).

Fixpoint get_cpu_info_loop (lines : reader) (acc : list Z) : NitroCliResult (list Z) :=
  match lines with
  | [] => Ok acc
  | line :: rest =>
      let? line_str := rmap_err (fun e =>
        add_info [POOL_FILENAME; "Read"]
          (failure_at ("Failed to read line from CPU pool file: " +:+ e) FileOperationFailure 181))
        line in
      if trim_is_empty line_str then get_cpu_info_loop rest acc
      else
        let? ids := parse_cpu_pool_line line_str in
        get_cpu_info_loop rest (acc ++ ids)
  end.

(* src/src/enclave_proc/cpu_info.rs CpuInfo::get_cpu_info *)
Definition get_cpu_info (r : reader) : NitroCliResult (list Z) := get_cpu_info_loop r [].

(* src/src/enclave_proc/cpu_info.rs CpuInfo::from_reader *)
Definition from_reader (r : reader) : NitroCliResult CpuInfo :=
  let? cpu_ids := get_cpu_info r in Ok (mk_cpu_info cpu_ids).

(** [pool_file] is the outcome of opening the pool file. *)
(* src/src/enclave_proc/cpu_info.rs CpuInfo::new *)
Definition cpu_info_new (pool_file : result string reader) : NitroCliResult CpuInfo :=
  let? r := rmap_err (fun e =>
    add_info [POOL_FILENAME; "Open"]
      (failure_at ("Failed to open CPU pool file: " +:+ e) FileOperationFailure 43)) pool_file in
  from_reader r.

(** ** Validating a request *)

(** [BTreeSet]: a strictly increasing list. *)
Fixpoint btree_insert (x : Z) (s : list Z) : list Z :=
  match s with
  | [] => [x]
  | y :: s' =>
      if x <? y then x :: s else if x =? y then s else y :: btree_insert x s'
  end.

Definition btree_of_list (l : list Z) : list Z := fold_left (fun s x => btree_insert x s) l [].

Definition count_id (x : Z) (l : list Z) : nat := length (filter (fun y => y = x) l).

(* src/src/enclave_proc/cpu_info.rs CpuInfo::get_duplicate_cpus *)
Definition get_duplicate_cpus (uniques cpu_ids : list Z) : string :=
  fold_left (fun result id =>
    if (1 <? count_id id cpu_ids)%nat then result +:+ show_u id else result) uniques "".

Fixpoint check_available (ids : list Z) (cpu_pool : list Z) : NitroCliResult unit :=
  match ids with
  | [] => Ok tt
  | cpu_id :: rest =>
      if decide (cpu_id ∈ cpu_pool) then check_available rest cpu_pool
      else
        Err (add_info ["cpu-ids"; show_u cpu_id]
          (failure_at ("The CPU with ID " +:+ show_u cpu_id +:+
             " is not available in the NE CPU pool") NoSuchCpuAvailableInPool 115))
  end.

(* src/src/enclave_proc/cpu_info.rs CpuInfo::check_cpu_ids *)
Definition check_cpu_ids (self : CpuInfo) (cpu_ids : list Z) : NitroCliResult unit :=
  let unique_ids := btree_of_list cpu_ids in
  if (length unique_ids <? length cpu_ids)%nat then
    let duplicate_cpus := get_duplicate_cpus unique_ids cpu_ids in
    Err (add_info ["cpu-ids"; duplicate_cpus]
      (failure_at ("CPU IDs list contains " +:+
         show_u (Z.of_nat (length cpu_ids - length unique_ids)) +:+ " duplicate(s)")
         InvalidCpuConfiguration 102))
  else check_available unique_ids (pool self).

(* src/src/enclave_proc/cpu_info.rs CpuInfo::get_cpu_config *)
Definition get_cpu_config (self : CpuInfo) (args : RunEnclavesArgs) : NitroCliResult EnclaveCpuConfig :=
  match run_cpu_ids args with
  | Some cpu_ids =>
      let? _ := rmap_err (add_subaction "Failed to check whether CPU list is valid")
        (check_cpu_ids self cpu_ids) in
      Ok (CpuList cpu_ids)
  | None =>
      match run_cpu_count args with
      | Some cpu_count =>
          if Z.of_nat (length (pool self)) <? cpu_count then
            Err (add_info ["cpu-count"; show_u cpu_count]
              (failure_at ("Insufficient CPUs available (requested " +:+ show_u cpu_count +:+
                 ", but maximum is " +:+ show_u (Z.of_nat (length (pool self))) +:+ ")")
                 InsufficientCpus 70))
          else Ok (Count cpu_count)
      | None => Err (failure_at "Invalid CPU configuration argument" InvalidArgument 83)
      end
  end.

(* src/src/enclave_proc/cpu_info.rs CpuInfo::get_cpu_candidates *)
Definition get_cpu_candidates (self : CpuInfo) : list Z := pool self.

(** ** Lemmas on the ordered set *)

Lemma elem_of_btree_insert x y s : y ∈ btree_insert x s <-> y = x \/ y ∈ s.
Proof.
  induction s as [|z s IH]; simpl; [set_solver|].
  destruct (Z.ltb_spec x z); [set_solver|]. destruct (Z.eqb_spec x z); set_solver.
Qed.

Lemma btree_insert_sorted x s : StronglySorted Z.lt s -> StronglySorted Z.lt (btree_insert x s).
Proof.
  induction 1 as [|z s Hs IH Hz]; simpl; [repeat constructor|].
  rewrite Forall_forall in Hz.
  destruct (Z.ltb_spec x z); [|destruct (Z.eqb_spec x z)].
  - constructor; [constructor; [done|by apply Forall_forall]|].
    constructor; [done|]. apply Forall_forall. intros w Hw. specialize (Hz w Hw). lia.
  - constructor; [done|by apply Forall_forall].
  - constructor; [done|]. apply Forall_forall. intros w Hw.
    apply elem_of_btree_insert in Hw as [->|Hw]; [lia | auto].
Qed.

Lemma strongly_sorted_lt_NoDup l : StronglySorted Z.lt l -> NoDup l.
Proof.
  induction 1 as [|z s Hs IH Hz]; constructor; [|done].
  rewrite Forall_forall in Hz. intros Hin. specialize (Hz z Hin). lia.
Qed.

Section BTree.
Lemma fold_btree_spec l s :
  StronglySorted Z.lt s ->
  StronglySorted Z.lt (fold_left (fun s x => btree_insert x s) l s) /\
  forall y, y ∈ fold_left (fun s x => btree_insert x s) l s <-> y ∈ l \/ y ∈ s.
Proof.
  revert s; induction l as [|x l IH]; intros s Hs; simpl; [set_solver|].
  destruct (IH (btree_insert x s)) as [H1 H2]; [by apply btree_insert_sorted|].
  split; [done|]. intros y. rewrite H2, elem_of_btree_insert. set_solver.
Qed.

Lemma btree_of_list_sorted l : StronglySorted Z.lt (btree_of_list l).
Proof. apply fold_btree_spec. constructor. Qed.

Lemma elem_of_btree_of_list l y : y ∈ btree_of_list l <-> y ∈ l.
Proof. unfold btree_of_list. rewrite (proj2 (fold_btree_spec l [] ltac:(constructor))). set_solver. Qed.

Lemma btree_of_list_NoDup l : NoDup (btree_of_list l).
Proof. apply strongly_sorted_lt_NoDup, btree_of_list_sorted. Qed.

(** The set is shorter than the list exactly when the list repeats. *)
Lemma btree_length_NoDup l : (length l <= length (btree_of_list l))%nat <-> NoDup l.
Proof.
  split; intros H.
  - apply NoDup_ListNoDup.
    apply (List.NoDup_incl_NoDup (l := btree_of_list l)).
    + apply NoDup_ListNoDup, btree_of_list_NoDup.
    + done.
    + intros y Hy. apply list_elem_of_In. apply list_elem_of_In in Hy.
      apply elem_of_btree_of_list. exact Hy.
  - apply submseteq_length, NoDup_submseteq; [done|].
    intros y Hy. by apply elem_of_btree_of_list.
Qed.
End BTree.

Lemma check_available_spec ids cpu_pool :
  check_available ids cpu_pool = Ok tt <-> forall id, id ∈ ids -> id ∈ cpu_pool.
Proof.
  induction ids as [|i ids IH]; simpl; [set_solver|].
  destruct (decide (i ∈ cpu_pool)); [rewrite IH|]; [set_solver|].
  split; [done|]. intros H. exfalso. set_solver.
Qed.

Lemma check_cpu_ids_ok (self : CpuInfo) cpu_ids :
  check_cpu_ids self cpu_ids = Ok tt <->
  NoDup cpu_ids /\ forall id, id ∈ cpu_ids -> id ∈ pool self.
Proof.
  unfold check_cpu_ids. pose proof (btree_length_NoDup cpu_ids) as Hlen.
  destruct (Nat.ltb_spec (length (btree_of_list cpu_ids)) (length cpu_ids)) as [Hlt|Hge].
  - split; [done|]. intros [H%Hlen _]. lia.
  - rewrite check_available_spec. setoid_rewrite elem_of_btree_of_list. naive_solver.
Qed.

(** The failure of the availability check names the first ID not available. *)
Lemma check_available_err ids cpu_pool e :
  StronglySorted Z.lt ids -> check_available ids cpu_pool = Err e ->
  error_code e = NoSuchCpuAvailableInPool /\
  exists id, id ∈ ids /\ ~ (id ∈ cpu_pool) /\ additional_info e = ["cpu-ids"; show_u id] /\
    forall id', id' ∈ ids -> id' ∉ cpu_pool -> id <= id'.
Proof.
  induction 1 as [|i ids Hs IH Hi]; simpl; [done|].
  rewrite Forall_forall in Hi. destruct (decide (i ∈ cpu_pool)) as [Hin|Hnin]; intros He.
  - destruct (IH He) as (Hc & id & ? & ? & ? & Hmin). split; [done|]. exists id. set_solver.
  - simplify_eq. split; [done|]. exists i. split; [set_solver|]. split; [done|].
    split; [done|]. intros id' Hid' _. apply elem_of_cons in Hid' as [->|Hid']; [done|].
    specialize (Hi id' Hid'). lia.
Qed.

(** ** Lemmas on parsing *)

Lemma split_char_absent sep s :
  str_forall (fun c => negb (Ascii.eqb c sep)) s = true -> split_char sep s = [s].
Proof.
  induction s as [|c s IH]; [done|]. simpl. rewrite andb_true_iff, negb_true_iff.
  intros [-> H]. by rewrite IH.
Qed.

Lemma split_char_app sep s t :
  str_forall (fun c => negb (Ascii.eqb c sep)) s = true ->
  split_char sep (s +:+ String sep t)%string = s :: split_char sep t.
Proof.
  induction s as [|c s IH]; simpl.
  - intros _. by rewrite Ascii.eqb_refl.
  - rewrite andb_true_iff, negb_true_iff. intros [-> H]. by rewrite IH.
Qed.

(** Characters other than digits that a numeral does not contain. *)
Lemma numeric_not (p : ascii -> bool) s :
  (forall c, is_numeric c = true -> p c = true) ->
  str_forall is_numeric s = true -> str_forall p s = true.
Proof.
  intros Hp. induction s as [|c s IH]; simpl; [done|].
  rewrite !andb_true_iff. intros [Hc Hs]. auto.
Qed.

Lemma is_numeric_code c : is_numeric c = true -> 48 <= code c <= 57.
Proof. unfold is_numeric. lia. Qed.

Lemma numeric_not_sep c (sep : ascii) :
  (code sep < 48 \/ 57 < code sep) -> is_numeric c = true -> negb (Ascii.eqb c sep) = true.
Proof.
  intros Hs Hc%is_numeric_code. apply negb_true_iff, Ascii.eqb_neq. intros ->. lia.
Qed.

Lemma numeric_not_whitespace c : is_numeric c = true -> negb (is_whitespace c) = true.
Proof. intros Hc%is_numeric_code. unfold is_whitespace. lia. Qed.

Lemma str_filter_id p s : str_forall p s = true -> str_filter p s = s.
Proof.
  induction s as [|c s IH]; simpl; [done|]. rewrite andb_true_iff.
  intros [-> H]. by rewrite IH.
Qed.

Lemma get_value_show n : 0 <= n <= u32_MAX -> get_value (show_u n) = Ok n.
Proof.
  intros Hn. unfold get_value, retain_non_whitespace. rewrite str_filter_id.
  - by rewrite parse_u32_show.
  - apply (numeric_not _ _ numeric_not_whitespace), show_u_numeric. lia.
Qed.

(** The textual form of a pool: intervals as the driver lists them. *)
Definition show_interval (iv : Z * Z) : string :=
  if iv.1 =? iv.2 then show_u iv.1 else (show_u iv.1 +:+ "-" +:+ show_u iv.2)%string.
Definition interval_ids (iv : Z * Z) : list Z := seqZ iv.1 (iv.2 - iv.1 + 1).
Definition interval_ok (iv : Z * Z) : Prop := 0 <= iv.1 <= iv.2 /\ iv.2 <= u32_MAX.

Lemma show_interval_no_comma iv :
  interval_ok iv -> str_forall (fun c => negb (Ascii.eqb c ",")) (show_interval iv) = true.
Proof.
  intros [H1 H2]. unfold show_interval.
  assert (forall n, 0 <= n -> str_forall (fun c => negb (Ascii.eqb c ",")) (show_u n) = true) as H.
  { intros n Hn. eapply numeric_not; [|by apply show_u_numeric].
    intros c. apply numeric_not_sep. left. by vm_compute. }
  case_match; [apply H; lia|]. rewrite !str_forall_app, !H by lia. done.
Qed.

Lemma parse_interval_show iv : interval_ok iv -> parse_interval (show_interval iv) = Ok (interval_ids iv).
Proof.
  destruct iv as [a b]. intros [H1 H2]. simpl in *. unfold parse_interval, show_interval. simpl.
  assert (forall n, 0 <= n -> str_forall (fun c => negb (Ascii.eqb c "-")) (show_u n) = true) as H.
  { intros n Hn. eapply numeric_not; [|by apply show_u_numeric].
    intros c. apply numeric_not_sep. left. by vm_compute. }
  destruct (Z.eqb_spec a b) as [->|].
  - rewrite split_char_absent by (apply H; lia). rewrite get_value_show by lia.
    unfold interval_ids. simpl. replace (b - b + 1) with 1 by lia. done.
  - change ("-" +:+ show_u b)%string with (String "-" (show_u b)).
    rewrite split_char_app, split_char_absent by (apply H; lia).
    rewrite !get_value_show by (unfold u32_MAX in *; lia). done.
Qed.

Lemma parse_intervals_join ivs acc iv :
  interval_ok iv -> Forall interval_ok ivs ->
  parse_intervals (split_char "," (str_join "," (map show_interval (iv :: ivs)))) acc =
  Ok (acc ++ concat (map interval_ids (iv :: ivs))).
Proof.
  intros Hiv Hivs. revert iv acc Hiv; induction Hivs as [|iv2 ivs Hiv2 Hivs IH]; intros iv acc Hiv.
  - simpl. rewrite split_char_absent by (by apply show_interval_no_comma). simpl.
    rewrite parse_interval_show by done. by rewrite app_nil_r.
  - change (str_join "," (map show_interval (iv :: iv2 :: ivs)))
      with (show_interval iv +:+ String "," (str_join "," (map show_interval (iv2 :: ivs))))%string.
    rewrite split_char_app by (by apply show_interval_no_comma).
    cbn [parse_intervals]. rewrite parse_interval_show by done. cbn [rbind].
    rewrite IH by done. cbn [map concat]. by rewrite <- app_assoc.
Qed.

(** ** Properties *)

(** A pool line written as a list of intervals "a-b" or single IDs is parsed
    into exactly the IDs of these intervals, in order. *)
Theorem parse_cpu_pool_line_roundtrip (iv : Z * Z) (ivs : list (Z * Z)) :
  Forall interval_ok (iv :: ivs) ->
  parse_cpu_pool_line (str_join "," (map show_interval (iv :: ivs))) =
  Ok (concat (map interval_ids (iv :: ivs))).
Proof.
  intros H. apply Forall_cons in H as [H1 H2]. unfold parse_cpu_pool_line.
  by rewrite parse_intervals_join.
Qed.

Lemma parse_cpu_pool_line_roundtrip_witness :
  parse_cpu_pool_line "1-4,7" = Ok [1; 2; 3; 4; 7].
Proof.
  apply (parse_cpu_pool_line_roundtrip (1, 4) [(7, 7)]).
  repeat constructor; simpl; unfold u32_MAX; lia.
Defined.

(** C25: a list of CPU IDs passes the check exactly when it has no repetition and
    every ID is in the pool; a refused list is reported as a duplicate or as a
    CPU missing from the pool, and in the second case the CPU reported is the
    smallest one missing. *)
Theorem check_cpu_ids_exact (self : CpuInfo) (cpu_ids : list Z) :
  (check_cpu_ids self cpu_ids = Ok tt <->
   NoDup cpu_ids /\ forall id, id ∈ cpu_ids -> id ∈ pool self) /\
  (forall e, check_cpu_ids self cpu_ids = Err e ->
     (error_code e = InvalidCpuConfiguration /\ ~ NoDup cpu_ids) \/
     (error_code e = NoSuchCpuAvailableInPool /\ NoDup cpu_ids /\
      exists id, id ∈ cpu_ids /\ ~ (id ∈ pool self) /\ additional_info e = ["cpu-ids"; show_u id] /\
        forall id', id' ∈ cpu_ids -> id' ∉ pool self -> id <= id')).
Proof.
  split; [apply check_cpu_ids_ok|]. intros e He. unfold check_cpu_ids in He.
  pose proof (btree_length_NoDup cpu_ids) as Hlen.
  destruct (Nat.ltb_spec (length (btree_of_list cpu_ids)) (length cpu_ids)) as [Hlt|Hge].
  - left. simplify_eq. split; [done|]. intros H%Hlen. lia.
  - right. apply Hlen in Hge.
    destruct (check_available_err _ _ _ (btree_of_list_sorted cpu_ids) He)
      as (Hc & id & Hid & Hn & Ha & Hmin).
    setoid_rewrite elem_of_btree_of_list in Hmin. rewrite elem_of_btree_of_list in Hid. eauto 10.
Qed.

Lemma check_cpu_ids_exact_witness :
  exists e, check_cpu_ids (mk_cpu_info [1; 3]) [7; 1; 5] = Err e /\
    error_code e = NoSuchCpuAvailableInPool.
Proof.
  eexists. split; [reflexivity|].
  destruct (proj2 (check_cpu_ids_exact (mk_cpu_info [1; 3]) [7; 1; 5]) _ eq_refl) as [[_ H]|[H _]];
    [|exact H].
  exfalso. apply H. apply (bool_decide_unpack _). vm_compute. exact I.
Defined.

(** C24: a CPU configuration that is accepted can be satisfied by the pool: a list
    is repetition-free and within the pool, a count is at most the pool's size;
    when both are given the list is used. *)
Theorem get_cpu_config_satisfiable (self : CpuInfo) (args : RunEnclavesArgs) (c : EnclaveCpuConfig) :
  get_cpu_config self args = Ok c ->
  match c with
  | CpuList ids => run_cpu_ids args = Some ids /\ NoDup ids /\ forall id, id ∈ ids -> id ∈ pool self
  | Count n => run_cpu_ids args = None /\ run_cpu_count args = Some n /\
               n <= Z.of_nat (length (pool self))
  end.
Proof.
  unfold get_cpu_config. intros H. destruct (run_cpu_ids args) as [ids|].
  - r_inv. destruct a. simplify_eq. split; [done|]. by apply check_cpu_ids_ok.
  - destruct (run_cpu_count args) as [n|]; [|done].
    destruct (Z.ltb_spec (Z.of_nat (length (pool self))) n); simplify_eq. auto.
Qed.

Lemma get_cpu_config_satisfiable_witness :
  get_cpu_config (mk_cpu_info [1; 3])
    (mk_run_args "" None 0 (Some [3; 1]) false false None None) = Ok (CpuList [3; 1]) /\
  NoDup [3; 1].
Proof.
  split; [reflexivity|].
  apply (get_cpu_config_satisfiable (mk_cpu_info [1; 3])
    (mk_run_args "" None 0 (Some [3; 1]) false false None None) (CpuList [3; 1]) eq_refl).
Defined.

(** The report of duplicated CPUs does not separate the IDs: the duplicates
    1 and 2 are reported with the same text as the duplicate 12. *)
Theorem duplicate_report_ambiguous :
  exists l1 l2, btree_of_list l1 <> btree_of_list l2 /\
    get_duplicate_cpus (btree_of_list l1) l1 = get_duplicate_cpus (btree_of_list l2) l2 /\
    (forall self, is_ok (check_cpu_ids self l1) = false /\ is_ok (check_cpu_ids self l2) = false).
Proof. exists [1; 1; 2; 2], [12; 12]. repeat split; vm_compute; done. Qed.
