(* ===== verification/EnclaveIds.v ===== *)
(** * Enclave IDs, names and socket paths

    src/src/enclave_proc/utils.rs (IDs, flags), src/src/common/mod.rs (socket
    paths), src/src/enclave_proc/mod.rs (logger ID), src/src/lib.rs (naming of
    new enclaves), src/src/utils.rs ([ceil_div]) and the run and terminate
    records of src/src/common/json_output.rs. *)
From S2P Require Import Prelude.
From S2P Require Import RustStd.
From S2P Require Import Failure.
From S2P Require Import CommandsParser.
From stdpp Require Import base list numbers strings sets.
From Stdlib Require Import ZArith Lia Ascii.
Local Open Scope Z_scope.
Local Open Scope nitro_scope.

Definition failure_at (subaction : string) (code : NitroCliErrorEnum) (l : Z) : NitroCliFailure :=
  new_nitro_cli_failure subaction code "src/enclave_proc/utils.rs" l.

(** ** Sizes and flags *)

(* src/src/enclave_proc/utils.rs KiB *)
Definition KiB : Z := 1024.
(* src/src/enclave_proc/utils.rs MiB *)
Definition MiB : Z := 1024 * KiB.
(* src/src/enclave_proc/utils.rs GiB *)
Definition GiB : Z := 1024 * MiB.

(* src/src/enclave_proc/resource_manager.rs NE_ENCLAVE_DEBUG_MODE *)
Definition NE_ENCLAVE_DEBUG_MODE : Z := 0x1.

(* src/src/enclave_proc/utils.rs flags_to_string *)
Definition flags_to_string (flags : Z) : string :=
  if Z.land flags NE_ENCLAVE_DEBUG_MODE =? NE_ENCLAVE_DEBUG_MODE then "DEBUG_MODE" else "NONE".

(* src/src/utils.rs ceil_div *)
Definition ceil_div (lhs rhs : Z) : Z :=
  if rhs =? 0 then u64_MAX
  else lhs / rhs + (if lhs mod rhs =? 0 then 0 else 1).

(** ** Full enclave IDs *)

(** The state of the board asset tag file: its metadata can be read, the
    outcome of opening it, and of reading it. *)
Record AssetTag : Type := mk_asset_tag {
  tag_metadata_ok : bool;
  tag_open : result string unit;
  tag_read : result string string;
}.

Definition ASSET_TAG_PATH : string := "/sys/devices/virtual/dmi/id/board_asset_tag".

(* src/src/enclave_proc/utils.rs generate_enclave_id *)
Definition generate_enclave_id (tag : AssetTag) (slot_id : Z) : NitroCliResult string :=
  if tag_metadata_ok tag then
    let? _ := rmap_err (fun e =>
      add_info [ASSET_TAG_PATH; "Open"]
        (failure_at ("Failed to open file: " +:+ e) FileOperationFailure 99)) (tag_open tag) in
    let? contents := rmap_err (fun e =>
      add_info [ASSET_TAG_PATH; "Read"]
        (failure_at ("Failed to read from file: " +:+ e) FileOperationFailure 107)) (tag_read tag) in
    Ok (retain_non_whitespace contents +:+ "-enc" +:+ show_hex slot_id)
  else Ok ("i-0000000000000000-enc" +:+ show_hex slot_id).

(* src/src/enclave_proc/utils.rs get_slot_id *)
Definition get_slot_id (enclave_id : string) : result string Z :=
  match split_str "-enc" enclave_id !! 1%nat with
  | Some slot_id =>
      rmap_err (fun _ => "Invalid enclave id format"%string) (from_str_radix 16 u64_MAX slot_id)
  | None => Err "Invalid enclave_id."%string
  end.

(** ** Socket paths *)

(* src/src/common/mod.rs SOCKETS_DIR_PATH *)
Definition SOCKETS_DIR_PATH : string := "/run/nitro_enclaves".

(** [env_path] is the value of NITRO_CLI_SOCKETS_PATH. *)
(* src/src/common/mod.rs get_sockets_dir_path *)
Definition get_sockets_dir_path (env_path : option string) : string :=
  match env_path with Some p => p | None => SOCKETS_DIR_PATH end.

(** [Path::join]: an absolute component replaces the path. *)
Definition path_join (base t : string) : string :=
  if starts_with "/" t then t
  else if ends_with "/" base || bool_decide (base = "") then base +:+ t
  else base +:+ "/" +:+ t.

(** The directory part (with its separator) and the name of a path that does
    not end in a separator. *)
Fixpoint path_split (p : string) : string * string :=
  match p with
  | EmptyString => (EmptyString, EmptyString)
  | String c p' =>
      let '(d, f) := path_split p' in
      if Ascii.eqb c "/" then (String c d, f)
      else if bool_decide (d = "") then ("", String c f) else (String c d, f)
  end.

(** Split at the last dot. *)
Fixpoint rsplit_dot (s : string) : option (string * string) :=
  match s with
  | EmptyString => None
  | String c s' =>
      match rsplit_dot s' with
      | Some (before, after) => Some (String c before, after)
      | None => if Ascii.eqb c "." then Some (EmptyString, s') else None
      end
  end.

(** The stem of a file name: what precedes its last dot, unless that dot is
    the first character or there is none. *)
Definition file_stem (name : string) : string :=
  match rsplit_dot name with
  | Some (EmptyString, _) | None => name
  | Some (before, _) => before
  end.

(** [Path::with_extension] on a path whose last component is a file name. *)
Definition with_extension (p ext : string) : string :=
  let '(d, f) := path_split p in d +:+ file_stem f +:+ "." +:+ ext.

(** [rsplit("-enc")] yields at least one token. *)
Definition enclave_token (enclave_id : string) : string := hd "" (rsplit_str "-enc" enclave_id).

(* src/src/common/mod.rs get_socket_path *)
Definition get_socket_path (env_path : option string) (enclave_id : string) : NitroCliResult string :=
  Ok (with_extension (path_join (get_sockets_dir_path env_path) (enclave_token enclave_id)) "sock").

(* src/src/enclave_proc/mod.rs get_logger_id *)
Definition get_logger_id (process_id : Z) (enclave_id : string) : string :=
  "enc-" +:+ enclave_token enclave_id +:+ ":" +:+ show_u process_id.

(** ** The information printed about a run and a termination *)

(* src/src/common/json_output.rs EnclaveRunInfo *)
Record EnclaveRunInfo : Type := mk_run_info {
  ri_enclave_name : string;
  ri_enclave_id : string;
  ri_process_id : Z;
  ri_enclave_cid : Z;
  ri_cpu_count : Z;
  ri_cpu_ids : list Z;
  ri_memory_mib : Z;
}.

(* src/src/common/json_output.rs EnclaveRunInfo::new *)
Definition run_info_new (process_id : Z) (enclave_name enclave_id : string) (enclave_cid : Z)
    (cpu_count : Z) (cpu_ids : list Z) (memory_mib : Z) : EnclaveRunInfo :=
  mk_run_info enclave_name enclave_id process_id enclave_cid cpu_count cpu_ids memory_mib.

(* src/src/common/json_output.rs EnclaveTerminateInfo *)
Record EnclaveTerminateInfo : Type := mk_terminate_info {
  ti_enclave_name : option string;
  ti_enclave_id : string;
  ti_terminated : bool;
}.

(* src/src/enclave_proc/utils.rs get_run_enclaves_info *)
Definition get_run_enclaves_info (tag : AssetTag) (process_id : Z) (enclave_name : string)
    (enclave_cid slot_id : Z) (cpu_ids : list Z) (memory : Z) : NitroCliResult EnclaveRunInfo :=
  let? enclave_id := generate_enclave_id tag slot_id in
  Ok (run_info_new process_id enclave_name enclave_id enclave_cid
        (Z.of_nat (length cpu_ids)) cpu_ids memory).

(** ** Naming a new enclave *)

Definition last_str (l : list string) : string := default "" (last l).

(** [enclave_name.clone() + &'_'.to_string() + &idx.to_string()] *)
Definition indexed_name (enclave_name : string) (idx : nat) : string :=
  enclave_name +:+ "_" +:+ show_u (Z.of_nat idx).

(** The [while] loop; [None] when the fuel runs out. *)
Fixpoint find_free_name (fuel : nat) (names : list string) (enclave_name : string) (idx : nat)
    (result_name : string) : option string :=
  match fuel with
  | O => None
  | S f =>
      if decide (result_name ∈ names)
      then find_free_name f names enclave_name (S idx) (indexed_name enclave_name (S idx))
      else Some result_name
  end.

(** The name asked for, or the one taken from the path of the image. *)
Definition base_name (run_args : RunEnclavesArgs) : string :=
  match run_enclave_name run_args with
  | Some enclave_name => enclave_name
  | None => trim_end_matches ".eif" (last_str (split_char "/" (run_eif_path run_args)))
  end.

(* src/src/lib.rs new_enclave_name *)
Definition new_enclave_name (run_args : RunEnclavesArgs) (names : list string) :
    option (NitroCliResult string) :=
  let enclave_name := base_name run_args in
  option_map Ok (find_free_name (S (length names)) names enclave_name 0 enclave_name).

(** ** Lemmas on tokens *)

(** No match of [pat] starts inside [s] when [s] is followed by [rest]. *)
Fixpoint no_match (pat s rest : string) : Prop :=
  match s with
  | EmptyString => True
  | String _ s' => starts_with pat (s +:+ rest) = false /\ no_match pat s' rest
  end.

Lemma split_str_go_no_match c pat s t :
  no_match (String c pat) s (String c pat +:+ t) ->
  split_str_go (String c pat) 0 (s +:+ (String c pat +:+ t)) = s :: split_str_go (String c pat) 0 t.
Proof.
  induction s as [|a s IH]; intros H.
  - change ("" +:+ (String c pat +:+ t)) with (String c (pat +:+ t)).
    cbn [split_str_go starts_with].
    rewrite Ascii.eqb_refl, starts_with_app. cbn [andb String.length].
    rewrite Nat.sub_succ, Nat.sub_0_r. by rewrite split_str_go_skip.
  - destruct H as [H1 H2].
    change (String a s +:+ (String c pat +:+ t)) with (String a (s +:+ (String c pat +:+ t))) in *.
    cbn [split_str_go]. rewrite H1. by rewrite IH.
Qed.

Lemma split_str_go_nonempty pat k s : split_str_go pat k s <> [].
Proof.
  revert k; induction s as [|c s IH]; intros k; simpl; [done|].
  destruct k; [|apply IH]. case_match; [done|].
  destruct (split_str_go pat 0 s) eqn:E; [by apply IH in E | done].
Qed.

(** A character that is neither of the letters of ["-enc"] outside the hex
    digits separates a hex number from the pattern read backwards. *)
Definition is_lower_hex (c : ascii) : bool :=
  is_numeric c || ((97 <=? code c) && (code c <=? 102)).

Lemma lower_hex_not_n c : is_lower_hex c = true -> Ascii.eqb "n" c = false.
Proof.
  intros H. apply Ascii.eqb_neq. intros <-. vm_compute in H. done.
Qed.

Lemma no_match_rev_hex s t :
  str_forall is_lower_hex s = true -> no_match "cne-" s ("cne-" +:+ t).
Proof.
  induction s as [|c s IH]; [done|]. cbn [str_forall]. rewrite andb_true_iff. intros [Hc Hs].
  split; [|by apply IH].
  change (String c s +:+ ("cne-" +:+ t)) with (String c (s +:+ ("cne-" +:+ t))).
  cbn [starts_with]. destruct (Ascii.eqb "c" c); [|done]. cbn [andb].
  destruct s as [|c2 s2]; [done|]. cbn [str_forall] in Hs. apply andb_true_iff in Hs as [Hc2 _].
  change (String c2 s2 +:+ ("cne-" +:+ t)) with (String c2 (s2 +:+ ("cne-" +:+ t))).
  cbn [starts_with]. by rewrite lower_hex_not_n.
Qed.

Lemma show_hex_lower n : 0 <= n -> str_forall is_lower_hex (show_hex n) = true.
Proof.
  intros Hn. unfold show_hex, show_radix.
  enough (forall fuel m acc, 0 <= m -> str_forall is_lower_hex acc = true ->
    str_forall is_lower_hex (show_go false fuel 16 m acc) = true) as H by by apply H.
  clear n Hn. induction fuel as [|f IH]; intros m acc Hm Hacc; [done|]. cbn [show_go].
  assert (is_lower_hex (digit_char false (m mod 16)) = true) as Hd.
  { assert (0 <= m mod 16 < 16) as Hb by (apply Z.mod_pos_bound; lia).
    generalize dependent (m mod 16). intros d Hd. pattern d. apply digit_cases; [lia|].
    repeat constructor. }
  assert (str_forall is_lower_hex (String (digit_char false (m mod 16)) acc) = true) as Hs
    by (cbn [str_forall]; by rewrite Hd).
  destruct (m <? 16); [done|]. apply IH; [apply Z.div_pos; lia | done].
Qed.

(** The token of a generated ID is the slot in hexadecimal, whatever comes
    before the last ["-enc"]. *)
Lemma enclave_token_generated prefix slot :
  0 <= slot -> enclave_token (prefix +:+ ("-enc" +:+ show_hex slot)) = show_hex slot.
Proof.
  intros Hs. unfold enclave_token, rsplit_str, split_str.
  rewrite !str_rev_append, str_app_assoc.
  change (str_rev "-enc") with "cne-"%string.
  rewrite split_str_go_no_match.
  - simpl. apply str_rev_involutive.
  - apply no_match_rev_hex. rewrite str_forall_rev. by apply show_hex_lower.
Qed.

(** *** Splitting from the left *)

Lemma no_match_contains s t : str_contains "-enc" s = false -> no_match "-enc" s ("-enc" +:+ t).
Proof.
  induction s as [|c s IH]; [done|]. cbn [str_contains]. rewrite orb_false_iff. intros [H1 H2].
  split; [|by apply IH]. clear IH H2.
  change (String c s +:+ ("-enc" +:+ t)) with (String c (s +:+ ("-enc" +:+ t))).
  cbn [starts_with] in *. destruct (Ascii.eqb "-" c); [|done]. cbn [andb] in *.
  destruct s as [|c1 s]; [done|].
  change (String c1 s +:+ ("-enc" +:+ t)) with (String c1 (s +:+ ("-enc" +:+ t))).
  cbn [starts_with] in *. destruct (Ascii.eqb "e" c1); [|done]. cbn [andb] in *.
  destruct s as [|c2 s]; [done|].
  change (String c2 s +:+ ("-enc" +:+ t)) with (String c2 (s +:+ ("-enc" +:+ t))).
  cbn [starts_with] in *. destruct (Ascii.eqb "n" c2); [|done]. cbn [andb] in *.
  destruct s as [|c3 s]; [done|].
  change (String c3 s +:+ ("-enc" +:+ t)) with (String c3 (s +:+ ("-enc" +:+ t))).
  cbn [starts_with] in *. destruct (Ascii.eqb "c" c3); done.
Qed.

Lemma lower_hex_not_dash c : is_lower_hex c = true -> negb (Ascii.eqb "-" c) = true.
Proof. intros H. apply negb_true_iff, Ascii.eqb_neq. intros <-. vm_compute in H. done. Qed.

Lemma str_forall_impl (p q : ascii -> bool) s :
  (forall c, p c = true -> q c = true) -> str_forall p s = true -> str_forall q s = true.
Proof.
  intros Hpq. induction s; simpl; [done|]. rewrite !andb_true_iff. intros [? ?]. auto.
Qed.

Lemma from_str_radix_hex slot : 0 <= slot <= u64_MAX -> from_str_radix 16 u64_MAX (show_hex slot) = Ok slot.
Proof. intros. unfold show_hex. apply from_str_radix_show; lia. Qed.

Lemma get_slot_id_generated prefix slot :
  0 <= slot <= u64_MAX -> str_contains "-enc" prefix = false ->
  get_slot_id (prefix +:+ ("-enc" +:+ show_hex slot)) = Ok slot.
Proof.
  intros Hs Hp. unfold get_slot_id, split_str.
  rewrite split_str_go_no_match by by apply no_match_contains.
  rewrite split_str_go_absent; [|eapply str_forall_impl; [apply lower_hex_not_dash|apply show_hex_lower; lia]].
  simpl. by rewrite from_str_radix_hex.
Qed.

(** *** Paths *)

Lemma lower_hex_not_char (x : ascii) s :
  is_lower_hex x = false -> str_forall is_lower_hex s = true ->
  str_forall (fun c => negb (Ascii.eqb c x)) s = true.
Proof.
  intros Hx. apply str_forall_impl. intros c Hc. apply negb_true_iff, Ascii.eqb_neq. congruence.
Qed.

Lemma rsplit_dot_none s : str_forall (fun c => negb (Ascii.eqb c ".")) s = true -> rsplit_dot s = None.
Proof.
  induction s as [|c s IH]; [done|]. cbn [str_forall rsplit_dot].
  rewrite andb_true_iff, negb_true_iff. intros [-> H]. by rewrite IH.
Qed.

Lemma path_split_name s :
  str_forall (fun c => negb (Ascii.eqb c "/")) s = true -> path_split s = ("", s)%string.
Proof.
  induction s as [|c s IH]; [done|]. cbn [str_forall path_split].
  rewrite andb_true_iff, negb_true_iff. intros [-> H]. by rewrite IH.
Qed.

Lemma path_split_dir d s :
  str_forall (fun c => negb (Ascii.eqb c "/")) s = true ->
  path_split (d +:+ String "/" s) = (d +:+ "/", s)%string.
Proof.
  intros Hs. induction d as [|c d IH].
  - change ("" +:+ String "/" s) with (String "/" s). cbn [path_split].
    by rewrite path_split_name.
  - change (String c d +:+ String "/" s) with (String c (d +:+ String "/" s)). cbn [path_split].
    rewrite IH. destruct (Ascii.eqb c "/"); [done|]. rewrite bool_decide_eq_false_2; [done|].
    by destruct d.
Qed.

Lemma socket_file_of_token dir slot :
  0 <= slot -> ends_with "/" dir = false -> dir <> ""%string ->
  with_extension (path_join dir (show_hex slot)) "sock" = dir +:+ "/" +:+ show_hex slot +:+ ".sock".
Proof.
  intros Hs Hd Hne. pose proof (show_hex_lower slot Hs) as Hl. unfold path_join.
  destruct (show_radix_nonempty false 16 ltac:(lia) slot Hs) as (d & s & Hdd & E).
  assert (starts_with "/" (show_hex slot) = false) as Hsl.
  { unfold show_hex in *. rewrite E in *. cbn [str_forall] in Hl. apply andb_true_iff in Hl as [Hl _].
    cbn [starts_with]. destruct (Ascii.eqb_spec "/" (digit_char false d)) as [Ed|]; [|done].
    rewrite <- Ed in Hl. vm_compute in Hl. done. }
  rewrite Hsl, Hd, bool_decide_eq_false_2 by done. cbn [orb]. unfold with_extension.
  change ("/" +:+ show_hex slot) with (String "/" (show_hex slot)).
  rewrite path_split_dir by (by apply lower_hex_not_char).
  unfold file_stem. rewrite rsplit_dot_none by (by apply lower_hex_not_char).
  by rewrite str_app_assoc.
Qed.

(** ** Lemmas on naming *)

Lemma indexed_name_inj name i j : indexed_name name i = indexed_name name j -> i = j.
Proof.
  unfold indexed_name. intros H%str_app_inj_l%(str_app_inj_l "_").
  apply show_radix_inj in H; lia.
Qed.

(** The candidate tried at the [k]-th iteration. *)
Definition candidate (name : string) (k : nat) : string :=
  match k with O => name | S _ => indexed_name name k end.

Lemma candidate_inj name i j : candidate name i = candidate name j -> i = j.
Proof.
  assert (forall k, indexed_name name (S k) <> name) as Hne.
  { intros k H. apply (f_equal String.length) in H. unfold indexed_name in H.
    assert (forall a b, String.length (a +:+ b) = (String.length a + String.length b)%nat) as Hl
      by (induction a; intros; simpl; auto).
    rewrite !Hl in H. simpl in H. lia. }
  destruct i, j; simpl; intros H; try done.
  - by destruct (Hne j).
  - by destruct (Hne i).
  - apply indexed_name_inj in H. lia.
Qed.

Lemma find_free_name_spec names name fuel k :
  match find_free_name fuel names name k (candidate name k) with
  | Some r => exists n, (k <= n < k + fuel)%nat /\ r = candidate name n /\ ~ r ∈ names /\
                forall i, (k <= i < n)%nat -> candidate name i ∈ names
  | None => forall i, (k <= i < k + fuel)%nat -> candidate name i ∈ names
  end.
Proof.
  revert k; induction fuel as [|f IH]; intros k; cbn [find_free_name]; [intros; lia|].
  destruct (decide (candidate name k ∈ names)) as [Hin|Hnin].
  - change (indexed_name name (S k)) with (candidate name (S k)).
    specialize (IH (S k)). destruct (find_free_name f names name (S k) _).
    + destruct IH as (n & Hn & -> & Hnn & Hall). exists n. repeat split; try done; try lia.
      intros i Hi. destruct (decide (i = k)) as [->|]; [done|]. apply Hall. lia.
    + intros i Hi. destruct (decide (i = k)) as [->|]; [done|]. apply IH. lia.
  - exists k. repeat split; try done; try lia.
Qed.

(** [length names + 1] candidates cannot all be taken. *)
Lemma candidates_not_all_taken names name :
  ~ forall i, (0 <= i < 0 + S (length names))%nat -> candidate name i ∈ names.
Proof.
  intros H.
  assert (length (map (candidate name) (seq 0 (S (length names)))) <= length names)%nat as Hlen.
  { apply submseteq_length, NoDup_submseteq.
    - apply NoDup_fmap_2_strong; [intros i j _ _; apply candidate_inj | apply NoDup_seq].
    - intros x Hx%list_elem_of_In%in_map_iff. destruct Hx as (i & <- & Hi%in_seq). apply H. lia. }
  rewrite length_map, length_seq in Hlen. lia.
Qed.

(** ** Properties *)

(** C39: an enclave ID and its slot determine each other: the ID generated for a
    slot names the socket file "<slot in hex>.sock" of the sockets directory,
    whatever the instance's asset tag contains, so distinct slots have distinct
    sockets; and reading the slot back from the ID gives the slot, provided the
    tag itself does not contain "-enc". *)
Theorem enclave_id_roundtrip (tag : AssetTag) (env_path : option string) (slot : Z) (id : string) :
  0 <= slot <= u64_MAX -> generate_enclave_id tag slot = Ok id ->
  ends_with "/" (get_sockets_dir_path env_path) = false ->
  get_sockets_dir_path env_path <> ""%string ->
  get_socket_path env_path id =
    Ok (get_sockets_dir_path env_path +:+ "/" +:+ show_hex slot +:+ ".sock") /\
  ((forall contents, tag_read tag = Ok contents ->
      str_contains "-enc" (retain_non_whitespace contents) = false) ->
   get_slot_id id = Ok slot).
Proof.
  intros Hs Hid Hd Hne.
  assert (exists prefix, id = prefix +:+ ("-enc" +:+ show_hex slot) /\
    ((forall contents, tag_read tag = Ok contents ->
      str_contains "-enc" (retain_non_whitespace contents) = false) ->
      str_contains "-enc" prefix = false)) as (prefix & -> & Hp).
  { unfold generate_enclave_id in Hid. destruct (tag_metadata_ok tag).
    - r_inv. simplify_eq. eexists. split; [done|]. eauto.
    - simplify_eq. exists "i-0000000000000000"%string. split; [done|]. intros _. done. }
  split; [|intros Ht; apply get_slot_id_generated; auto].
  unfold get_socket_path. rewrite enclave_token_generated by lia.
  by rewrite socket_file_of_token by (done || lia).
Qed.

Lemma enclave_id_roundtrip_witness :
  let tag := mk_asset_tag true (Ok tt) (Ok "i-0ab2 ") in
  generate_enclave_id tag 300 = Ok "i-0ab2-enc12c"%string /\ get_slot_id "i-0ab2-enc12c" = Ok 300 /\
  get_socket_path None "i-0ab2-enc12c" = Ok "/run/nitro_enclaves/12c.sock"%string.
Proof.
  intros tag. split; [reflexivity|].
  destruct (enclave_id_roundtrip tag None 300 "i-0ab2-enc12c") as [H1 H2];
    [unfold u64_MAX; lia | reflexivity | reflexivity | done |].
  split; [|exact H1]. apply H2. intros c [= <-]. reflexivity.
Defined.

(** Choosing a name always succeeds; the result is not the name of a running
    enclave, and it is the first free one of: the requested (or image) name,
    that name with suffix "_1", "_2", and so on. *)
Theorem new_enclave_name_fresh (run_args : RunEnclavesArgs) (names : list string) :
  exists n, new_enclave_name run_args names = Some (Ok (candidate (base_name run_args) n)) /\
    ~ candidate (base_name run_args) n ∈ names /\
    forall i, (i < n)%nat -> candidate (base_name run_args) i ∈ names.
Proof.
  unfold new_enclave_name.
  pose proof (find_free_name_spec names (base_name run_args) (S (length names)) 0) as H.
  simpl candidate in H. destruct (find_free_name _ _ _ _ _) as [r|] eqn:E.
  - destruct H as (n & Hn & -> & Hnin & Hall). exists n. split; [done|]. split; [done|].
    intros i Hi. apply Hall. lia.
  - by destruct (candidates_not_all_taken names (base_name run_args)).
Qed.
