(* ===== verification/Os.v ===== *)
(** * The operating system as the program sees it

    The program's effects are system calls. [World] holds what they act on: the
    log of the calls made so far, the bytes of mapped memory, and the bytes that
    the peer of each stream will have sent and that are still unread. What the
    system answers is not code of the repository: it is the class [Kernel],
    whose answers may depend on the whole history, and which the components
    take as a parameter. Serialization (serde_cbor, serde_json) is a parameter
    in the same way, with its round-trip law in [SerdeLaws]. *)
From S2P Require Import Prelude.
From S2P Require Import RustStd.
From S2P Require Import Failure.
From S2P Require Import DocumentErrors.
From S2P Require Import EnclaveIds.
From stdpp Require Import base list numbers strings gmap.
From Stdlib Require Import ZArith Lia.
Local Open Scope Z_scope.
Local Open Scope nitro_scope.

(** ** Calls *)

(** The argument structures of the driver's ioctls
    (src/driver-bindings/src/bindings.rs). *)
Inductive IoctlArg : Type :=
| ArgU64 (v : Z)
| ArgU32 (v : Z)
| ArgImageLoadInfo (flags memory_offset : Z)
| ArgUserMemoryRegion (flags memory_size userspace_addr : Z)
| ArgStartInfo (flags enclave_cid : Z).

(** System calls whose answer is a list of numbers or the text of an error. *)
Inductive Syscall : Type :=
| SysEpollCreate
| SysEpollWait (epoll_fd : Z)
| SysSocketPair
| SysUnixBind (path : string)
| SysUnixConnect (path : string)
| SysSetPassCred (fd : Z)
| SysSetPermissions (fd mode : Z)
| SysRemoveFile (path : string)
| SysPathExists (path : string)
| SysInotifyInit
| SysInotifyAdd (fd : Z) (path : string)
| SysVsockSocket (nonblocking : bool)
| SysVsockTimeout (fd millis : Z)
| SysVsockConnect (fd cid port : Z)
| SysEpollCtlAdd (epoll_fd fd : Z)
| SysTimerCreate
| SysTimerArm (fd secs : Z)
| SysRead (fd len : Z)
| SysWriteOut (bytes : list Z)
| SysSleep (millis : Z)
| SysElapsed
| SysOpenAppend (path : string)
| SysFileOwner (fd : Z)
| SysAppend (fd : Z) (text : string)
| SysFork
| SysFcntlGet (fd : Z)
| SysFcntlSet (fd flags : Z)
| SysDaemon
| SysGetPid
| SysGetPpid
| SysSigMask (block : bool) (signals : list Z)
| SysSigWait (signals : list Z).

Inductive Event : Type :=
| EvMmap (len flags : Z) (addr : option Z)
| EvMunmap (addr len rc : Z)
| EvIoctl (fd code : Z) (arg : IoctlArg) (rc : Z)
| EvClose (fd rc : Z)
| EvOpenDevice (fd : result string Z)
| EvVsockBind (cid port : Z) (fd : option Z)
| EvPoll (fd timeout_ms : Z) (ready : option Z)
| EvAccept (fd : Z) (stream : option Z)
| EvRead (fd : Z) (answer : option (list Z))
| EvWrite (fd : Z) (bytes : list Z) (err : option string)
| EvShutdown (fd : Z) (err : option string)
| EvEpollAdd (fd : Z) (err : option string)
| EvEpollDel (fd : Z) (err : option string)
| EvSys (call : Syscall) (answer : result string (list Z))
| EvPrint (to_stderr : bool) (msg : string)
| EvNotify (msg : string).

Abbreviation log := (list Event).

Class Kernel : Type := {
  (** Address, or [None] for MAP_FAILED. *)
  k_mmap : log -> Z -> Z -> option Z;
  k_munmap : log -> Z -> Z -> Z;
  (** Return code, [errno], and the argument as the driver leaves it. *)
  k_ioctl : log -> Z -> Z -> IoctlArg -> Z * Z * IoctlArg;
  k_close : log -> Z -> Z;
  k_open_device : log -> result string Z;
  (** Descriptor of the listener. *)
  k_vsock_bind : log -> Z -> Z -> option Z;
  (** Number of ready descriptors (0: time-out), or [None] for an error. *)
  k_poll : log -> Z -> Z -> option Z;
  k_accept : log -> Z -> option Z;
  (** The bytes of one [read] of at most the given number, or an error. *)
  k_read : log -> Z -> Z -> option (list Z);
  (** [None] when the write went through, else the error's text. *)
  k_write : log -> Z -> list Z -> option string;
  k_shutdown : log -> Z -> option string;
  k_epoll_add : log -> Z -> option string;
  k_epoll_del : log -> Z -> option string;
  k_sys : log -> Syscall -> result string (list Z);
  (** How many times a wait is interrupted by a signal before it ends. *)
  k_interruptions : log -> nat;
  (** Credentials of a stream's peer: user and group. *)
  k_peer_credentials : Z -> result string (Z * Z);
  (** The terminating threads, by number, that make their next step while the
      event loop waits, in that order. *)
  k_threads : log -> list nat;
  k_getuid : Z;
  k_process_id : Z;
}.

(** The environment of the process: variables and files that are read but not
    changed. *)
Class Env : Type := {
  env_log : LogEnv;
  env_backtrace : option string;
  env_asset_tag : AssetTag;
  env_sockets_path : option string;
}.

(** [construct_error_message] in this environment. *)
Definition error_message `{Env} (f : NitroCliFailure) : string :=
  construct_error_message env_log env_backtrace f.

Record World : Type := mk_world {
  w_log : log;
  w_mem : gmap Z Z;
  w_in : gmap Z (list Z);
}.

Definition add_event (e : Event) (w : World) : World := mk_world (w_log w ++ [e]) (w_mem w) (w_in w).
Definition set_mem (m : gmap Z Z) (w : World) : World := mk_world (w_log w) m (w_in w).
Definition set_in (i : gmap Z (list Z)) (w : World) : World := mk_world (w_log w) (w_mem w) i.

(** The computations of the program over the world. *)
Abbreviation IO := (M NitroCliFailure World).

Definition emit (e : Event) : IO unit := modify (add_event e).

(** [notify_error]: the message goes to the standard error and to the log. *)
(* src/src/common/mod.rs notify_error *)
Definition notify_error (err_msg : string) : IO unit := emit (EvNotify err_msg).

(** The exit status that [std::process::exit] is given is the discriminant. *)
(* src/src/common/mod.rs ExitGracefully::ok_or_exit_with_errno *)
Definition ok_or_exit_with_errno `{Env} {A} (additional_info : option string) (r : NitroCliResult A)
    : IO A :=
  match r with
  | Ok val => ret val
  | Err err =>
      let err_str := error_message err in
      do! notify_error
            (match additional_info with
             | Some additional_info_str => additional_info_str +:+ " | " +:+ err_str
             | None => err_str
             end)%string;
      exit (error_discriminant (error_code err))
  end.

Lemma ok_or_exit_err `{Env} {A} info (e : NitroCliFailure) w :
  exists msg, ok_or_exit_with_errno (A := A) info (Err e) w =
    (Exit (error_discriminant (error_code e)), add_event (EvNotify msg) w).
Proof. by eexists. Qed.

(** [print!] and [eprint!], and the same with a line feed. *)
Definition print {E} (msg : string) : M E World unit := modify (add_event (EvPrint false msg)).
Definition eprint {E} (msg : string) : M E World unit := modify (add_event (EvPrint true msg)).
Definition println {E} (msg : string) : M E World unit := print (msg +:+ String LF "").
Definition eprintln {E} (msg : string) : M E World unit := eprint (msg +:+ String LF "").

(** ** Mutexes *)

Record Mutex (A : Type) : Type := mk_mutex { poisoned : bool; guarded : A }.
Arguments mk_mutex {A} _ _.
Arguments poisoned {A} _.
Arguments guarded {A} _.

(** The text of the error of [lock()] on a poisoned mutex. *)
Definition poison_error : string := "PoisonError { .. }".

(** ** Serialization *)

Class Serde (T : Type) : Type := {
  to_vec : T -> result string (list Z);
  from_slice : list Z -> result string T;
}.

(** A [Vec] holds at most [isize::MAX] bytes, and decoding inverts encoding. *)
Definition isize_MAX : Z := 2 ^ 63 - 1.

Class SerdeLaws (T : Type) `{Serde T} : Prop := {
  serde_roundtrip : forall (x : T) bs, to_vec x = Ok bs -> from_slice bs = Ok x;
  serde_length : forall (x : T) bs, to_vec x = Ok bs -> Z.of_nat (length bs) <= isize_MAX;
}.

(** [serde_json::to_string_pretty] and [serde_json::from_str] *)
Class ToJson (T : Type) : Type := to_string_pretty : T -> result string string.
Class FromJson (T : Type) : Type := from_json : string -> result string T.

(** ** Streams *)

Section Streams.
Context `{Kernel}.

(** [write_all] on the stream [fd]. *)
Definition write_all (fd : Z) (bytes : list Z) : M string World unit :=
  fun w =>
    let r := k_write (w_log w) fd bytes in
    (Return (match r with None => Ok tt | Some e => Err e end), add_event (EvWrite fd bytes r) w).

(** [read_exact]: [n] bytes of what the peer sends, or an error when it sends
    less before closing. *)
Definition read_exact (fd : Z) (n : nat) : M string World (list Z) :=
  fun w =>
    let avail := default [] (w_in w !! fd) in
    if (n <=? length avail)%nat
    then (Return (Ok (take n avail)), set_in (<[fd := drop n avail]> (w_in w)) w)
    else (Return (Err "failed to fill whole buffer"%string), set_in (<[fd := []]> (w_in w)) w).

Definition shutdown (fd : Z) : M string World unit :=
  fun w =>
    let r := k_shutdown (w_log w) fd in
    (Return (match r with None => Ok tt | Some e => Err e end), add_event (EvShutdown fd r) w).
End Streams.

(** ** Descriptors *)

Section Descriptors.
Context `{Kernel}.

(** [libc::close] *)
Definition close {E} (fd : Z) : M E World Z :=
  fun w =>
    let rc := k_close (w_log w) fd in
    (Return (Ok rc), add_event (EvClose fd rc) w).

(** Run [m] while owning [fd], which is closed when [m] is over. *)
Definition owning {E A} (fd : Z) (m : M E World A) : M E World A :=
  let! r := try m in
  let! _ := close fd in
  of_result r.

(** Run [m] and close [fd] if it fails: otherwise the descriptor is handed on. *)
Definition lending {E A} (fd : Z) (m : M E World A) : M E World A :=
  let! r := try m in
  match r with
  | Ok a => ret a
  | Err e => let! _ := close fd in fail e
  end.

Definition vsock_bind {E} (cid port : Z) : M E World (option Z) :=
  fun w =>
    let r := k_vsock_bind (w_log w) cid port in
    (Return (Ok r), add_event (EvVsockBind cid port r) w).

Definition poll {E} (fd timeout_ms : Z) : M E World (option Z) :=
  fun w =>
    let r := k_poll (w_log w) fd timeout_ms in
    (Return (Ok r), add_event (EvPoll fd timeout_ms r) w).

Definition accept {E} (fd : Z) : M E World (option Z) :=
  fun w =>
    let r := k_accept (w_log w) fd in
    (Return (Ok r), add_event (EvAccept fd r) w).

Definition read {E} (fd len : Z) : M E World (option (list Z)) :=
  fun w =>
    let r := k_read (w_log w) fd len in
    (Return (Ok r), add_event (EvRead fd r) w).
End Descriptors.

Section Syscalls.
Context `{Kernel}.

Definition syscall (call : Syscall) : M string World (list Z) :=
  fun w =>
    let r := k_sys (w_log w) call in
    (Return r, add_event (EvSys call r) w).
End Syscalls.

Lemma owning_ok `{Kernel} {E A} fd (m : M E World A) w a w' :
  owning fd m w = (Return (Ok a), w') ->
  exists w1 rc, m w = (Return (Ok a), w1) /\ w' = add_event (EvClose fd rc) w1.
Proof.
  unfold owning. intros Eo. m_inv. apply try_inv in Eo0. unfold of_result, close in *. simplify_eq. eauto.
Qed.

(** [m_inv], also through changes of the error type and plain results. *)
Ltac io_inv :=
  repeat (m_inv;
    match goal with
    | H : map_err_to _ _ _ = (Return (Ok _), _) |- _ => apply map_err_to_ok_inv in H
    | H : of_result (rmap_err _ ?r) _ = (Return (Ok _), _) |- _ =>
        unfold of_result in H; let E := fresh "E" in destruct r eqn:E; simpl in H; simplify_eq
    end); m_inv.

(** The bytes successfully written on a stream. *)
Fixpoint written (fd : Z) (l : log) : list Z :=
  match l with
  | [] => []
  | EvWrite fd' bytes None :: l' => if fd =? fd' then bytes ++ written fd l' else written fd l'
  | _ :: l' => written fd l'
  end.

Lemma written_app fd l1 l2 : written fd (l1 ++ l2) = written fd l1 ++ written fd l2.
Proof.
  induction l1 as [|e l1 IH]; [done|].
  destruct e; simpl; rewrite ?IH; try done.
  destruct err; [done|]. case_match; [by rewrite app_assoc | done].
Qed.
