(* ===== verification/Bindings.v ===== *)
(** * The driver's structures in memory (src/driver-bindings/src/bindings.rs)

    The bindings are C structures: the fields are laid out in order, each at a
    multiple of its alignment, as [repr(C)] promises. Here is the layout as a
    function of the fields, the bytes of a structure on a little-endian machine,
    and the tests of the layout that the bindings come with. *)
From S2P Require Import Prelude.
From S2P Require Import RustStd.
From S2P Require Import Os.
From stdpp Require Import base list numbers strings.
From Stdlib Require Import ZArith Lia.
Local Open Scope nat_scope.

(** ** C structures *)

(** The types of the fields; every one is aligned to its size. *)
Inductive CType : Type := c_uint | c_ulonglong.
Definition width (t : CType) : nat := match t with c_uint => 4 | c_ulonglong => 8 end.

(** The fields in order, with their names. *)
Abbreviation CStruct := (list (string * CType)).

(** The bytes left out before an address that is to be a multiple of [a]. *)
Definition padding (pos a : nat) : nat := (a - pos mod a) mod a.

(** The offsets of the fields, for a structure whose first [pos] bytes are used,
    and where the last field ends. *)
Fixpoint offsets (pos : nat) (s : CStruct) : list (string * nat) :=
  match s with
  | [] => []
  | (name, t) :: s =>
      let at_ := pos + padding pos (width t) in (name, at_) :: offsets (at_ + width t) s
  end.
Fixpoint fields_end (pos : nat) (s : CStruct) : nat :=
  match s with
  | [] => pos
  | (_, t) :: s => fields_end (pos + padding pos (width t) + width t) s
  end.
Definition align_of (s : CStruct) : nat := foldr (fun f a => width (snd f) `max` a) 1 s.
Definition size_of (s : CStruct) : nat :=
  let e := fields_end 0 s in e + padding e (align_of s).

(** The bytes of the fields, and of the structure with the bytes that are left
    over at its end. *)
Fixpoint field_bytes (pos : nat) (s : CStruct) (vs : list Z) : list Z :=
  match s, vs with
  | (_, t) :: s, v :: vs =>
      let gap := padding pos (width t) in
      replicate gap 0%Z ++ to_le_bytes (width t) v ++ field_bytes (pos + gap + width t) s vs
  | _, _ => []
  end.
Definition struct_bytes (s : CStruct) (vs : list Z) : list Z :=
  field_bytes 0 s vs ++ replicate (padding (fields_end 0 s) (align_of s)) 0%Z.

(** Reading the fields back. *)
Fixpoint read_fields (pos : nat) (s : CStruct) (bytes : list Z) : list Z :=
  match s with
  | [] => []
  | (_, t) :: s =>
      let at_ := pos + padding pos (width t) in
      from_le_bytes (take (width t) (drop at_ bytes)) :: read_fields (at_ + width t) s bytes
  end.

Definition fits (t : CType) (v : Z) : Prop := (0 <= v < 256 ^ Z.of_nat (width t))%Z.

Lemma length_field_bytes s : forall pos vs, length vs = length s ->
  pos + length (field_bytes pos s vs) = fields_end pos s.
Proof.
  induction s as [|[name t] s IH]; intros pos vs Hl.
  { rewrite (nil_length_inv vs Hl). simpl. lia. }
  destruct vs as [|v vs]; [done|]. cbn [length fields_end field_bytes] in *.
  rewrite <- (IH _ vs) by lia. rewrite !length_app, length_replicate, length_to_le_bytes. lia.
Qed.

(** A structure has as many bytes as its size says. *)
Lemma length_struct_bytes s vs : length vs = length s -> length (struct_bytes s vs) = size_of s.
Proof.
  intros Hl. unfold struct_bytes, size_of. rewrite length_app, length_replicate.
  pose proof (length_field_bytes s 0 vs Hl). lia.
Qed.

Lemma read_field_bytes s : forall before vs tail,
  Forall2 (fun f v => fits (snd f) v) s vs ->
  read_fields (length before) s (before ++ field_bytes (length before) s vs ++ tail) = vs.
Proof.
  induction s as [|[name t] s IH]; intros before vs tail Hf.
  { by apply Forall2_nil_inv_l in Hf as ->. }
  apply Forall2_cons_inv_l in Hf as (v & vs' & Hv & Hf & ->).
  cbn [read_fields field_bytes]. set (gap := padding (length before) (width t)).
  set (b1 := before ++ replicate gap 0%Z). set (b2 := b1 ++ to_le_bytes (width t) v).
  assert (length b1 = length before + gap) as L1 by (unfold b1; by rewrite length_app, length_replicate).
  assert (length b2 = length before + gap + width t) as L2
    by (unfold b2; by rewrite length_app, L1, length_to_le_bytes).
  rewrite <- L2. replace (before ++ _ ++ tail) with (b2 ++ field_bytes (length b2) s vs' ++ tail)
    by (unfold b2, b1; by rewrite <- !app_assoc).
  f_equal; [|by apply IH]. unfold b2 at 1. rewrite <- app_assoc, drop_app_length' by done.
  rewrite take_app_length' by (by rewrite length_to_le_bytes). by apply le_bytes_roundtrip.
Qed.

(** What is stored in a structure can be read back. *)
Lemma read_struct_bytes s vs :
  Forall2 (fun f v => fits (snd f) v) s vs -> read_fields 0 s (struct_bytes s vs) = vs.
Proof. apply (read_field_bytes s []). Qed.

(** ** The bindings *)

(* src/driver-bindings/src/bindings.rs:30-35 ne_image_load_info *)
Definition ne_image_load_info : CStruct := [("flags", c_ulonglong); ("memory_offset", c_ulonglong)]%string.

(* src/driver-bindings/src/bindings.rs:77-83 ne_user_memory_region *)
Definition ne_user_memory_region : CStruct :=
  [("flags", c_ulonglong); ("memory_size", c_ulonglong); ("userspace_addr", c_ulonglong)]%string.

(* src/driver-bindings/src/bindings.rs:135-140 ne_enclave_start_info *)
Definition ne_enclave_start_info : CStruct := [("flags", c_ulonglong); ("enclave_cid", c_ulonglong)]%string.

(** The assertions of a layout test: size, alignment, and the offset of each field. *)
Definition layout_test (s : CStruct) (size align : nat) (fields : list (string * nat)) : bool :=
  (size_of s =? size) && (align_of s =? align) && bool_decide (offsets 0 s = fields).

(* src/driver-bindings/src/bindings.rs:36-70 bindgen_test_layout_ne_image_load_info *)
Definition bindgen_test_layout_ne_image_load_info : bool :=
  layout_test ne_image_load_info 16 8 [("flags", 0); ("memory_offset", 8)]%string.

(* src/driver-bindings/src/bindings.rs:84-129 bindgen_test_layout_ne_user_memory_region *)
Definition bindgen_test_layout_ne_user_memory_region : bool :=
  layout_test ne_user_memory_region 24 8 [("flags", 0); ("memory_size", 8); ("userspace_addr", 16)]%string.

(* src/driver-bindings/src/bindings.rs:141-176 bindgen_test_layout_ne_enclave_start_info *)
Definition bindgen_test_layout_ne_enclave_start_info : bool :=
  layout_test ne_enclave_start_info 16 8 [("flags", 0); ("enclave_cid", 8)]%string.

Example layout_tests_pass :
  bindgen_test_layout_ne_image_load_info = true /\ bindgen_test_layout_ne_user_memory_region = true /\
  bindgen_test_layout_ne_enclave_start_info = true.
Proof. done. Qed.

(** ** The arguments of the driver's calls *)

(** A bare number is like a structure with one field. *)
Definition arg_struct (arg : IoctlArg) : CStruct :=
  match arg with
  | ArgU64 _ => [("", c_ulonglong)]%string
  | ArgU32 _ => [("", c_uint)]%string
  | ArgImageLoadInfo _ _ => ne_image_load_info
  | ArgUserMemoryRegion _ _ _ => ne_user_memory_region
  | ArgStartInfo _ _ => ne_enclave_start_info
  end.
Definition arg_values (arg : IoctlArg) : list Z :=
  match arg with
  | ArgU64 v | ArgU32 v => [v]
  | ArgImageLoadInfo f o => [f; o]
  | ArgUserMemoryRegion f size addr => [f; size; addr]
  | ArgStartInfo f cid => [f; cid]
  end.

(** What the driver finds at the address it is given. *)
Definition arg_bytes (arg : IoctlArg) : list Z := struct_bytes (arg_struct arg) (arg_values arg).

Lemma length_arg_bytes arg : length (arg_bytes arg) = size_of (arg_struct arg).
Proof. apply length_struct_bytes. by destruct arg. Qed.

Lemma read_arg_bytes arg :
  Forall2 (fun f v => fits (snd f) v) (arg_struct arg) (arg_values arg) ->
  read_fields 0 (arg_struct arg) (arg_bytes arg) = arg_values arg.
Proof. apply read_struct_bytes. Qed.
