(* ===== verification/Sample.v ===== *)
(** * A concrete system, for evaluating the model

    One instance of the interfaces of [Os]: a kernel in which every call
    succeeds and memory is never exhausted (its parameters let a witness choose
    other answers), and simple encodings that satisfy [SerdeLaws]. *)
From S2P Require Import Prelude.
From S2P Require Import RustStd.
From S2P Require Import Failure.
From S2P Require Import DocumentErrors.
From S2P Require Import EnclaveIds.
From S2P Require Import Os.
From stdpp Require Import base list numbers strings gmap.
From Stdlib Require Import ZArith Lia Ascii String.
From stdpp Require Import strings.
Local Open Scope Z_scope.

Definition is_mmap (e : Event) : bool := match e with EvMmap _ _ _ => true | _ => false end.

(** The n-th mapping lives at [2^40 + n * 2^35]: mappings are disjoint. *)
Definition sample_mmap (l : log) (len flags : Z) : option Z :=
  Some (2 ^ 40 + Z.of_nat (length (List.filter is_mmap l)) * 2 ^ 35).

(** Every ioctl succeeds with return code 7 and leaves its argument alone,
    except for the image offset, which it sets to 2 MiB. *)
Definition sample_ioctl (l : log) (fd code : Z) (arg : IoctlArg) : Z * Z * IoctlArg :=
  match arg with
  | ArgImageLoadInfo f _ => (7, 0, ArgImageLoadInfo f 2097152)
  | ArgStartInfo f 0 => (7, 0, ArgStartInfo f 16)
  | _ => (7, 0, arg)
  end.

Definition sample_kernel (mmap : log -> Z -> Z -> option Z)
    (ioctl : log -> Z -> Z -> IoctlArg -> Z * Z * IoctlArg) (creds : Z * Z) : Kernel := {|
  k_mmap := mmap;
  k_munmap _ _ _ := 0;
  k_ioctl := ioctl;
  k_close _ _ := 0;
  k_open_device _ := Ok 4;
  k_vsock_bind _ _ _ := Some 8;
  k_poll _ _ _ := Some 1;
  k_accept _ _ := Some 9;
  k_read _ _ _ := Some [0xB7];
  k_write _ _ _ := None;
  k_shutdown _ _ := None;
  k_epoll_add _ _ := None;
  k_epoll_del _ _ := None;
  k_sys _ c :=
    match c with
    | SysEpollCreate => Ok [6]
    | SysEpollWait _ => Ok [9; 1]
    | SysSocketPair => Ok [20; 21]
    | SysUnixConnect _ => Ok [22]
    | SysUnixBind _ => Ok [23]
    | SysInotifyInit => Ok [24]
    | SysPathExists _ => Ok [1]
    | _ => Ok []
    end;
  k_interruptions _ := 0%nat;
  k_peer_credentials _ := Ok creds;
  k_threads _ := [0; 1; 0; 0; 1; 0]%nat;
  k_getuid := 1000;
  k_process_id := 4242;
|}.

Definition sample_system : Kernel := sample_kernel sample_mmap sample_ioctl (1000, 1000).

(** A kernel with other answers to the general calls. *)
Definition with_sys (K : Kernel) (sys : log -> Syscall -> result string (list Z)) : Kernel := {|
  k_mmap := k_mmap (Kernel := K); k_munmap := k_munmap (Kernel := K); k_ioctl := k_ioctl (Kernel := K);
  k_close := k_close (Kernel := K); k_open_device := k_open_device (Kernel := K);
  k_vsock_bind := k_vsock_bind (Kernel := K); k_poll := k_poll (Kernel := K); k_accept := k_accept (Kernel := K);
  k_read := k_read (Kernel := K); k_write := k_write (Kernel := K); k_shutdown := k_shutdown (Kernel := K);
  k_epoll_add := k_epoll_add (Kernel := K); k_epoll_del := k_epoll_del (Kernel := K); k_sys := sys;
  k_interruptions := k_interruptions (Kernel := K); k_peer_credentials := k_peer_credentials (Kernel := K);
  k_threads := k_threads (Kernel := K); k_getuid := k_getuid (Kernel := K); k_process_id := k_process_id (Kernel := K);
|}.

Definition sample_env : Env := {|
  env_log := mk_log_env "/var/log/nitro_enclaves" true true "now" true true;
  env_backtrace := None;
  env_asset_tag := mk_asset_tag false (Err "absent"%string) (Err "absent"%string);
  env_sockets_path := None;
|}.

Definition world0 : World := mk_world [] ∅ ∅.

Definition all_commands : list EnclaveProcessCommandType :=
  [Run; Terminate; TerminateComplete; Describe; GetEnclaveCID; GetEnclaveFlags;
   GetEnclaveName; GetIDbyName; ConnectionListenerStop; NotPermitted].

Definition command_tag (c : EnclaveProcessCommandType) : Z :=
  match c with
  | Run => 0 | Terminate => 1 | TerminateComplete => 2 | Describe => 3 | GetEnclaveCID => 4
  | GetEnclaveFlags => 5 | GetEnclaveName => 6 | GetIDbyName => 7 | ConnectionListenerStop => 8
  | NotPermitted => 9
  end.

#[local] Instance sample_serde_command : Serde EnclaveProcessCommandType := {
  to_vec c := Ok [command_tag c];
  from_slice bs :=
    match bs with
    | [b] => ok_or (all_commands !! Z.to_nat b) "unknown variant"%string
    | _ => Err "trailing data"%string
    end;
}.

Lemma sample_serde_command_laws : SerdeLaws EnclaveProcessCommandType.
Proof.
  split; intros x bs E; simpl in E; simplify_eq; [by destruct x | simpl; unfold isize_MAX; lia].
Qed.

(** A number, as its eight bytes. *)
Definition sample_serde_u64 : Serde Z := {|
  to_vec v := if (0 <=? v) && (v <=? u64_MAX) then Ok (to_le_bytes 8 v) else Err "range"%string;
  from_slice bs := Ok (from_le_bytes bs);
|}.

Lemma sample_serde_u64_laws : @SerdeLaws Z sample_serde_u64.
Proof.
  split; intros x bs E; simpl in E; case_match eqn:Hx; simplify_eq;
    apply andb_true_iff in Hx as [H1%Z.leb_le H2%Z.leb_le].
  - cbn [from_slice sample_serde_u64]. f_equal. apply (le_bytes_roundtrip 8).
    unfold u64_MAX in *. simpl. lia.
  - change (length _) with 8%nat. unfold isize_MAX. lia.
Qed.

(** Replies: a tag, then the characters or the number. *)
Definition reply_bytes (r : EnclaveProcessReply) : list Z :=
  match r with
  | StdOutMessage m => 1 :: bytes_of m
  | StdErrMessage m => 2 :: bytes_of m
  | Status c => [3; c]
  end.

#[local] Instance sample_serde_reply : Serde EnclaveProcessReply := {
  to_vec r :=
    if Z.of_nat (length (reply_bytes r)) <=? isize_MAX then Ok (reply_bytes r) else Err "too long"%string;
  from_slice bs :=
    match bs with
    | 1 :: bs => Ok (StdOutMessage (string_of bs))
    | 2 :: bs => Ok (StdErrMessage (string_of bs))
    | [3; c] => Ok (Status c)
    | _ => Err "unknown variant"%string
    end;
}.

Lemma sample_serde_reply_laws : SerdeLaws EnclaveProcessReply.
Proof.
  split; intros x bs E; simpl in E; case_match eqn:Hl; simplify_eq.
  - destruct x; simpl; by rewrite ?string_of_bytes.
  - by apply Z.leb_le.
Qed.
