(* ===== verification/Wire.v ===== *)
(** * The wire protocol (src/src/common/mod.rs)

    Lengths as little-endian 64-bit values, commands sent twice, optional
    arguments; and what a receiver makes of these bytes. *)
From S2P Require Import Prelude.
From S2P Require Import RustStd.
From S2P Require Import Failure.
From S2P Require Import Os.
From S2P Require Import Sample.
From stdpp Require Import base list numbers strings gmap.
From Stdlib Require Import ZArith Lia.
Local Open Scope Z_scope.
Local Open Scope nitro_scope.

Definition failure_at (subaction : string) (code : NitroCliErrorEnum) (l : Z) : NitroCliFailure :=
  new_nitro_cli_failure subaction code "src/common/mod.rs" l.

Section Wire.
Context `{Kernel}.

(* src/src/common/mod.rs read_u64_le *)
Definition read_u64_le (fd : Z) : IO Z :=
  let! bytes := map_err_to (fun e =>
    failure_at ("Failed to read 8 bytes from the given socket: " +:+ e) SocketError 439)
    (read_exact fd 8) in
  ret (from_le_bytes bytes).

(* src/src/common/mod.rs write_u64_le *)
Definition write_u64_le (fd value : Z) : IO unit :=
  map_err_to (fun e =>
    failure_at ("Failed to write 8 bytes to the given socket: " +:+ e) SocketError 456)
    (write_all fd (to_le_bytes 8 value)).

(** One round of the loop that sends the command. *)
Definition send_command_bytes (fd : Z) (cmd_bytes : list Z) : IO unit :=
  do! map_err (add_subaction "Failed to send single command size")
        (write_u64_le fd (Z.of_nat (length cmd_bytes)));
  map_err_to (fun e => failure_at ("Failed to send single command: " +:+ e) SocketError 490)
    (write_all fd cmd_bytes).

(* src/src/common/mod.rs enclave_proc_command_send_single *)
Definition enclave_proc_command_send_single `{Serde EnclaveProcessCommandType} {T} `{Serde T}
    (cmd : EnclaveProcessCommandType) (args : option T) (fd : Z) : IO unit :=
  let! cmd_bytes := of_result (rmap_err (fun e =>
    failure_at ("Invalid command format: " +:+ e) InvalidCommand 478) (to_vec cmd)) in
  do! send_command_bytes fd cmd_bytes;
  do! send_command_bytes fd cmd_bytes;
  match args with
  | Some args =>
      let! arg_bytes := of_result (rmap_err (fun e =>
        failure_at ("Invalid single command arguments: " +:+ e) InvalidCommand 500)
        (to_vec args)) in
      do! map_err (add_subaction "Failed to send arguments size")
            (write_u64_le fd (Z.of_nat (length arg_bytes)));
      map_err_to (fun e => failure_at ("Failed to send arguments: " +:+ e) SocketError 510)
        (write_all fd arg_bytes)
  | None => ret tt
  end.

(** Allocating [vec![0; size]] panics above [isize::MAX] bytes. *)
(* src/src/common/mod.rs receive_from_stream *)
Definition receive_from_stream (T : Type) `{Serde T} (fd : Z) : IO T :=
  let! size := map_err (add_subaction "Failed to receive data size") (read_u64_le fd) in
  if isize_MAX <? size then panic
  else
    let! raw_data := map_err_to (fun e =>
      failure_at ("Failed to receive data: " +:+ e) SocketError 530)
      (read_exact fd (Z.to_nat size)) in
    of_result (rmap_err (fun e =>
      failure_at ("Failed to decode received data: " +:+ e) SerdeError 536) (from_slice raw_data)).
End Wire.

(** ** Frames *)

(** A length-prefixed message. *)
Definition frame (bs : list Z) : list Z := to_le_bytes 8 (Z.of_nat (length bs)) ++ bs.

Section WireLemmas.
Context `{Kernel}.

Lemma write_all_ok fd bs w w' :
  write_all fd bs w = (Return (Ok tt), w') ->
  w' = add_event (EvWrite fd bs None) w.
Proof. unfold write_all. intros E. repeat case_match; simplify_eq. done. Qed.

Lemma send_command_bytes_ok fd bs w w' :
  send_command_bytes fd bs w = (Return (Ok tt), w') ->
  w_in w' = w_in w /\ w_mem w' = w_mem w /\
  written fd (w_log w') = written fd (w_log w) ++ frame bs.
Proof.
  unfold send_command_bytes, write_u64_le. intros E. io_inv.
  repeat match goal with H : write_all _ _ _ = _ |- _ => apply write_all_ok in H; subst end. unfold add_event. simpl. rewrite !written_app. simpl. rewrite Z.eqb_refl, !app_nil_r.
  unfold frame. by rewrite <- app_assoc.
Qed.

Lemma read_exact_ok fd n w bs rest :
  w_in w !! fd = Some (bs ++ rest) -> length bs = n ->
  read_exact fd n w = (Return (Ok bs), set_in (<[fd := rest]> (w_in w)) w).
Proof.
  intros E <-. unfold read_exact. rewrite E. simpl.
  rewrite (proj2 (Nat.leb_le _ _)) by (rewrite length_app; lia).
  by rewrite take_app_length, drop_app_length.
Qed.

(** A receiver whose input starts with the frame of an encoded value obtains
    the value and is left with the rest of the input. *)
Lemma receive_frame {T} `{SerdeLaws T} fd (x : T) bs rest w :
  to_vec x = Ok bs -> w_in w !! fd = Some (frame bs ++ rest) ->
  exists w', receive_from_stream T fd w = (Return (Ok x), w') /\
    w_in w' = <[fd := rest]> (w_in w) /\ w_log w' = w_log w /\ w_mem w' = w_mem w.
Proof.
  intros Hx Hin. pose proof (serde_length x bs Hx) as Hlen. unfold isize_MAX in Hlen.
  unfold receive_from_stream, read_u64_le.
  unfold frame in Hin. rewrite <- app_assoc in Hin.
  unfold bind at 1, map_err at 1. unfold bind at 1, map_err_to at 1.
  rewrite (read_exact_ok _ _ _ _ _ Hin) by apply length_to_le_bytes.
  rewrite le_bytes_roundtrip by (simpl; lia). simpl.
  destruct (Z.ltb_spec isize_MAX (Z.of_nat (length bs))); [unfold isize_MAX in *; lia|].
  unfold bind, map_err_to. rewrite Nat2Z.id.
  erewrite read_exact_ok; [|simpl; by rewrite lookup_insert_eq|done].
  unfold of_result. rewrite (serde_roundtrip x bs Hx). simpl.
  eexists. split; [done|]. simpl. by rewrite insert_insert_eq.
Qed.

(** Receiving neither writes nor touches memory. *)
Lemma receive_ok {T} `{Serde T} fd w x w' :
  receive_from_stream T fd w = (Return (Ok x), w') ->
  w_log w' = w_log w /\ w_mem w' = w_mem w /\ exists bs, from_slice bs = Ok x.
Proof.
  unfold receive_from_stream, read_u64_le. intros E. io_inv.
  destruct (isize_MAX <? _); [done|]. io_inv.
  repeat match goal with X : read_exact _ _ _ = _ |- _ => unfold read_exact in X; case_match; simplify_eq end.
  split_and!; [done|done|eauto].
Qed.
End WireLemmas.

(** ** Properties *)

(** What the two ends of a connection do with one command: the listener reads
    the first copy of the command, the event loop the second, and the handler
    the arguments. *)
Definition receive_command_and_args `{Kernel} `{Serde EnclaveProcessCommandType} (T : Type) `{Serde T}
    (fd : Z) : IO (EnclaveProcessCommandType * EnclaveProcessCommandType * T) :=
  let! c1 := receive_from_stream EnclaveProcessCommandType fd in
  let! c2 := receive_from_stream EnclaveProcessCommandType fd in
  let! a := receive_from_stream T fd in
  ret (c1, c2, a).

Section RoundTrip.
Context `{Kernel} `{SerdeLaws EnclaveProcessCommandType} {T : Type} `{SerdeLaws T}.

(** C14: whatever a client sends with [enclave_proc_command_send_single] is what
    the enclave process receives: from the bytes newly written by a successful
    send, the three reads of the other end yield the command, the command
    again and the arguments, and consume exactly these bytes. *)
Theorem send_receive_roundtrip (cmd : EnclaveProcessCommandType) (args : T) fd fd' w w' v rest :
  enclave_proc_command_send_single cmd (Some args) fd w = (Return (Ok tt), w') ->
  w_in v !! fd' = Some (drop (length (written fd (w_log w))) (written fd (w_log w')) ++ rest) ->
  exists v', receive_command_and_args T fd' v = (Return (Ok (cmd, cmd, args)), v') /\
    w_in v' !! fd' = Some rest.
Proof.
  unfold enclave_proc_command_send_single, write_u64_le. intros Hs Hin. io_inv.
  match goal with E1 : to_vec cmd = Ok ?x, E2 : to_vec args = Ok ?y |- _ =>
    rename x into cb, y into ab, E1 into Ec, E2 into Ea end.
  repeat match goal with
  | H : send_command_bytes _ _ _ = _ |- _ =>
      let L := fresh "L" in apply send_command_bytes_ok in H as (_ & _ & L)
  | H : write_all _ _ _ = _ |- _ => apply write_all_ok in H; subst
  end.
  simpl in Hin. rewrite !written_app in Hin.
  repeat match goal with L : written _ (w_log _) = _ |- _ => rewrite L in Hin; clear L end.
  simpl in Hin. rewrite Z.eqb_refl, !app_nil_r, <- !app_assoc, drop_app_length in Hin.
  unfold receive_command_and_args.
  destruct (receive_frame fd' cmd cb (frame cb ++ frame ab ++ rest) v Ec) as (v1 & E1 & I1 & _).
  { rewrite Hin. unfold frame. by rewrite <- !app_assoc. }
  rewrite (bind_run_ok _ _ _ _ _ E1).
  destruct (receive_frame fd' cmd cb (frame ab ++ rest) v1 Ec) as (v2 & E2 & I2 & _).
  { by rewrite I1, lookup_insert_eq. }
  rewrite (bind_run_ok _ _ _ _ _ E2).
  destruct (receive_frame fd' args ab rest v2 Ea) as (v3 & E3 & I3 & _).
  { by rewrite I2, lookup_insert_eq. }
  rewrite (bind_run_ok _ _ _ _ _ E3). eexists. split; [done|].
  by rewrite I3, lookup_insert_eq.
Qed.
End RoundTrip.

(** The receiver trusts the length prefix: eight bytes announcing more than
    [isize::MAX] bytes make it panic before anything about the sender has been
    checked. *)
Theorem receive_oversized_panics `{Kernel} {T} `{Serde T} (fd size : Z) (rest : list Z) (w : World) :
  isize_MAX < size <= u64_MAX -> w_in w !! fd = Some (to_le_bytes 8 size ++ rest) ->
  fst (receive_from_stream T fd w) = Panic.
Proof.
  intros Hs Hin. unfold receive_from_stream, read_u64_le.
  unfold bind at 1, map_err at 1. unfold bind at 1, map_err_to at 1.
  rewrite (read_exact_ok _ _ _ _ _ Hin) by apply length_to_le_bytes.
  rewrite le_bytes_roundtrip by (unfold isize_MAX, u64_MAX in *; simpl; lia). simpl.
  by rewrite (proj2 (Z.ltb_lt _ _)) by lia.
Qed.

(** A send of [Describe] with the argument 77 to stream 3, and its reception
    from stream 9. *)
Definition sent_describe : World :=
  snd (@enclave_proc_command_send_single sample_system sample_serde_command Z sample_serde_u64
         Describe (Some 77) 3 world0).

Lemma send_receive_roundtrip_witness :
  exists v', @receive_command_and_args sample_system sample_serde_command Z sample_serde_u64 9
      (mk_world [] ∅ {[9 := written 3 (w_log sent_describe) ++ [1; 2]]})
    = (Return (Ok (Describe, Describe, 77)), v') /\ w_in v' !! 9 = Some [1; 2].
Proof.
  refine (@send_receive_roundtrip sample_system sample_serde_command sample_serde_command_laws Z
    sample_serde_u64 sample_serde_u64_laws Describe 77 3 9 world0 sent_describe _ [1; 2] _ _).
  - vm_compute. reflexivity.
  - vm_compute. reflexivity.
Defined.

Lemma receive_oversized_panics_witness :
  fst (@receive_from_stream Z sample_serde_u64 9
         (mk_world [] ∅ {[9 := to_le_bytes 8 (2 ^ 63) ++ []]})) = Panic.
Proof.
  refine (@receive_oversized_panics sample_system Z sample_serde_u64 9 (2 ^ 63) [] _ _ _).
  - vm_compute. split; [reflexivity | discriminate].
  - vm_compute. reflexivity.
Defined.
