(* ===== verification/Connection.v ===== *)
(** * Connections of the enclave process (src/src/enclave_proc/connection.rs)

    A connection wraps the stream of a client, or the event flags of an enclave.
    Reading a command from it enforces the access policy: the reply of
    [read_command] is the command that the requester is allowed to make, or
    [NotPermitted]. *)
From S2P Require Import Prelude.
From S2P Require Import RustStd.
From S2P Require Import Failure.
From S2P Require Import Os.
From S2P Require Import Sample.
From S2P Require Import Wire.
From stdpp Require Import base list numbers strings gmap sets.
From Stdlib Require Import ZArith Lia.
Local Open Scope Z_scope.
Local Open Scope nitro_scope.

Definition failure_at (subaction : string) (code : NitroCliErrorEnum) (l : Z) : NitroCliFailure :=
  new_nitro_cli_failure subaction code "src/enclave_proc/connection.rs" l.

(** ** Requesters and policies *)

(* src/src/enclave_proc/connection.rs CommandRequesterType *)
Inductive CommandRequesterType : Type :=
| User (uid : Z)
| Group (gid : Z)
| Others.

#[export] Instance CommandRequesterType_eq_dec : EqDecision CommandRequesterType.
Proof. solve_decision. Defined.

#[export] Instance CommandRequesterType_countable : Countable CommandRequesterType.
Proof.
  refine (inj_countable'
    (fun r => match r with User u => inl (inl u) | Group g => inl (inr g) | Others => inr tt end)
    (fun s => match s with inl (inl u) => User u | inl (inr g) => Group g | inr _ => Others end) _).
  by intros [].
Defined.

(* src/src/enclave_proc/connection.rs CommandRequesterPolicy *)
Record CommandRequesterPolicy : Type := mk_policy {
  policy : gmap CommandRequesterType (list EnclaveProcessCommandType);
}.

Definition cmds_read_write : list EnclaveProcessCommandType :=
  [Run; Terminate; TerminateComplete; Describe; GetEnclaveCID; GetEnclaveFlags;
   GetEnclaveName; GetIDbyName; ConnectionListenerStop].
Definition cmds_read_only : list EnclaveProcessCommandType :=
  [Describe; GetEnclaveCID; GetEnclaveFlags; GetEnclaveName; GetIDbyName].

(** [uid] is what [libc::getuid()] answers. *)
(* src/src/enclave_proc/connection.rs CommandRequesterPolicy::new_with_defaults *)
Definition new_with_defaults (uid : Z) : CommandRequesterPolicy :=
  let policy := ∅ in
  let policy := <[User uid := cmds_read_write]> policy in
  let policy := <[User 0 := cmds_read_write]> policy in
  let policy := <[Others := cmds_read_only]> policy in
  mk_policy policy.

(* src/src/enclave_proc/connection.rs CommandRequesterPolicy::find_policy_rule *)
Definition find_policy_rule (self : CommandRequesterPolicy) (cmd : EnclaveProcessCommandType)
    (requester : CommandRequesterType) : bool :=
  match policy self !! requester with
  | None => false
  | Some allowed_cmds => bool_decide (cmd ∈ allowed_cmds)
  end.

(** [creds] are the user and the group of the peer. *)
(* src/src/enclave_proc/connection.rs CommandRequesterPolicy::can_execute_command *)
Definition can_execute_command (self : CommandRequesterPolicy) (cmd : EnclaveProcessCommandType)
    (creds : Z * Z) : bool :=
  if find_policy_rule self cmd (User (fst creds)) then true
  else if find_policy_rule self cmd (Group (snd creds)) then true
  else if find_policy_rule self cmd Others then true
  else false.

(** ** Connections *)

(* src/src/enclave_proc/connection.rs ConnectionData *)
Record ConnectionData : Type := mk_connection_data {
  epoll_flags : Z;
  input_stream : option Z;
}.

(* src/src/enclave_proc/connection.rs Connection *)
Record Connection : Type := mk_connection { data : Mutex ConnectionData }.

(* src/src/enclave_proc/connection.rs Connection::new *)
Definition connection_new (flags : Z) (stream : option Z) : Connection :=
  mk_connection (mk_mutex false (mk_connection_data flags stream)).

(** The lock and the check that the connection has a stream, which five methods
    begin with. *)
Definition with_stream {A} (self : Connection) (lock_line : Z) (none : NitroCliFailure)
    (k : Z -> IO A) : IO A :=
  if poisoned (data self)
  then fail (failure_at ("Failed to acquire lock: " +:+ poison_error) LockAcquireFailure lock_line)
  else
    match input_stream (guarded (data self)) with
    | None => fail none
    | Some fd => k fd
    end.

Section Connection.
Context `{Kernel}.

(* src/src/enclave_proc/connection.rs Connection::read_command *)
Definition read_command `{Serde EnclaveProcessCommandType} (self : Connection)
    : IO EnclaveProcessCommandType :=
  with_stream self 164
    (failure_at "Cannot read a command from this connection" UnusableConnectionError 170)
    (fun fd =>
      let! cmd := receive_from_stream EnclaveProcessCommandType fd in
      match k_peer_credentials fd with
      | Err _ => ret NotPermitted
      | Ok user_creds =>
          if negb (can_execute_command (new_with_defaults k_getuid) cmd user_creds)
          then ret NotPermitted
          else ret cmd
      end).

(* src/src/enclave_proc/connection.rs Connection::read *)
Definition conn_read (T : Type) `{Serde T} (self : Connection) : IO T :=
  with_stream self 221 (failure_at "Cannot read from this connection" SocketError 227)
    (fun fd => receive_from_stream T fd).

(* src/src/enclave_proc/connection.rs Connection::write_u64 *)
Definition write_u64 (self : Connection) (value : Z) : IO unit :=
  with_stream self 239
    (failure_at "Cannot write a 64-bit value to this connection" SocketError 245)
    (fun fd => write_u64_le fd value).

(* src/src/enclave_proc/connection.rs Connection::write_reply *)
Definition write_reply `{Serde EnclaveProcessReply} (self : Connection)
    (reply : EnclaveProcessReply) : IO unit :=
  with_stream self 299 (failure_at "Cannot write message to connection" SocketError 305)
    (fun fd =>
      let! reply_bytes := of_result (rmap_err (fun e =>
        failure_at ("Failed to serialize reply: " +:+ e) SerdeError 313) (to_vec reply)) in
      do! map_err (add_subaction "Write reply")
            (write_u64_le fd (Z.of_nat (length reply_bytes)));
      map_err_to (fun e => failure_at ("Failed to write to stream: " +:+ e) SocketError 322)
        (write_all fd reply_bytes)).

(* src/src/enclave_proc/connection.rs Connection::println *)
Definition println `{Serde EnclaveProcessReply} (self : Connection) (msg : string) : IO unit :=
  write_reply self (StdOutMessage (msg +:+ String LF "")).

(* src/src/enclave_proc/connection.rs Connection::eprintln *)
Definition eprintln `{Serde EnclaveProcessReply} (self : Connection) (msg : string) : IO unit :=
  write_reply self (StdErrMessage (msg +:+ String LF "")).

(* src/src/enclave_proc/connection.rs Connection::write_status *)
Definition write_status `{Serde EnclaveProcessReply} (self : Connection) (status : Z) : IO unit :=
  write_reply self (Status status).

(* src/src/enclave_proc/connection.rs Connection::get_enclave_event_flags *)
Definition get_enclave_event_flags (self : Connection) : IO (option Z) :=
  if poisoned (data self)
  then fail (failure_at ("Failed to acquire connection lock: " +:+ poison_error)
               LockAcquireFailure 285)
  else
    match input_stream (guarded (data self)) with
    | None => ret (Some (epoll_flags (guarded (data self))))
    | Some _ => ret None
    end.

(** The destructor runs when the last clone of the connection goes away; then the
    stream, a field of the data, is closed. *)
(* src/src/enclave_proc/connection.rs ConnectionData::drop *)
Definition connection_drop `{Env} (self : Connection) : IO unit :=
  match input_stream (guarded (data self)) with
  | None => ret tt
  | Some fd =>
      let! r := try (map_err_to (fun e =>
        failure_at ("Stream shutdown error: " +:+ e) SocketCloseError 63) (shutdown fd)) in
      do! ok_or_exit_with_errno (Some "Failed to shut down"%string) r;
      let! _ := close fd in
      ret tt
  end.

(* src/src/enclave_proc/connection.rs safe_conn_println *)
Definition safe_conn_println `{Serde EnclaveProcessReply} (conn : option Connection)
    (msg : string) : IO unit :=
  match conn with None => ret tt | Some conn => println conn msg end.

(* src/src/enclave_proc/connection.rs safe_conn_eprintln *)
Definition safe_conn_eprintln `{Serde EnclaveProcessReply} (conn : option Connection)
    (msg : string) : IO unit :=
  match conn with None => ret tt | Some conn => eprintln conn msg end.
End Connection.

(** ** Lemmas *)

Definition read_only (cmd : EnclaveProcessCommandType) : bool :=
  match cmd with
  | Describe | GetEnclaveCID | GetEnclaveFlags | GetEnclaveName | GetIDbyName => true
  | _ => false
  end.

Lemma cmds_read_only_spec cmd : cmd ∈ cmds_read_only <-> read_only cmd = true.
Proof. unfold cmds_read_only. rewrite !elem_of_cons, elem_of_nil. destruct cmd; naive_solver. Qed.

Lemma cmds_read_write_spec cmd : cmd ∈ cmds_read_write <-> cmd <> NotPermitted.
Proof. unfold cmds_read_write. rewrite !elem_of_cons, elem_of_nil. destruct cmd; naive_solver. Qed.

Lemma find_rule_user owner cmd u :
  find_policy_rule (new_with_defaults owner) cmd (User u) = true <->
  cmd <> NotPermitted /\ (u = owner \/ u = 0).
Proof.
  unfold find_policy_rule, new_with_defaults. cbn [policy].
  rewrite lookup_insert_ne by done.
  destruct (decide (u = 0)) as [->|Hu]; [|rewrite lookup_insert_ne by congruence;
    destruct (decide (u = owner)) as [->|Ho]].
  - rewrite lookup_insert_eq, bool_decide_eq_true, cmds_read_write_spec. tauto.
  - rewrite lookup_insert_eq, bool_decide_eq_true, cmds_read_write_spec. tauto.
  - rewrite lookup_insert_ne by congruence. naive_solver.
Qed.

Lemma find_rule_group owner cmd g :
  find_policy_rule (new_with_defaults owner) cmd (Group g) = false.
Proof. unfold find_policy_rule, new_with_defaults. cbn [policy]. by rewrite !lookup_insert_ne. Qed.

Lemma find_rule_others owner cmd :
  find_policy_rule (new_with_defaults owner) cmd Others = read_only cmd.
Proof.
  unfold find_policy_rule, new_with_defaults. cbn [policy]. rewrite lookup_insert_eq.
  apply Bool.eq_iff_eq_true. by rewrite bool_decide_eq_true, cmds_read_only_spec.
Qed.

(** What a successful lock of a connection with a stream gives. *)
Lemma with_stream_ok {A} self l none (k : Z -> IO A) w a w' :
  with_stream self l none k w = (Return (Ok a), w') ->
  exists fd, poisoned (data self) = false /\ input_stream (guarded (data self)) = Some fd /\
    k fd w = (Return (Ok a), w').
Proof.
  unfold with_stream. destruct (poisoned _); [done|].
  destruct (input_stream _) as [fd|]; [eauto|done].
Qed.

Lemma can_execute_spec (owner uid gid : Z) (cmd : EnclaveProcessCommandType) :
  can_execute_command (new_with_defaults owner) cmd (uid, gid) = true <->
  read_only cmd = true \/ (cmd <> NotPermitted /\ (uid = owner \/ uid = 0)).
Proof.
  unfold can_execute_command. rewrite find_rule_group, find_rule_others. cbn [fst snd].
  pose proof (find_rule_user owner cmd uid) as Hu.
  destruct (find_policy_rule _ cmd (User uid)); destruct (read_only cmd); naive_solver.
Qed.

(** The command that [read_command] lets through is within the policy. *)
Lemma read_command_ok `{Kernel} `{Serde EnclaveProcessCommandType} self w w' cmd :
  read_command self w = (Return (Ok cmd), w') ->
  w_log w' = w_log w /\ w_mem w' = w_mem w /\ exists fd, input_stream (guarded (data self)) = Some fd /\
    (cmd = NotPermitted \/ exists uid gid, k_peer_credentials fd = Ok (uid, gid) /\
       (read_only cmd = true \/ uid = k_getuid \/ uid = 0)).
Proof.
  intros E. apply with_stream_ok in E as (fd & _ & Hfd & E).
  apply bind_ok_inv in E as (c & w1 & Er & E).
  apply receive_ok in Er as (L & Mm & _).
  destruct (k_peer_credentials fd) as [[uid gid]|e] eqn:Ecr.
  2: { unfold ret in E. simplify_eq. eauto 10. }
  destruct (can_execute_command _ c (uid, gid)) eqn:Ecan; simpl in E; unfold ret in E; simplify_eq;
    [|eauto 10].
  apply can_execute_spec in Ecan. split_and!; [done|done|]. exists fd. split; [done|right].
  exists uid, gid. naive_solver.
Qed.

(** ** Properties *)

(** C21: the default policy lets a requester run a command exactly when the
    command is one of the five read-only ones, or any command proper and the
    requester is the owner of the process or root; the requester's group never
    matters, and [NotPermitted] is never allowed. *)
Theorem default_policy_exact (owner uid gid : Z) (cmd : EnclaveProcessCommandType) :
  can_execute_command (new_with_defaults owner) cmd (uid, gid) = true <->
  read_only cmd = true \/ (cmd <> NotPermitted /\ (uid = owner \/ uid = 0)).
Proof. apply can_execute_spec. Qed.

(** C40: whatever bytes a client sends, when [read_command] yields a command that
    changes the enclave or the process (Run, Terminate, TerminateComplete,
    ConnectionListenerStop), the credentials of the peer of the stream were read
    and its user is the owner of the process or root. *)
Theorem read_command_authorised `{Kernel} `{Serde EnclaveProcessCommandType}
    (self : Connection) (w w' : World) (cmd : EnclaveProcessCommandType) :
  read_command self w = (Return (Ok cmd), w') ->
  cmd ∈ [Run; Terminate; TerminateComplete; ConnectionListenerStop] ->
  exists fd uid gid, input_stream (guarded (data self)) = Some fd /\
    k_peer_credentials fd = Ok (uid, gid) /\ (uid = k_getuid \/ uid = 0).
Proof.
  intros E Hc. apply read_command_ok in E as (_ & _ & fd & Hfd & [->|(uid & gid & Hcr & Hu)]).
  { repeat (apply elem_of_cons in Hc as [?|Hc]; [done|]). by apply elem_of_nil in Hc. }
  exists fd, uid, gid. split_and!; [done|done|]. destruct Hu as [Hro|Hu]; [|done].
  repeat (apply elem_of_cons in Hc as [->|Hc]; [done|]). by apply elem_of_nil in Hc.
Qed.

(** The owner of the process sends Terminate on stream 9. *)
Lemma read_command_authorised_witness :
  exists fd uid gid, Some 9 = Some fd /\
    @k_peer_credentials sample_system fd = Ok (uid, gid) /\
    (uid = @k_getuid sample_system \/ uid = 0).
Proof.
  refine (@read_command_authorised sample_system sample_serde_command
    (connection_new 0 (Some 9)) (mk_world [] ∅ {[9 := frame [1]]}) _ Terminate _ _).
  - vm_compute. reflexivity.
  - rewrite !elem_of_cons. auto.
Defined.
