(* ===== verification/Memory.v ===== *)
(** * Memory of an enclave (src/src/enclave_proc/resource_manager.rs)

    Huge pages mapped one by one ([MemoryRegion]) and the allocator that covers
    a requested amount of memory with them ([ResourceAllocator]). *)
From S2P Require Import Prelude.
From S2P Require Import RustStd.
From S2P Require Import Failure.
From S2P Require Import Os.
From S2P Require Import Sample.
From S2P Require Import EnclaveIds.
From stdpp Require Import base list numbers strings gmap.
From stdpp Require Import sorting.
From Stdlib Require Import ZArith Lia.
Local Open Scope Z_scope.
Local Open Scope nitro_scope.

Definition failure_at (subaction : string) (code : NitroCliErrorEnum) (l : Z) : NitroCliFailure :=
  new_nitro_cli_failure subaction code "src/enclave_proc/resource_manager.rs" l.

(** ** Constants *)

(* src/src/enclave_proc/resource_manager.rs NE_DEFAULT_MEMORY_REGION *)
Definition NE_DEFAULT_MEMORY_REGION : Z := 0.

(** The libc flag of the huge page of [2^k] bytes, a 32-bit signed value. *)
Definition map_huge (k : Z) : Z := i32 (Z.shiftl k 26).
Definition MAP_PRIVATE : Z := 0x2.
Definition MAP_ANONYMOUS : Z := 0x20.
Definition MAP_HUGETLB : Z := 0x40000.

(* src/src/enclave_proc/resource_manager.rs HUGE_PAGE_MAP *)
Definition HUGE_PAGE_MAP : list (Z * Z) := [
  (map_huge 34, 16 * GiB);
  (map_huge 31, 2 * GiB);
  (map_huge 30, GiB);
  (map_huge 29, 512 * MiB);
  (map_huge 28, 256 * MiB);
  (map_huge 25, 32 * MiB);
  (map_huge 24, 16 * MiB);
  (map_huge 23, 8 * MiB);
  (map_huge 21, 2 * MiB)].

(** ** Regions *)

(* src/src/enclave_proc/resource_manager.rs MemoryRegion *)
Record MemoryRegion : Type := mk_region {
  flags : Z;
  mem_size : Z;
  mem_addr : Z;
}.

(** Computations on a component together with the world ([&mut self]). *)
Abbreviation IOS T := (M NitroCliFailure (T * World)).

Definition lift {T A} (m : IO A) : IOS T A := zoom snd (fun w t => (fst t, w)) m.
Definition self {T} : IOS T T := gets fst.
Definition set_self {T} (t : T) : IOS T unit := modify (fun s => (t, snd s)).

Lemma lift_inv {T A} (m : IO A) (t t' : T) w w' r :
  lift m (t, w) = (r, (t', w')) -> t' = t /\ m w = (r, w').
Proof. unfold lift, zoom. simpl. destruct (m w). intros. by simplify_eq. Qed.

(* src/src/enclave_proc/resource_manager.rs MemoryRegion::new_with *)
Definition region_new_with (flags mem_addr mem_size : Z) : MemoryRegion :=
  mk_region flags mem_size mem_addr.

Section Regions.
Context `{Kernel} `{EV : Env}.

(** [libc::mmap] of an anonymous huge page. *)
Definition mmap (len flags : Z) : IO (option Z) :=
  fun w =>
    let r := k_mmap (w_log w) len flags in
    (Return (Ok r), add_event (EvMmap len flags r) w).

Definition munmap (addr len : Z) : IO Z :=
  fun w =>
    let r := k_munmap (w_log w) addr len in
    (Return (Ok r), add_event (EvMunmap addr len r) w).

(* src/src/enclave_proc/resource_manager.rs MemoryRegion::new *)
Definition region_new (hugepage_flag : Z) : IO MemoryRegion :=
  let! region_size := of_result (ok_or
    (snd <$> list_find (fun page_info => fst page_info = hugepage_flag) HUGE_PAGE_MAP)
    (failure_at ("Failed to find huge page entry for flag " +:+ show_HEX (u32 hugepage_flag))
       NoSuchHugepageFlag 208)) in
  let! addr := mmap (snd region_size)
    (Z.lor (Z.lor (Z.lor MAP_PRIVATE MAP_ANONYMOUS) MAP_HUGETLB) hugepage_flag) in
  match addr with
  | None => fail (failure_at "Failed to map memory" EnclaveMmapError 230)
  | Some addr => ret (mk_region NE_DEFAULT_MEMORY_REGION (snd region_size) addr)
  end.

(** [free] updates the region in place on success and leaves it as it is on
    an error; here the region after success is the result. *)
(* src/src/enclave_proc/resource_manager.rs MemoryRegion::free *)
Definition region_free (r : MemoryRegion) : IO MemoryRegion :=
  if mem_addr r =? 0 then ret r
  else
    let! rc := munmap (mem_addr r) (mem_size r) in
    if rc <? 0 then fail (failure_at "Failed to unmap memory" EnclaveMunmapError 264)
    else ret (mk_region (flags r) 0 0).

(* src/src/enclave_proc/resource_manager.rs MemoryRegion::drop *)
Definition region_drop (r : MemoryRegion) : IO unit :=
  let! res := try (region_free r) in
  let! _ := ok_or_exit_with_errno (Some "Failed to drop memory region"%string) res in
  ret tt.

Fixpoint drop_regions (rs : list MemoryRegion) : IO unit :=
  match rs with
  | [] => ret tt
  | r :: rs => do! region_drop r; drop_regions rs
  end.
End Regions.

(** ** The allocator *)

(* src/src/enclave_proc/resource_manager.rs ResourceAllocator *)
Record ResourceAllocator : Type := mk_allocator {
  requested_mem : Z;
  mem_regions : list MemoryRegion;
}.

Definition set_regions (rs : list MemoryRegion) (ra : ResourceAllocator) : ResourceAllocator :=
  mk_allocator (requested_mem ra) rs.
Definition push_region (r : MemoryRegion) : IOS ResourceAllocator unit :=
  modify (fun s => (set_regions (mem_regions (fst s) ++ [r]) (fst s), snd s)).

(* src/src/enclave_proc/resource_manager.rs ResourceAllocator::new *)
Definition allocator_new (requested_mem : Z) : NitroCliResult ResourceAllocator :=
  if requested_mem =? 0
  then Err (add_info ["memory"%string; show_u (Z.shiftr requested_mem 20)]
         (failure_at "Cannot start an enclave with no memory" InsufficientMemoryRequested 335))
  else Ok (mk_allocator requested_mem []).

(** [sort_by(|reg1, reg2| reg2.mem_size.cmp(&reg1.mem_size))], a stable sort in
    descending order of size. *)
Fixpoint insert_region (r : MemoryRegion) (l : list MemoryRegion) : list MemoryRegion :=
  match l with
  | [] => [r]
  | r' :: l' => if mem_size r <? mem_size r' then r' :: insert_region r l' else r :: l
  end.
Definition sort_regions (l : list MemoryRegion) : list MemoryRegion := foldr insert_region [] l.

(** The number of regions, from the first, until nothing is needed any more. *)
(* src/src/enclave_proc/resource_manager.rs:415-423 ResourceAllocator::allocate *)
Fixpoint split_index (needed_mem : Z) (l : list MemoryRegion) : nat :=
  match l with
  | [] => 0
  | r :: l => if needed_mem <=? 0 then 0 else S (split_index (needed_mem - i64 (mem_size r)) l)
  end.

(** The summary of the allocation that goes to the log. *)
Fixpoint count_page (size : Z) (pages : list (Z * Z)) : list (Z * Z) :=
  match pages with
  | [] => [(size, 1)]
  | (s, n) :: rest =>
      if size =? s then (s, n + 1) :: rest
      else if size <? s then (size, 1) :: pages
      else (s, n) :: count_page size rest
  end.
(* src/src/enclave_proc/resource_manager.rs:430-446 ResourceAllocator::allocate *)
Definition allocation_summary (l : list MemoryRegion) : string :=
  let allocated_pages := fold_left (fun pages r => count_page (mem_size r) pages) l [] in
  "Allocated " +:+ show_u (Z.of_nat (length l)) +:+ " region(s): " +:+
  str_join ", " (map (fun p => show_u (snd p) +:+ " page(s) of " +:+
                     show_u (Z.shiftr (fst p) 20) +:+ " MB") allocated_pages).

Section Allocator.
Context `{Kernel} `{EV : Env}.

(** The body shared by the two [while] loops: as long as [continue] holds of
    the memory still needed, map one more page; a page that cannot be mapped
    ends the loop. Running out of [fuel] is a panic, which
    [allocate_outcomes] shows not to happen. *)
Fixpoint alloc_pages (fuel : nat) (continue : Z -> bool) (page_info : Z * Z) (needed_mem : Z)
    : IOS ResourceAllocator Z :=
  match fuel with
  | O => panic
  | S fuel =>
      if continue needed_mem then
        let! r := lift (try (region_new (fst page_info))) in
        match r with
        | Ok value =>
            do! push_region value;
            alloc_pages fuel continue page_info (needed_mem - i64 (mem_size value))
        | Err _ => ret needed_mem
        end
      else ret needed_mem
  end.

Definition page_fuel (size needed_mem : Z) : nat := S (S (Z.to_nat (needed_mem / size))).

(* src/src/enclave_proc/resource_manager.rs:364-374 ResourceAllocator::allocate *)
Fixpoint alloc_large_first (pages : list (Z * Z)) (needed_mem : Z) : IOS ResourceAllocator Z :=
  match pages with
  | [] => ret needed_mem
  | page_info :: pages =>
      let! needed_mem := alloc_pages (page_fuel (snd page_info) needed_mem)
        (fun needed => i64 (snd page_info) <=? needed) page_info needed_mem in
      alloc_large_first pages needed_mem
  end.

(* src/src/enclave_proc/resource_manager.rs:384-396 ResourceAllocator::allocate *)
Fixpoint alloc_small_first (pages : list (Z * Z)) (needed_mem : Z) : IOS ResourceAllocator Z :=
  match pages with
  | [] => ret needed_mem
  | page_info :: pages =>
      let! needed_mem := alloc_pages (page_fuel (snd page_info) needed_mem)
        (fun needed => 0 <? needed) page_info needed_mem in
      alloc_small_first pages needed_mem
  end.

(** The check that memory suffices, and the release of the regions that are
    not needed. *)
(* src/src/enclave_proc/resource_manager.rs:398-448 ResourceAllocator::allocate *)
Definition allocate_trim (needed_mem : Z) : IOS ResourceAllocator (list MemoryRegion) :=
  let! ra := self in
  if 0 <? needed_mem then
    fail (add_info ["memory"%string; show_u (Z.shiftr (requested_mem ra) 20)]
      (failure_at ("Failed to allocate entire memory (" +:+ show_i (Z.shiftr needed_mem 20) +:+
         " MB remained)") InsufficientMemoryAvailable 400))
  else
    let sorted := sort_regions (mem_regions ra) in
    let split_index := split_index (i64 (requested_mem ra)) sorted in
    do! set_self (set_regions (take split_index sorted) ra);
    do! lift (drop_regions (drop split_index sorted));
    ret (take split_index sorted).

(** Pages are at most 16 GiB and the loops subtract only while memory is
    needed, so the signed 64-bit subtractions do not overflow. *)
(* src/src/enclave_proc/resource_manager.rs ResourceAllocator::allocate *)
Definition allocate : IOS ResourceAllocator (list MemoryRegion) :=
  let! ra := self in
  let! needed_mem :=
    let! needed_mem := alloc_large_first HUGE_PAGE_MAP (i64 (requested_mem ra)) in
    if 0 <? needed_mem then alloc_small_first (rev HUGE_PAGE_MAP) needed_mem
    else ret needed_mem in
  allocate_trim needed_mem.

(** The regions freed so far have been updated in place when one fails. *)
Fixpoint free_regions (freed rs : list MemoryRegion) : IOS ResourceAllocator unit :=
  match rs with
  | [] => ret tt
  | r :: rs =>
      let! r' := map_err (add_subaction "Failed to free enclave memory region")
        (lift (region_free r)) in
      let! ra := self in
      do! set_self (set_regions (freed ++ r' :: rs) ra);
      free_regions (freed ++ [r']) rs
  end.

(* src/src/enclave_proc/resource_manager.rs ResourceAllocator::free *)
Definition allocator_free : IOS ResourceAllocator unit :=
  let! ra := self in
  do! free_regions [] (mem_regions ra);
  let! ra := self in
  set_self (set_regions [] ra).

(** After [free] the vector is empty: nothing is left for the destructors of
    the regions. *)
(* src/src/enclave_proc/resource_manager.rs ResourceAllocator::drop *)
Definition allocator_drop : IOS ResourceAllocator unit :=
  let! r := try allocator_free in
  lift (ok_or_exit_with_errno (Some "Failed to drop resource allocator"%string) r).
End Allocator.

(** ** What a log says about memory *)

(** The address and the length of each mapping that was granted, and of each
    one that was successfully removed. *)
Definition mapped (l : log) : list (Z * Z) :=
  omap (fun e => match e with EvMmap len _ (Some a) => Some (a, len) | _ => None end) l.
Definition unmapped (l : log) : list (Z * Z) :=
  omap (fun e => match e with EvMunmap a len rc => if rc <? 0 then None else Some (a, len) | _ => None end) l.
(** A mapping of [size] bytes was asked for and refused. *)
Definition refused (size : Z) (l : log) : Prop := exists fl, EvMmap size fl None ∈ l.

Definition extent (r : MemoryRegion) : Z * Z := (mem_addr r, mem_size r).
Definition total_size (rs : list MemoryRegion) : Z := zsum (map mem_size rs).
Definition is_page (r : MemoryRegion) : Prop := mem_size r ∈ map snd HUGE_PAGE_MAP.

Definition grow (w : World) (evs : log) : World := mk_world (w_log w ++ evs) (w_mem w) (w_in w).

Lemma grow_grow w e1 e2 : grow (grow w e1) e2 = grow w (e1 ++ e2).
Proof. unfold grow. simpl. by rewrite app_assoc. Qed.

Lemma grow_nil w : grow w [] = w.
Proof. unfold grow. rewrite app_nil_r. by destruct w. Qed.

Lemma mapped_app l1 l2 : mapped (l1 ++ l2) = mapped l1 ++ mapped l2.
Proof. apply omap_app. Qed.
Lemma unmapped_app l1 l2 : unmapped (l1 ++ l2) = unmapped l1 ++ unmapped l2.
Proof. apply omap_app. Qed.
Lemma refused_app_l size l1 l2 : refused size l1 -> refused size (l1 ++ l2).
Proof. intros [fl H]. exists fl. rewrite elem_of_app. auto. Qed.
Lemma refused_app_r size l1 l2 : refused size l2 -> refused size (l1 ++ l2).
Proof. intros [fl H]. exists fl. rewrite elem_of_app. auto. Qed.
#[export] Hint Resolve refused_app_l refused_app_r : nitro.

Lemma total_app l1 l2 : total_size (l1 ++ l2) = total_size l1 + total_size l2.
Proof. unfold total_size. rewrite map_app. apply zsum_app. Qed.
Lemma total_permutation l1 l2 : l1 ≡ₚ l2 -> total_size l1 = total_size l2.
Proof. intros E. unfold total_size. apply zsum_permutation. by apply Permutation_map. Qed.
Lemma total_cons r l : total_size (r :: l) = mem_size r + total_size l.
Proof. done. Qed.

Lemma page_bounds p : p ∈ HUGE_PAGE_MAP -> 2 * MiB <= snd p <= 16 * GiB.
Proof.
  assert (Forall (fun p => 2 * MiB <= snd p <= 16 * GiB) HUGE_PAGE_MAP) as H.
  { unfold HUGE_PAGE_MAP, GiB, MiB, KiB. repeat constructor; simpl; lia. }
  rewrite Forall_forall in H. auto.
Qed.

Lemma page_i64 p : p ∈ HUGE_PAGE_MAP -> i64 (snd p) = snd p.
Proof. intros H%page_bounds. apply i64_small. unfold GiB, MiB, KiB in H. lia. Qed.

Lemma is_page_of p r : p ∈ HUGE_PAGE_MAP -> mem_size r = snd p -> is_page r.
Proof. intros H E. unfold is_page. rewrite E. apply list_elem_of_fmap. eauto. Qed.

Lemma is_page_bounds r : is_page r -> 2 * MiB <= mem_size r <= 16 * GiB.
Proof. intros (p & -> & H)%list_elem_of_fmap. by apply page_bounds. Qed.

Lemma is_page_i64 r : is_page r -> i64 (mem_size r) = mem_size r.
Proof. intros (p & -> & H)%list_elem_of_fmap. by apply page_i64. Qed.

Lemma total_pages_nonneg l : Forall is_page l -> 0 <= total_size l.
Proof.
  intros H. apply zsum_nonneg. apply Forall_map. eapply Forall_impl; [done|].
  intros r Hr%is_page_bounds. unfold MiB, KiB in Hr. simpl. lia.
Qed.
#[export] Hint Resolve total_pages_nonneg : nitro.

(** ** The loops of the allocator *)

Section AllocLemmas.
Context `{Kernel} `{EV : Env}.

Lemma region_new_run p w :
  p ∈ HUGE_PAGE_MAP ->
  exists fl, (exists a, region_new (fst p) w = (Return (Ok (mk_region 0 (snd p) a)), grow w [EvMmap (snd p) fl (Some a)])
              /\ exists l len fl', k_mmap l len fl' = Some a)
    \/ (exists e, region_new (fst p) w = (Return (Err e), grow w [EvMmap (snd p) fl None])).
Proof.
  intros Hp. unfold region_new.
  assert (snd <$> list_find (fun q : Z * Z => fst q = fst p) HUGE_PAGE_MAP = Some p) as ->.
  { repeat (apply elem_of_cons in Hp as [->|Hp]; [vm_compute; reflexivity|]). by apply elem_of_nil in Hp. }
  eexists. unfold bind, mmap, of_result, ok_or. cbn -[Z.lor].
  destruct (k_mmap _ _ _) as [a|] eqn:E; [left|right]; eauto 10.
Qed.

(** What a phase of the allocation does to the allocator and the world: it
    appends pages [rs] that the kernel has just granted; [P] holds of what is
    still needed and of the events. *)
Definition allocates (P : Z -> log -> Prop) (needed : Z) (s : ResourceAllocator * World)
    (m : IOS ResourceAllocator Z) : Prop :=
  exists n rs evs,
    m s = (Return (Ok n), (set_regions (mem_regions (fst s) ++ rs) (fst s), grow (snd s) evs)) /\
    n = needed - total_size rs /\ Forall is_page rs /\
    Forall (fun r => exists l len fl, k_mmap l len fl = Some (mem_addr r)) rs /\
    mapped evs = map extent rs /\ unmapped evs = [] /\ P n evs.

Lemma allocates_ret (P : Z -> log -> Prop) needed s :
  P needed [] -> allocates P needed s (ret needed).
Proof.
  intros HP. exists needed, [], []. split_and!; try done; [|unfold total_size; simpl; lia].
  rewrite app_nil_r, grow_nil. by destruct s as [[] ?].
Qed.

Lemma allocates_bind (P Q R : Z -> log -> Prop) needed s m k :
  allocates P needed s m ->
  (forall n e1 s', P n e1 -> allocates Q n s' (k n)) ->
  (forall n n' e1 e2, P n e1 -> Q n' e2 -> n' <= n -> R n' (e1 ++ e2)) ->
  allocates R needed s (bind m k).
Proof.
  intros (n & rs & evs & E & Hn & Hp & Ha & Hm & Hu & HP) Hk HR.
  destruct (Hk n evs (set_regions (mem_regions (fst s) ++ rs) (fst s), grow (snd s) evs) HP)
    as (n' & rs' & evs' & E' & Hn' & Hp' & Ha' & Hm' & Hu' & HQ).
  exists n', (rs ++ rs'), (evs ++ evs'). split_and!.
  - rewrite (bind_run_ok _ _ _ _ _ E), E'. simpl. by rewrite grow_grow, <- app_assoc.
  - rewrite total_app. lia.
  - by apply Forall_app.
  - by apply Forall_app.
  - by rewrite mapped_app, map_app, Hm, Hm'.
  - by rewrite unmapped_app, Hu, Hu'.
  - eapply HR; [done|done|]. pose proof (total_pages_nonneg _ Hp'). lia.
Qed.

Lemma allocates_impl (P Q : Z -> log -> Prop) needed s m :
  allocates P needed s m -> (forall n e, P n e -> Q n e) -> allocates Q needed s m.
Proof. intros (n & rs & evs & H1 & H2 & H3 & H4 & H5 & H6 & H7) HPQ. exists n, rs, evs. auto 10. Qed.

Lemma alloc_pages_spec p continue fuel needed s :
  p ∈ HUGE_PAGE_MAP -> (forall n, continue n = true -> 0 < n) ->
  (0 < fuel)%nat -> (0 < needed -> (Z.to_nat (needed / snd p) + 2 <= fuel)%nat) ->
  allocates (fun n evs => continue n = false \/ refused (snd p) evs) needed s
    (alloc_pages fuel continue p needed).
Proof.
  intros Hp Hc. pose proof (page_bounds p Hp) as Hb.
  revert needed s. induction fuel as [|fuel IH]; intros needed s H0 Hf; [lia|].
  simpl. destruct (continue needed) eqn:Ec; [|apply allocates_ret; auto].
  specialize (Hc _ Ec). specialize (Hf Hc).
  destruct (region_new_run p (snd s) Hp) as (fl & [(a & E & Hk)|(e & E)]).
  - destruct (IH (needed - snd p) (set_regions (mem_regions (fst s) ++ [mk_region 0 (snd p) a]) (fst s),
               grow (snd s) [EvMmap (snd p) fl (Some a)])) as (n & rs & evs & E' & Hn & Hq & Ha & Hm & Hu & HP).
    { lia. }
    { unfold MiB, KiB in *. replace (needed - snd p) with (needed + (-1) * snd p) by lia.
      rewrite Z.div_add by lia. intros Hpos.
      assert (1 <= needed / snd p) by (apply Z.div_le_lower_bound; lia). lia. }
    exists n, (mk_region 0 (snd p) a :: rs), (EvMmap (snd p) fl (Some a) :: evs).
    split_and!.
    + unfold bind at 1, lift, zoom, try. rewrite E. cbn -[alloc_pages]. rewrite page_i64 by done.
      unfold bind, push_region, modify. cbn -[alloc_pages].
      etrans; [exact E'|]. simpl. by rewrite grow_grow, <- app_assoc.
    + rewrite total_cons. simpl. lia.
    + constructor; [by eapply is_page_of|done].
    + constructor; [done|done].
    + simpl. by rewrite Hm.
    + done.
    + destruct HP as [?|HP]; [auto|right]. by apply (refused_app_r _ [_]).
  - exists needed, [], [EvMmap (snd p) fl None]. split_and!; try done.
    + unfold bind, lift, zoom, try. rewrite E. cbn. rewrite app_nil_r. by destruct s as [[] ?].
    + unfold total_size. simpl. lia.
    + right. exists fl. by apply elem_of_cons; left.
Qed.

Lemma page_fuel_enough size n : (0 < page_fuel size n)%nat /\
  (0 < n -> (Z.to_nat (n / size) + 2 <= page_fuel size n)%nat).
Proof. unfold page_fuel. lia. Qed.

Lemma alloc_large_first_spec pages needed s :
  pages ⊆ HUGE_PAGE_MAP -> allocates (fun _ _ => True) needed s (alloc_large_first pages needed).
Proof.
  revert needed s. induction pages as [|p pages IH]; intros needed s Hs; cbn [alloc_large_first]; [by apply allocates_ret|].
  assert (p ∈ HUGE_PAGE_MAP) as Hp by (apply Hs, elem_of_cons; auto).
  destruct (page_fuel_enough (snd p) needed) as [F1 F2].
  eapply allocates_bind; [apply alloc_pages_spec; auto| |done].
  - intros n Hn%Z.leb_le. rewrite page_i64 in Hn by done. pose proof (page_bounds p Hp).
    unfold MiB, KiB in *. lia.
  - intros n e1 s' _. apply IH. intros q Hq. apply Hs, elem_of_cons; auto.
Qed.

Lemma alloc_small_first_spec pages needed s :
  pages ⊆ HUGE_PAGE_MAP ->
  allocates (fun n evs => n <= 0 \/ Forall (fun p => refused (snd p) evs) pages) needed s
    (alloc_small_first pages needed).
Proof.
  revert needed s. induction pages as [|p pages IH]; intros needed s Hs; cbn [alloc_small_first].
  { apply allocates_ret. auto. }
  assert (p ∈ HUGE_PAGE_MAP) as Hp by (apply Hs, elem_of_cons; auto).
  destruct (page_fuel_enough (snd p) needed) as [F1 F2].
  eapply allocates_bind; [apply alloc_pages_spec; auto| |].
  - intros n Hn%Z.ltb_lt. done.
  - intros n e1 s' _. apply IH. intros q Hq. apply Hs, elem_of_cons; auto.
  - intros n n' e1 e2 [Hn%Z.ltb_ge|Hr] Hq Hle; [left; lia|].
    destruct Hq as [?|Hq]; [auto|right]. constructor; [auto with nitro|].
    eapply Forall_impl; [done|]. eauto with nitro.
Qed.

(** Both phases: memory is covered, or every size of page was refused. *)
Lemma alloc_phases_spec needed s :
  allocates (fun n evs => n <= 0 \/ forall p, p ∈ HUGE_PAGE_MAP -> refused (snd p) evs) needed s
    (let! n := alloc_large_first HUGE_PAGE_MAP needed in
     if 0 <? n then alloc_small_first (rev HUGE_PAGE_MAP) n else ret n).
Proof.
  eapply allocates_bind with
    (Q := fun n evs => n <= 0 \/ Forall (fun p => refused (snd p) evs) (rev HUGE_PAGE_MAP)).
  - by apply alloc_large_first_spec.
  - intros n e1 s' _. destruct (Z.ltb_spec 0 n).
    + apply alloc_small_first_spec. intros p Hp. by apply list_elem_of_In, in_rev, list_elem_of_In.
    + apply allocates_ret. auto.
  - intros n n' e1 e2 _ [?|Hr] _; [auto|right]. intros p Hp. apply refused_app_r.
    rewrite Forall_forall in Hr. apply Hr. by apply list_elem_of_In, in_rev, list_elem_of_In; rewrite rev_involutive.
Qed.
End AllocLemmas.

(** ** Sorting and trimming *)

Definition descending : list MemoryRegion -> Prop :=
  StronglySorted (fun r1 r2 => mem_size r2 <= mem_size r1).

Lemma insert_region_permutation r l : insert_region r l ≡ₚ r :: l.
Proof.
  induction l as [|r' l IH]; simpl; [done|]. case_match; [|done]. rewrite IH. constructor.
Qed.

Lemma sort_regions_permutation l : sort_regions l ≡ₚ l.
Proof. induction l as [|r l IH]; simpl; [done|]. by rewrite insert_region_permutation, IH. Qed.

Lemma insert_region_descending r l : descending l -> descending (insert_region r l).
Proof.
  unfold descending. induction 1 as [|r' l Hs IH Hf]; simpl; [by repeat constructor|].
  destruct (Z.ltb_spec (mem_size r) (mem_size r')).
  - constructor; [done|]. rewrite insert_region_permutation. constructor; [lia|done].
  - constructor; [by constructor|]. constructor; [lia|].
    eapply Forall_impl; [done|]. simpl. intros. lia.
Qed.

Lemma sort_regions_descending l : descending (sort_regions l).
Proof. induction l; simpl; [constructor|]. by apply insert_region_descending. Qed.

Lemma split_index_covers l needed :
  Forall is_page l -> needed <= total_size l -> needed <= total_size (take (split_index needed l) l).
Proof.
  intros Hp. revert needed. induction Hp as [|r l Hr Hl IH]; intros needed Hn; simpl; [done|].
  destruct (Z.leb_spec needed 0); simpl; [unfold total_size; simpl; lia|].
  rewrite total_cons in *. rewrite is_page_i64 by done.
  specialize (IH (needed - mem_size r)). lia.
Qed.

(** No region that is kept could be spared. *)
Lemma split_index_minimal l needed r :
  Forall is_page l -> descending l -> r ∈ take (split_index needed l) l ->
  total_size (take (split_index needed l) l) - mem_size r < needed.
Proof.
  intros Hp Hs. revert needed r. induction Hs as [|r' l Hs IH Hf]; intros needed r Hin; simpl in *.
  { by apply elem_of_nil in Hin. }
  apply Forall_cons in Hp as [Hr' Hp].
  destruct (Z.leb_spec needed 0) as [|Hpos]; simpl in *; [by apply elem_of_nil in Hin|].
  rewrite is_page_i64 in * by done. rewrite total_cons.
  assert (forall r0, r0 ∈ take (split_index (needed - mem_size r') l) l ->
    total_size (take (split_index (needed - mem_size r') l) l) + mem_size r' - mem_size r0 < needed) as Hrest.
  { intros r0 H0. specialize (IH Hp (needed - mem_size r') r0 H0). lia. }
  apply elem_of_cons in Hin as [->|Hin]; [|specialize (Hrest r Hin); lia].
  destruct (take (split_index (needed - mem_size r') l) l) as [|r0 rs] eqn:E.
  - unfold total_size. simpl. lia.
  - assert (r0 ∈ r0 :: rs) as H0 by (apply elem_of_cons; auto).
    specialize (Hrest r0 H0). rewrite Forall_forall in Hf.
    assert (r0 ∈ l) as Hl by (rewrite <- E in H0;
      apply list_elem_of_In in H0; apply list_elem_of_In; rewrite <- (firstn_skipn (split_index (needed - mem_size r') l) l); apply in_or_app; auto).
    specialize (Hf r0 Hl). lia.
Qed.

(** ** Freeing *)

(** The extents that are still mapped according to the regions themselves. *)
Definition live (rs : list MemoryRegion) : list (Z * Z) :=
  map extent (List.filter (fun r => negb (mem_addr r =? 0)) rs).

Lemma live_app l1 l2 : live (l1 ++ l2) = live l1 ++ live l2.
Proof. unfold live. by rewrite List.filter_app, map_app. Qed.

Lemma live_nonzero rs : Forall (fun r => mem_addr r <> 0) rs -> live rs = map extent rs.
Proof.
  unfold live. induction 1 as [|r rs Hr _ IH]; simpl; [done|].
  rewrite (proj2 (Z.eqb_neq _ _) Hr). simpl. by rewrite IH.
Qed.

Section FreeLemmas.
Context `{Kernel} `{EV : Env}.

Lemma region_free_run r w :
  exists evs, mapped evs = [] /\
  ((exists r', region_free r w = (Return (Ok r'), grow w evs) /\ live [r'] = [] /\ unmapped evs = live [r])
   \/ (exists e, region_free r w = (Return (Err e), grow w evs) /\ error_code e = EnclaveMunmapError /\
       unmapped evs = [])).
Proof.
  unfold region_free, live. simpl. destruct (Z.eqb_spec (mem_addr r) 0) as [E|E]; simpl.
  { exists []. split; [done|left]. exists r. rewrite grow_nil. simpl.
    rewrite (proj2 (Z.eqb_eq _ _) E). done. }
  unfold bind, munmap. simpl.
  exists [EvMunmap (mem_addr r) (mem_size r) (k_munmap (w_log w) (mem_addr r) (mem_size r))].
  split; [done|]. simpl. destruct (Z.ltb_spec (k_munmap (w_log w) (mem_addr r) (mem_size r)) 0).
  - right. eexists. split_and!; done.
  - left. eexists. split_and!; done.
Qed.

Lemma drop_regions_run rs w :
  exists evs, mapped evs = [] /\
  ((drop_regions rs w = (Return (Ok tt), grow w evs) /\ unmapped evs = live rs)
   \/ drop_regions rs w = (Exit (error_discriminant EnclaveMunmapError), grow w evs)).
Proof.
  revert w. induction rs as [|r rs IH]; intros w; cbn [drop_regions].
  { exists []. rewrite grow_nil. auto. }
  destruct (region_free_run r w) as (e1 & Hm & [(r' & E & _ & Hu)|(e & E & Hc & _)]).
  - destruct (IH (grow w e1)) as (e2 & Hm2 & [[E2 Hu2]|E2]); exists (e1 ++ e2);
      rewrite mapped_app, Hm, Hm2; (split; [done|]); [left|right];
      unfold bind at 1, region_drop, bind, try; rewrite E; simpl; rewrite E2, grow_grow; [|done].
    split; [done|]. change (r :: rs) with ([r] ++ rs). by rewrite live_app, unmapped_app, Hu, Hu2.
  - destruct (ok_or_exit_err (A := MemoryRegion) (Some "Failed to drop memory region"%string) e (grow w e1))
      as [msg Ex].
    assert (region_drop r w = (Exit (error_discriminant (error_code e)), grow (grow w e1) [EvNotify msg])) as Ed
      by (unfold region_drop, bind, try; by rewrite E, Ex).
    exists (e1 ++ [EvNotify msg]). rewrite mapped_app, Hm. split; [done|right].
    unfold bind. by rewrite Ed, Hc, grow_grow.
Qed.
End FreeLemmas.

Section AllocateRun.
Context `{Kernel} `{EV : Env}.
Hypothesis mmap_nonzero : forall l len fl a, k_mmap l len fl = Some a -> a <> 0.

Lemma live_granted rs :
  Forall (fun r => exists l len fl, k_mmap l len fl = Some (mem_addr r)) rs -> live rs = map extent rs.
Proof.
  intros Hg. apply live_nonzero. eapply Forall_impl; [done|].
  intros r (l & len & fl & E). by eapply mmap_nonzero.
Qed.

(** The three ways in which [allocate] ends, for a fresh allocator. *)
Lemma allocate_run requested w :
  0 <= requested < 2 ^ 63 ->
  exists rs evs, Forall is_page rs /\ mapped evs = map extent rs /\ unmapped evs = [] /\
    live rs = map extent rs /\
    ((requested <= total_size rs /\ exists kept spare evs', sort_regions rs = kept ++ spare /\
        kept = take (split_index requested (sort_regions rs)) (sort_regions rs) /\ mapped evs' = [] /\
        (allocate (mk_allocator requested [], w) =
           (Return (Ok kept), (mk_allocator requested kept, grow (grow w evs) evs')) /\
           unmapped evs' = map extent spare
         \/ allocate (mk_allocator requested [], w) =
           (Exit (error_discriminant EnclaveMunmapError),
            (mk_allocator requested kept, grow (grow w evs) evs'))))
     \/ (total_size rs < requested /\ (forall p, p ∈ HUGE_PAGE_MAP -> refused (snd p) evs) /\
         exists e, allocate (mk_allocator requested [], w) =
           (Return (Err e), (mk_allocator requested rs, grow w evs)) /\
           error_code e = InsufficientMemoryAvailable)).
Proof.
  intros Hr.
  destruct (alloc_phases_spec (i64 requested) (mk_allocator requested [], w))
    as (n & rs & evs & E & Hn & Hp & Hg & Hm & Hu & HP).
  rewrite i64_small in * by done. apply live_granted in Hg as Hlive.
  exists rs, evs. split_and!; try done.
  assert (allocate (mk_allocator requested [], w) =
    allocate_trim n (mk_allocator requested rs, grow w evs)) as ->.
  { unfold allocate, bind at 1, self, gets. cbn [fst snd requested_mem].
    rewrite i64_small by done. by rewrite (bind_run_ok _ _ _ _ _ E). }
  unfold allocate_trim, bind at 1 3, self, gets. cbn [fst snd requested_mem mem_regions].
  destruct (Z.ltb_spec 0 n) as [Hpos|Hneg].
  - right. split_and!; [lia| |].
    + destruct HP as [?|HP]; [lia|done].
    + eexists. split; reflexivity.
  - left. split; [lia|].
    set (k := split_index requested (sort_regions rs)).
    destruct (drop_regions_run (drop k (sort_regions rs)) (grow w evs)) as (evs' & Hm' & Hd).
    exists (take k (sort_regions rs)), (drop k (sort_regions rs)), evs'.
    split_and!; [by rewrite take_drop|done|done|].
    unfold bind, set_self, modify, lift, zoom, set_regions, gets, ret. simpl.
    rewrite i64_small by done. fold k.
    destruct Hd as [[E' Hu']|E']; rewrite E'; [left|right]; [|done].
    split; [done|]. rewrite Hu', live_granted; [done|].
    assert (Forall (fun r => exists l len fl, k_mmap l len fl = Some (mem_addr r)) (sort_regions rs)) as Hs
      by (by rewrite sort_regions_permutation).
    rewrite <- (take_drop k (sort_regions rs)) in Hs. by apply Forall_app in Hs as [_ ?].
Qed.
End AllocateRun.

(** ** Properties *)

(** A request of 2^63 bytes or more is taken for a negative one. *)
Lemma allocate_negative `{Kernel} `{EV : Env} requested w :
  2 ^ 63 <= requested <= u64_MAX ->
  allocate (mk_allocator requested [], w) = (Return (Ok []), (mk_allocator requested [], w)).
Proof.
  intros Hr. assert (i64 requested < 0) as Hn.
  { unfold i64, wrap_signed, wrap, u64_MAX in *. cbv zeta. change (2 ^ 64) with 18446744073709551616 in *.
    rewrite Z.mod_small by lia. change (64 - 1) with 63. destruct (Z.ltb_spec requested (2 ^ 63)); lia. }
  assert (forall pages w, (forall p, p ∈ pages -> p ∈ HUGE_PAGE_MAP) ->
    alloc_large_first pages (i64 requested) w = (Return (Ok (i64 requested)), w)) as Hlarge.
  { induction pages as [|p pages IH]; intros v Hp; cbn [alloc_large_first]; [done|].
    unfold bind, page_fuel. cbn [alloc_pages]. destruct (Z.leb_spec (i64 (snd p)) (i64 requested)) as [Hl|_].
    - rewrite page_i64 in Hl by (apply Hp; by left). pose proof (page_bounds p (Hp p ltac:(by left))). unfold GiB, MiB, KiB in *. lia.
    - apply IH. intros q Hq. apply Hp. by right. }
  unfold allocate, allocate_trim, bind, self, gets. cbn [fst requested_mem].
  rewrite Hlarge by done. cbv beta iota. unfold ret. rewrite !(proj2 (Z.ltb_ge 0 (i64 requested))) by lia.
  reflexivity.
Qed.

(** C12: when [ResourceAllocator::allocate] succeeds on a request of less than
    2^63 bytes, the regions it returns are the ones it keeps; they are huge pages
    in descending order of size whose total covers the requested memory, and no
    region could be spared; and what the kernel granted during the call is, up to
    order, what is kept plus what was given back. A larger request is negative as
    a signed number: the call succeeds then, too, without any region and without
    asking the kernel for one. *)
Theorem allocate_correct `{Kernel} `{EV : Env} (requested : Z) (w w' : World) (regions : list MemoryRegion)
    (ra : ResourceAllocator) :
  (forall l len fl a, k_mmap l len fl = Some a -> a <> 0) ->
  0 <= requested <= u64_MAX ->
  allocate (mk_allocator requested [], w) = (Return (Ok regions), (ra, w')) ->
  mem_regions ra = regions /\
  if requested <? 2 ^ 63 then
    Forall is_page regions /\ descending regions /\ requested <= total_size regions /\
    (forall r, r ∈ regions -> total_size regions - mem_size r < requested) /\
    exists evs, w' = grow w evs /\ mapped evs ≡ₚ map extent regions ++ unmapped evs
  else regions = [] /\ w' = w.
Proof.
  intros Hnz Hb E. destruct (Z.ltb_spec requested (2 ^ 63)) as [Hlt|Hge].
  2: { rewrite allocate_negative in E by lia. injection E as <- <- <-. by split_and!. }
  assert (0 <= requested < 2 ^ 63) as Hr by lia. destruct (allocate_run Hnz requested w Hr)
    as (rs & evs & Hp & Hm & Hu & Hl & [(Ht & kept & spare & evs' & Hs & Hk & Hm' & Hd)|(_ & _ & e & E' & _)]);
    [|congruence].
  destruct Hd as [[E' Hu']|E']; [|congruence]. rewrite E in E'. simplify_eq. clear E.
  pose proof (sort_regions_permutation rs) as Hperm. rewrite <- Hperm in Hp.
  rewrite <- (total_permutation _ _ Hperm) in Ht.
  split_and!; simpl.
  - done.
  - rewrite <- (take_drop (split_index requested (sort_regions rs)) (sort_regions rs)) in Hp.
    by apply Forall_app in Hp as [??].
  - pose proof (sort_regions_descending rs) as Hdesc. unfold descending in *.
    rewrite <- (take_drop (split_index requested (sort_regions rs)) (sort_regions rs)) in Hdesc.
    by apply StronglySorted_app_1_l in Hdesc.
  - by apply split_index_covers.
  - intros r. apply split_index_minimal; [done|apply sort_regions_descending].
  - exists (evs ++ evs'). split; [by rewrite grow_grow|].
    rewrite mapped_app, unmapped_app, Hm, Hm', Hu, Hu', app_nil_r. simpl.
    rewrite <- map_app, <- Hs. by rewrite Hperm.
Qed.

(** C13: [allocate] always comes to an end without panicking, and the only error
    it returns means that memory is exhausted: every size of huge page was
    refused by the kernel during the call, down to 2 MiB, and all that was
    granted is still held by the allocator and is less than what was asked. *)
Theorem allocate_outcomes `{Kernel} `{EV : Env} (requested : Z) (w : World) :
  (forall l len fl a, k_mmap l len fl = Some a -> a <> 0) ->
  0 <= requested < 2 ^ 63 ->
  match allocate (mk_allocator requested [], w) with
  | (Return (Ok _), _) => True
  | (Return (Err e), (ra, w')) =>
      error_code e = InsufficientMemoryAvailable /\ total_size (mem_regions ra) < requested /\
      exists evs, w' = grow w evs /\ mapped evs = map extent (mem_regions ra) /\
        forall p, p ∈ HUGE_PAGE_MAP -> refused (snd p) evs
  | (Exit c, _) => c = error_discriminant EnclaveMunmapError
  | (Panic, _) => False
  end.
Proof.
  intros Hnz Hr. destruct (allocate_run Hnz requested w Hr)
    as (rs & evs & Hp & Hm & Hu & Hl & [(Ht & kept & spare & evs' & Hs & Hk & Hm' & Hd)|(Ht & Hf & e & E' & He)]).
  - destruct Hd as [[-> _] | -> ]; done.
  - rewrite E'. split_and!; try done. eauto.
Qed.

Section FreeRun.
Context `{Kernel} `{EV : Env}.

Lemma free_regions_run freed rs q w :
  live freed = [] ->
  exists evs ra', mapped evs = [] /\ live rs = unmapped evs ++ live (mem_regions ra') /\
    ((free_regions freed rs (mk_allocator q (freed ++ rs), w) = (Return (Ok tt), (ra', grow w evs)) /\
      live (mem_regions ra') = [] /\ requested_mem ra' = q)
     \/ exists e, free_regions freed rs (mk_allocator q (freed ++ rs), w) =
          (Return (Err e), (ra', grow w evs)) /\ error_code e = EnclaveMunmapError).
Proof.
  revert freed w. induction rs as [|r rs IH]; intros freed w Hf; cbn [free_regions].
  { exists [], (mk_allocator q (freed ++ [])). rewrite grow_nil. simpl. rewrite app_nil_r, Hf.
    split_and!; [done|done|left; done]. }
  destruct (region_free_run r w) as (e1 & Hm & [(r' & E & Hl & Hu) | (e & E & Hc & Hu)]).
  - destruct (IH (freed ++ [r']) (grow w e1)) as (e2 & ra' & Hm2 & Hl2 & Hd).
    { by rewrite live_app, Hf, Hl. }
    exists (e1 ++ e2), ra'. rewrite mapped_app, unmapped_app, Hm, Hm2, <- grow_grow.
    split; [done|]. split.
    { change (r :: rs) with ([r] ++ rs). by rewrite live_app, Hl2, <- Hu, app_assoc. }
    assert (forall k, bind (map_err (add_subaction "Failed to free enclave memory region")
              (lift (region_free r))) k (mk_allocator q (freed ++ r :: rs), w)
            = k r' (mk_allocator q (freed ++ r :: rs), grow w e1)) as ->.
    { intros k. unfold bind, map_err, lift, zoom. simpl. by rewrite E. }
    rewrite <- app_assoc in Hd. exact Hd.
  - exists e1, (mk_allocator q (freed ++ r :: rs)). rewrite Hm, Hu. simpl.
    rewrite live_app, Hf. split_and!; [done|done|right].
    unfold bind, map_err, lift, zoom. simpl. rewrite E. eauto.
Qed.

Lemma allocator_free_ok ra w ra' w' :
  allocator_free (ra, w) = (Return (Ok tt), (ra', w')) ->
  mem_regions ra' = [] /\ exists evs, w' = grow w evs /\ mapped evs = [] /\
    unmapped evs = live (mem_regions ra).
Proof.
  destruct ra as [q rs]. unfold allocator_free, bind at 1, self, gets. cbn [fst mem_regions].
  destruct (free_regions_run [] rs q w) as (evs & ra1 & Hm & Hl & [(E & Hl' & _)|(e & E & _)]); [done| |];
    simpl in E; unfold bind at 1; rewrite E; [|done].
  unfold bind, set_self, modify. simpl. intros ?; simplify_eq.
  split; [done|]. exists evs. split_and!; [done|done|]. by rewrite Hl, Hl', app_nil_r.
Qed.

Lemma allocator_drop_ok ra w ra' w' :
  allocator_drop (ra, w) = (Return (Ok tt), (ra', w')) ->
  exists evs, w' = grow w evs /\ mapped evs = [] /\ unmapped evs = live (mem_regions ra).
Proof.
  unfold allocator_drop. intros E. m_inv.
  match goal with H : try _ _ = _ |- _ => apply try_inv in H end.
  match goal with H : lift (ok_or_exit_with_errno _ ?r) _ = _ |- _ => destruct r as [[]|]; [|done] end.
  unfold lift, zoom, ok_or_exit_with_errno, ret in *. simpl in *. destruct s as [ra1 w1]. simplify_eq.
  match goal with H : allocator_free _ = _ |- _ => by apply allocator_free_ok in H as [_ ?] end.
Qed.

Lemma allocator_drop_empty ra w : mem_regions ra = [] ->
  allocator_drop (ra, w) = (Return (Ok tt), (ra, w)).
Proof. destruct ra as [q rs]. simpl. by intros ->. Qed.
End FreeRun.

(** C22: [ResourceAllocator::free] gives back each extent the allocator holds
    exactly once: the extents it held are those unmapped by the call followed by
    those it still holds, in order; on success it holds none and has no regions;
    the only error is that of an unmapping that failed. So freeing again, as the
    destructor does, never unmaps an extent twice. *)
Theorem allocator_free_conserves `{Kernel} (ra ra' : ResourceAllocator) (w w' : World)
    (r : outcome (result NitroCliFailure unit)) :
  allocator_free (ra, w) = (r, (ra', w')) ->
  exists evs, w' = grow w evs /\ mapped evs = [] /\
    live (mem_regions ra) = unmapped evs ++ live (mem_regions ra') /\
    ((r = Return (Ok tt) /\ mem_regions ra' = []) \/
     exists e, r = Return (Err e) /\ error_code e = EnclaveMunmapError).
Proof.
  destruct ra as [q rs]. unfold allocator_free, bind at 1, self, gets. cbn [fst snd mem_regions].
  destruct (free_regions_run [] rs q w) as (evs & ra1 & Hm & Hl & [(E & Hl' & Hq)|(e & E & He)]); [done| |];
    simpl in E; unfold bind at 1; rewrite E.
  - unfold bind, set_self, modify. simpl. intros ?; simplify_eq. exists evs. rewrite Hl, Hl'. auto 10.
  - intros ?; simplify_eq. exists evs. eauto 10.
Qed.

(** A request of 1100 MiB: the pages of 1 GiB and 2 MiB exist, all others are
    refused. *)
Definition small_pages_kernel : Kernel :=
  sample_kernel (fun l len fl => if (len =? GiB) || (len =? 2 * MiB) then sample_mmap l len fl else None)
    sample_ioctl (0, 0).

Lemma small_pages_nonzero l len fl a :
  @k_mmap small_pages_kernel l len fl = Some a -> a <> 0.
Proof. simpl. unfold sample_mmap. case_match; intros; simplify_eq. lia. Qed.

Lemma allocate_correct_witness :
  exists regions ra w', @allocate small_pages_kernel sample_env (mk_allocator (1100 * MiB) [], world0)
      = (Return (Ok regions), (ra, w')) /\
    length regions = 39%nat /\ 1100 * MiB <= total_size regions.
Proof.
  eexists _, _, _. split; [vm_compute; reflexivity|]. split; [reflexivity|].
  refine (proj1 (proj2 (proj2 (proj2
    (@allocate_correct small_pages_kernel sample_env (1100 * MiB) world0 _ _ _ small_pages_nonzero _ _))))).
  - vm_compute. split; discriminate.
  - vm_compute. reflexivity.
Defined.

(** A kernel out of huge pages. *)
Lemma allocate_outcomes_witness :
  match @allocate (sample_kernel (fun _ _ _ => None) sample_ioctl (0, 0)) sample_env
          (mk_allocator (4 * MiB) [], world0) with
  | (Return (Err e), (ra, w')) => error_code e = InsufficientMemoryAvailable
  | _ => False
  end.
Proof.
  set (K := sample_kernel (fun _ _ _ => None) sample_ioctl (0, 0)).
  assert (exists e s, @allocate K sample_env (mk_allocator (4 * MiB) [], world0) = (Return (Err e), s)) as (e & [ra w'] & E).
  { eexists _, _. vm_compute. reflexivity. }
  assert (0 <= 4 * MiB < 2 ^ 63) as Hr by (unfold MiB, KiB; lia).
  pose proof (@allocate_outcomes K sample_env (4 * MiB) world0 ltac:(discriminate) Hr) as T.
  rewrite E in T |- *. exact (proj1 T).
Defined.

Lemma allocator_free_conserves_witness :
  exists evs, snd (snd (@allocator_free sample_system
      (mk_allocator 0 [mk_region 0 (2 * MiB) 4096; mk_region 0 0 0; mk_region 0 (8 * MiB) 8192], world0)))
    = grow world0 evs /\ live [mk_region 0 (2 * MiB) 4096; mk_region 0 0 0; mk_region 0 (8 * MiB) 8192]
    = unmapped evs ++ [].
Proof.
  destruct (@allocator_free_conserves sample_system
    (mk_allocator 0 [mk_region 0 (2 * MiB) 4096; mk_region 0 0 0; mk_region 0 (8 * MiB) 8192])
    (mk_allocator 0 []) world0 _ (Return (Ok tt)) eq_refl) as (evs & E & _ & Hl & _).
  exists evs. split; [exact E | exact Hl].
Defined.
