(* ===== verification/EifWriter.v ===== *)
(** * Writing the enclave image into memory
    (src/src/enclave_proc/resource_manager.rs)

    The image file is read once, in order, into the regions of the enclave,
    starting at the offset that the driver asks for. *)
From S2P Require Import Prelude.
From S2P Require Import RustStd.
From S2P Require Import Failure.
From S2P Require Import Os.
From S2P Require Import Sample.
From S2P Require Import EnclaveIds.
From S2P Require Import Memory.
From stdpp Require Import base list numbers strings gmap.
From Stdlib Require Import ZArith Lia.
Local Open Scope Z_scope.
Local Open Scope nitro_scope.

(** ** Files *)

(** An open file: its bytes, the position of the next read, and what the system
    answers (the error's text, if any) when its metadata is queried or its
    position is changed. *)
Record File : Type := mk_file {
  file_data : list Z;
  file_pos : nat;
  metadata_err : option string;
  seek_err : option string;
}.

(** [file.metadata()?.len()] *)
Definition file_len (f : File) : result string Z :=
  match metadata_err f with Some e => Err e | None => Ok (Z.of_nat (length (file_data f))) end.

Definition set_pos (n : nat) (f : File) : File :=
  mk_file (file_data f) n (metadata_err f) (seek_err f).

(** [file.rewind()] *)
Definition rewind : M string File unit :=
  fun f =>
    match seek_err f with
    | Some e => (Return (Err e), f)
    | None => (Return (Ok tt), set_pos 0 f)
    end.

(** The error of [read_exact] at the end of the file. *)
Definition eof_error : string :=
  "Error { kind: UnexpectedEof, message: 'failed to fill whole buffer' }".

(** Store bytes at consecutive addresses. *)
Fixpoint mem_write (addr : Z) (bytes : list Z) (m : gmap Z Z) : gmap Z Z :=
  match bytes with
  | [] => m
  | b :: bytes => mem_write (addr + 1) bytes (<[addr := b]> m)
  end.

(** ** Operations *)

(** The bytes that the file still has are stored even when they are too few. *)
(* src/src/enclave_proc/resource_manager.rs MemoryRegion::fill_from_file *)
Definition fill_from_file (r : MemoryRegion) (region_offset size : Z) : IOS File unit :=
  match checked_add region_offset size with
  | None => fail (failure_at "Memory overflow when writing EIF file to region" MemoryOverflow 285)
  | Some offset_plus_size =>
      if mem_size r <? offset_plus_size then fail (failure_at "Out of region" MemoryOverflow 292)
      else
        let! f := self in
        let bytes := take (Z.to_nat size) (drop (file_pos f) (file_data f)) in
        do! set_self (set_pos (file_pos f + length bytes) f);
        do! lift (modify (fun w => set_mem (mem_write (mem_addr r + region_offset) bytes (w_mem w)) w));
        if Z.of_nat (length bytes) <? size
        then fail (failure_at ("Error while reading from enclave image: " +:+ eof_error) EifParsingError 304)
        else ret tt
  end.

(** The loop over the regions; [total_written] counts the bytes of the regions
    already passed. *)
(* src/src/enclave_proc/resource_manager.rs:1116-1155 write_eif_to_regions *)
Fixpoint write_regions (file_size image_write_offset total_written : Z) (regions : list MemoryRegion)
    : IOS File unit :=
  match regions with
  | [] => ret tt
  | region :: regions =>
      match checked_add file_size image_write_offset with
      | None => fail (failure_at "Memory overflow when trying to write EIF file" MemoryOverflow 1119)
      | Some offset_plus_file_size =>
          if offset_plus_file_size <=? total_written then ret tt
          else
            match checked_add total_written (mem_size region) with
            | None => fail (failure_at "Memory overflow when trying to write EIF file" MemoryOverflow 1133)
            | Some written_plus_region_size =>
                do! (if written_plus_region_size <=? image_write_offset then ret tt
                     else
                       let region_offset := saturating_sub image_write_offset total_written in
                       let file_offset := saturating_sub total_written image_write_offset in
                       let size := Z.min (mem_size region - region_offset) (file_size - file_offset) in
                       map_err (add_subaction "Failed to fill region with file content")
                         (fill_from_file region region_offset size));
                write_regions file_size image_write_offset (total_written + mem_size region) regions
            end
      end
  end.

(* src/src/enclave_proc/resource_manager.rs write_eif_to_regions *)
Definition write_eif_to_regions (regions : list MemoryRegion) (image_write_offset : Z)
    : IOS File unit :=
  let! f := self in
  match file_len f with
  | Err _ => fail (failure_at "Failed to obtain EIF file metadata" FileOperationFailure 1101)
  | Ok file_size =>
      do! zoom fst (fun f s => (f, snd s)) (map_err_to (fun _ =>
        failure_at "Failed to seek to the beginning of the EIF file" FileOperationFailure 1109) rewind);
      write_regions file_size image_write_offset 0 regions
  end.

(** ** The reference: bytes stored cell by cell *)

(** The addresses of the cells of the regions, in order. *)
Definition cells (rs : list MemoryRegion) : list Z :=
  flat_map (fun r => seqZ (mem_addr r) (mem_size r)) rs.

(** Store the i-th byte in the i-th cell, as long as there are both. *)
Fixpoint write_bytes (addrs bytes : list Z) (m : gmap Z Z) : gmap Z Z :=
  match addrs, bytes with
  | a :: addrs, b :: bytes => write_bytes addrs bytes (<[a := b]> m)
  | _, _ => m
  end.

Lemma write_bytes_nil_r addrs m : write_bytes addrs [] m = m.
Proof. by destruct addrs. Qed.

Lemma write_bytes_app a1 a2 bytes m :
  write_bytes (a1 ++ a2) bytes m =
  write_bytes a2 (drop (length a1) bytes) (write_bytes a1 (take (length a1) bytes) m).
Proof.
  revert bytes m. induction a1 as [|a a1 IH]; intros bytes m; simpl; [done|].
  destruct bytes; simpl; [by rewrite write_bytes_nil_r|]. apply IH.
Qed.

Lemma write_bytes_lookup_ne addrs bytes m a :
  ~ (a ∈ take (length bytes) addrs) -> write_bytes addrs bytes m !! a = m !! a.
Proof.
  revert bytes m. induction addrs as [|a' addrs IH]; intros bytes m Ha; simpl; [done|].
  destruct bytes as [|b bytes]; [done|]. simpl in Ha. apply not_elem_of_cons in Ha as [Hne Ha].
  rewrite IH by done. by rewrite lookup_insert_ne.
Qed.

Lemma write_bytes_lookup addrs bytes m k a b :
  NoDup addrs -> addrs !! k = Some a -> bytes !! k = Some b ->
  write_bytes addrs bytes m !! a = Some b.
Proof.
  intros Hnd. revert k bytes m. induction Hnd as [|a' addrs Ha' Hnd IH]; intros k bytes m Ha Hb; [done|].
  destruct bytes as [|b' bytes]; [done|]. destruct k as [|k]; simpl in *; [|by eapply IH].
  simplify_eq. rewrite write_bytes_lookup_ne; [by rewrite lookup_insert_eq|].
  intros Hin. apply Ha'. apply list_elem_of_In in Hin. apply list_elem_of_In.
  rewrite <- (take_drop (length bytes) addrs). apply in_or_app. auto.
Qed.

Lemma mem_write_cells addr n bytes m :
  Z.of_nat (length bytes) <= n -> mem_write addr bytes m = write_bytes (seqZ addr n) bytes m.
Proof.
  revert addr n m. induction bytes as [|b bytes IH]; intros addr n m Hn; simpl in *.
  { by rewrite write_bytes_nil_r. }
  rewrite seqZ_cons by lia. simpl. rewrite (IH _ (Z.pred n)) by lia. by rewrite Z.add_1_r.
Qed.

Lemma drop_seqZ k a n : 0 <= k <= n -> drop (Z.to_nat k) (seqZ a n) = seqZ (a + k) (n - k).
Proof.
  intros Hk. replace n with (k + (n - k)) at 1 by lia. rewrite seqZ_app by lia.
  replace (Z.to_nat k) with (length (seqZ a k)) by (rewrite length_seqZ; done).
  by rewrite drop_app_length.
Qed.

(** ** The loop implements the reference *)

Lemma fill_from_file_run r ro size f w :
  0 <= ro -> 0 <= size -> ro + size <= mem_size r -> mem_size r <= u64_MAX ->
  Z.of_nat (file_pos f) + size <= Z.of_nat (length (file_data f)) ->
  fill_from_file r ro size (f, w) =
    (Return (Ok tt), (set_pos (file_pos f + Z.to_nat size) f,
      set_mem (mem_write (mem_addr r + ro)
        (take (Z.to_nat size) (drop (file_pos f) (file_data f))) (w_mem w)) w)).
Proof.
  intros Hro Hs Hm Hu Hf. unfold fill_from_file, checked_add.
  rewrite (proj2 (Z.leb_le _ _)) by lia. rewrite (proj2 (Z.ltb_ge _ _)) by lia.
  unfold bind, self, gets, set_self, modify, lift, zoom. cbn.
  assert (length (take (Z.to_nat size) (drop (file_pos f) (file_data f))) = Z.to_nat size) as ->.
  { rewrite length_take, length_drop. lia. }
  rewrite (proj2 (Z.ltb_ge _ _)) by lia. done.
Qed.

Lemma set_mem_same w : set_mem (w_mem w) w = w.
Proof. by destruct w. Qed.

Lemma length_cells rs : Forall (fun r => 0 <= mem_size r) rs -> Z.of_nat (length (cells rs)) = total_size rs.
Proof.
  induction 1 as [|r rs Hr _ IH]; [done|]. unfold cells in *. simpl.
  rewrite length_app, length_seqZ, total_cons. lia.
Qed.

Lemma total_nonneg rs : Forall (fun r => 0 <= mem_size r) rs -> 0 <= total_size rs.
Proof. intros H. apply zsum_nonneg. by apply Forall_map. Qed.

(** One region: the cells of the region beyond the offset receive the bytes
    of the file from the position on; what follows is left for the next ones. *)
Lemma write_bytes_region r rest (off t : Z) data m :
  0 <= mem_size r -> 0 <= t -> 0 <= off -> off < t + mem_size r ->
  write_bytes (drop (Z.to_nat (off - t)) (seqZ (mem_addr r) (mem_size r) ++ rest))
    (drop (Z.to_nat (t - off)) data) m =
  write_bytes rest (drop (Z.to_nat (t + mem_size r - off)) data)
    (mem_write (mem_addr r + saturating_sub off t)
       (take (Z.to_nat (mem_size r - saturating_sub off t)) (drop (Z.to_nat (t - off)) data)) m).
Proof.
  intros Hm Ht Ho Hlt. unfold saturating_sub.
  replace (Z.to_nat (off - t)) with (Z.to_nat (Z.max 0 (off - t))) by lia.
  set (ro := Z.max 0 (off - t)).
  rewrite drop_app_le by (rewrite length_seqZ; lia).
  rewrite drop_seqZ by lia. rewrite write_bytes_app, length_seqZ, drop_drop.
  rewrite (mem_write_cells _ (mem_size r - ro)) by (rewrite length_take; lia).
  do 2 f_equal. lia.
Qed.

Lemma write_regions_run off rs : forall t f w,
  0 <= off -> off + Z.of_nat (length (file_data f)) <= u64_MAX -> 0 <= t ->
  Forall (fun r => 0 <= mem_size r) rs -> t + total_size rs <= u64_MAX ->
  file_pos f = Z.to_nat (Z.min (t - off) (Z.of_nat (length (file_data f)))) ->
  exists f', write_regions (Z.of_nat (length (file_data f))) off t rs (f, w) =
    (Return (Ok tt), (f', set_mem (write_bytes (drop (Z.to_nat (off - t)) (cells rs))
       (drop (Z.to_nat (t - off)) (file_data f)) (w_mem w)) w)).
Proof.
  induction rs as [|r rs IH]; intros t f w Ho Hmax Ht Hrs Htot Hpos; cbn [write_regions].
  { exists f. unfold cells. simpl. rewrite drop_nil. simpl. by rewrite set_mem_same. }
  apply Forall_cons in Hrs as [Hr Hrs]. pose proof (total_nonneg _ Hrs) as Hnn.
  rewrite total_cons in Htot.
  set (fs := Z.of_nat (length (file_data f))) in *. unfold checked_add.
  rewrite (proj2 (Z.leb_le (fs + off) _)) by lia.
  destruct (Z.leb_spec (fs + off) t) as [Hdone|Hmore].
  { exists f. rewrite (drop_ge (file_data f)) by lia. by rewrite write_bytes_nil_r, set_mem_same. }
  rewrite (proj2 (Z.leb_le (t + mem_size r) _)) by lia.
  change (cells (r :: rs)) with (seqZ (mem_addr r) (mem_size r) ++ cells rs).
  destruct (Z.leb_spec (t + mem_size r) off) as [Hskip|Hfill].
  - rewrite bind_ret_l.
    destruct (IH (t + mem_size r) f w) as [f' E]; [done|done|lia|done|lia|subst; lia|].
    exists f'. etrans; [exact E|]. rewrite drop_app_ge by (rewrite length_seqZ; lia).
    rewrite length_seqZ. do 4 f_equal; f_equal; lia.
  - unfold saturating_sub at 1 2. unfold saturating_sub at 1.
    set (ro := Z.max 0 (off - t)). set (fo := Z.max 0 (t - off)).
    set (size := Z.min (mem_size r - ro) (fs - fo)).
    unfold bind, map_err. rewrite fill_from_file_run by lia.
    set (f1 := set_pos _ f). set (w1 := set_mem _ w).
    destruct (IH (t + mem_size r) f1 w1) as [f' E]; [done|done|lia|done|lia|simpl; unfold size; lia|].
    exists f'. etrans; [exact E|]. simpl. rewrite write_bytes_region by lia.
    unfold set_mem. simpl. do 4 f_equal.
    replace (Z.to_nat (off - (t + mem_size r))) with 0%nat by lia. rewrite drop_0.
    unfold saturating_sub. fold ro. do 2 f_equal. rewrite Hpos.
    replace (Z.to_nat (Z.min (t - off) fs)) with (Z.to_nat (t - off)) by lia.
    change (saturating_sub off t) with ro. f_equal.
    destruct (decide (mem_size r - ro <= fs - fo)).
    + do 2 f_equal. unfold size. lia.
    + rewrite !take_ge; [done| |]; rewrite length_drop; unfold size; lia.
Qed.

(** ** Properties *)

(** C11: [write_eif_to_regions] puts byte k of the image into cell
    [image_write_offset + k] of the regions laid end to end, across region
    boundaries, for every byte that has such a cell, and touches no other cell.
    It does not check that the regions are long enough: the bytes that have no
    cell are silently left out. *)
Theorem write_eif_places_image (regions : list MemoryRegion) (off : Z) (f : File) (w : World) :
  metadata_err f = None -> seek_err f = None ->
  Forall (fun r => 0 <= mem_size r) regions -> total_size regions <= u64_MAX ->
  0 <= off -> off + Z.of_nat (length (file_data f)) <= u64_MAX ->
  NoDup (cells regions) ->
  exists f' w', write_eif_to_regions regions off (f, w) = (Return (Ok tt), (f', w')) /\
    w_log w' = w_log w /\ w_in w' = w_in w /\
    (forall k a b, drop (Z.to_nat off) (cells regions) !! k = Some a -> file_data f !! k = Some b ->
       w_mem w' !! a = Some b) /\
    (forall a, ~ (a ∈ take (length (file_data f)) (drop (Z.to_nat off) (cells regions))) ->
       w_mem w' !! a = w_mem w !! a).
Proof.
  intros Hme Hse Hrs Htot Ho Hmax Hnd.
  destruct (write_regions_run off regions 0 (set_pos 0 f) w) as [f' E]; try done; [simpl; lia|].
  eexists f', _. split.
  { unfold write_eif_to_regions, bind at 1, self, gets, file_len. cbn [fst]. rewrite Hme.
    unfold bind, zoom, map_err_to, rewind. cbn [fst snd]. rewrite Hse. cbn -[write_regions]. exact E. }
  replace (Z.to_nat (0 - off)) with 0%nat in * by lia. rewrite Z.sub_0_r in *.
  split_and!; [done|done| |].
  - intros k a b. apply write_bytes_lookup.
    rewrite <- (take_drop (Z.to_nat off) (cells regions)) in Hnd. by apply NoDup_app in Hnd as (_ & _ & ?).
  - intros a. apply write_bytes_lookup_ne.
Qed.

(** An image of seven bytes, at offset 3 of two regions of 4 bytes. *)
Definition two_regions : list MemoryRegion := [mk_region 0 4 100; mk_region 0 4 200].

Lemma write_eif_places_image_witness :
  exists f' w', write_eif_to_regions two_regions 3 (mk_file [10; 11; 12; 13; 14; 15; 16] 5 None None, world0)
      = (Return (Ok tt), (f', w')) /\ w_mem w' !! 103 = Some 10 /\ w_mem w' !! 200 = Some 11 /\
    w_mem w' !! 203 = Some 14 /\ w_mem w' !! 102 = None.
Proof.
  destruct (write_eif_places_image two_regions 3 (mk_file [10; 11; 12; 13; 14; 15; 16] 5 None None) world0)
    as (f' & w' & E & _ & _ & Hin & Hout); try reflexivity.
  - repeat constructor; discriminate.
  - discriminate.
  - discriminate.
  - discriminate.
  - apply (bool_decide_unpack _). vm_compute. exact I.
  - exists f', w'. split; [exact E|]. split; [apply (Hin 0%nat); reflexivity|].
    split; [apply (Hin 1%nat); reflexivity|]. split; [apply (Hin 4%nat); reflexivity|].
    apply Hout. apply (bool_decide_unpack _). vm_compute. exact I.
Defined.
