(* ===== verification/Boot.v ===== *)
(** * Waiting for an enclave to boot (src/eif_loader/src/lib.rs)

    The enclave connects to the listener of its parent and sends one byte, the
    heart beat, which is sent back to it. *)
From S2P Require Import Prelude.
From S2P Require Import RustStd.
From S2P Require Import Failure.
From S2P Require Import Os.
From S2P Require Import Sample.
From S2P Require Import EnclaveIds.
From stdpp Require Import base list numbers strings gmap.
From Stdlib Require Import ZArith Lia.
Local Open Scope Z_scope.
Local Open Scope nitro_scope.

(* src/eif_loader/src/lib.rs TIMEOUT_SECOND_MS *)
Definition TIMEOUT_SECOND_MS : Z := 1000.
(* src/eif_loader/src/lib.rs TIMEOUT_MINUTE_MS *)
Definition TIMEOUT_MINUTE_MS : Z := 90 * TIMEOUT_SECOND_MS.
(* src/eif_loader/src/lib.rs HEART_BEAT *)
Definition HEART_BEAT : Z := 0xB7.

(* src/eif_loader/src/lib.rs EifLoaderError *)
Inductive EifLoaderError : Type :=
| SocketPollingError
| VsockAcceptingError
| VsockBindingError
| VsockReceivingError
| VsockTimeoutError.

(** The derived [Debug]. *)
Definition show_loader_error (e : EifLoaderError) : string :=
  match e with
  | SocketPollingError => "SocketPollingError"
  | VsockAcceptingError => "VsockAcceptingError"
  | VsockBindingError => "VsockBindingError"
  | VsockReceivingError => "VsockReceivingError"
  | VsockTimeoutError => "VsockTimeoutError"
  end.

(** The time-out of the poll, 90 seconds for each 6 GiB of image begun. The
    subtraction is on 64 unsigned bits and the conversion keeps the low 32. *)
(* src/src/enclave_proc/resource_manager.rs calculate_necessary_timeout *)
Definition calculate_necessary_timeout (eif_size : Z) : Z :=
  saturating_mul_i32 (i32 (u64 (1 + u64 (eif_size - 1) / (6 * GiB)))) TIMEOUT_MINUTE_MS.

(** [value] is the variable NITRO_BETWEEN_PACKETS_MILLIS; the delay is in
    milliseconds. *)
(* src/src/enclave_proc/resource_manager.rs between_packets_delay *)
Definition between_packets_delay (value : option string) : option Z :=
  match value with
  | Some value =>
      match parse_u64 value with
      | Ok value => Some value
      | Err _ => None
      end
  | None => None
  end.

Section Boot.
Context `{Kernel}.

(** The listener is consumed: it is closed at the end, after the stream. *)
(* src/eif_loader/src/lib.rs enclave_ready *)
Definition enclave_ready (listener poll_timeout_ms : Z) : M EifLoaderError World unit :=
  owning listener (
    let! result := poll listener poll_timeout_ms in
    if decide (result = Some 0) then fail VsockTimeoutError
    else if decide (result <> Some 1) then fail SocketPollingError
    else
      let! stream := accept listener in
      match stream with
      | None => fail VsockAcceptingError
      | Some stream =>
          owning stream (
            let! bytes := read stream 1 in
            match bytes with
            | None => fail VsockReceivingError
            | Some buf =>
                if negb (Z.of_nat (length buf) =? 1) || negb (hd 0 buf =? HEART_BEAT)
                then fail VsockReceivingError
                else map_err_to (fun _ => VsockReceivingError) (write_all stream buf)
            end)
      end).
End Boot.

(** ** Properties *)

(** One path through [enclave_ready]: the events are read off the run. *)
Ltac ready_path :=
  eexists _, _; simpl; unfold add_event; simpl; rewrite <- ?app_assoc; simpl;
  split; [done|]; split; [naive_solver|]; split; [eauto|];
  intros ?; rewrite !elem_of_cons, elem_of_nil; intros ?; destruct_or?; simplify_eq;
  eexists; rewrite !elem_of_cons; eauto 10.

(** The enclave counts as booted exactly when a connection came before the
    time-out, its first byte was the heart beat, and the byte could be sent
    back; whatever happens the listener is closed, and the accepted stream
    before it. *)
Theorem enclave_ready_exact `{Kernel} (listener timeout : Z) (w : World) :
  exists r evs,
    enclave_ready listener timeout w = (Return r, mk_world (w_log w ++ evs) (w_mem w) (w_in w)) /\
    (is_ok r = true <-> exists stream rc1 rc2, evs =
      [EvPoll listener timeout (Some 1); EvAccept listener (Some stream); EvRead stream (Some [HEART_BEAT]);
       EvWrite stream [HEART_BEAT] None; EvClose stream rc1; EvClose listener rc2]) /\
    (exists rc, last evs = Some (EvClose listener rc)) /\
    (forall stream, EvAccept listener (Some stream) ∈ evs -> exists rc, EvClose stream rc ∈ evs).
Proof.
  unfold enclave_ready, owning, bind, try, poll, accept, read, close, of_result, write_all, map_err_to.
  destruct (decide (k_poll (w_log w) listener timeout = Some 0)) as [E0|E0]; [ready_path|].
  destruct (decide (k_poll (w_log w) listener timeout <> Some 1)) as [E1|E1]; [ready_path|].
  apply dec_stable in E1. rewrite E1. simpl.
  destruct (k_accept _ listener) as [st|]; [|ready_path]. simpl.
  destruct (k_read _ st 1) as [[|b [|b' buf]]|]; [ready_path| | |ready_path].
  2: { rewrite (proj2 (Z.eqb_neq _ _)) by (simpl length; lia). ready_path. }
  simpl.
  destruct (Z.eqb_spec b HEART_BEAT) as [->|Hb]; [|ready_path]. simpl.
  destruct (k_write _ st _) as [err|]; ready_path.
Qed.

(** For an image of at least one byte the time-out is 90 seconds for each
    6 GiB begun, capped at the greatest 32-bit integer, hence never less than
    90 seconds; for an empty file the subtraction wraps and the time-out is the
    least 32-bit integer, a negative time-out, with which a poll never ends. *)
Theorem timeout_exact (eif_size : Z) :
  (1 <= eif_size < 2 ^ 63 ->
     calculate_necessary_timeout eif_size = Z.min i32_MAX (90000 * ceil_div eif_size (6 * GiB)) /\
     90000 <= calculate_necessary_timeout eif_size) /\
  calculate_necessary_timeout 0 = i32_MIN.
Proof.
  split; [|reflexivity]. intros H. unfold calculate_necessary_timeout, ceil_div.
  assert (6 * GiB = 6442450944) as -> by reflexivity. simpl.
  change (TIMEOUT_MINUTE_MS) with 90000.
  assert (1 + (eif_size - 1) / 6442450944 =
    eif_size / 6442450944 + (if eif_size mod 6442450944 =? 0 then 0 else 1)) as E.
  { pose proof (Z.div_mod eif_size 6442450944 ltac:(lia)) as Hd.
    pose proof (Z.mod_pos_bound eif_size 6442450944 ltac:(lia)).
    destruct (Z.eqb_spec (eif_size mod 6442450944) 0).
    - replace (eif_size - 1) with (6442450943 + (eif_size / 6442450944 - 1) * 6442450944) by lia.
      rewrite Z.div_add by lia. change (6442450943 / 6442450944) with 0. lia.
    - replace (eif_size - 1) with ((eif_size mod 6442450944 - 1) + (eif_size / 6442450944) * 6442450944) by lia.
      rewrite Z.div_add by lia. rewrite Z.div_small by lia. lia. }
  rewrite <- E. pose proof (Z.div_le_upper_bound (eif_size - 1) 6442450944 1431655766 ltac:(lia) ltac:(lia)).
  pose proof (Z.div_pos (eif_size - 1) 6442450944 ltac:(lia) ltac:(lia)).
  rewrite (u64_small (eif_size - 1)) by (unfold u64_MAX; lia).
  rewrite u64_small by (unfold u64_MAX; lia).
  unfold i32. rewrite wrap_signed_small by lia.
  unfold saturating_mul_i32, i32_MAX, i32_MIN. lia.
Qed.
