(* ===== verification/Events.v ===== *)
(** * Which calls a computation makes

    Classes of events - on streams, of memory, of descriptors, driver calls, other
    system calls - and, for the operations of the lower components, which class
    they emit ([emits] of [Logs]): what writes to a connection makes no driver
    call, and so on. *)
From S2P Require Import Prelude.
From S2P Require Import Logs.
From S2P Require Import RustStd.
From S2P Require Import Failure.
From S2P Require Import Os.
From S2P Require Import Wire.
From S2P Require Import Connection.
From S2P Require Import EnclaveIds.
From S2P Require Import Memory.
From S2P Require Import EifWriter.
From S2P Require Import Boot.
From stdpp Require Import base list numbers strings gmap.
From Stdlib Require Import ZArith Lia.
Local Open Scope Z_scope.
Local Open Scope nitro_scope.

(** States that contain the world. *)
Class HasWorld (T : Type) : Type := world_of : T -> World.
#[export] Instance has_world_world : HasWorld World := fun w => w.
#[export] Instance has_world_pair {T S} `{HasWorld S} : HasWorld (T * S) := fun s => world_of (snd s).

#[export] Instance has_log_world {T} `{HasWorld T} : HasLog T Event := fun s => w_log (world_of s).

Lemma emits_lift {T A} (Q : Event -> Prop) (m : IO A) : emits Q m -> emits Q (lift m : IOS T A).
Proof. intros Hm. by apply (emits_zoom Q snd). Qed.
Lemma emits_self {T} (Q : Event -> Prop) : emits Q (self : IOS T T).
Proof. apply emits_gets. Qed.
Lemma emits_set_self {T} (Q : Event -> Prop) (t : T) : emits Q (set_self t).
Proof. by apply emits_quiet. Qed.
Lemma emits_push_region (Q : Event -> Prop) r : emits Q (push_region r).
Proof. by apply emits_quiet. Qed.
#[export] Hint Resolve emits_lift emits_self emits_set_self emits_push_region : emits.
Ltac emits_step ::= match goal with |- emits _ (lift _) => apply emits_lift end.

(** ** Kinds of events *)

Definition is_stream (e : Event) : Prop :=
  match e with EvWrite _ _ _ | EvShutdown _ _ => True | _ => False end.
(** Memory calls, and the message of a destructor that fails. *)
Definition is_memory (e : Event) : Prop :=
  match e with EvMmap _ _ _ | EvMunmap _ _ _ | EvNotify _ => True | _ => False end.
Definition is_notify (e : Event) : Prop := match e with EvNotify _ => True | _ => False end.
Definition is_ioctl (e : Event) : Prop := match e with EvIoctl _ _ _ _ => True | _ => False end.

Definition is_socket (e : Event) : Prop :=
  match e with
  | EvVsockBind _ _ _ | EvPoll _ _ _ | EvAccept _ _ | EvRead _ _ | EvWrite _ _ _ | EvShutdown _ _
  | EvClose _ _ => True
  | _ => False
  end.

(** ** Streams, connections, memory, image *)

Lemma emits_syscall `{Kernel} (Q : Event -> Prop) c : (forall a, Q (EvSys c a)) -> emits Q (syscall c).
Proof. intros HQ. apply emits_one. intros s. eexists. split; [reflexivity|apply HQ]. Qed.

Lemma returns_syscall `{Kernel} c : returns (syscall c).
Proof. intros s. by eexists _, _. Qed.
#[export] Hint Resolve returns_syscall : returns.

Lemma emits_notify_error msg : emits is_notify (notify_error msg).
Proof. apply emits_one. intros s. eexists. split; [reflexivity|done]. Qed.
#[export] Hint Resolve emits_notify_error : emits.

Lemma emits_ok_or_exit `{Env} {A} info (r : NitroCliResult A) :
  emits is_notify (ok_or_exit_with_errno info r).
Proof. unfold ok_or_exit_with_errno. emits. Qed.

Section Components.
Context `{Kernel} `{EV : Env}.

Lemma emits_write_all fd bs : emits is_stream (write_all fd bs).
Proof. apply emits_one. intros s. eexists. split; [reflexivity|done]. Qed.
Lemma emits_read_exact (Q : Event -> Prop) fd n : emits Q (read_exact fd n).
Proof. apply emits_quiet. intros s. unfold read_exact. by case_match. Qed.
Hint Resolve emits_write_all emits_read_exact : emits.

Lemma emits_write_u64_le fd v : emits is_stream (write_u64_le fd v).
Proof. unfold write_u64_le. emits. Qed.
Lemma emits_receive (Q : Event -> Prop) T `{Serde T} fd : emits Q (receive_from_stream T fd).
Proof. unfold receive_from_stream, read_u64_le. emits. Qed.
Hint Resolve emits_write_u64_le : emits.

Lemma emits_write_reply `{Serde EnclaveProcessReply} conn r : emits is_stream (write_reply conn r).
Proof. unfold write_reply, with_stream. emits. Qed.
Hint Resolve emits_write_reply : emits.

Lemma emits_safe_conn_println `{Serde EnclaveProcessReply} conn msg :
  emits is_stream (safe_conn_println conn msg).
Proof. unfold safe_conn_println, println. emits. Qed.
Lemma emits_safe_conn_eprintln `{Serde EnclaveProcessReply} conn msg :
  emits is_stream (safe_conn_eprintln conn msg).
Proof. unfold safe_conn_eprintln, eprintln. emits. Qed.

Lemma emits_close E fd : emits is_socket (close fd : M E World Z).
Proof. apply emits_one. intros s. eexists. split; [reflexivity|done]. Qed.
Lemma emits_vsock_bind E cid port : emits is_socket (vsock_bind cid port : M E World (option Z)).
Proof. apply emits_one. intros s. eexists. split; [reflexivity|done]. Qed.
Hint Resolve emits_close : emits.

Lemma emits_enclave_ready listener timeout : emits is_socket (enclave_ready listener timeout).
Proof.
  assert (forall fd bs, emits is_socket (write_all fd bs)) as Hw.
  { intros. eapply emits_impl; [apply emits_write_all|]. by intros []. }
  unfold enclave_ready, owning. emits;
    apply emits_one; intros s; eexists; (split; [reflexivity|done]).
Qed.

Lemma emits_region_new fl : emits is_memory (region_new fl).
Proof.
  unfold region_new. emits. apply emits_one. intros s. eexists. split; [reflexivity|done].
Qed.
Lemma emits_region_free r : emits is_memory (region_free r).
Proof.
  unfold region_free. emits. apply emits_one. intros s. eexists. split; [reflexivity|done].
Qed.
Hint Resolve emits_region_new emits_region_free : emits.

Lemma emits_exit_memory {A} info (r : NitroCliResult A) :
  emits is_memory (ok_or_exit_with_errno info r).
Proof. eapply emits_impl; [apply emits_ok_or_exit|]. by intros []. Qed.
Hint Resolve emits_exit_memory : emits.

Lemma emits_drop_regions rs : emits is_memory (drop_regions rs).
Proof. induction rs; simpl; unfold region_drop; emits. Qed.
Hint Resolve emits_drop_regions : emits.

Lemma emits_alloc_pages fuel c p n : emits is_memory (alloc_pages fuel c p n).
Proof. revert n. induction fuel; intros n; simpl; emits. Qed.
Hint Resolve emits_alloc_pages : emits.
Lemma emits_alloc_large_first ps n : emits is_memory (alloc_large_first ps n).
Proof. revert n. induction ps; intros n; cbn [alloc_large_first]; emits. Qed.
Lemma emits_alloc_small_first ps n : emits is_memory (alloc_small_first ps n).
Proof. revert n. induction ps; intros n; cbn [alloc_small_first]; emits. Qed.
Hint Resolve emits_alloc_large_first emits_alloc_small_first : emits.

Lemma emits_allocate : emits is_memory allocate.
Proof. unfold allocate, allocate_trim. emits. Qed.
Lemma emits_free_regions freed rs : emits is_memory (free_regions freed rs).
Proof. revert freed. induction rs; intros freed; simpl; emits. Qed.
Hint Resolve emits_free_regions : emits.
Lemma emits_allocator_free : emits is_memory allocator_free.
Proof. unfold allocator_free. emits. Qed.
Lemma emits_allocator_drop : emits is_memory allocator_drop.
Proof. unfold allocator_drop, allocator_free. emits. Qed.
End Components.

Lemma emits_fill_from_file (Q : Event -> Prop) r ro size : emits Q (fill_from_file r ro size).
Proof. unfold fill_from_file. emits. by apply emits_quiet. Qed.
#[export] Hint Resolve emits_fill_from_file : emits.
Lemma emits_write_regions (Q : Event -> Prop) fs off t rs : emits Q (write_regions fs off t rs).
Proof. revert t. induction rs; intros t; cbn [write_regions]; emits. Qed.
#[export] Hint Resolve emits_write_regions : emits.
Lemma emits_write_eif (Q : Event -> Prop) rs off : emits Q (write_eif_to_regions rs off).
Proof.
  unfold write_eif_to_regions. emits. apply emits_quiet. intros [f w]. unfold zoom, map_err_to, rewind.
  simpl. by destruct (seek_err f).
Qed.

#[export] Hint Resolve emits_close emits_vsock_bind emits_enclave_ready emits_write_all emits_read_exact emits_write_u64_le emits_receive
  emits_write_reply emits_safe_conn_println emits_safe_conn_eprintln emits_region_new
  emits_region_free emits_drop_regions emits_alloc_pages emits_alloc_large_first
  emits_alloc_small_first emits_allocate emits_free_regions emits_allocator_free
  emits_allocator_drop emits_write_eif emits_ok_or_exit : emits.
