(* ===== verification/Enclave.v ===== *)
(** * Enclaves (src/src/enclave_proc/resource_manager.rs)

    The handle that owns the driver's descriptor and the memory of an enclave,
    the sequence of driver calls that creates one, and the manager that the
    threads of the enclave process share. A clone of a manager shares the handle
    (an [Arc]) and copies the two names, which do not change afterwards: one
    value of [EnclaveManager] stands for all its clones. *)
From S2P Require Import Prelude.
From S2P Require Import RustStd.
From S2P Require Import Failure.
From S2P Require Import DocumentErrors.
From S2P Require Import CpuInfo.
From S2P Require Import EnclaveIds.
From S2P Require Import Os.
From S2P Require Import Bindings.
From S2P Require Import Sample.
From S2P Require Import Wire.
From S2P Require Import Connection.
From S2P Require Import Memory.
From S2P Require Import EifWriter.
From S2P Require Import Boot.
From S2P Require Import Logs.
From S2P Require Import Events.
From stdpp Require Import base list numbers strings gmap.
From Stdlib Require Import ZArith Lia.
Local Open Scope Z_scope.
Local Open Scope nitro_scope.

Definition failure_at (subaction : string) (code : NitroCliErrorEnum) (l : Z) : NitroCliFailure :=
  new_nitro_cli_failure subaction code "src/enclave_proc/resource_manager.rs" l.

(** ** The driver's interface *)

(* src/src/enclave_proc/resource_manager.rs ENCLAVE_MEMORY_EIF_SIZE_RATIO *)
Definition ENCLAVE_MEMORY_EIF_SIZE_RATIO : Z := 4.
(* src/src/enclave_proc/resource_manager.rs NE_EIF_IMAGE *)
Definition NE_EIF_IMAGE : Z := 0x01.
(* src/src/enclave_proc/resource_manager.rs NE_MAGIC *)
Definition NE_MAGIC : Z := 0xAE.
(* src/src/enclave_proc/resource_manager.rs NE_DEV_FILEPATH *)
Definition NE_DEV_FILEPATH : string := "/dev/nitro_enclaves".

(** The request codes of Linux: direction (1 write, 2 read), size, type, number. *)
Definition request_code (dir ty nr size : Z) : Z :=
  Z.lor (Z.lor (Z.shiftl dir 30) (Z.shiftl ty 8)) (Z.lor nr (Z.shiftl size 16)).
Definition request_code_read : Z -> Z -> Z -> Z := request_code 2.
Definition request_code_write : Z -> Z -> Z -> Z := request_code 1.
Definition request_code_readwrite : Z -> Z -> Z -> Z := request_code 3.

(* src/src/enclave_proc/resource_manager.rs NE_CREATE_VM *)
Definition NE_CREATE_VM : Z := request_code_read NE_MAGIC 0x20 8.
(* src/src/enclave_proc/resource_manager.rs NE_ADD_VCPU *)
Definition NE_ADD_VCPU : Z := request_code_readwrite NE_MAGIC 0x21 4.
(* src/src/enclave_proc/resource_manager.rs NE_GET_IMAGE_LOAD_INFO *)
Definition NE_GET_IMAGE_LOAD_INFO : Z :=
  request_code_readwrite NE_MAGIC 0x22 (Z.of_nat (size_of ne_image_load_info)).
(** The size is that of the allocator's own [MemoryRegion], three numbers of 64
    bits, not that of the bindings' structure. *)
(* src/src/enclave_proc/resource_manager.rs NE_SET_USER_MEMORY_REGION *)
Definition NE_SET_USER_MEMORY_REGION : Z := request_code_write NE_MAGIC 0x23 24.
(* src/src/enclave_proc/resource_manager.rs NE_START_ENCLAVE *)
Definition NE_START_ENCLAVE : Z :=
  request_code_readwrite NE_MAGIC 0x24 (Z.of_nat (size_of ne_enclave_start_info)).

(* src/src/enclave_proc/resource_manager.rs UserMemoryRegion::from *)
Definition user_memory_region (mem_reg : MemoryRegion) : IoctlArg :=
  ArgUserMemoryRegion (Memory.flags mem_reg) (mem_size mem_reg) (mem_addr mem_reg).

(** The texts of the driver's errors. *)
(* src/driver-bindings/src/bindings.rs:3-22 NE_ERR_VCPU_ALREADY_USED *)
Definition NE_ERRORS : list (Z * string) := [
  (256, "The provided vCPU is already used");
  (257, "The provided vCPU is not available in the CPU pool");
  (258, "The vCPU core ID is invalid for the CPU pool");
  (259, "The memory region's size is not a multiple of 2 MiB");
  (260, "The memory region's address is invalid");
  (261, "The memory region's address is not aligned");
  (262, "The memory region is already used");
  (263, "The memory region is not backed by contiguous physical huge page(s)");
  (264, "The memory region's pages and the CPUs belong to different NUMA nodes");
  (265, "The maximum number of memory regions per enclave has been reached");
  (266, "The enclave cannot start because no memory regions have been added");
  (267, "The enclave cannot start because no vCPUs have been added");
  (268, "The enclave's memory size is lower than the minimum supported");
  (269, "The enclave cannot start because full CPU cores have not been set");
  (270, "The enclave is in an incorrect state to set resources or start");
  (271, "The provided vCPU is out of range of the available CPUs");
  (272, "The enclave cannot be created because no CPUs are available in the pool");
  (273, "The memory region is not backed by page(s) multiple of 2 MiB");
  (274, "The provided flags value in the ioctl arg data structure is invalid");
  (275, "The provided enclave CID is invalid, being a well-known CID or the parent VM CID")]%string.

Definition ioctl_error (errno rc : Z) : string :=
  match list_find (fun p => fst p = errno) NE_ERRORS with
  | Some (_, (_, text)) => text
  | None => "An error has occurred: " +:+ show_u errno +:+ " (rc: " +:+ show_i rc +:+ ")"
  end.

(** ** Data *)

(** The image format library: the metadata of an image, with the parts of it
    that are displayed ([json_value] is [serde_json::Value]). *)
Class ImageFormat : Type := {
  EifIdentityInfo : Type;
  json_value : Type;
  eif_img_name : EifIdentityInfo -> string;
  eif_img_version : EifIdentityInfo -> string;
  eif_build_time : EifIdentityInfo -> string;
  eif_build_tool : EifIdentityInfo -> string;
  eif_build_tool_version : EifIdentityInfo -> string;
  eif_img_os : EifIdentityInfo -> string;
  eif_img_kernel : EifIdentityInfo -> string;
  eif_docker_info : EifIdentityInfo -> json_value;
  eif_custom_info : EifIdentityInfo -> json_value;
}.

(* src/src/enclave_proc/resource_manager.rs EnclaveState *)
Inductive EnclaveState : Type :=
| Empty
| Running
| Terminating.

(* src/src/enclave_proc/resource_manager.rs EnclaveState::fmt *)
Definition show_state (s : EnclaveState) : string :=
  match s with
  | Empty => "EMPTY"
  | Running => "RUNNING"
  | Terminating => "TERMINATING"
  end.

(** Measurements by name, in the order of a [BTreeMap]. *)
(* src/src/common/json_output.rs EnclaveBuildInfo *)
Record EnclaveBuildInfo : Type := mk_build_info { measurements : list (string * string) }.

(* src/src/common/json_output.rs EnclaveBuildInfo::new *)
Definition build_info_new (m : list (string * string)) : EnclaveBuildInfo := mk_build_info m.

(* src/src/enclave_proc/resource_manager.rs EnclaveBuildInfo::default *)
Definition build_info_default : EnclaveBuildInfo := build_info_new [].

(* src/src/enclave_proc/resource_manager.rs EnclaveHandle *)
Record EnclaveHandle `{ImageFormat} : Type := mk_handle {
  cpu_config : EnclaveCpuConfig;
  cpu_ids : list Z;
  allocated_memory_mib : Z;
  slot_uid : Z;
  enclave_cid : option Z;
  flags : Z;
  enc_fd : Z;
  resource_allocator : ResourceAllocator;
  eif_file : option File;
  state : EnclaveState;
  build_info : EnclaveBuildInfo;
  metadata : option EifIdentityInfo;
}.

(* src/src/enclave_proc/resource_manager.rs EnclaveManager *)
Record EnclaveManager `{ImageFormat} : Type := mk_manager {
  enclave_id : string;
  enclave_name : string;
  enclave_handle : Mutex EnclaveHandle;
}.

Section Setters.
Context `{ImageFormat}.

Definition set_cpu_ids v (h : EnclaveHandle) : EnclaveHandle :=
  mk_handle _ (cpu_config h) v (allocated_memory_mib h) (slot_uid h) (enclave_cid h) (flags h)
    (enc_fd h) (resource_allocator h) (eif_file h) (state h) (build_info h) (metadata h).
Definition set_allocated v (h : EnclaveHandle) : EnclaveHandle :=
  mk_handle _ (cpu_config h) (cpu_ids h) v (slot_uid h) (enclave_cid h) (flags h)
    (enc_fd h) (resource_allocator h) (eif_file h) (state h) (build_info h) (metadata h).
Definition set_cid v (h : EnclaveHandle) : EnclaveHandle :=
  mk_handle _ (cpu_config h) (cpu_ids h) (allocated_memory_mib h) (slot_uid h) v (flags h)
    (enc_fd h) (resource_allocator h) (eif_file h) (state h) (build_info h) (metadata h).
Definition set_allocator v (h : EnclaveHandle) : EnclaveHandle :=
  mk_handle _ (cpu_config h) (cpu_ids h) (allocated_memory_mib h) (slot_uid h) (enclave_cid h) (flags h)
    (enc_fd h) v (eif_file h) (state h) (build_info h) (metadata h).
Definition set_file v (h : EnclaveHandle) : EnclaveHandle :=
  mk_handle _ (cpu_config h) (cpu_ids h) (allocated_memory_mib h) (slot_uid h) (enclave_cid h) (flags h)
    (enc_fd h) (resource_allocator h) v (state h) (build_info h) (metadata h).
Definition set_state v (h : EnclaveHandle) : EnclaveHandle :=
  mk_handle _ (cpu_config h) (cpu_ids h) (allocated_memory_mib h) (slot_uid h) (enclave_cid h) (flags h)
    (enc_fd h) (resource_allocator h) (eif_file h) v (build_info h) (metadata h).
Definition set_build_info v (h : EnclaveHandle) : EnclaveHandle :=
  mk_handle _ (cpu_config h) (cpu_ids h) (allocated_memory_mib h) (slot_uid h) (enclave_cid h) (flags h)
    (enc_fd h) (resource_allocator h) (eif_file h) (state h) v (metadata h).
Definition set_metadata_field v (h : EnclaveHandle) : EnclaveHandle :=
  mk_handle _ (cpu_config h) (cpu_ids h) (allocated_memory_mib h) (slot_uid h) (enclave_cid h) (flags h)
    (enc_fd h) (resource_allocator h) (eif_file h) (state h) (build_info h) v.

(* src/src/enclave_proc/resource_manager.rs EnclaveHandle::clear *)
Definition clear (h : EnclaveHandle) : EnclaveHandle :=
  mk_handle _ (cpu_config h) [] 0 0 (Some 0) (flags h) (-1) (resource_allocator h) (eif_file h)
    (state h) (build_info h) (metadata h).

(** A computation on the allocator, or on the image file, of a handle. *)
Definition on_allocator {A} (m : IOS ResourceAllocator A) : IOS EnclaveHandle A :=
  zoom (fun s => (resource_allocator (fst s), snd s))
       (fun s t => (set_allocator (fst s) (fst t), snd s)) m.
Definition on_file {A} (f : File) (m : IOS File A) : IOS EnclaveHandle A :=
  zoom (fun s => (f, snd s)) (fun s t => (set_file (Some (fst s)) (fst t), snd s)) m.
Definition update (f : EnclaveHandle -> EnclaveHandle) : IOS EnclaveHandle unit :=
  modify (fun s => (f (fst s), snd s)).
End Setters.

(** ** The handle *)

Section Handle.
Context `{ImageFormat} `{Kernel} `{Env} `{Serde EnclaveProcessReply} `{ToJson EnclaveRunInfo}.

(** The return code, and the argument as the driver leaves it. *)
(* src/src/enclave_proc/resource_manager.rs EnclaveHandle::do_ioctl *)
Definition do_ioctl (fd ioctl_code : Z) (arg : IoctlArg) : IO (Z * IoctlArg) :=
  fun w =>
    let '(rc, errno, arg') := k_ioctl (w_log w) fd ioctl_code arg in
    let w' := add_event (EvIoctl fd ioctl_code arg rc) w in
    if 0 <=? rc then ret (rc, arg') w'
    else fail (failure_at (ioctl_error (u32 errno) rc) IoctlFailure 862) w'.

(** [File::open] of the device. *)
Definition open_device : M string World Z :=
  fun w =>
    let r := k_open_device (w_log w) in
    (Return r, add_event (EvOpenDevice r) w).

(** The part of the message about the memory an image needs. *)
Definition needed_mib (eif_size : Z) : string :=
  show_u (u64 (ceil_div (ceil_div eif_size 1024) 1024 * ENCLAVE_MEMORY_EIF_SIZE_RATIO)).

(** [memory_mib << 20] loses the high bits; the device file is closed when the
    function returns. *)
(* src/src/enclave_proc/resource_manager.rs EnclaveHandle::new *)
Definition handle_new (cid : option Z) (memory_mib : Z) (cpus : EnclaveCpuConfig) (eif : File)
    (debug_mode : bool) : IO EnclaveHandle :=
  let requested_mem := u64 (Z.shiftl memory_mib 20) in
  let! eif_size := of_result (rmap_err (fun e =>
    failure_at ("Failed to get enclave image file metadata: " +:+ e) FileOperationFailure 484)
    (file_len eif)) in
  if requested_mem <? u64 (ENCLAVE_MEMORY_EIF_SIZE_RATIO * eif_size) then
    fail (add_info ["memory"%string; show_u memory_mib; needed_mib eif_size]
      (failure_at ("At least " +:+ needed_mib eif_size +:+ " MB must be allocated (which is " +:+
         show_u ENCLAVE_MEMORY_EIF_SIZE_RATIO +:+ " times the EIF file size)")
         InsufficientMemoryRequested 491))
  else
    let! dev_file := map_err_to (fun e =>
      add_info [NE_DEV_FILEPATH; "Open"%string]
        (failure_at ("Failed to open device file: " +:+ e) FileOperationFailure 513)) open_device in
    owning dev_file (
      let! '(enc_fd, arg) := map_err (add_subaction "Create VM ioctl failed")
        (do_ioctl dev_file NE_CREATE_VM (ArgU64 0)) in
      let slot_uid := match arg with ArgU64 v => v | _ => 0 end in
      let flags := if debug_mode then NE_ENCLAVE_DEBUG_MODE else 0 in
      if enc_fd <? 0 then
        fail (failure_at ("Invalid enclave file descriptor (" +:+ show_i enc_fd +:+ ")")
                InvalidEnclaveFd 526)
      else
        let! allocator := map_err (add_subaction "Create resource allocator")
          (of_result (allocator_new requested_mem)) in
        ret (mk_handle _ cpus [] 0 slot_uid cid flags enc_fd allocator (Some eif) Empty
               (build_info_new []) None)).

(* src/src/enclave_proc/resource_manager.rs:673-677 EnclaveHandle::init_memory *)
Fixpoint set_user_memory_regions (fd : Z) (regions : list MemoryRegion) : IO unit :=
  match regions with
  | [] => ret tt
  | region :: regions =>
      let! _ := map_err (add_subaction "Set user memory region ioctl failed")
        (do_ioctl fd NE_SET_USER_MEMORY_REGION (user_memory_region region)) in
      set_user_memory_regions fd regions
  end.

(* src/src/enclave_proc/resource_manager.rs EnclaveHandle::init_memory *)
Definition init_memory (connection : option Connection) : IOS EnclaveHandle unit :=
  do! lift (safe_conn_eprintln connection "Start allocating memory...");
  let! h := self in
  let requested_mem_mib := Z.shiftr (requested_mem (resource_allocator h)) 20 in
  let! regions := map_err (add_subaction "Failed to allocate enclave memory")
    (on_allocator allocate) in
  let allocated := Z.shiftr (fold_left (fun acc r => u64 (acc + mem_size r)) regions 0) 20 in
  do! update (set_allocated allocated);
  if allocated <? requested_mem_mib then
    fail (add_info ["memory"%string; show_u requested_mem_mib]
      (failure_at ("Failed to allocate sufficient memory (requested " +:+ show_u requested_mem_mib +:+
         " MB, but got " +:+ show_u allocated +:+ " MB)") InsufficientMemoryAvailable 643))
  else
    match eif_file h with
    | None => fail (failure_at "Failed to get mutable reference to EIF file" FileOperationFailure 654)
    | Some eif_file =>
        let! '(_, info) := map_err (add_subaction "Get image load info ioctl failed")
          (lift (do_ioctl (enc_fd h) NE_GET_IMAGE_LOAD_INFO (ArgImageLoadInfo NE_EIF_IMAGE 0))) in
        let memory_offset := match info with ArgImageLoadInfo _ o => o | _ => 0 end in
        do! map_err (add_subaction "Write EIF to enclave memory regions")
          (on_file eif_file (write_eif_to_regions regions memory_offset));
        lift (set_user_memory_regions (enc_fd h) regions)
    end.

(** The ID pushed is the one that the driver returns. *)
(* src/src/enclave_proc/resource_manager.rs EnclaveHandle::init_single_cpu *)
Definition init_single_cpu (cpu_id : Z) : IOS EnclaveHandle unit :=
  let! h := self in
  let! '(_, arg) := map_err (add_subaction "Add vCPU ioctl failed")
    (lift (do_ioctl (enc_fd h) NE_ADD_VCPU (ArgU32 cpu_id))) in
  let cpu_id := match arg with ArgU32 v => v | _ => cpu_id end in
  update (fun h => set_cpu_ids (cpu_ids h ++ [cpu_id]) h).

(* src/src/enclave_proc/resource_manager.rs:700-704 EnclaveHandle::init_cpus *)
Fixpoint init_cpu_list (ids : list Z) : IOS EnclaveHandle unit :=
  match ids with
  | [] => ret tt
  | cpu_id :: ids =>
      do! map_err (add_subaction ("Failed to add CPU with ID " +:+ show_u cpu_id))
            (init_single_cpu cpu_id);
      init_cpu_list ids
  end.

(* src/src/enclave_proc/resource_manager.rs:707-709 EnclaveHandle::init_cpus *)
Fixpoint init_cpu_count (n : nat) : IOS EnclaveHandle unit :=
  match n with
  | O => ret tt
  | S n => do! init_single_cpu 0; init_cpu_count n
  end.

(* src/src/enclave_proc/resource_manager.rs EnclaveHandle::init_cpus *)
Definition init_cpus : IOS EnclaveHandle unit :=
  let! h := self in
  match cpu_config h with
  | CpuList cpu_ids => init_cpu_list cpu_ids
  | Count cpu_count => init_cpu_count (Z.to_nat cpu_count)
  end.

(** The CID the driver gave to the enclave. *)
(* src/src/enclave_proc/resource_manager.rs EnclaveHandle::start *)
Definition start (connection : option Connection) : IOS EnclaveHandle Z :=
  let! h := self in
  let! '(_, arg) := map_err (add_subaction "Start enclave ioctl failed")
    (lift (do_ioctl (enc_fd h) NE_START_ENCLAVE
             (ArgStartInfo (flags h) (default 0 (enclave_cid h))))) in
  let cid := match arg with ArgStartInfo _ cid => cid | _ => default 0 (enclave_cid h) end in
  do! lift (safe_conn_eprintln connection
    ("Started enclave with enclave-cid: " +:+ show_u cid +:+ ", memory: " +:+
     show_u (allocated_memory_mib h) +:+ " MiB, cpu-ids: " +:+ show_list (cpu_ids h)));
  ret cid.

(** *** Termination *)

(* src/src/enclave_proc/resource_manager.rs release_enclave_descriptor *)
Definition release_enclave_descriptor (enc_fd : Z) : IO unit :=
  let! rc := close enc_fd in
  if rc <? 0
  then fail (failure_at "Failed to close enclave descriptor" FileOperationFailure 1165)
  else ret tt.

(* src/src/enclave_proc/resource_manager.rs EnclaveHandle::terminate_enclave *)
Definition handle_terminate_enclave : IOS EnclaveHandle unit :=
  let! h := self in
  if default 0 (enclave_cid h) =? 0 then ret tt
  else
    do! map_err (add_subaction "Failed to release enclave descriptor")
          (lift (release_enclave_descriptor (enc_fd h)));
    do! map_err (add_subaction "Failed to release used memory") (on_allocator allocator_free);
    update clear.

(* src/src/enclave_proc/resource_manager.rs EnclaveHandle::terminate_enclave_and_notify *)
Definition terminate_enclave_and_notify : IOS EnclaveHandle unit :=
  let! r := try handle_terminate_enclave in
  match r with
  | Ok _ => ret tt
  | Err error_info =>
      let! h := self in
      lift (notify_error ("Terminating enclave '" +:+ show_HEX (slot_uid h) +:+
        "' failed with error: " +:+ show_str (error_message error_info) +:+
        "!!! The instance could be in an inconsistent state, please reboot it !!!"))
  end.

(* src/src/enclave_proc/resource_manager.rs EnclaveHandle::terminate_enclave_error *)
Definition terminate_enclave_error (err : string) : IOS EnclaveHandle unit :=
  do! lift (notify_error (err +:+ ". Terminating the enclave..."));
  terminate_enclave_and_notify.

(** The destructor of the handle, then those of its fields. *)
(* src/src/enclave_proc/resource_manager.rs EnclaveHandle::drop *)
Definition handle_drop : IOS EnclaveHandle unit :=
  let! h := self in
  do! (if default 0 (enclave_cid h) =? 0 then ret tt else terminate_enclave_and_notify);
  on_allocator allocator_drop.

(** *** Creation *)

Definition no_file : NitroCliFailure := failure_at "Failed to get EIF file" FileOperationFailure 577.

(** The listener is closed when the function returns early, and by
    [enclave_ready] otherwise. *)
(* src/src/enclave_proc/resource_manager.rs:561-598 EnclaveHandle::create_enclave *)
Definition boot_enclave (connection : option Connection) : IOS EnclaveHandle Z :=
  let! bound := lift (vsock_bind VMADDR_CID_PARENT ENCLAVE_READY_VSOCK_PORT) in
  let! listener := of_result (ok_or bound
    (failure_at "Enclave boot heartbeat vsock connection - vsock bind error" EnclaveBootFailure 562)) in
  let! started := try (
    let! cid := map_err (add_subaction "Enclave start issue") (start connection) in
    let! h := self in
    let! f := of_result (ok_or (eif_file h) no_file) in
    let! eif_size := of_result (rmap_err (fun e =>
      failure_at ("Failed to get enclave image file metadata: " +:+ e) FileOperationFailure 584)
      (file_len f)) in
    ret (cid, eif_size)) in
  match started with
  | Err e => let! _ := lift (close listener) in fail e
  | Ok (cid, eif_size) =>
      let poll_timeout := calculate_necessary_timeout eif_size in
      let! ready := lift (attempt (enclave_ready listener poll_timeout)) in
      match ready with
      | Ok _ => ret cid
      | Err err =>
          let err_msg := "Waiting on enclave to boot failed with error " +:+ show_loader_error err in
          do! terminate_enclave_error err_msg;
          fail (failure_at err_msg EnclaveBootFailure 597)
      end
  end.

(** The full ID of the new enclave. *)
(* src/src/enclave_proc/resource_manager.rs EnclaveHandle::create_enclave *)
Definition create_enclave (enclave_name : string) (connection : option Connection)
    : IOS EnclaveHandle string :=
  do! map_err (add_subaction "Memory initialization issue") (init_memory connection);
  do! map_err (add_subaction "vCPUs initialization issue") init_cpus;
  let! cid := boot_enclave connection in
  do! update (set_cid (Some cid));
  let! h := self in
  let! info := of_result (rmap_err (add_subaction "Get RunEnclaves information issue")
    (get_run_enclaves_info env_asset_tag k_process_id enclave_name cid (slot_uid h) (cpu_ids h)
       (allocated_memory_mib h))) in
  let! text := of_result (rmap_err (fun err =>
    failure_at ("Failed to display RunEnclaves data: " +:+ err) SerdeError 615)
    (to_string_pretty info)) in
  do! lift (safe_conn_println connection text);
  ret (ri_enclave_id info).
End Handle.

(** ** The manager *)

(* src/src/enclave_proc/resource_manager.rs UnpackedHandle *)
Definition UnpackedHandle : Type := (Z * Z * Z * list Z * Z * Z * EnclaveState)%type.

Section Manager.
Context `{ImageFormat} `{Kernel} `{Env} `{Serde EnclaveProcessReply} `{ToJson EnclaveRunInfo}.

Definition lock_failure (l : Z) : NitroCliFailure :=
  failure_at ("Failed to acquire lock: " +:+ poison_error) LockAcquireFailure l.

(** A computation on the locked handle: every method of the manager begins by
    taking the lock, at the line [l]. A panic while the lock is held poisons
    the mutex. *)
Definition locked {A} (l : Z) (m : IOS EnclaveHandle A) : IOS EnclaveManager A :=
  fun '(mgr, w) =>
    let mu := enclave_handle mgr in
    let back p h := mk_manager _ (enclave_id mgr) (enclave_name mgr) (mk_mutex p h) in
    if poisoned mu then (Return (Err (lock_failure l)), (mgr, w))
    else
      match m (guarded mu, w) with
      | (Panic, (h, w')) => (Panic, (back true h, w'))
      | (r, (h, w')) => (r, (back false h, w'))
      end.

(** A field of the locked handle. *)
Definition peek {A} (l : Z) (f : EnclaveHandle -> A) : IOS EnclaveManager A :=
  locked l (gets (fun s => f (fst s))).

(* src/src/enclave_proc/resource_manager.rs EnclaveManager::new *)
Definition manager_new (cid : option Z) (memory_mib : Z) (cpus : EnclaveCpuConfig) (eif : File)
    (debug_mode : bool) (name : string) : IO EnclaveManager :=
  let! h := map_err (add_subaction "Failed to create enclave handle")
    (handle_new cid memory_mib cpus eif debug_mode) in
  ret (mk_manager _ "" name (mk_mutex false h)).

(* src/src/enclave_proc/resource_manager.rs EnclaveManager::run_enclave *)
Definition run_enclave (connection : option Connection) : IOS EnclaveManager unit :=
  let! mgr := self in
  let! id := locked 911 (map_err (add_subaction "Failed to create enclave")
    (create_enclave (enclave_name mgr) connection)) in
  modify (fun s => (mk_manager _ id (enclave_name (fst s)) (enclave_handle (fst s)), snd s)).

(* src/src/enclave_proc/resource_manager.rs EnclaveManager::set_measurements *)
Definition set_measurements (m : list (string * string)) : IOS EnclaveManager unit :=
  locked 929 (update (set_build_info (build_info_new m))).

(* src/src/enclave_proc/resource_manager.rs EnclaveManager::set_metadata *)
Definition set_metadata (m : EifIdentityInfo) : IOS EnclaveManager unit :=
  locked 943 (update (set_metadata_field (Some m))).

(** [enclave_cid.unwrap()] panics while the CID is not known. *)
(* src/src/enclave_proc/resource_manager.rs EnclaveManager::get_description_resources *)
Definition get_description_resources : IOS EnclaveManager UnpackedHandle :=
  locked 957 (
    let! h := self in
    match enclave_cid h with
    | None => panic
    | Some cid =>
        ret (slot_uid h, cid, Z.of_nat (length (cpu_ids h)), cpu_ids h, allocated_memory_mib h,
             flags h, state h)
    end).

(* src/src/enclave_proc/resource_manager.rs EnclaveManager::get_measurements *)
Definition get_measurements : IOS EnclaveManager EnclaveBuildInfo := peek 976 build_info.

(* src/src/enclave_proc/resource_manager.rs EnclaveManager::get_metadata *)
Definition get_metadata : IOS EnclaveManager (option EifIdentityInfo) := peek 987 metadata.

(* src/src/enclave_proc/resource_manager.rs EnclaveManager::get_console_resources_enclave_cid *)
Definition get_console_resources_enclave_cid : IOS EnclaveManager Z :=
  locked 1000 (
    let! h := self in
    match enclave_cid h with None => panic | Some cid => ret cid end).

(* src/src/enclave_proc/resource_manager.rs EnclaveManager::get_console_resources_enclave_flags *)
Definition get_console_resources_enclave_flags : IOS EnclaveManager Z := peek 1013 flags.

(** The allocator is cloned: the clone owns copies of the same regions. *)
(* src/src/enclave_proc/resource_manager.rs EnclaveManager::get_termination_resources *)
Definition get_termination_resources : IOS EnclaveManager (Z * ResourceAllocator) :=
  peek 1026 (fun h => (enc_fd h, resource_allocator h)).

(* src/src/enclave_proc/resource_manager.rs EnclaveManager::get_enclave_descriptor *)
Definition get_enclave_descriptor : IOS EnclaveManager Z := peek 1042 enc_fd.

(* src/src/enclave_proc/resource_manager.rs EnclaveManager::update_state *)
Definition update_state (s : EnclaveState) : IOS EnclaveManager unit :=
  locked 1055 (update (set_state s)).

(** What is done with the clone of the allocator while the handle is not
    locked; on an error the clone is destroyed before returning. *)
(* src/src/enclave_proc/resource_manager.rs:1070-1078 EnclaveManager::terminate_enclave *)
Definition release_resources (enc_fd : Z) : IOS ResourceAllocator unit :=
  let! r := try (
    do! map_err (add_subaction "Enclave manager failed to release enclave descriptor")
          (lift (release_enclave_descriptor enc_fd));
    map_err (add_subaction "Enclave manager failed to free enclave memory") allocator_free) in
  match r with
  | Ok _ => ret tt
  | Err e => do! allocator_drop; fail e
  end.

(** Run a computation on a local value, which is destroyed at the end of its
    scope by [drop]. *)
Definition with_local {T S A} (t : T) (m : IOS T A) (drop : IOS T unit)
    (k : A -> IOS S unit) : IOS S unit :=
  fun '(s, w) =>
    match m (t, w) with
    | (Return (Ok a), (t', w')) =>
        (let! r := try (k a) in
         do! (fun '(s, w) => let '(o, (_, w')) := drop (t', w) in (o, (s, w')));
         of_result r) (s, w')
    | (Return (Err e), (_, w')) => (Return (Err e), (s, w'))
    | (Exit c, (_, w')) => (Exit c, (s, w'))
    | (Panic, (_, w')) => (Panic, (s, w'))
    end.

(** The handle is locked to read the resources and to clear it, not in
    between. *)
(* src/src/enclave_proc/resource_manager.rs EnclaveManager::terminate_enclave *)
Definition terminate_enclave : IOS EnclaveManager unit :=
  let! '(enc_fd, allocator) := map_err
    (add_subaction "Enclave manager failed to get termination resources")
    get_termination_resources in
  with_local allocator (release_resources enc_fd) allocator_drop
    (fun _ => locked 1082 (update clear)).

(** The last clone of the manager is gone. *)
Definition manager_drop : IOS EnclaveManager unit :=
  fun '(mgr, w) =>
    let mu := enclave_handle mgr in
    let '(r, (h, w')) := handle_drop (guarded mu, w) in
    (r, (mk_manager _ (enclave_id mgr) (enclave_name mgr) (mk_mutex (poisoned mu) h), w')).
End Manager.

(** ** Lemmas *)

(** The driver calls of a log: descriptor, request and argument. *)
Definition ioctl_of (e : Event) : option (Z * Z * IoctlArg) :=
  match e with EvIoctl fd code arg _ => Some (fd, code, arg) | _ => None end.
Definition ioctls (l : log) : list (Z * Z * IoctlArg) := omap ioctl_of l.

Definition not_ioctl (e : Event) : Prop := ioctl_of e = None.
Lemma stream_not_ioctl e : is_stream e -> not_ioctl e.
Proof. by destruct e. Qed.
Lemma memory_not_ioctl e : is_memory e -> not_ioctl e.
Proof. by destruct e. Qed.
Lemma notify_not_ioctl e : is_notify e -> not_ioctl e.
Proof. by destruct e. Qed.
Lemma socket_not_ioctl e : is_socket e -> not_ioctl e.
Proof. by destruct e. Qed.
#[export] Hint Resolve socket_not_ioctl stream_not_ioctl memory_not_ioctl notify_not_ioctl : emits.

(** A computation that makes no driver call leaves their list alone. *)
Lemma ioctls_quiet {E T A} `{HasWorld T} (m : M E T A) s r s' :
  emits not_ioctl m -> m s = (r, s') -> ioctls (log_of s') = ioctls (log_of s).
Proof. intros Hm. by apply (emits_omap not_ioctl). Qed.

Lemma bind_lift {T A B} (m : IO A) (k : A -> IOS T B) t w a w' :
  m w = (Return (Ok a), w') -> bind (lift m) k (t, w) = k a (t, w').
Proof. unfold bind, lift, zoom. simpl. by intros ->. Qed.

Section HandleLemmas.
Context `{ImageFormat} `{Kernel} `{Env} `{Serde EnclaveProcessReply} `{ToJson EnclaveRunInfo}.

Lemma on_allocator_inv {A} (m : IOS ResourceAllocator A) h w r h' w' :
  on_allocator m (h, w) = (r, (h', w')) ->
  exists ra', h' = set_allocator ra' h /\ m (resource_allocator h, w) = (r, (ra', w')).
Proof.
  unfold on_allocator, zoom. simpl. destruct (m _) as [r0 [ra0 w0]]. intros. simplify_eq. eauto.
Qed.

Lemma on_file_inv {A} (m : IOS File A) f h w r h' w' :
  on_file f m (h, w) = (r, (h', w')) -> exists f', h' = set_file (Some f') h /\ m (f, w) = (r, (f', w')).
Proof. unfold on_file, zoom. simpl. destruct (m _) as [r0 [f0 w0]]. intros. simplify_eq. eauto. Qed.

Lemma do_ioctl_ok fd code arg w r w' :
  do_ioctl fd code arg w = (Return (Ok r), w') ->
  0 <= fst r /\ ioctls (w_log w') = ioctls (w_log w) ++ [(fd, code, arg)].
Proof.
  unfold do_ioctl, ret, fail. destruct (k_ioctl _ _ _ _) as [[rc errno] arg'].
  destruct (Z.leb_spec 0 rc); intros; simplify_eq. split; [done|].
  unfold ioctls. simpl. by rewrite omap_app.
Qed.

Lemma do_ioctl_answer fd code arg w rc answer w' :
  do_ioctl fd code arg w = (Return (Ok (rc, answer)), w') ->
  exists errno, k_ioctl (w_log w) fd code arg = (rc, errno, answer) /\ 0 <= rc /\
    w' = grow w [EvIoctl fd code arg rc].
Proof.
  unfold do_ioctl, ret, fail. destruct (k_ioctl _ _ _ _) as [[rc' errno] answer'].
  destruct (Z.leb_spec 0 rc'); intros; simplify_eq. by exists errno.
Qed.

Lemma emits_do_ioctl fd code arg : emits is_ioctl (do_ioctl fd code arg).
Proof.
  apply emits_one. intros s. unfold do_ioctl. destruct (k_ioctl _ _ _ _) as [[rc errno] arg'] eqn:E.
  exists (EvIoctl fd code arg rc). by destruct (0 <=? rc).
Qed.

Lemma allocate_regions ra w rs ra' w' :
  allocate (ra, w) = (Return (Ok rs), (ra', w')) -> mem_regions ra' = rs.
Proof.
  unfold allocate, allocate_trim. intros E. m_inv.
  match goal with H : (if ?b then _ else _) _ = (Return (Ok _), (ra', w')) |- _ =>
    destruct b; [done|] end.
  m_inv. match goal with H : lift _ ?s = (Return (Ok tt), _) |- _ => destruct s; apply lift_inv in H as [? _] end.
  unfold set_self, modify in *. simplify_eq. done.
Qed.

Lemma set_user_memory_regions_ok fd rs w w' :
  set_user_memory_regions fd rs w = (Return (Ok tt), w') ->
  ioctls (w_log w') =
    ioctls (w_log w) ++ map (fun r => (fd, NE_SET_USER_MEMORY_REGION, user_memory_region r)) rs.
Proof.
  revert w. induction rs as [|r rs IH]; intros w E; cbn [set_user_memory_regions] in E.
  { unfold ret in E. simplify_eq. by rewrite app_nil_r. }
  m_inv. match goal with H : do_ioctl _ _ _ _ = _ |- _ => apply do_ioctl_ok in H as [_ ->] || apply do_ioctl_ok in H as [_ L] end.
  rewrite (IH _ E1), L, <- app_assoc. done.
Qed.

(** The fields that creating the enclave does not change before it has booted. *)
Definition same_enclave (h h' : EnclaveHandle) : Prop :=
  enc_fd h' = enc_fd h /\ cpu_config h' = cpu_config h /\ flags h' = flags h /\
  enclave_cid h' = enclave_cid h.

Lemma same_enclave_trans h1 h2 h3 : same_enclave h1 h2 -> same_enclave h2 h3 -> same_enclave h1 h3.
Proof. unfold same_enclave. naive_solver congruence. Qed.

(** Split a run into its steps, and drop from view those without driver calls. *)
Ltac steps :=
  repeat (m_inv;
    match goal with
    | H : self ?s = (Return (Ok _), _) |- _ => unfold self, gets in H; simplify_eq
    | H : update _ _ = (Return (Ok _), _) |- _ => unfold update, modify in H; simplify_eq
    | H : of_result _ _ = (Return (Ok _), _) |- _ => unfold of_result in H; simplify_eq
    | H : (let '(_, _) := ?p in _) _ = _ |- _ => destruct p
    | H : fail _ _ = (Return (Ok _), _) |- _ => discriminate H
    | H : ?m ?s = (Return (Ok _), ?v) |- _ => is_var s; match type of s with (_ * _)%type => destruct s end
    | H : ?m ?s = (Return (Ok _), ?v) |- _ => is_var v; match type of v with (_ * _)%type => destruct v end
    | H : lift _ (_, _) = (Return (Ok _), (_, _)) |- _ => apply lift_inv in H as [-> H]
    | H : on_allocator _ (_, _) = (Return (Ok _), (_, _)) |- _ =>
        let ra := fresh "ra" in apply on_allocator_inv in H as (ra & -> & H)
    | H : on_file _ _ (_, _) = (Return (Ok _), (_, _)) |- _ =>
        let f := fresh "f" in apply on_file_inv in H as (f & -> & H)
    | H : do_ioctl _ _ _ _ = (Return (Ok _), _) |- _ =>
        let L := fresh "L" in apply do_ioctl_ok in H as [_ L]
    end; cbn [fst snd] in * |-); m_inv.

(** The list of driver calls after a step that makes none. *)
Ltac quiet H L :=
  apply ioctls_quiet in H as L;
  [ cbv [log_of has_log_world world_of has_world_pair has_world_world fst snd] in L
  | eauto using emits_impl with emits ].

Lemma init_memory_ok conn h w h' w' :
  init_memory conn (h, w) = (Return (Ok tt), (h', w')) ->
  same_enclave h h' /\ cpu_ids h' = cpu_ids h /\
  ioctls (w_log w') = ioctls (w_log w) ++
    (enc_fd h, NE_GET_IMAGE_LOAD_INFO, ArgImageLoadInfo NE_EIF_IMAGE 0) ::
    map (fun r => (enc_fd h, NE_SET_USER_MEMORY_REGION, user_memory_region r))
      (mem_regions (resource_allocator h')).
Proof.
  unfold init_memory. intros E. steps.
  match goal with H : allocate _ = _ |- _ => pose proof (allocate_regions _ _ _ _ _ H) as Hr; quiet H L1 end.
  match goal with H : safe_conn_eprintln _ _ _ = _ |- _ => quiet H L0 end.
  match goal with H : (if ?b then _ else _) _ = (Return (Ok _), _) |- _ => destruct b; [done|] end.
  destruct (eif_file h) as [f0|]; [|done]. steps.
  match goal with H : write_eif_to_regions _ _ _ = _ |- _ => quiet H L2 end.
  match goal with H : set_user_memory_regions _ _ _ = _ |- _ => apply set_user_memory_regions_ok in H as L3 end.
  split; [done|]. split; [done|]. simpl. rewrite Hr, L3, L2.
  match goal with L : ioctls _ = _ ++ [_] |- _ => rewrite L end.
  rewrite L1, L0, <- app_assoc. done.
Qed.

Lemma init_single_cpu_ok id h w h' w' :
  init_single_cpu id (h, w) = (Return (Ok tt), (h', w')) ->
  same_enclave h h' /\ resource_allocator h' = resource_allocator h /\
  ioctls (w_log w') = ioctls (w_log w) ++ [(enc_fd h, NE_ADD_VCPU, ArgU32 id)].
Proof. unfold init_single_cpu. intros E. steps. done. Qed.

(** The CPU IDs passed to the driver: those asked for, or a zero for each CPU
    that the driver is to choose. *)
Definition requested_cpus (c : EnclaveCpuConfig) : list Z :=
  match c with CpuList ids => ids | Count n => replicate (Z.to_nat n) 0 end.

Definition adds_cpus (ids : list Z) (h : EnclaveHandle) (w : World) (h' : EnclaveHandle) (w' : World) : Prop :=
  same_enclave h h' /\ resource_allocator h' = resource_allocator h /\
  ioctls (w_log w') = ioctls (w_log w) ++ map (fun id => (enc_fd h, NE_ADD_VCPU, ArgU32 id)) ids.

Lemma adds_cpus_cons id ids h w h1 w1 h' w' :
  init_single_cpu id (h, w) = (Return (Ok tt), (h1, w1)) -> adds_cpus ids h1 w1 h' w' ->
  adds_cpus (id :: ids) h w h' w'.
Proof.
  intros (S1 & A1 & L1)%init_single_cpu_ok (S2 & A2 & L2). split_and!.
  - by eapply same_enclave_trans.
  - congruence.
  - rewrite L2, L1, <- app_assoc. destruct S1 as (-> & _). done.
Qed.

Lemma init_cpus_ok h w h' w' :
  init_cpus (h, w) = (Return (Ok tt), (h', w')) -> adds_cpus (requested_cpus (cpu_config h)) h w h' w'.
Proof.
  assert (forall h w, adds_cpus [] h w h w) as Hnil.
  { intros. split_and!; try done. by rewrite app_nil_r. }
  unfold init_cpus, bind at 1, self, gets. cbn [fst]. destruct (cpu_config h) as [ids|n]; simpl; intros E.
  - revert h w E. induction ids as [|id ids IH]; intros h w E; cbn [init_cpu_list] in E; steps; [apply Hnil|].
    eapply adds_cpus_cons; [done|]. by apply IH.
  - revert h w E. induction (Z.to_nat n) as [|k IH]; intros h w E; cbn [init_cpu_count] in E; steps; [apply Hnil|].
    eapply adds_cpus_cons; [done|]. by apply IH.
Qed.

Lemma start_ok conn h w cid h' w' :
  start conn (h, w) = (Return (Ok cid), (h', w')) ->
  h' = h /\ ioctls (w_log w') =
    ioctls (w_log w) ++ [(enc_fd h, NE_START_ENCLAVE, ArgStartInfo (flags h) (default 0 (enclave_cid h)))].
Proof.
  unfold start. intros E. steps.
  match goal with H : safe_conn_eprintln _ _ _ = _ |- _ => quiet H L0 end. by rewrite L0.
Qed.

Lemma boot_enclave_ok conn h w cid h' w' :
  boot_enclave conn (h, w) = (Return (Ok cid), (h', w')) ->
  h' = h /\ ioctls (w_log w') =
    ioctls (w_log w) ++ [(enc_fd h, NE_START_ENCLAVE, ArgStartInfo (flags h) (default 0 (enclave_cid h)))].
Proof.
  unfold boot_enclave. intros E. steps.
  match goal with H : vsock_bind _ _ _ = _ |- _ => quiet H L0 end.
  match goal with H : try _ _ = (Return (Ok ?r), _) |- _ =>
    apply try_inv in H; destruct r as [[cid0 size]|e0] end; [|by steps].
  steps.
  match goal with H : start _ _ = _ |- _ => apply start_ok in H as [-> L1] end.
  match goal with H : attempt _ _ = _ |- _ => quiet H L2 end.
  match goal with r : result EifLoaderError unit |- _ => destruct r end; steps.
  split; [done|]. by rewrite L2, L1, L0.
Qed.

(** What the driver is told when an enclave is created, for the memory
    regions [regions] and the configuration of [h]. *)
Definition creation_calls (h : EnclaveHandle) (regions : list MemoryRegion) : list (Z * Z * IoctlArg) :=
  [(enc_fd h, NE_GET_IMAGE_LOAD_INFO, ArgImageLoadInfo NE_EIF_IMAGE 0)] ++
  map (fun r => (enc_fd h, NE_SET_USER_MEMORY_REGION, user_memory_region r)) regions ++
  map (fun id => (enc_fd h, NE_ADD_VCPU, ArgU32 id)) (requested_cpus (cpu_config h)) ++
  [(enc_fd h, NE_START_ENCLAVE, ArgStartInfo (flags h) (default 0 (enclave_cid h)))].

(** C10: an enclave that was created was set up by the driver calls in the one
    order the driver accepts: the image offset is asked for, every region that
    the allocator holds is handed over, in order and once, then every vCPU of
    the configuration is added, and the enclave is started last, with its
    flags and the CID that was asked for (zero when the driver is to choose);
    no other driver call is made. *)
Theorem create_enclave_calls name conn h w id h' w' :
  create_enclave name conn (h, w) = (Return (Ok id), (h', w')) ->
  ioctls (w_log w') =
    ioctls (w_log w) ++ creation_calls h (mem_regions (resource_allocator h')).
Proof.
  unfold create_enclave. intros E. steps.
  match goal with H : init_memory _ _ = _ |- _ => apply init_memory_ok in H as ((F1 & F2 & F3 & F4) & _ & L1) end.
  match goal with H : init_cpus _ = _ |- _ => apply init_cpus_ok in H as ((G1 & G2 & G3 & G4) & A & L2) end.
  match goal with H : boot_enclave _ _ = _ |- _ => apply boot_enclave_ok in H as [-> L3] end.
  match goal with H : safe_conn_println _ _ _ = _ |- _ => quiet H L4 end.
  unfold creation_calls. simpl. rewrite L4, L3, L2, L1, G1, G3, G4, A, F1, F2, F3, F4, <- !app_assoc.
  done.
Qed.
End HandleLemmas.

Section TerminateLemmas.
Context `{ImageFormat} `{Kernel} `{Env} `{Serde EnclaveProcessReply} `{ToJson EnclaveRunInfo}.

Lemma locked_ok {A} l (m : IOS EnclaveHandle A) mgr w a mgr' w' :
  locked l m (mgr, w) = (Return (Ok a), (mgr', w')) ->
  exists h', m (guarded (enclave_handle mgr), w) = (Return (Ok a), (h', w')) /\
    mgr' = mk_manager _ (enclave_id mgr) (enclave_name mgr) (mk_mutex false h').
Proof.
  unfold locked. destruct (poisoned _); [done|].
  destruct (m _) as [[r|c|] [h' w1]]; intros; simplify_eq. eauto.
Qed.

Lemma release_enclave_descriptor_ok fd w w' :
  release_enclave_descriptor fd w = (Return (Ok tt), w') ->
  exists rc, 0 <= rc /\ w' = add_event (EvClose fd rc) w.
Proof.
  unfold release_enclave_descriptor, bind, close. destruct (Z.ltb_spec (k_close (w_log w) fd) 0); [done|].
  intros E. unfold ret in E. simplify_eq. eauto.
Qed.

Lemma release_resources_ok fd ra w ra' w' :
  release_resources fd (ra, w) = (Return (Ok tt), (ra', w')) ->
  mem_regions ra' = [] /\ exists rc evs, 0 <= rc /\ w' = grow w (EvClose fd rc :: evs) /\
    unmapped evs = live (mem_regions ra).
Proof.
  unfold release_resources. intros E. m_inv.
  match goal with H : try _ _ = _ |- _ => apply try_inv in H; rename H into Ht end.
  match goal with r : result NitroCliFailure unit |- _ => destruct r as [[]|] end; [|by m_inv].
  m_inv.
  match goal with H : lift _ _ = (_, ?s) |- _ => destruct s; apply lift_inv in H as [-> H];
    apply release_enclave_descriptor_ok in H as (rc & Hrc & ->) end.
  match goal with H : allocator_free _ = _ |- _ => apply allocator_free_ok in H as (Hn & evs & -> & _ & Hu) end.
  split; [done|]. exists rc, evs. split; [done|]. split; [|done].
  unfold grow, add_event. simpl. by rewrite <- app_assoc.
Qed.

(** A successful termination closes the descriptor, unmaps the regions, and
    clears the handle, which keeps its allocator and the allocator its
    regions. *)
Lemma terminate_enclave_ok mgr w mgr' w' :
  let h := guarded (enclave_handle mgr) in
  terminate_enclave (mgr, w) = (Return (Ok tt), (mgr', w')) ->
  mgr' = mk_manager _ (enclave_id mgr) (enclave_name mgr) (mk_mutex false (clear h)) /\
  exists rc evs, 0 <= rc /\ w' = grow w (EvClose (enc_fd h) rc :: evs) /\
    unmapped evs = live (mem_regions (resource_allocator h)).
Proof.
  intros h E. unfold terminate_enclave in E. m_inv. destruct a as [fd ra].
  destruct s as [mgr1 w1]. apply locked_ok in E0 as (h1 & E0 & ->).
  unfold gets in E0. simplify_eq. unfold with_local in E1.
  fold h in E1.
  destruct (release_resources (enc_fd h) (resource_allocator h, w1)) as [[[[]|e]|c|] [ra' w2]] eqn:Er; try done.
  apply release_resources_ok in Er as (Hn & rc & evs & Hrc & -> & Hu).
  unfold bind, try, locked, update, modify, of_result in E1. simpl in E1.
  rewrite allocator_drop_empty in E1 by done. simplify_eq. eauto 10.
Qed.
End TerminateLemmas.

(** ** Properties of the handle and of the manager *)

Section Properties.
Context `{ImageFormat} `{Kernel} `{Env} `{Serde EnclaveProcessReply} `{ToJson EnclaveRunInfo}.

(** After [EnclaveManager::terminate_enclave] has succeeded, dropping the
    manager unmaps every extent of the enclave's memory a second time:
    termination frees a clone of the allocator, and [clear] leaves the
    original one, with its regions, in the handle. Each extent that was live
    is unmapped once by the termination and once by the drop. *)
Theorem termination_unmaps_twice mgr w mgr1 w1 mgr2 w2 :
  terminate_enclave (mgr, w) = (Return (Ok tt), (mgr1, w1)) ->
  manager_drop (mgr1, w1) = (Return (Ok tt), (mgr2, w2)) ->
  exists evs1 evs2, w1 = grow w evs1 /\ w2 = grow w1 evs2 /\
    unmapped evs1 = live (mem_regions (resource_allocator (guarded (enclave_handle mgr)))) /\
    unmapped evs2 = live (mem_regions (resource_allocator (guarded (enclave_handle mgr)))).
Proof.
  intros (-> & rc & evs & _ & -> & Hu)%terminate_enclave_ok Hd.
  exists (EvClose (enc_fd (guarded (enclave_handle mgr))) rc :: evs).
  unfold manager_drop, handle_drop, bind, self, gets, ret in Hd. simpl in Hd.
  destruct (on_allocator allocator_drop _) as [r [h' w']] eqn:E. simplify_eq.
  apply on_allocator_inv in E as (ra' & -> & (evs' & -> & _ & Hu')%allocator_drop_ok). eauto 10.
Qed.

(** When the boot of an enclave fails and its CID had been left for the
    driver to choose, [terminate_enclave_error] announces that the enclave is
    being terminated and does nothing else: the CID is recorded only after a
    successful boot, so the handle looks as if it held no enclave. *)
Theorem boot_failure_terminates_nothing (h : EnclaveHandle) (w : World) (err : string) :
  enclave_cid h = None ->
  terminate_enclave_error err (h, w) =
    (Return (Ok tt), (h, add_event (EvNotify (err +:+ ". Terminating the enclave...")) w)).
Proof.
  intros E. unfold terminate_enclave_error.
  rewrite (bind_lift _ _ _ _ tt (add_event (EvNotify (err +:+ ". Terminating the enclave...")) w))
    by reflexivity.
  unfold terminate_enclave_and_notify, handle_terminate_enclave, bind, try, self, gets. simpl. by rewrite E.
Qed.

(** C23: a handle is created only when the memory asked for, as the 64-bit byte
    count the code computes, is positive and at least four times the image. The
    device is then opened, asked once to create an enclave, and closed; the handle
    has the descriptor that the driver returned, which is not negative, and the
    slot that it filled in, the CID, CPUs and mode that were given, no memory yet,
    and asks for exactly that byte count. Below 2^44 MiB the count is exact; at
    2^44 the shift wraps and the high bits are lost. *)
Theorem handle_new_memory cid memory_mib cpus eif debug_mode w h w' :
  0 <= memory_mib <= u64_MAX ->
  handle_new cid memory_mib cpus eif debug_mode w = (Return (Ok h), w') ->
  requested_mem (resource_allocator h) = u64 (memory_mib * 2 ^ 20) /\
  0 < requested_mem (resource_allocator h) /\
  u64 (4 * Z.of_nat (length (file_data eif))) <= requested_mem (resource_allocator h) /\
  mem_regions (resource_allocator h) = [] /\ 0 <= enc_fd h /\
  (memory_mib < 2 ^ 44 -> requested_mem (resource_allocator h) = memory_mib * 2 ^ 20) /\
  enclave_cid h = cid /\ cpu_config h = cpus /\ flags h = (if debug_mode then NE_ENCLAVE_DEBUG_MODE else 0) /\
  exists dev errno answer closed,
    k_ioctl (w_log w ++ [EvOpenDevice (Ok dev)]) dev NE_CREATE_VM (ArgU64 0) = (enc_fd h, errno, answer) /\
    slot_uid h = (match answer with ArgU64 slot => slot | _ => 0 end) /\
    w' = grow w [EvOpenDevice (Ok dev); EvIoctl dev NE_CREATE_VM (ArgU64 0) (enc_fd h); EvClose dev closed].
Proof.
  intros Hm. unfold handle_new, file_len. rewrite Z.shiftl_mul_pow2 by lia.
  destruct (metadata_err eif) as [e|]; [done|]. intros E. apply bind_ok_inv in E as (n & w1 & E1 & E).
  unfold of_result in E1. simpl in E1. simplify_eq. revert E.
  destruct (Z.ltb_spec (u64 (memory_mib * 2 ^ 20))
    (u64 (ENCLAVE_MEMORY_EIF_SIZE_RATIO * Z.of_nat (length (file_data eif))))); [done|].
  intros E. apply bind_ok_inv in E as (dev & w2 & E2%map_err_to_ok_inv & E).
  unfold open_device in E2. injection E2 as E2 <-.
  apply owning_ok in E as (w3 & closed & E & ->).
  apply bind_ok_inv in E as ([rc answer] & w4 & (errno & Ek & Hrc & ->)%map_err_ok_inv%do_ioctl_answer & E).
  rewrite (proj2 (Z.ltb_ge rc 0)) in E by done.
  apply bind_ok_inv in E as (allocator & w5 & [Ea ->]%map_err_ok_inv%of_result_inv & [= <- <-]).
  unfold allocator_new in Ea. destruct (Z.eqb_spec (u64 (memory_mib * 2 ^ 20)) 0); [done|]. injection Ea as <-.
  pose proof (u64_bound (memory_mib * 2 ^ 20)). cbn in Ek |- *.
  split_and!; try done; [lia|intros; apply u64_small; unfold u64_MAX; lia|].
  exists dev, errno, answer, closed. split_and!; [by rewrite <- E2|done|].
  rewrite E2. unfold add_event, grow. cbn. by rewrite <- !app_assoc.
Qed.
End Properties.

(** ** Witnesses *)

Definition sample_format : ImageFormat := {|
  EifIdentityInfo := string;
  json_value := string;
  eif_img_name m := m;
  eif_img_version m := "1.0"%string;
  eif_build_time m := "now"%string;
  eif_build_tool m := "tool"%string;
  eif_build_tool_version m := "0.1"%string;
  eif_img_os m := "Linux"%string;
  eif_img_kernel m := "4.14"%string;
  eif_docker_info m := m;
  eif_custom_info m := m;
|}.

(** A handle for an enclave of 6 MiB with an image of three bytes, two CPUs and
    a CID that the driver chooses. *)
Definition sample_handle : @EnclaveHandle sample_format :=
  mk_handle sample_format (CpuList [2; 3]) [] 0 5 None 1 7 (mk_allocator (6 * MiB) [])
    (Some (mk_file [1; 2; 3] 0 None None)) Empty (build_info_new []) None.

Definition sample_create :=
  @create_enclave sample_format sample_system sample_env sample_serde_reply (fun _ => Ok "{}"%string)
    "app" None (sample_handle, world0).

Lemma create_enclave_calls_witness :
  fst sample_create = Return (Ok "i-0000000000000000-enc5"%string) /\
  ioctls (w_log (snd (snd sample_create))) =
    ioctls [] ++ @creation_calls sample_format sample_handle
      (mem_regions (resource_allocator (fst (snd sample_create)))).
Proof.
  split; [vm_compute; reflexivity|].
  refine (@create_enclave_calls sample_format sample_system sample_env sample_serde_reply
    (fun _ => Ok "{}"%string) "app" None
    sample_handle world0 "i-0000000000000000-enc5" (fst (snd sample_create)) (snd (snd sample_create)) _).
  vm_compute. reflexivity.
Defined.

(** The manager of an enclave with one region. *)
Definition sample_manager : @EnclaveManager sample_format :=
  mk_manager sample_format "i-0000000000000000-enc5" "app" (mk_mutex false
    (set_cid (Some 16) (set_allocator (mk_allocator (2 * MiB) [mk_region 0 (2 * MiB) 4096]) sample_handle))).

Definition sample_terminated :=
  @terminate_enclave sample_format sample_system sample_env (sample_manager, world0).

Lemma termination_unmaps_twice_witness :
  exists w1 w2 evs1 evs2, w1 = grow world0 evs1 /\ w2 = grow w1 evs2 /\
    unmapped evs1 = [(4096, 2 * MiB)] /\ unmapped evs2 = [(4096, 2 * MiB)].
Proof.
  exists (snd (snd sample_terminated)), (snd (snd (@manager_drop sample_format sample_system sample_env
    (snd sample_terminated)))).
  refine (@termination_unmaps_twice sample_format sample_system sample_env sample_manager world0
    (fst (snd sample_terminated)) (snd (snd sample_terminated)) (fst (snd (@manager_drop sample_format sample_system sample_env
    (snd sample_terminated)))) _ _ _); vm_compute; reflexivity.
Defined.

Lemma boot_failure_terminates_nothing_witness :
  @terminate_enclave_error sample_format sample_system sample_env "no heart beat" (sample_handle, world0) =
    (Return (Ok tt), (sample_handle,
       mk_world [EvNotify "no heart beat. Terminating the enclave..."] ∅ ∅)).
Proof.
  exact (@boot_failure_terminates_nothing sample_format sample_system sample_env sample_handle world0
    "no heart beat" eq_refl).
Defined.

(** 2^44 + 64 MiB are taken for 64 MiB. *)
Lemma handle_new_memory_witness :
  exists h w', @handle_new sample_format sample_system None (2 ^ 44 + 64) (Count 2)
      (mk_file [1; 2; 3] 0 None None) false world0 = (Return (Ok h), w') /\
    requested_mem (resource_allocator h) = u64 ((2 ^ 44 + 64) * 2 ^ 20) /\
    requested_mem (resource_allocator h) = 64 * MiB.
Proof.
  eexists _, _. split; [vm_compute; reflexivity|]. split; [|reflexivity].
  refine (proj1 (@handle_new_memory sample_format sample_system None (2 ^ 44 + 64) (Count 2)
    (mk_file [1; 2; 3] 0 None None) false world0 _ _ _ _)).
  - vm_compute. split; discriminate.
  - vm_compute. reflexivity.
Defined.
