(* ===== verification/Commands.v ===== *)
(** * The commands of the enclave process
    (src/src/enclave_proc/commands.rs, src/src/common/json_output.rs)

    Running, terminating and describing an enclave, and the records that are
    printed as JSON. The image format library is a parameter: [ImageFormat] for
    the metadata, [ImageTools] for the signature check and the hashes. *)
From S2P Require Import Prelude.
From S2P Require Import RustStd.
From S2P Require Import Failure.
From S2P Require Import DocumentErrors.
From S2P Require Import CommandsParser.
From S2P Require Import CpuInfo.
From S2P Require Import EnclaveIds.
From S2P Require Import Os.
From S2P Require Import Sample.
From S2P Require Import Wire.
From S2P Require Import Connection.
From S2P Require Import Memory.
From S2P Require Import EifWriter.
From S2P Require Import Boot.
From S2P Require Import Logs.
From S2P Require Import Events.
From S2P Require Import Enclave.
From stdpp Require Import base list numbers strings gmap.
From Stdlib Require Import ZArith Lia.
Local Open Scope Z_scope.
Local Open Scope nitro_scope.

Definition failure_at (subaction : string) (code : NitroCliErrorEnum) (l : Z) : NitroCliFailure :=
  new_nitro_cli_failure subaction code "src/enclave_proc/commands.rs" l.

(** ** Records *)

(* src/src/common/json_output.rs MetadataDescribeInfo *)
Record MetadataDescribeInfo `{ImageFormat} : Type := mk_metadata_info {
  build_time : string;
  build_tool : string;
  tool_version : string;
  operating_system : string;
  kernel_version : string;
  docker_info : json_value;
  custom_metadata : json_value;
}.

(* src/src/common/json_output.rs MetadataDescribeInfo::new *)
Definition metadata_info_new `{ImageFormat} (eif_info : EifIdentityInfo) : MetadataDescribeInfo :=
  mk_metadata_info _ (eif_build_time eif_info) (eif_build_tool eif_info)
    (eif_build_tool_version eif_info) (eif_img_os eif_info) (eif_img_kernel eif_info)
    (eif_docker_info eif_info) (eif_custom_info eif_info).

(* src/src/common/json_output.rs EnclaveDescribeInfo *)
Record EnclaveDescribeInfo `{ImageFormat} : Type := mk_describe_info {
  di_enclave_name : option string;
  di_enclave_id : string;
  di_process_id : Z;
  di_enclave_cid : Z;
  di_cpu_count : Z;
  di_cpu_ids : list Z;
  di_memory_mib : Z;
  di_state : string;
  di_flags : string;
  di_build_info : option EnclaveBuildInfo;
  di_img_name : option string;
  di_img_version : option string;
  di_metadata : option MetadataDescribeInfo;
}.

(* src/src/common/json_output.rs EnclaveDescribeInfo::new *)
Definition describe_info_new `{ImageFormat} (process_id : Z) (name : option string) (id : string)
    (cid count : Z) (ids : list Z) (memory_mib : Z) (st fl : string)
    (build : option EnclaveBuildInfo) (img_name img_version : option string)
    (meta : option MetadataDescribeInfo) : EnclaveDescribeInfo :=
  mk_describe_info _ name id process_id cid count ids memory_mib st fl build img_name img_version meta.

(* src/src/common/json_output.rs EnclaveTerminateInfo::new *)
Definition terminate_info_new (name : option string) (id : string) (terminated : bool)
    : EnclaveTerminateInfo := mk_terminate_info name id terminated.

(** ** The image and its signature *)

(* src/src/enclave_proc/commands.rs DescribeThreadResult *)
Record DescribeThreadResult `{ImageFormat} : Type := mk_describe_result {
  dt_measurements : list (string * string);
  dt_metadata : option EifIdentityInfo;
}.

(** What the files named by a run contain. [image_signature] is [Ok None] when
    the image has no signature, and otherwise the outcome of the verification;
    [image_hashes] stands for [get_pcrs] on an image that could be read. *)
Class ImageTools `{ImageFormat} : Type := {
  open_image : string -> result string File;
  cpu_pool : result string CpuInfo.reader;
  image_signature : string -> result string (option (result string unit));
  image_reader : string -> result string (option EifIdentityInfo);
  image_hashes : string -> result string (list (string * string));
}.

(** The result of the thread that computes the measurements, once it is joined:
    [None] when nothing is left to fetch. *)
(* src/src/enclave_proc/commands.rs DescribeThread *)
Definition DescribeThread `{ImageFormat} : Type := option (NitroCliResult DescribeThreadResult).

(* src/src/enclave_proc/commands.rs RunEnclaveResult *)
Record RunEnclaveResult `{ImageFormat} : Type := mk_run_result {
  rr_enclave_manager : EnclaveManager;
  rr_describe_thread : DescribeThread;
}.

Section Commands.
Context `{IF : ImageFormat} `{IT : @ImageTools IF} `{Kernel} `{Env} `{Serde EnclaveProcessReply}
  `{ToJson EnclaveRunInfo} `{ToJson EnclaveTerminateInfo} `{ToJson EnclaveDescribeInfo}.

(** The body of the thread. *)
(* src/src/enclave_proc/commands.rs:106-131 run_enclaves *)
Definition describe_image (path : string) : NitroCliResult DescribeThreadResult :=
  let? metadata := rmap_err (fun e =>
    failure_at ("Failed initialize EIF reader: " +:+ e) EifParsingError 108) (image_reader path) in
  let? measurements := rmap_err (fun e =>
    failure_at ("Failed to calculate PCRs: " +:+ e) EifParsingError 122) (image_hashes path) in
  Ok (mk_describe_result _ measurements metadata).

(** Run a computation on a manager owned by the caller, which is dropped when
    the computation fails. *)
Definition owning_manager {A} (mgr : EnclaveManager) (m : IOS EnclaveManager A)
    : IO (A * EnclaveManager) :=
  fun w =>
    match m (mgr, w) with
    | (Return (Ok a), (mgr', w')) => (Return (Ok (a, mgr')), w')
    | (Return (Err e), s') =>
        match manager_drop s' with
        | (Return (Ok _), (_, w'')) => (Return (Err e), w'')
        | (Return (Err e'), (_, w'')) => (Return (Err e'), w'')
        | (Exit c, (_, w'')) => (Exit c, w'')
        | (Panic, (_, w'')) => (Panic, w'')
        end
    | (Exit c, (_, w')) => (Exit c, w')
    | (Panic, (_, w')) => (Panic, w')
    end.

(** The checks of the signature, when there is one. *)
(* src/src/enclave_proc/commands.rs:87-102 run_enclaves *)
Definition check_signature (path : string) : NitroCliResult unit :=
  let? signature := rmap_err (fun e =>
    failure_at ("Failed to create EIF signature checker: " +:+ e) EIFSignatureCheckerError 88)
    (image_signature path) in
  match signature with
  | None => Ok tt
  | Some verified =>
      rmap_err (fun e =>
        failure_at ("Invalid signing certificate: " +:+ e) EIFSignatureCheckerError 97) verified
  end.

(* src/src/enclave_proc/commands.rs run_enclaves *)
Definition run_enclaves (args : RunEnclavesArgs) (connection : option Connection)
    : IO RunEnclaveResult :=
  let! eif_file := of_result (rmap_err (fun e =>
    add_info [run_eif_path args; "Open"%string]
      (failure_at ("Failed to open the EIF file: " +:+ e) FileOperationFailure 53))
    (open_image (run_eif_path args))) in
  let! cpu_info := of_result (rmap_err (add_subaction "Failed to construct CPU information")
    (cpu_info_new cpu_pool)) in
  let! cpu_ids := of_result (rmap_err (add_subaction "Failed to get CPU configuration")
    (get_cpu_config cpu_info args)) in
  match run_enclave_name args with
  | None => fail (failure_at "Failed to set enclave name in the manager" FileOperationFailure 68)
  | Some name =>
      let! mgr := map_err
        (add_subaction "Failed to construct EnclaveManager with given arguments")
        (manager_new (run_enclave_cid args) (run_memory_mib args) cpu_ids eif_file
           (run_debug_mode args) name) in
      let! '(_, mgr) := owning_manager mgr (
        do! lift (of_result (check_signature (run_eif_path args)));
        do! map_err (add_subaction "Failed to run enclave") (run_enclave connection);
        map_err (add_subaction "Failed to update enclave state") (update_state Running)) in
      ret (mk_run_result _ mgr (Some (describe_image (run_eif_path args))))
  end.

(* src/src/enclave_proc/commands.rs terminate_enclaves *)
Definition terminate_enclaves (connection : option Connection) : IOS EnclaveManager unit :=
  let! mgr := self in
  let id := enclave_id mgr in
  let name := Some (enclave_name mgr) in
  do! map_err (add_subaction "Failed to update enclave state") (update_state Terminating);
  let! r := try terminate_enclave in
  match r with
  | Err error_info =>
      do! lift (safe_conn_eprintln connection
        ("Warning: Failed to stop enclave " +:+ id +:+ String LF "Error message: " +:+
         show_str (error_message error_info)));
      fail error_info
  | Ok _ =>
      do! update_state Enclave.Empty;
      do! lift (safe_conn_eprintln connection ("Successfully terminated enclave " +:+ id +:+ "."));
      let! text := of_result (rmap_err (fun err =>
        failure_at ("Failed to display enclave termination data: " +:+ err) SerdeError 185)
        (to_string_pretty (terminate_info_new name id true))) in
      lift (safe_conn_println connection text)
  end.

(* src/src/enclave_proc/utils.rs get_enclave_describe_info *)
Definition get_enclave_describe_info (with_metadata : bool) : IOS EnclaveManager EnclaveDescribeInfo :=
  let! '(slot, cid, cpu_count, ids, memory_mib, fl, st) := get_description_resources in
  let! meta := (if with_metadata then get_metadata else ret None) in
  let! mgr := self in
  let! id := of_result (generate_enclave_id env_asset_tag slot) in
  let! build := get_measurements in
  ret (mk_describe_info _ (Some (enclave_name mgr)) id k_process_id cid cpu_count ids memory_mib
         (show_state st) (flags_to_string fl) (Some build)
         (eif_img_name <$> meta) (eif_img_version <$> meta) (metadata_info_new <$> meta)).

(* src/src/enclave_proc/commands.rs describe_enclaves *)
Definition describe_enclaves (connection : Connection) (with_metadata : bool)
    : IOS EnclaveManager unit :=
  let! info := map_err (add_subaction "Execute Describe Enclave command")
    (get_enclave_describe_info with_metadata) in
  let! text := of_result (rmap_err (fun err =>
    failure_at ("Failed to display enclave describe data: " +:+ err) SerdeError 208)
    (to_string_pretty info)) in
  lift (println connection text).
End Commands.

(** ** Lemmas *)

(** Everything but the call that starts an enclave. *)
Definition not_start (e : Event) : Prop :=
  match e with EvIoctl _ code _ _ => code <> NE_START_ENCLAVE | _ => True end.

Lemma stream_not_start e : is_stream e -> not_start e.
Proof. by destruct e. Qed.
Lemma memory_not_start e : is_memory e -> not_start e.
Proof. by destruct e. Qed.
Lemma notify_not_start e : is_notify e -> not_start e.
Proof. by destruct e. Qed.
Lemma socket_not_start e : is_socket e -> not_start e.
Proof. by destruct e. Qed.

Section NotStart.
Context `{IF : ImageFormat} `{IT : @ImageTools IF} `{Kernel} `{Env} `{Serde EnclaveProcessReply}
  `{ToJson EnclaveRunInfo}.

Lemma emits_not_start_do_ioctl fd code arg :
  code <> NE_START_ENCLAVE -> emits not_start (do_ioctl fd code arg).
Proof.
  intros Hc. apply emits_one. intros s. unfold do_ioctl.
  destruct (k_ioctl _ _ _ _) as [[rc errno] arg'] eqn:E. exists (EvIoctl fd code arg rc). by destruct (0 <=? rc).
Qed.

Lemma emits_not_start_close E fd : emits not_start (close fd : M E World Z).
Proof. eapply emits_impl; [apply emits_close|apply socket_not_start]. Qed.
Lemma emits_not_start_free : emits not_start allocator_free.
Proof. eapply emits_impl; [apply emits_allocator_free|apply memory_not_start]. Qed.
Lemma emits_not_start_drop : emits not_start allocator_drop.
Proof. eapply emits_impl; [apply emits_allocator_drop|apply memory_not_start]. Qed.
Lemma emits_not_start_notify msg : emits not_start (notify_error msg).
Proof. eapply emits_impl; [apply emits_notify_error|apply notify_not_start]. Qed.
Lemma emits_not_start_open : emits not_start open_device.
Proof. apply emits_one. intros s. eexists. split; [reflexivity|done]. Qed.
Hint Resolve emits_not_start_close emits_not_start_free emits_not_start_drop
  emits_not_start_notify emits_not_start_open : emits.

Lemma emits_owning {E A} Q fd (m : M E World A) :
  (forall e, is_socket e -> Q e) -> emits Q m -> emits Q (owning fd m).
Proof.
  intros HQ Hm. unfold owning. emits. eapply emits_impl; [apply emits_close|done].
Qed.

Lemma emits_not_start_handle_new cid memory_mib cpus eif debug :
  emits not_start (handle_new cid memory_mib cpus eif debug).
Proof.
  unfold handle_new. emits. apply emits_owning; [apply socket_not_start|]. emits.
  by apply emits_not_start_do_ioctl.
Qed.

Lemma emits_on_allocator {A} Q (m : IOS ResourceAllocator A) : emits Q m -> emits Q (on_allocator m).
Proof. intros Hm. by apply (emits_zoom Q _ _ m). Qed.

Lemma emits_update Q f : emits Q (update f).
Proof. by apply emits_quiet. Qed.
Hint Resolve emits_on_allocator emits_update : emits.

Lemma emits_not_start_handle_drop : emits not_start handle_drop.
Proof.
  unfold handle_drop, terminate_enclave_and_notify, handle_terminate_enclave,
    release_enclave_descriptor. emits.
Qed.

Lemma emits_locked {A} Q l (m : IOS EnclaveHandle A) : emits Q m -> emits Q (locked l m).
Proof.
  intros Hm [mgr w]. unfold locked. destruct (poisoned _).
  { exists []. by rewrite app_nil_r. }
  destruct (Hm (guarded (enclave_handle mgr), w)) as (evs & L & F). exists evs.
  cbv [log_of has_log_world world_of has_world_pair has_world_world] in *.
  destruct (m _) as [[r|c|] [h w']]; done.
Qed.

Lemma emits_manager_drop Q : emits Q handle_drop -> emits Q manager_drop.
Proof.
  intros Hd [mgr w]. destruct (Hd (guarded (enclave_handle mgr), w))
    as (evs & E & F). exists evs. unfold manager_drop, log_of, has_log_world, world_of, has_world_pair in *.
  destruct (handle_drop _) as [r [h w']]. done.
Qed.

Lemma emits_not_start_manager_drop : emits not_start manager_drop.
Proof. apply emits_manager_drop, emits_not_start_handle_drop. Qed.

Lemma emits_owning_manager {A} Q mgr (m : IOS EnclaveManager A) :
  emits Q m -> emits Q manager_drop -> emits Q (owning_manager mgr m).
Proof.
  intros Hm Hd w. destruct (Hm (mgr, w)) as (e1 & E1 & F1). unfold owning_manager.
  destruct (m (mgr, w)) as [[[a|e]|c|] [m1 w1]];
    cbv [log_of has_log_world world_of has_world_pair has_world_world snd] in *; try (by exists e1).
  destruct (Hd (m1, w1)) as (e2 & E2 & F2).
  cbv [log_of has_log_world world_of has_world_pair has_world_world snd] in *.
  exists (e1 ++ e2). rewrite app_assoc, <- E1.
  destruct (manager_drop (m1, w1)) as [[[?|?]|?|] [? w2]]; rewrite E2; split; try done; by apply Forall_app.
Qed.

End NotStart.

Lemma unmapped_stream evs : Forall is_stream evs -> unmapped evs = [].
Proof. induction 1 as [|e evs He _ IH]; [done|]. by destruct e. Qed.

Lemma emits_log {E T A} `{HasWorld T} Q (m : M E T A) s r s' :
  emits Q m -> m s = (r, s') -> exists evs, log_of s' = log_of s ++ evs /\ Forall Q evs.
Proof. intros Hm Es. specialize (Hm s). by rewrite Es in Hm. Qed.

(** ** Properties *)

Section Properties.
Context `{IF : ImageFormat} `{IT : @ImageTools IF} `{Kernel} `{Env} `{Serde EnclaveProcessReply}
  `{ToJson EnclaveRunInfo} `{ToJson EnclaveTerminateInfo} `{ToJson EnclaveDescribeInfo}.

(** C18: an image whose signature cannot be read or does not verify is never
    started: the run ends without success, and no call made during it, the
    clean-up included, is the driver call that starts an enclave. *)
Theorem unverified_image_never_starts (args : RunEnclavesArgs) (connection : option Connection)
    (w : World) (e : NitroCliFailure) :
  check_signature (run_eif_path args) = Err e ->
  exists evs, w_log (snd (run_enclaves args connection w)) = w_log w ++ evs /\ Forall not_start evs /\
    forall r, fst (run_enclaves args connection w) <> Return (Ok r).
Proof.
  intros Hc.
  assert (emits not_start (run_enclaves args connection)) as Hem.
  { unfold run_enclaves, manager_new. rewrite Hc. emits; [apply emits_not_start_handle_new|].
    apply emits_owning_manager; [by apply emits_quiet|apply emits_not_start_manager_drop]. }
  destruct (Hem w) as (evs & E & F). exists evs. split; [done|]. split; [done|].
  intros r. destruct (run_enclaves args connection w) as [o w'] eqn:Er. simpl. intros ->.
  unfold run_enclaves in Er. rewrite Hc in Er. m_inv.
  destruct (run_enclave_name args); [|done]. m_inv.
  match goal with X : owning_manager _ _ _ = (Return (Ok _), _) |- _ => rename X into Ho end.
  unfold owning_manager, bind, lift, zoom, of_result in Ho. cbn -[manager_drop] in Ho.
  destruct (manager_drop _) as [[[?|?]|?|] [? ?]]; simplify_eq.
Qed.

(** What a successful description says. *)
Lemma describe_info_ok with_metadata mgr w info mgr' w' :
  get_enclave_describe_info with_metadata (mgr, w) = (Return (Ok info), (mgr', w')) ->
  let h := guarded (enclave_handle mgr) in
  guarded (enclave_handle mgr') = h /\ enclave_name mgr' = enclave_name mgr /\ w' = w /\
  di_enclave_name info = Some (enclave_name mgr) /\
  generate_enclave_id env_asset_tag (slot_uid h) = Ok (di_enclave_id info) /\
  enclave_cid h = Some (di_enclave_cid info) /\
  di_cpu_ids info = cpu_ids h /\ di_cpu_count info = Z.of_nat (length (cpu_ids h)) /\
  di_memory_mib info = allocated_memory_mib h /\ di_state info = show_state (state h) /\
  di_flags info = flags_to_string (flags h) /\ di_build_info info = Some (build_info h) /\
  di_metadata info = (if with_metadata then metadata_info_new <$> metadata h else None).
Proof.
  intros E h. unfold get_enclave_describe_info in E. m_inv.
  destruct a as [[[[[[slot cid] n] ids] mem] fl] st]. destruct s as [m0 w0].
  apply locked_ok in E0 as (h0 & E0 & ->). fold h in E0. unfold bind, self, gets in E0. simpl in E0.
  destruct (enclave_cid h) as [cid0|] eqn:Ecid; [|done]. unfold ret in E0. simplify_eq. m_inv.
  unfold self in *. m_inv. unfold of_result in *. simplify_eq.
  repeat match goal with s : (EnclaveManager * World)%type |- _ => destruct s end.
  match goal with X : get_measurements _ = _ |- _ => apply locked_ok in X as (h1 & X & ->); unfold gets in X end.
  destruct with_metadata.
  - match goal with X : get_metadata _ = _ |- _ => apply locked_ok in X as (h2 & X & ->); unfold gets in X end.
    simpl in *. simplify_eq. simpl. auto 20.
  - m_inv. simpl in *. simplify_eq. auto 20.
Qed.

(** The description of an enclave is that of the handle at the time of the
    request: slot (in the ID), CID, CPUs and their number, memory, debug flag,
    state, measurements, and the image's metadata exactly when it was asked
    for; describing makes no system call and changes neither the handle nor
    the world. *)
Theorem describe_reflects_handle with_metadata mgr w info mgr' w' :
  get_enclave_describe_info with_metadata (mgr, w) = (Return (Ok info), (mgr', w')) ->
  let h := guarded (enclave_handle mgr) in
  guarded (enclave_handle mgr') = h /\ w' = w /\
  di_enclave_name info = Some (enclave_name mgr) /\
  generate_enclave_id env_asset_tag (slot_uid h) = Ok (di_enclave_id info) /\
  enclave_cid h = Some (di_enclave_cid info) /\
  di_cpu_ids info = cpu_ids h /\ di_cpu_count info = Z.of_nat (length (cpu_ids h)) /\
  di_memory_mib info = allocated_memory_mib h /\ di_state info = show_state (state h) /\
  di_flags info = flags_to_string (flags h) /\ di_build_info info = Some (build_info h) /\
  di_metadata info = (if with_metadata then metadata_info_new <$> metadata h else None).
Proof. intros E h. apply describe_info_ok in E as (Hg & _ & Hd). exact (conj Hg Hd). Qed.

(** A terminate request that succeeds leaves the handle empty: state Empty,
    no CPUs, no memory, CID 0, an invalid descriptor; the old descriptor was
    closed and the memory it had unmapped, and the enclave's names are kept. *)
Theorem terminate_enclaves_clears connection mgr w mgr' w' :
  terminate_enclaves connection (mgr, w) = (Return (Ok tt), (mgr', w')) ->
  let h := guarded (enclave_handle mgr) in
  let h' := guarded (enclave_handle mgr') in
  state h' = Enclave.Empty /\ cpu_ids h' = [] /\ allocated_memory_mib h' = 0 /\
  enclave_cid h' = Some 0 /\ enc_fd h' = -1 /\ slot_uid h' = 0 /\
  enclave_id mgr' = enclave_id mgr /\ enclave_name mgr' = enclave_name mgr /\
  exists rc evs, 0 <= rc /\ w_log w' = w_log w ++ EvClose (enc_fd h) rc :: evs /\
    unmapped evs = live (mem_regions (resource_allocator h)).
Proof.
  intros E h h'. unfold terminate_enclaves in E. m_inv. unfold self in *. m_inv.
  match goal with X : try _ _ = (Return (Ok ?r), _) |- _ => apply try_inv in X; destruct r as [[]|] end;
    [|m_inv; done].
  m_inv. unfold of_result in *. simplify_eq.
  repeat match goal with s : (EnclaveManager * World)%type |- _ => destruct s end.
  repeat match goal with
  | X : lift _ _ = _ |- _ => apply lift_inv in X as [-> X]
  | X : update_state _ _ = _ |- _ =>
      apply locked_ok in X as (? & X & ->); unfold update, modify in X; simpl in X; simplify_eq
  | X : terminate_enclave _ = _ |- _ => apply terminate_enclave_ok in X as (-> & rc & evs & Hrc & -> & Hu)
  | X : safe_conn_println _ _ _ = _ |- _ =>
      eapply emits_log in X as (e1 & L1 & F1); [|apply emits_safe_conn_println]
  | X : safe_conn_eprintln _ _ _ = _ |- _ =>
      eapply emits_log in X as (e2 & L2 & F2); [|apply emits_safe_conn_eprintln]
  end.
  cbv [log_of has_log_world world_of has_world_world] in L1, L2. subst h h'. simpl in *.
  split_and!; try done. exists rc, (evs ++ e2 ++ e1). split; [done|]. split.
  - rewrite L1, L2. simpl. by rewrite <- !app_assoc.
  - by rewrite !unmapped_app, Hu, (unmapped_stream e1), (unmapped_stream e2), !app_nil_r.
Qed.
End Properties.

(** ** Witnesses *)

(** Images are three bytes long, their signatures do not verify. *)
Definition sample_tools : @ImageTools sample_format := {|
  open_image _ := Ok (mk_file [1; 2; 3] 0 None None);
  cpu_pool := Ok [Ok "2,3"%string];
  image_signature _ := Ok (Some (Err "bad signature"%string));
  image_reader _ := Ok None;
  image_hashes _ := Ok [];
|}.

Definition sample_args : RunEnclavesArgs :=
  mk_run_args "app.eif" None 64 None false false (Some 2) (Some "app"%string).

Lemma unverified_image_never_starts_witness :
  exists evs, w_log (snd (@run_enclaves sample_format sample_tools sample_system sample_env sample_serde_reply
      (fun _ => Ok "{}"%string) sample_args None world0)) = w_log world0 ++ evs /\ Forall not_start evs.
Proof.
  destruct (@unverified_image_never_starts sample_format sample_tools sample_system sample_env
    sample_serde_reply (fun _ => Ok "{}"%string) sample_args None world0
    (failure_at "Invalid signing certificate: bad signature" EIFSignatureCheckerError 97) eq_refl)
    as (evs & E & F & _).
  exists evs. split; [exact E | exact F].
Defined.

Definition sample_description :=
  @get_enclave_describe_info sample_format sample_system sample_env true (sample_manager, world0).

Lemma describe_reflects_handle_witness :
  exists info, fst sample_description = Return (Ok info) /\
    di_memory_mib info = allocated_memory_mib (guarded (enclave_handle sample_manager)).
Proof.
  eexists. split; [vm_compute; reflexivity|].
  refine (proj1 (proj2 (proj2 (proj2 (proj2 (proj2 (proj2 (proj2
    (@describe_reflects_handle sample_format sample_system sample_env true sample_manager
      world0 _ (fst (snd sample_description)) (snd (snd sample_description)) _))))))))).
  vm_compute. reflexivity.
Defined.

Definition sample_termination :=
  @terminate_enclaves sample_format sample_system sample_env sample_serde_reply
    (fun _ => Ok "{}"%string) None (sample_manager, world0).

Lemma terminate_enclaves_clears_witness :
  state (guarded (enclave_handle (fst (snd sample_termination)))) = Enclave.Empty.
Proof.
  refine (proj1 (@terminate_enclaves_clears sample_format sample_system sample_env sample_serde_reply
    (fun _ => Ok "{}"%string) None sample_manager world0 (fst (snd sample_termination))
    (snd (snd sample_termination)) _)).
  vm_compute. reflexivity.
Defined.
