(* ===== verification/Listener.v ===== *)
(** * The socket of the enclave process and its listener
    (src/src/enclave_proc/socket.rs, src/src/enclave_proc/connection_listener.rs)

    The listener thread accepts the connections of CLI instances, reads the
    first copy of their command and hands them over to the event loop through
    epoll. The socket file is watched: when somebody else deletes it, the
    process leaves. *)
From S2P Require Import Prelude.
From S2P Require Import RustStd.
From S2P Require Import Failure.
From S2P Require Import EnclaveIds.
From S2P Require Import Os.
From S2P Require Import Sample.
From S2P Require Import Wire.
From S2P Require Import Connection.
From S2P Require Import Memory.
From S2P Require Import Logs.
From S2P Require Import Events.
From stdpp Require Import base list numbers strings gmap.
From Stdlib Require Import ZArith Lia.
Local Open Scope Z_scope.
Local Open Scope nitro_scope.

(** ** The socket file *)

Module Socket.
Definition failure_at (subaction : string) (code : NitroCliErrorEnum) (l : Z) : NitroCliFailure :=
  new_nitro_cli_failure subaction code "src/enclave_proc/socket.rs" l.

(** [remove_listener_thread] tells whether the monitoring thread is to be
    joined. The flag [requested_remove] is shared between the clones. *)
(* src/src/enclave_proc/socket.rs EnclaveProcSock *)
Record EnclaveProcSock : Type := mk_sock {
  socket_path : string;
  remove_listener_thread : bool;
  requested_remove : bool;
}.

Definition default_sock : EnclaveProcSock := mk_sock "" false false.

(* src/src/enclave_proc/socket.rs EnclaveProcSock::clone *)
Definition sock_clone (s : EnclaveProcSock) : EnclaveProcSock :=
  mk_sock (socket_path s) false (requested_remove s).

(* src/src/enclave_proc/socket.rs EnclaveProcSock::new *)
Definition sock_new (env_path : option string) (enclave_id : string) : NitroCliResult EnclaveProcSock :=
  let? socket_path := rmap_err (fun _ =>
    failure_at "Failed to create enclave process socket" SocketPathNotFound 51)
    (get_socket_path env_path enclave_id) in
  Ok (mk_sock socket_path false false).

(* src/src/enclave_proc/socket.rs EnclaveProcSock::get_path *)
Definition get_path (s : EnclaveProcSock) : string := socket_path s.

(* src/src/enclave_proc/socket.rs EnclaveProcSock::set_path *)
Definition set_path (p : string) (s : EnclaveProcSock) : EnclaveProcSock :=
  mk_sock p (remove_listener_thread s) (requested_remove s).

(** *** The monitoring thread *)

(** An event of the watch: whether its mask is one of the two watched for,
    whether the file exists when it is handled, and whether the removal has
    been requested by then. *)
Record WatchEvent : Type := mk_watch_event {
  ev_relevant : bool;
  ev_file_exists : bool;
  ev_requested : bool;
}.

(** How the thread ends. *)
Inductive MonitorEnd : Type :=
| Done
| ExitProcess (code : Z)
| StillWaiting.

(** The [for] loop over one batch of events: [done] may be set several times. *)
(* src/src/enclave_proc/socket.rs:184-207 socket_removal_listener *)
Fixpoint handle_watch_events (exit_on_delete : bool) (events : list WatchEvent) (done : bool)
    : MonitorEnd :=
  match events with
  | [] => if done then Done else StillWaiting
  | event :: events =>
      if ev_relevant event && negb (ev_file_exists event) then
        if ev_requested event then handle_watch_events exit_on_delete events true
        else if exit_on_delete then ExitProcess 1
        else handle_watch_events exit_on_delete events true
      else handle_watch_events exit_on_delete events done
  end.

(** The [while] loop, over the batches that the watch delivers; a failure to
    read them ends the process. *)
(* src/src/enclave_proc/socket.rs socket_removal_listener *)
Fixpoint socket_removal_listener (exit_on_delete : bool)
    (batches : list (result string (list WatchEvent))) : MonitorEnd :=
  match batches with
  | [] => StillWaiting
  | Err _ :: _ => ExitProcess (error_discriminant InotifyError)
  | Ok events :: batches =>
      match handle_watch_events exit_on_delete events false with
      | StillWaiting => socket_removal_listener exit_on_delete batches
      | r => r
      end
  end.

Section Operations.
Context `{Kernel} `{Env}.

(** The inotify descriptor is closed again when the watch cannot be added. *)
(* src/src/enclave_proc/socket.rs EnclaveProcSock::start_monitoring *)
Definition start_monitoring (s : EnclaveProcSock) : IO EnclaveProcSock :=
  let! fd := map_err_to (fun e =>
    failure_at ("Failed to initialize socket notifications: " +:+ e) InotifyError 79)
    (syscall SysInotifyInit) in
  let! _ := lending (hd (-1) fd) (map_err_to (fun e =>
    failure_at ("Failed to add watch to inotify: " +:+ e) InotifyError 95)
    (syscall (SysInotifyAdd (hd (-1) fd) (socket_path s)))) in
  ret (mk_sock (socket_path s) true (requested_remove s)).

(** [Path::exists] *)
Definition path_exists (p : string) : IO bool :=
  let! r := attempt (syscall (SysPathExists p)) in
  ret (match r with Ok (v :: _) => v =? 1 | _ => false end).

(** The monitoring thread ends when the file has been removed on request:
    joining it takes it out of the record. *)
(* src/src/enclave_proc/socket.rs EnclaveProcSock::close_mut *)
Definition close_mut (s : EnclaveProcSock) : IO EnclaveProcSock :=
  let s := mk_sock (socket_path s) (remove_listener_thread s) true in
  let! ex := path_exists (socket_path s) in
  do! (if ex then
         let! _ := map_err_to (fun e =>
           add_info [socket_path s; "Remove"%string]
             (failure_at ("Failed to remove socket file " +:+ show_str (socket_path s) +:+
                " from disk: " +:+ e) FileOperationFailure 118))
           (syscall (SysRemoveFile (socket_path s))) in
         ret tt
       else ret tt);
  ret (mk_sock (socket_path s) false true).

(* src/src/enclave_proc/socket.rs EnclaveProcSock::drop *)
Definition sock_drop (s : EnclaveProcSock) : IO unit :=
  let! r := try (close_mut s) in
  let! _ := ok_or_exit_with_errno (Some "Failed to drop socket"%string) r in
  ret tt.

(** The value is consumed, hence dropped after it has been closed. *)
(* src/src/enclave_proc/socket.rs EnclaveProcSock::close *)
Definition sock_close (s : EnclaveProcSock) : IO unit :=
  let! r := try (map_err (add_subaction "Close socket") (close_mut s)) in
  match r with
  | Ok s => sock_drop s
  | Err e =>
      do! sock_drop (mk_sock (socket_path s) (remove_listener_thread s) true);
      fail e
  end.
End Operations.
End Socket.

(** ** The listener *)

Definition failure_at (subaction : string) (code : NitroCliErrorEnum) (l : Z) : NitroCliFailure :=
  new_nitro_cli_failure subaction code "src/enclave_proc/connection_listener.rs" l.

(** The listening thread: never started (or joined), running, or ended by
    itself. *)
Inductive ListenerThread : Type :=
| NoThread
| Listening
| Ended.

(* src/src/enclave_proc/connection_listener.rs ConnectionListener *)
Record ConnectionListener : Type := mk_listener {
  epoll_fd : Z;
  listener_thread : ListenerThread;
  socket : Socket.EnclaveProcSock;
}.

(* src/src/enclave_proc/connection_listener.rs ConnectionListener::clone *)
Definition listener_clone (l : ConnectionListener) : ConnectionListener :=
  mk_listener (epoll_fd l) NoThread (Socket.sock_clone (socket l)).

(* src/src/enclave_proc/connection_listener.rs ConnectionListener::get_epoll_fd *)
Definition get_epoll_fd (l : ConnectionListener) : Z := epoll_fd l.

(** Flags of epoll. *)
Definition EPOLLIN : Z := 0x1.
Definition EPOLLERR : Z := 0x8.
Definition EPOLLHUP : Z := 0x10.

Section Listener.
Context `{Kernel} `{Env} `{Serde EnclaveProcessCommandType}.

(** [epoll_ctl] with [EpollCtlAdd] and [EpollCtlDel]. *)
Definition epoll_add (fd : Z) : M string World unit :=
  fun w =>
    let r := k_epoll_add (w_log w) fd in
    (Return (match r with None => Ok tt | Some e => Err e end), add_event (EvEpollAdd fd r) w).
Definition epoll_del (fd : Z) : M string World unit :=
  fun w =>
    let r := k_epoll_del (w_log w) fd in
    (Return (match r with None => Ok tt | Some e => Err e end), add_event (EvEpollDel fd r) w).

(* src/src/enclave_proc/connection_listener.rs ConnectionListener::new *)
Definition listener_new : IO ConnectionListener :=
  let! fd := map_err_to (fun e => failure_at ("Failed to initialize epoll: " +:+ e) EpollError 57)
    (syscall SysEpollCreate) in
  ret (mk_listener (hd (-1) fd) NoThread Socket.default_sock).

(** The stream's descriptor is given up to epoll before the call, and stays
    open when it fails. *)
(* src/src/enclave_proc/connection_listener.rs ConnectionListener::add_stream_to_epoll *)
Definition add_stream_to_epoll (stream_fd : Z) : IO unit :=
  map_err_to (fun e => failure_at ("Failed to add stream to epoll: " +:+ e) EpollError 114)
    (epoll_add stream_fd).

(* src/src/enclave_proc/connection_listener.rs ConnectionListener::register_enclave_descriptor *)
Definition register_enclave_descriptor (enc_fd : Z) : IO unit :=
  map_err_to (fun e => failure_at ("Failed to add enclave descriptor to epoll: " +:+ e) EpollError 132)
    (epoll_add enc_fd).

(** The stream is closed when it is not handed over to epoll. *)
(* src/src/enclave_proc/connection_listener.rs ConnectionListener::handle_new_connection *)
Definition handle_new_connection (stream : Z) : IO EnclaveProcessCommandType :=
  let! received := try (map_err (add_subaction "Failed to receive command type from stream")
    (receive_from_stream EnclaveProcessCommandType stream)) in
  match received with
  | Err e => let! _ := close stream in fail e
  | Ok cmd_type =>
      do! (if decide (cmd_type <> ConnectionListenerStop) then
             map_err (add_subaction "Failed to add stream to epoll") (add_stream_to_epoll stream)
           else let! _ := close stream in ret tt);
      ret cmd_type
  end.

(** The [for] loop over the incoming connections. *)
(* src/src/enclave_proc/connection_listener.rs:164-180 ConnectionListener::connection_listener_run *)
Fixpoint accept_connections (incoming : list (result string Z)) : IO bool :=
  match incoming with
  | [] => ret false
  | Ok stream :: incoming =>
      let! cmd := try (handle_new_connection stream) in
      match cmd with
      | Ok ConnectionListenerStop => ret true
      | _ => accept_connections incoming
      end
  | Err _ :: _ => ret true
  end.

(** The thread, on the connections that come in; [false] when it still waits
    for more of them. *)
(* src/src/enclave_proc/connection_listener.rs ConnectionListener::connection_listener_run *)
Definition connection_listener_run (self : ConnectionListener) (incoming : list (result string Z))
    : IO bool :=
  let! over := accept_connections incoming in
  if over : bool then
    do! map_err (add_subaction "Failed to close socket") (Socket.sock_close (socket self));
    ret true
  else ret false.

(* src/src/enclave_proc/connection_listener.rs ConnectionListener::enable_credentials_passing *)
Definition enable_credentials_passing (listener : Z) : IO unit :=
  let! _ := attempt (syscall (SysSetPassCred listener)) in
  let! _ := attempt (syscall (SysSetPermissions listener 0x1F6)) in
  ret tt.

(** The previous socket is dropped when it is replaced, and the descriptor of the
    new one is closed when it cannot be monitored. *)
(* src/src/enclave_proc/connection_listener.rs ConnectionListener::start *)
Definition listener_start (enclave_id : string) : IOS ConnectionListener unit :=
  let! l := self in
  let! sock := of_result (rmap_err (add_subaction "Failed to create enclave process socket")
    (Socket.sock_new env_sockets_path enclave_id)) in
  do! lift (Socket.sock_drop (socket l));
  do! set_self (mk_listener (epoll_fd l) (listener_thread l) sock);
  let! listener := lift (map_err_to (fun e =>
    failure_at ("Failed to bind connection listener: " +:+ e) SocketError 80)
    (syscall (SysUnixBind (Socket.get_path sock)))) in
  do! lift (enable_credentials_passing (hd (-1) listener));
  let! sock := lift (lending (hd (-1) listener)
    (map_err (add_subaction "Failed to start monitoring socket") (Socket.start_monitoring sock))) in
  set_self (mk_listener (epoll_fd l) Listening sock).

(** Joining the thread: it reads the command that [stop] has just sent, ends
    its loop and closes the socket; an error there ends the process. *)
Definition join_listener (l : ConnectionListener) : IO unit :=
  match listener_thread l with
  | Listening =>
      let! r := try (map_err (fun e => set_action "Run Enclave"
        (add_subaction "Failed to start the listener thread" (add_subaction "Failed to close socket" e)))
        (Socket.sock_close (Socket.sock_clone (socket l)))) in
      ok_or_exit_with_errno None r
  | _ => ret tt
  end.

(* src/src/enclave_proc/connection_listener.rs ConnectionListener::stop *)
Definition listener_stop `{Serde unit} : IOS ConnectionListener unit :=
  let! l := self in
  match listener_thread l with
  | NoThread => ret tt
  | _ =>
      let! self_conn := lift (map_err_to (fun e =>
        failure_at ("Failed to connect to listener thread: " +:+ e) SocketError 200)
        (syscall (SysUnixConnect (Socket.get_path (socket l))))) in
      let self_conn := hd (-1) self_conn in
      do! lift (owning self_conn (
        do! map_err (add_subaction "Failed to notify listener thread of shutdown")
              (enclave_proc_command_send_single ConnectionListenerStop (None : option unit) self_conn);
        map_err_to (fun e => failure_at ("Failed to close connection: " +:+ e) SocketCloseError 214)
          (shutdown self_conn)));
      do! lift (join_listener l);
      set_self (mk_listener (epoll_fd l) NoThread
        (Socket.mk_sock (Socket.socket_path (socket l)) (Socket.remove_listener_thread (socket l)) true))
  end.

(** [epoll_wait], retried while it is interrupted. *)
(* src/src/enclave_proc/connection_listener.rs:236-247 ConnectionListener::get_next_connection *)
Fixpoint epoll_wait_retry (interruptions : nat) (epoll_fd : Z) : IO (list Z) :=
  match interruptions with
  | O => map_err_to (fun e => failure_at ("Failed to wait on epoll: " +:+ e) EpollError 241)
           (syscall (SysEpollWait epoll_fd))
  | S n =>
      do! emit (EvSys (SysEpollWait epoll_fd) (Err "EINTR"%string));
      epoll_wait_retry n epoll_fd
  end.

(** The answer of the wait is the descriptor and the flags of the event. *)
(* src/src/enclave_proc/connection_listener.rs ConnectionListener::get_next_connection *)
Definition get_next_connection (l : ConnectionListener) (enc_fd : option Z) : IO Connection :=
  let! n := gets (fun w => k_interruptions (w_log w)) in
  let! event := epoll_wait_retry n (epoll_fd l) in
  let fd := hd (-1) event in
  let input_stream := if decide (enc_fd = Some fd) then None else Some fd in
  do! map_err_to (fun e =>
    failure_at ("Failed to remove descriptor from epoll: " +:+ e) EpollError 261) (epoll_del fd);
  ret (connection_new (hd 0 (tl event)) input_stream).
End Listener.

(** ** Properties *)

Definition gone (e : Socket.WatchEvent) : bool :=
  Socket.ev_relevant e && negb (Socket.ev_file_exists e).

Lemma handle_watch_events_exit events done :
  Socket.handle_watch_events true events done = Socket.ExitProcess 1 <->
  exists e, e ∈ events /\ gone e = true /\ Socket.ev_requested e = false.
Proof.
  revert done. induction events as [|e events IH]; intros done; simpl.
  { destruct done; split; try done; intros (e & He & _); by apply elem_of_nil in He. }
  change (Socket.ev_relevant e && negb (Socket.ev_file_exists e)) with (gone e).
  setoid_rewrite elem_of_cons.
  destruct (gone e) eqn:Eg; [destruct (Socket.ev_requested e) eqn:Er|].
  2: { split; [intros _; exists e; auto|done]. }
  all: rewrite IH; split; [intros (x & ? & ? & ?); eauto 10|].
  all: intros (x & [->|?] & ? & ?); [congruence|eauto 10].
Qed.

Lemma handle_watch_events_waiting events done :
  Socket.handle_watch_events true events done = Socket.StillWaiting <->
  done = false /\ Forall (fun e => gone e = false) events.
Proof.
  revert done. induction events as [|e events IH]; intros done; simpl.
  { destruct done; rewrite Forall_nil; naive_solver. }
  change (Socket.ev_relevant e && negb (Socket.ev_file_exists e)) with (gone e).
  rewrite Forall_cons. destruct (gone e); [destruct (Socket.ev_requested e)|]; rewrite ?IH; naive_solver.
Qed.

(** The monitoring thread of the socket makes the process leave with status 1
    exactly when the file is found missing before its removal was requested, in
    the first batch of events that says so (no batch could not be read); a
    removal on request just ends the thread. *)
Theorem socket_deletion_exits (batches : list (list Socket.WatchEvent)) :
  Socket.socket_removal_listener true (map Ok batches) = Socket.ExitProcess 1 <->
  exists before batch after, batches = before ++ batch :: after /\
    Forall (Forall (fun e => gone e = false)) before /\
    exists e, e ∈ batch /\ gone e = true /\ Socket.ev_requested e = false.
Proof.
  induction batches as [|batch batches IH]; simpl.
  { split; [done|]. intros (before & batch & after & E & _). by destruct before. }
  pose proof (handle_watch_events_exit batch false) as Hx.
  pose proof (handle_watch_events_waiting batch false) as Hw.
  destruct (Socket.handle_watch_events true batch false) as [|c|] eqn:E.
  - split; [done|]. intros ([|b0 before] & b & after & Eb & Hf & He); simplify_eq/=.
    + apply Hx in He. done.
    + apply Forall_cons in Hf as [Hf _]. by assert (Socket.Done = Socket.StillWaiting) by (apply Hw; auto).
  - split.
    + intros Ec. apply Hx in Ec. exists [], batch, batches. auto.
    + intros ([|b0 before] & b & after & Eb & Hf & He); simplify_eq/=; [by apply Hx|].
      apply Forall_cons in Hf as [Hf _]. assert (Socket.ExitProcess c = Socket.StillWaiting) by (apply Hw; auto). done.
  - destruct Hw as [Hw _]. specialize (Hw eq_refl) as [_ Hw]. rewrite IH. split.
    + intros (before & b & after & -> & Hf & He). exists (batch :: before), b, after. auto.
    + intros ([|b0 before] & b & after & Eb & Hf & He); simplify_eq/=; [by apply Hx in He|].
      apply Forall_cons in Hf as [_ Hf]. eauto 10.
Qed.

Section ListenerProperties.
Context `{Kernel} `{SerdeLaws EnclaveProcessCommandType}.

(** The listener thread obeys [ConnectionListenerStop] from anyone: the
    access policy is applied by the event loop, to the second copy of a
    command, but the first copy is enough to end the thread. Whatever the
    credentials of its peer, a connection that sends this one frame makes the
    thread end its loop; the connections after it are not accepted, and the
    connection itself never reaches the event loop. *)
Theorem listener_stop_needs_no_permission stream bs rest later w :
  to_vec ConnectionListenerStop = Ok bs -> w_in w !! stream = Some (frame bs ++ rest) ->
  exists w', accept_connections (Ok stream :: later) w = (Return (Ok true), w') /\
    forall fd r, ~ (EvEpollAdd fd r ∈ drop (length (w_log w)) (w_log w')).
Proof.
  intros Hv Hin. destruct (receive_frame stream _ _ _ _ Hv Hin) as (w1 & E1 & _ & L1 & _).
  eexists. split.
  { cbn [accept_connections]. unfold bind at 1, try at 1, handle_new_connection, bind at 1, try at 1, map_err.
    rewrite E1. cbn. reflexivity. }
  intros fd r. simpl. rewrite L1, drop_app_length. rewrite elem_of_cons, elem_of_nil. naive_solver.
Qed.
End ListenerProperties.

(** User 1001 asks the listener of user 1000 to stop. *)
Lemma listener_stop_needs_no_permission_witness :
  exists w', @accept_connections (sample_kernel sample_mmap sample_ioctl (1001, 1001)) sample_serde_command
      [Ok 9; Ok 10] (mk_world [] ∅ {[9 := frame [8] ++ []]}) = (Return (Ok true), w').
Proof.
  assert (w_in (mk_world [] ∅ {[9 := frame [8] ++ []]}) !! 9 = Some (frame [8] ++ [])) as Hin
    by (vm_compute; reflexivity).
  destruct (@listener_stop_needs_no_permission (sample_kernel sample_mmap sample_ioctl (1001, 1001))
    sample_serde_command sample_serde_command_laws 9 [8] [] [Ok 10] _ eq_refl Hin) as (w' & E & _).
  exists w'. exact E.
Defined.
