(* ===== verification/SignalHandler.v ===== *)
(** * POSIX signals (src/src/common/signal_handler.rs)

    The signals a process blocks, and the thread that waits for them. *)
From S2P Require Import Prelude.
From S2P Require Import RustStd.
From S2P Require Import Failure.
From S2P Require Import Os.
From stdpp Require Import base list numbers strings.
From Stdlib Require Import ZArith.
Local Open Scope Z_scope.
Local Open Scope nitro_scope.

Definition failure_at (subaction : string) (code : NitroCliErrorEnum) (l : Z) : NitroCliFailure :=
  new_nitro_cli_failure subaction code "src/common/signal_handler.rs" l.

(** Signal numbers of Linux. *)
Definition SIGHUP : Z := 1.
Definition SIGINT : Z := 2.
Definition SIGQUIT : Z := 3.
Definition SIGTERM : Z := 15.

(** The set is gone once the thread has taken it. *)
(* src/src/common/signal_handler.rs SignalHandler *)
Record SignalHandler : Type := mk_signal_handler { sig_set : option (list Z) }.

(** A set of signals, with the ones added to it. *)
Definition sig_add (set : list Z) (signal : Z) : list Z :=
  if decide (signal ∈ set) then set else set ++ [signal].

(* src/src/common/signal_handler.rs SignalHandler::new *)
Definition signal_handler_new (signals : list Z) : SignalHandler :=
  mk_signal_handler (Some (fold_left sig_add signals [])).

(* src/src/common/signal_handler.rs SignalHandler::new_with_defaults *)
Definition signal_handler_defaults : SignalHandler :=
  signal_handler_new [SIGINT; SIGQUIT; SIGTERM; SIGHUP].

Section Signals.
Context `{Kernel}.

Definition set_mask (block : bool) (text : string) (code : NitroCliErrorEnum) (l : Z)
    (self : SignalHandler) : IO SignalHandler :=
  do! (match sig_set self with
       | Some set =>
           let! _ := map_err_to (fun e => failure_at (text +:+ e) code l) (syscall (SysSigMask block set)) in
           ret tt
       | None => ret tt
       end);
  ret self.

(* src/src/common/signal_handler.rs SignalHandler::mask_all *)
Definition mask_all : SignalHandler -> IO SignalHandler :=
  set_mask true "Masking signals covered by handler failed: " SignalMaskingError 42.

(* src/src/common/signal_handler.rs SignalHandler::unmask_all *)
Definition unmask_all : SignalHandler -> IO SignalHandler :=
  set_mask false "Unmasking signals covered by handler failed: " SignalUnmaskingError 56.

(** The thread: it handles signals until the handler asks it to stop or waiting
    fails; whether it has ended after so many signals. *)
(* src/src/common/signal_handler.rs:74-83 SignalHandler::start_handler *)
Fixpoint signal_thread (rounds : nat) (set : list Z) (fd : Z) (handler : Z -> Z -> IO bool) : IO bool :=
  match rounds with
  | O => ret false
  | S rounds =>
      let! signal := attempt (syscall (SysSigWait set)) in
      let! stop := match signal with Ok s => handler fd (hd 0 s) | Err _ => ret true end in
      if (stop : bool) then ret true else signal_thread rounds set fd handler
  end.

(** The handler without its set, and the thread that was started with it. *)
(* src/src/common/signal_handler.rs SignalHandler::start_handler *)
Definition start_handler (self : SignalHandler) (fd : Z) (handler : Z -> Z -> IO bool)
    : SignalHandler * option (nat -> IO bool) :=
  match sig_set self with
  | None => (self, None)
  | Some thread_sig_set =>
      (mk_signal_handler None, Some (fun rounds => signal_thread rounds thread_sig_set fd handler))
  end.
End Signals.
