(* ===== verification/TerminateThread.v ===== *)
(** * The thread that terminates the enclave (src/src/enclave_proc/mod.rs, commands.rs)

    A request to terminate starts a thread, which runs next to the event loop and
    to other such threads and only holds the lock of the enclave's handle for
    single accesses. Here it is a state machine with a step for each access to
    the shared handle ([thread_step]). A thread that nobody interrupts ends
    within [thread_fuel] steps ([finish_thread_ends] of [EventLoop]), and does what
    the function [Commands.terminate_enclaves] says ([terminate_thread_alone]). *)
From S2P Require Import Prelude.
From S2P Require Import RustStd.
From S2P Require Import Failure.
From S2P Require Import DocumentErrors.
From S2P Require Import CommandsParser.
From S2P Require Import EnclaveIds.
From S2P Require Import Os.
From S2P Require Import Wire.
From S2P Require Import Connection.
From S2P Require Import Memory.
From S2P Require Import Logs.
From S2P Require Import Enclave.
From S2P Require Import Commands.
From stdpp Require Import base list numbers strings gmap.
From Stdlib Require Import ZArith Lia.
Local Open Scope Z_scope.
Local Open Scope nitro_scope.

Definition failure_at (subaction : string) (code : NitroCliErrorEnum) (l : Z) : NitroCliFailure :=
  new_nitro_cli_failure subaction code "src/enclave_proc/mod.rs" l.

(* src/src/enclave_proc/mod.rs get_command_action *)
Definition get_command_action (cmd : EnclaveProcessCommandType) : string :=
  match cmd with
  | Run => "Run Enclave"
  | Terminate | TerminateComplete => "Terminate Enclave"
  | Describe => "Describe Enclaves"
  | GetEnclaveCID => "Get Enclave CID"
  | GetEnclaveFlags => "Get Enclave Flags"
  | ConnectionListenerStop => "Stop Connection Listener"
  | _ => "Unknown Command"
  end.

(** ** Messages *)

Section Messages.
Context `{KN : Kernel} `{EV : Env} `{Serde EnclaveProcessCommandType} `{Serde EnclaveProcessReply} `{Serde unit}.

(* src/src/enclave_proc/mod.rs send_command_and_close *)
Definition send_command_and_close (cmd : EnclaveProcessCommandType) (stream : Z) : IO unit :=
  let action_str := get_command_action cmd in
  let! sent := try (enclave_proc_command_send_single cmd (None : option unit) stream) in
  do! ok_or_exit_with_errno (Some "Failed to send command"%string) sent;
  let! shut := try (map_err_to (fun e =>
    set_action action_str
      (failure_at ("Failed to close stream after sending command: " +:+ e) SocketCloseError 88))
    (shutdown stream)) in
  ok_or_exit_with_errno (Some "Failed to shut down stream"%string) shut.

(* src/src/enclave_proc/mod.rs notify_error_with_conn *)
Definition notify_error_with_conn (err_msg : string) (conn : Connection)
    (action : EnclaveProcessCommandType) : IO unit :=
  do! notify_error err_msg;
  let! r := try (map_err (set_action (get_command_action action)) (eprintln conn err_msg)) in
  ok_or_exit_with_errno (Some "Failed to forward error message to connection"%string) r.

End Messages.

(** ** The thread *)

(** Where a terminating thread is: what it does next, with the local values it
    holds. [Done] when [terminate_enclaves] has returned, [Over] when the thread
    has ended, [Gone] when it has panicked. *)
Inductive TerminateStep : Type :=
| Announce
| Fetch
| Release (enc_fd : Z) (resource_allocator : ResourceAllocator)
| Clear (resource_allocator : ResourceAllocator)
| Discard (resource_allocator : ResourceAllocator) (r : NitroCliResult unit)
| Mark
| Tell
| Show
| Warn (error_info : NitroCliFailure)
| Done (r : NitroCliResult unit)
| Over (r : NitroCliResult unit)
| Gone.

Section Thread.
Context `{IF : ImageFormat} `{KN : Kernel} `{EV : Env} `{Serde EnclaveProcessReply}
  `{ToJson EnclaveTerminateInfo}.

(** Go on with [k] on success and with [f] on an error. *)
Definition branch {S A} (m : IOS S A) (k : A -> TerminateStep) (f : NitroCliFailure -> TerminateStep)
    : IOS S TerminateStep :=
  let! r := try m in
  ret (match r with Ok a => k a | Err e => f e end).

(** Run a computation on a local value. *)
Definition on_local {T S A} (t : T) (m : IOS T A) : IOS S (A * T) :=
  fun '(s, w) =>
    match m (t, w) with
    | (Return (Ok a), (t', w')) => (Return (Ok (a, t')), (s, w'))
    | (Return (Err e), (_, w')) => (Return (Err e), (s, w'))
    | (Exit c, (_, w')) => (Exit c, (s, w'))
    | (Panic, (_, w')) => (Panic, (s, w'))
    end.

(** One step; [id] and [name] are those of the thread's clone of the manager. *)
(* src/src/enclave_proc/commands.rs:146-192 terminate_enclaves *)
Definition terminate_step (connection : option Connection) (id name : string) (t : TerminateStep)
    : IOS EnclaveManager TerminateStep :=
  match t with
  | Announce =>
      branch (map_err (add_subaction "Failed to update enclave state") (update_state Terminating))
        (fun _ => Fetch) (fun e => Done (Err e))
  | Fetch =>
      branch (map_err (add_subaction "Enclave manager failed to get termination resources")
                get_termination_resources)
        (fun r => Release (fst r) (snd r)) Warn
  | Release enc_fd ra =>
      branch (on_local ra (release_resources enc_fd)) (fun r => Clear (snd r)) Warn
  | Clear ra =>
      let! r := try (locked 1082 (update clear)) in
      ret (Discard ra r)
  | Discard ra r =>
      branch (on_local ra allocator_drop)
        (fun _ => match r with Ok _ => Mark | Err e => Warn e end) Warn
  | Mark => branch (update_state Enclave.Empty) (fun _ => Tell) (fun e => Done (Err e))
  | Tell =>
      branch (lift (safe_conn_eprintln connection ("Successfully terminated enclave " +:+ id +:+ ".")))
        (fun _ => Show) (fun e => Done (Err e))
  | Show =>
      let! r := try (
        let! text := of_result (rmap_err (fun err =>
          Commands.failure_at ("Failed to display enclave termination data: " +:+ err) SerdeError 185)
          (to_string_pretty (terminate_info_new (Some name) id true))) in
        lift (safe_conn_println connection text)) in
      ret (Done r)
  | Warn error_info =>
      branch (lift (safe_conn_eprintln connection
        ("Warning: Failed to stop enclave " +:+ id +:+ String LF "Error message: " +:+
         show_str (error_message error_info))))
        (fun _ => Done (Err error_info)) (fun e => Done (Err e))
  | Done r => ret (Done r)
  | Over r => ret (Over r)
  | Gone => ret Gone
  end.

(** [terminate_enclaves] alone, for so many steps. *)
Fixpoint run_thread (n : nat) (connection : option Connection) (id name : string) (t : TerminateStep)
    : IOS EnclaveManager unit :=
  match t, n with
  | Done r, _ => of_result r
  | _, O => panic
  | _, S n => let! t := terminate_step connection id name t in run_thread n connection id name t
  end.
End Thread.

(** ** The whole thread *)

(** The connection that the answer goes to, the thread's end of a pair of
    streams, the fields of its clone of the manager, and where it is. *)
Record Thread : Type := mk_thread {
  th_connection : Connection;
  th_stream : Z;
  th_id : string;
  th_name : string;
  th_step : TerminateStep;
}.
Definition set_step (t : TerminateStep) (th : Thread) : Thread :=
  mk_thread (th_connection th) (th_stream th) (th_id th) (th_name th) t.

Definition over (t : TerminateStep) : bool := match t with Over _ | Gone => true | _ => false end.

(** A thread that panics, or leaves the process, takes no further step. *)
Definition after (o : outcome (NitroCliResult TerminateStep)) : TerminateStep :=
  match o with Return (Ok t) => t | _ => Gone end.

Section Body.
Context `{IF : ImageFormat} `{KN : Kernel} `{EV : Env}
  `{Serde EnclaveProcessCommandType} `{Serde EnclaveProcessReply} `{Serde unit} `{ToJson EnclaveTerminateInfo}.

(** What comes after [terminate_enclaves]: the report to the loop; then the
    arguments are dropped, the last one first: the clone of the manager, of whose
    handle the loop has another reference, the stream, which is closed, and the
    clone of the connection, which by then is the last one. *)
(* src/src/enclave_proc/mod.rs run_terminate *)
Definition run_terminate (connection : Connection) (thread_stream : Z) (r : NitroCliResult unit) : IO unit :=
  do! match r with
      | Ok _ => ret tt
      | Err e => notify_error_with_conn (error_message e) connection Terminate
      end;
  do! send_command_and_close TerminateComplete thread_stream;
  let! _ := close thread_stream in
  connection_drop connection.

(* src/src/enclave_proc/mod.rs run_terminate *)
Definition thread_step (th : Thread) : IOS EnclaveManager TerminateStep :=
  match th_step th with
  | Done r =>
      do! lift (run_terminate (th_connection th) (th_stream th) r);
      ret (Over r)
  | t => terminate_step (Some (th_connection th)) (th_id th) (th_name th) t
  end.

(** *** The thread ends *)

(** A bound on the steps that are left. *)
Definition steps_left (t : TerminateStep) : nat :=
  match t with
  | Announce => 9 | Fetch => 8 | Release _ _ => 7 | Clear _ => 6 | Discard _ _ => 5 | Mark => 4
  | Tell => 3 | Show | Warn _ => 2 | Done _ => 1 | Over _ | Gone => 0
  end.
Definition thread_fuel : nat := 9.

Lemma steps_left_fuel t : (steps_left t <= thread_fuel)%nat.
Proof. unfold thread_fuel. destruct t; simpl; lia. Qed.

Lemma steps_left_over t : steps_left t = 0%nat -> over t = true.
Proof. by destruct t. Qed.

Lemma branch_left {S A} n (m : IOS S A) k f s :
  (forall a, steps_left (k a) < n)%nat -> (forall e, steps_left (f e) < n)%nat ->
  match branch m k f s with (Return (Ok t), _) => (steps_left t < n)%nat | (Return (Err _), _) => False | _ => True end.
Proof.
  intros Hk Hf. unfold branch. rewrite bind_try. by destruct (m s) as [[[a|e]|c|] s']; simpl.
Qed.

Lemma bind_left {A} n (m : IOS EnclaveManager A) (k : NitroCliResult A -> TerminateStep) s :
  (forall r, steps_left (k r) < n)%nat ->
  match bind (try m) (fun r => ret (k r)) s with
  | (Return (Ok t), _) => (steps_left t < n)%nat | (Return (Err _), _) => False | _ => True end.
Proof. intros Hk. rewrite bind_try. by destruct (m s) as [[r|c|] s']; simpl. Qed.

Lemma run_terminate_ok c f r w : match run_terminate c f r w with (Return (Err _), _) => False | _ => True end.
Proof.
  assert (forall (r : NitroCliResult unit) i, errs (fun _ => False) (ok_or_exit_with_errno i r)) as Hx.
  { intros x i s e s'. destruct x; [done|]. unfold ok_or_exit_with_errno, bind, notify_error. done. }
  assert (errs (fun _ => False) (run_terminate c f r)) as He.
  { unfold run_terminate, notify_error_with_conn, send_command_and_close, connection_drop.
    errs; by intros s e s' [=]. }
  destruct (run_terminate c f r w) as [[[?|e]|?|] w'] eqn:E; try done. by apply He in E.
Qed.

(** A step is never an error, and brings the end of a thread nearer. *)
Lemma thread_step_left th s : over (th_step th) = false ->
  match thread_step th s with
  | (Return (Ok t), _) => (steps_left t < steps_left (th_step th))%nat
  | (Return (Err _), _) => False
  | _ => True
  end.
Proof.
  intros Ho. unfold thread_step. destruct (th_step th) as [| |fd ra|ra|ra r| | | |e|r| |] eqn:Et; try done;
    cbn [terminate_step steps_left]; try (apply branch_left; intros; repeat case_match; simpl; lia);
    try (apply bind_left; intros; simpl; lia).
  destruct s as [m w]. unfold bind, lift, zoom. cbn [fst snd].
  pose proof (run_terminate_ok (th_connection th) (th_stream th) r w).
  by destruct (run_terminate _ _ _ w) as [[[?|?]|?|] ?]; simpl; auto with lia.
Qed.

(** *** What a step leaves unchanged *)

Lemma lift_manager {A} (n : IO A) (m : EnclaveManager) w : fst (snd (lift n (m, w))) = m.
Proof. unfold lift, zoom. by destruct (n _). Qed.
Lemma local_manager {T A} (t : T) (n : IOS T A) (m : EnclaveManager) w : fst (snd (on_local t n (m, w))) = m.
Proof. unfold on_local. by destruct (n _) as [[[?|?]|?|] [? ?]]. Qed.
Lemma branch_manager {A} (n : IOS EnclaveManager A) k f (m : EnclaveManager) w :
  fst (snd (n (m, w))) = m -> fst (snd (branch n k f (m, w))) = m.
Proof. intros Hn. unfold branch. rewrite bind_try. by destruct (n (m, w)) as [[[?|?]|?|] ?]. Qed.
Lemma show_manager {A B} (x : NitroCliResult A) (n : A -> IO B) (m : EnclaveManager) w :
  fst (snd (bind (of_result x) (fun a => lift (n a)) (m, w))) = m.
Proof. unfold bind, of_result. destruct x; [apply lift_manager|done]. Qed.

(** Three steps write to the shared handle, and only when its lock is not
    poisoned; the others leave the manager alone. *)
Definition writes (t : TerminateStep) : option (EnclaveHandle -> EnclaveHandle) :=
  match t with
  | Announce => Some (set_state Terminating)
  | Clear _ => Some clear
  | Mark => Some (set_state Enclave.Empty)
  | _ => None
  end.

Lemma locked_update_run l f m w :
  locked l (update f) (m, w) =
  if poisoned (enclave_handle m) then (Return (Err (lock_failure l)), (m, w))
  else (Return (Ok tt), (mk_manager _ (enclave_id m) (enclave_name m) (mk_mutex false (f (guarded (enclave_handle m)))), w)).
Proof. unfold locked. by destruct (poisoned _). Qed.

Lemma step_manager th m w : writes (th_step th) = None -> fst (snd (thread_step th (m, w))) = m.
Proof.
  intros Hw. unfold thread_step. destruct (th_step th) as [| |fd ra|ra|ra r| | | |e|r| |]; try done; cbn [terminate_step].
  - apply branch_manager. unfold map_err, get_termination_resources, peek, locked. by destruct m as [i n [[] h]].
  - apply branch_manager, local_manager.
  - apply branch_manager, local_manager.
  - apply branch_manager, lift_manager.
  - rewrite bind_try.
    match goal with |- context [bind (of_result ?x) (fun t => lift (@?n t))] =>
      pose proof (show_manager x n m w) as Hm end.
    by destruct (bind (of_result _) _ (m, w)) as [[?|?|] [m' w']].
  - apply branch_manager, lift_manager.
  - unfold bind. pose proof (lift_manager (run_terminate (th_connection th) (th_stream th) r) m w).
    by destruct (lift _ _) as [[[?|?]|?|] [? ?]].
Qed.
End Body.

(** ** The thread alone does what the function does *)

Section Alone.
Context `{IF : ImageFormat} `{IT : @ImageTools IF} `{KN : Kernel} `{EV : Env}
  `{Serde EnclaveProcessReply} `{ToJson EnclaveRunInfo} `{ToJson EnclaveTerminateInfo}.

Section Runs.
Context (connection : option Connection) (id name : string).
Local Abbreviation alone n t := (run_thread n connection id name t).

Lemma run_done n r s : alone n (Done r) s = of_result r s.
Proof. by destruct n. Qed.

Lemma run_step n t s :
  (forall r, t <> Done r) ->
  alone (S n) t s = bind (terminate_step connection id name t) (fun t => alone n t) s.
Proof. intros Hd. destruct t; try done. by destruct (Hd r). Qed.

(** A step that branches on a result. *)
Lemma run_branch {A} n t (m : IOS EnclaveManager A) k f s :
  (forall r, t <> Done r) -> terminate_step connection id name t = branch m k f ->
  alone (S n) t s =
  match m s with
  | (Return (Ok a), s') => alone n (k a) s'
  | (Return (Err e), s') => alone n (f e) s'
  | (Exit c, s') => (Exit c, s')
  | (Panic, s') => (Panic, s')
  end.
Proof.
  intros Hd Ht. rewrite run_step, Ht by done. unfold branch, bind, try, ret.
  by destruct (m s) as [[[a|e]|c|] s'].
Qed.

(** The warning, and then the error it was about or its own. *)
Lemma run_warn n e s :
  alone (S n) (Warn e) s =
  (do! lift (safe_conn_eprintln connection
        ("Warning: Failed to stop enclave " +:+ id +:+ String LF "Error message: " +:+
         show_str (error_message e)));
   fail e) s.
Proof.
  erewrite (run_branch n (Warn e)); [|done|reflexivity]. unfold bind.
  by destruct (lift _ s) as [[[[]|e']|c|] s']; rewrite ?run_done.
Qed.

Lemma run_show n s :
  alone (S n) Show s =
  (let! text := of_result (rmap_err (fun err =>
     Commands.failure_at ("Failed to display enclave termination data: " +:+ err) SerdeError 185)
     (to_string_pretty (terminate_info_new (Some name) id true))) in
   lift (safe_conn_println connection text)) s.
Proof.
  rewrite run_step by done. cbn [terminate_step]. unfold bind at 1 2, try.
  match goal with |- context [bind (of_result ?x) ?k s] => destruct (bind (of_result x) k s) as [[r|c|] s'] end;
    [|done..]. cbn. by rewrite run_done.
Qed.

Lemma run_mark n s :
  alone (S (S (S n))) Mark s =
  (do! update_state Enclave.Empty;
   do! lift (safe_conn_eprintln connection ("Successfully terminated enclave " +:+ id +:+ "."));
   let! text := of_result (rmap_err (fun err =>
     Commands.failure_at ("Failed to display enclave termination data: " +:+ err) SerdeError 185)
     (to_string_pretty (terminate_info_new (Some name) id true))) in
   lift (safe_conn_println connection text)) s.
Proof.
  erewrite run_branch; [|done|reflexivity]. unfold bind at 1.
  destruct (update_state _ s) as [[[[]|e]|c|] s1]; [|by rewrite run_done|done..].
  erewrite run_branch; [|done|reflexivity]. unfold bind at 1.
  destruct (lift _ s1) as [[[[]|e]|c|] s2]; [|by rewrite run_done|done..].
  apply run_show.
Qed.
End Runs.

Lemma with_local_run {T S A} (t : T) (m : IOS T A) drop (k : A -> IOS S unit) s w :
  with_local t m drop k (s, w) =
  match m (t, w) with
  | (Return (Ok a), (t', w1)) =>
      match k a (s, w1) with
      | (Return r, (s', w2)) =>
          match drop (t', w2) with
          | (Return (Ok _), (_, w3)) => (Return r, (s', w3))
          | (Return (Err e), (_, w3)) => (Return (Err e), (s', w3))
          | (Exit c, (_, w3)) => (Exit c, (s', w3))
          | (Panic, (_, w3)) => (Panic, (s', w3))
          end
      | (Exit c, s2) => (Exit c, s2)
      | (Panic, s2) => (Panic, s2)
      end
  | (Return (Err e), (_, w1)) => (Return (Err e), (s, w1))
  | (Exit c, (_, w1)) => (Exit c, (s, w1))
  | (Panic, (_, w1)) => (Panic, (s, w1))
  end.
Proof.
  unfold with_local. destruct (m (t, w)) as [[[a|e]|c|] [t' w1]]; [|done..].
  rewrite bind_try. destruct (k a (s, w1)) as [[r|c|] [s' w2]]; [|done..]. unfold bind, of_result.
  by destruct (drop (t', w2)) as [[[u|e]|c|] [t2 w3]].
Qed.

(** The steps without interruption are what the function does: from every state of the manager and of the world it ends, within eight
    steps, with the result, the manager and the world of [terminate_enclaves], on
    every branch, errors, exits and panics included. *)
Theorem terminate_thread_alone connection mgr w :
  run_thread 8 connection (enclave_id mgr) (enclave_name mgr) Announce (mgr, w) =
  terminate_enclaves connection (mgr, w).
Proof.
  unfold terminate_enclaves. unfold bind at 1, self, gets. cbn [fst snd].
  erewrite run_branch; [|done|reflexivity]. unfold bind at 1.
  destruct (map_err _ _ (mgr, w)) as [[[[]|e]|c|] [mgr1 w1]]; [|by rewrite run_done|done..].
  unfold terminate_enclave. rewrite bind_try. unfold bind at 1.
  erewrite run_branch; [|done|reflexivity].
  destruct (map_err _ get_termination_resources _) as [[[[fd ra]|e]|c|] [mgr2 w2]]; [|by rewrite run_warn|done..].
  erewrite run_branch; [|done|reflexivity]. rewrite with_local_run. unfold on_local at 1. cbn [fst snd].
  destruct (release_resources fd (ra, w2)) as [[[[]|e]|c|] [ra' w3]]; [|by rewrite run_warn|done..].
  rewrite run_step by done. cbn [terminate_step snd]. unfold bind at 1. rewrite !bind_try.
  destruct (locked 1082 (update clear) (mgr2, w3)) as [[r|c|] [mgr3 w4]]; [|done..].
  unfold ret at 1. erewrite run_branch; [|done|reflexivity]. unfold on_local at 1.
  destruct (allocator_drop (ra', w4)) as [[[[]|e]|c|] [ra2 w5]]; [|by rewrite run_warn|done..].
  destruct r as [[]|e]; [|by rewrite run_warn]. apply run_mark.
Qed.
End Alone.

