(* ===== verification/EventLoop.v ===== *)
(** * The event loop of the enclave process (src/src/enclave_proc/mod.rs)

    One connection after the other is taken from epoll, its command is read and
    executed, and the status is sent back. Termination runs on threads of their
    own ([TerminateThread]), which make steps while the loop waits; each reports
    its end to the loop through a pair of sockets. *)
From S2P Require Import Prelude.
From S2P Require Import RustStd.
From S2P Require Import Failure.
From S2P Require Import DocumentErrors.
From S2P Require Import CommandsParser.
From S2P Require Import CpuInfo.
From S2P Require Import EnclaveIds.
From S2P Require Import Os.
From S2P Require Import Sample.
From S2P Require Import Wire.
From S2P Require Import Connection.
From S2P Require Import Memory.
From S2P Require Import EifWriter.
From S2P Require Import Boot.
From S2P Require Import Logs.
From S2P Require Import Events.
From S2P Require Import Enclave.
From S2P Require Import Commands.
From S2P Require Import Listener.
From S2P Require Import SignalHandler.
From S2P Require Import TerminateThread.
From stdpp Require Import base list numbers strings gmap.
From Stdlib Require Import ZArith Lia.
Local Open Scope Z_scope.
Local Open Scope nitro_scope.

Definition failure_at (subaction : string) (code : NitroCliErrorEnum) (l : Z) : NitroCliFailure :=
  new_nitro_cli_failure subaction code "src/enclave_proc/mod.rs" l.

(** [errno] values. *)
Definition EACCES : Z := 13.
Definition EEXIST : Z := 17.
Definition EINVAL : Z := 22.

(* src/src/enclave_proc/mod.rs HandledEnclaveEvent *)
Inductive HandledEnclaveEvent : Type :=
| HangUp
| Unexpected
| NoEvent.

(** The derived [Debug] of a command. *)
Definition show_command (cmd : EnclaveProcessCommandType) : string :=
  match cmd with
  | Run => "Run" | Terminate => "Terminate" | TerminateComplete => "TerminateComplete"
  | Describe => "Describe" | GetEnclaveCID => "GetEnclaveCID" | GetEnclaveFlags => "GetEnclaveFlags"
  | GetEnclaveName => "GetEnclaveName" | GetIDbyName => "GetIDbyName"
  | ConnectionListenerStop => "ConnectionListenerStop" | NotPermitted => "NotPermitted"
  end.

(** The ID of the log writer, shared by the threads. *)
(* src/src/common/logger.rs EnclaveProcLogWriter::update_logger_id *)
Definition update_logger_id (logger : Mutex string) (new_id : string) : NitroCliResult (Mutex string) :=
  if poisoned logger
  then Err (new_nitro_cli_failure ("Failed to acquire logger ID lock: " +:+ poison_error)
              LockAcquireFailure "src/common/logger.rs" 78)
  else Ok (mk_mutex false new_id).

(** ** State *)

(** The local variables of the loop, and the terminating threads that have not
    been joined: [ls_terminate] is the number of the thread whose handle is kept,
    the handles of the others have been overwritten by later requests. *)
(* src/src/enclave_proc/mod.rs:424-431 process_event_loop *)
Record LoopState `{ImageFormat} : Type := mk_loop {
  ls_listener : ConnectionListener;
  ls_manager : EnclaveManager;
  ls_terminate : option nat;
  ls_threads : list Thread;
  ls_describe : DescribeThread;
  ls_logger : Mutex string;
}.

(** [EnclaveManager::default()]: the descriptor is 0 until an enclave runs. *)
Definition default_handle `{ImageFormat} : EnclaveHandle :=
  mk_handle _ default_cpu_config [] 0 0 None 0 0 (mk_allocator 0 []) None Enclave.Empty
    build_info_default None.
Definition default_manager `{ImageFormat} : EnclaveManager :=
  mk_manager _ "" "" (mk_mutex false default_handle).

Section Setters.
Context `{ImageFormat}.

Definition set_listener v (s : LoopState) : LoopState :=
  mk_loop _ v (ls_manager s) (ls_terminate s) (ls_threads s) (ls_describe s) (ls_logger s).
Definition set_manager v (s : LoopState) : LoopState :=
  mk_loop _ (ls_listener s) v (ls_terminate s) (ls_threads s) (ls_describe s) (ls_logger s).
Definition set_terminate v d (s : LoopState) : LoopState :=
  mk_loop _ (ls_listener s) (ls_manager s) v d (ls_describe s) (ls_logger s).
Definition set_describe v (s : LoopState) : LoopState :=
  mk_loop _ (ls_listener s) (ls_manager s) (ls_terminate s) (ls_threads s) v (ls_logger s).
Definition set_logger v (s : LoopState) : LoopState :=
  mk_loop _ (ls_listener s) (ls_manager s) (ls_terminate s) (ls_threads s) (ls_describe s) v.

Definition on_manager {A} (m : IOS EnclaveManager A) : IOS LoopState A :=
  zoom (fun s => (ls_manager (fst s), snd s)) (fun s t => (set_manager (fst s) (fst t), snd s)) m.
Definition on_listener {A} (m : IOS ConnectionListener A) : IOS LoopState A :=
  zoom (fun s => (ls_listener (fst s), snd s)) (fun s t => (set_listener (fst s) (fst t), snd s)) m.
Definition change (f : LoopState -> LoopState) : IOS LoopState unit :=
  modify (fun s => (f (fst s), snd s)).

(** The requests whose thread has not been joined, and those whose thread has not
    ended, which still owns a clone of the connection. *)
Definition pending (s : LoopState) : list Connection := map th_connection (ls_threads s).
Definition unfinished (s : LoopState) : list Connection :=
  map th_connection (List.filter (fun th => negb (over (th_step th))) (ls_threads s)).
Definition shared (c : Connection) (s : LoopState) : bool :=
  existsb (fun c' => bool_decide (input_stream (guarded (data c')) = input_stream (guarded (data c))))
    (unfinished s).
End Setters.

(** What a command does besides changing the state: the status for the client,
    and whether the loop ends. *)
Abbreviation Reply := (Z * bool)%type.

(** How the loop goes on after a connection. *)
Inductive Ctl : Type :=
| Continue
| Break (ret_value : NitroCliResult unit).

#[local] Instance connection_eq_dec : EqDecision (Connection).
Proof. unfold EqDecision. intros [[p [f s]]] [[p' [f' s']]]. unfold Decision. repeat decide equality. Defined.

Section Loop.
Context `{IF : ImageFormat} `{IT : @ImageTools IF} `{Kernel} `{Env}
  `{Serde EnclaveProcessCommandType} `{Serde EnclaveProcessReply} `{Serde unit}
  `{Serde RunEnclavesArgs} `{Serde DescribeEnclavesArgs} `{Serde string}
  `{ToJson EnclaveRunInfo} `{ToJson EnclaveTerminateInfo} `{ToJson EnclaveDescribeInfo} `{ToJson string}.

(** *** Notifications *)

(** The thread that is started. Its stream is closed again when the other one
    cannot be registered. *)
(* src/src/enclave_proc/mod.rs notify_terminate *)
Definition notify_terminate (connection : Connection) (manager : EnclaveManager) : IO Thread :=
  let! fds := map_err_to (fun e =>
    failure_at ("Could not create stream pair: " +:+ e) SocketPairCreationFailure 135)
    (syscall SysSocketPair) in
  let local_stream := hd (-1) fds in
  let thread_stream := hd (-1) (tl fds) in
  let! added := try (add_stream_to_epoll local_stream) in
  match added with
  | Err e => let! _ := close thread_stream in fail e
  | Ok _ => ret (mk_thread connection thread_stream (enclave_id manager) (enclave_name manager) Announce)
  end.

(* src/src/enclave_proc/mod.rs enclave_proc_handle_signals *)
Definition enclave_proc_handle_signals (comm_fd : Z) : IO bool :=
  do! send_command_and_close ConnectionListenerStop comm_fd;
  let! _ := close comm_fd in
  ret true.

(** *** Enclave events and measurements *)

(* src/src/enclave_proc/mod.rs try_handle_enclave_event *)
Definition try_handle_enclave_event (connection : Connection) : IO HandledEnclaveEvent :=
  let! flags := map_err (add_subaction "Failed to get enclave events flag")
    (get_enclave_event_flags connection) in
  match flags with
  | Some enc_events =>
      if Z.land enc_events EPOLLHUP =? EPOLLHUP then ret HangUp else ret Unexpected
  | None => ret NoEvent
  end.

(** The result is taken: it is fetched at most once. *)
(* src/src/enclave_proc/mod.rs fetch_describe_result *)
Definition fetch_describe_result : IOS LoopState unit :=
  let! s := self in
  match ls_describe s with
  | None => ret tt
  | Some joined =>
      do! change (set_describe None);
      let! result := of_result (rmap_err (add_subaction "Failed to save PCR values") joined) in
      do! map_err (add_subaction "Failed to set measurements inside enclave handle.")
            (on_manager (set_measurements (dt_measurements result)));
      match dt_metadata result with
      | Some metadata =>
          map_err (add_subaction "Failed to set metadata inside enclave handle.")
            (on_manager (set_metadata metadata))
      | None => ret tt
      end
  end.

(** *** Commands *)

(* src/src/enclave_proc/mod.rs:263-303 handle_command *)
Definition handle_run (connection : Connection) : IOS LoopState Reply :=
  let! s := self in
  if negb (bool_decide (enclave_id (ls_manager s) = ""%string)) then ret (EEXIST, false)
  else
    let! run_args := lift (map_err (fun e =>
      set_action "Run Enclave" (add_subaction "Failed to get run arguments" e))
      (conn_read RunEnclavesArgs connection)) in
    let! run_result := lift (map_err (fun e =>
      set_action "Run Enclave" (add_subaction "Failed to trigger enclave run" e))
      (run_enclaves run_args (Some connection))) in
    do! on_manager manager_drop;
    do! change (fun s => set_describe (rr_describe_thread run_result)
                           (set_manager (rr_enclave_manager run_result) s));
    let id := enclave_id (rr_enclave_manager run_result) in
    let! s := self in
    let! logger := of_result (rmap_err (set_action "Failed to update logger ID")
      (update_logger_id (ls_logger s) (get_logger_id k_process_id id))) in
    do! change (set_logger logger);
    do! map_err (set_action "Failed to start connection listener thread")
          (on_listener (listener_start id));
    let! enc_fd := map_err (set_action "Failed to get enclave descriptor")
      (on_manager get_enclave_descriptor) in
    do! map_err (set_action "Failed to register enclave descriptor")
          (lift (register_enclave_descriptor enc_fd));
    ret (0, false).

(** The handle of an earlier thread is overwritten: that thread goes on. *)
(* src/src/enclave_proc/mod.rs:305-313 handle_command *)
Definition handle_terminate (connection : Connection) : IOS LoopState Reply :=
  let! s := self in
  let! t := map_err (set_action "Failed to send enclave termination request")
    (lift (notify_terminate connection (ls_manager s))) in
  do! change (fun s => set_terminate (Some (length (ls_threads s))) (ls_threads s ++ [t]) s);
  ret (0, false).

(* src/src/enclave_proc/mod.rs:320-347 handle_command *)
Definition handle_get (action get_err write_err : string) (m : IOS EnclaveManager Z)
    (connection : Connection) : IOS LoopState Reply :=
  let! v := map_err (set_action get_err) (on_manager m) in
  do! lift (map_err (fun e => set_action action (add_subaction write_err e)) (write_u64 connection v));
  ret (0, false).

Definition confirm (action : string) (connection : Connection) : IOS LoopState unit :=
  lift (map_err (fun e => set_action action (add_subaction "Failed to write confirmation" e))
          (write_u64 connection MSG_ENCLAVE_CONFIRM)).

Definition print_json (text err : string) (l : Z) (connection : Connection) : IOS LoopState unit :=
  let! text := of_result (rmap_err (fun e => failure_at (err +:+ e) SerdeError l)
    (to_string_pretty text)) in
  lift (safe_conn_println (Some connection) text).

(* src/src/enclave_proc/mod.rs handle_command *)
Definition handle_command (cmd : EnclaveProcessCommandType) (connection : Connection)
    : IOS LoopState Reply :=
  match cmd with
  | Run => handle_run connection
  | Terminate => handle_terminate connection
  | TerminateComplete => ret (0, true)
  | GetEnclaveCID =>
      handle_get "Get Enclave CID" "Failed to get console resources (enclave CID)"
        "Failed to write enclave CID to connection" get_console_resources_enclave_cid connection
  | GetEnclaveFlags =>
      handle_get "Get Enclave Flags" "Failed to get console resources (enclave flags)"
        "Failed to write enclave flags to connection" get_console_resources_enclave_flags connection
  | GetEnclaveName =>
      do! confirm "Get Enclave Name" connection;
      let! s := self in
      do! print_json (enclave_name (ls_manager s)) "Failed to write enclave name to connection: " 354
            connection;
      ret (0, false)
  | GetIDbyName =>
      do! confirm "Name to ID" connection;
      let! name := lift (map_err (fun e =>
        set_action "Name to ID" (add_subaction "Failed to get enclave name" e))
        (conn_read string connection)) in
      let! s := self in
      do! (if bool_decide (enclave_name (ls_manager s) = name)
           then print_json (enclave_id (ls_manager s)) "Failed to display RunEnclaves data: " 380 connection
           else ret tt);
      ret (0, false)
  | Describe =>
      let! describe_args := lift (map_err (fun e =>
        set_action "Describe Enclave" (add_subaction "Failed to get describe arguments" e))
        (conn_read DescribeEnclavesArgs connection)) in
      do! confirm "Describe Enclaves" connection;
      do! fetch_describe_result;
      do! map_err (fun e =>
            set_action "Describe Enclaves" (add_subaction "Failed to describe enclave" e))
            (on_manager (describe_enclaves connection (describe_metadata describe_args)));
      ret (0, false)
  | ConnectionListenerStop => ret (0, true)
  | NotPermitted => ret (EACCES, false)
  end.

(** *** The loop *)

(** A step of the thread with this number, on the manager that it shares with the
    loop; a panic ends the thread and not the loop. *)
Definition on_thread (i : nat) : IOS LoopState unit :=
  let! s := self in
  match ls_threads s !! i with
  | None => ret tt
  | Some th =>
      fun st =>
        let '(o, (s, w)) := on_manager (thread_step th) st in
        (match o with Exit c => Exit c | _ => Return (Ok tt) end,
         (set_terminate (ls_terminate s) (<[i := set_step (after o) th]> (ls_threads s)) s, w))
  end.

Fixpoint on_threads (numbers : list nat) : IOS LoopState unit :=
  match numbers with
  | [] => ret tt
  | i :: numbers => do! on_thread i; on_threads numbers
  end.

(** What the threads do while the loop waits. *)
Definition meanwhile : IOS LoopState unit :=
  let! numbers := gets (fun s => k_threads (w_log (snd s))) in
  on_threads numbers.

(** The thread takes the steps that are left; [thread_fuel] of them are enough
    ([finish_thread_ends]). *)
Fixpoint finish_thread (fuel i : nat) : IOS LoopState unit :=
  let! s := self in
  match ls_threads s !! i with
  | Some th =>
      if over (th_step th) then ret tt
      else match fuel with
           | O => panic
           | S fuel => do! on_thread i; finish_thread fuel i
           end
  | None => ret tt
  end.

Definition panicked (i : nat) (s : LoopState) : bool :=
  match th_step <$> ls_threads s !! i with Some Gone => true | _ => false end.

(** The loop waits for the end of the thread whose handle it has, while the
    others go on. *)
(* src/src/enclave_proc/mod.rs:512-520 process_event_loop *)
Definition join_terminate_thread : IOS LoopState unit :=
  let! s := self in
  match ls_terminate s with
  | None => ret tt
  | Some i =>
      do! meanwhile;
      do! finish_thread thread_fuel i;
      let! s := self in
      do! change (fun s => set_terminate None (delete i (ls_threads s)) s);
      if panicked i s
      then fail (failure_at "Termination thread join failed: Any { .. }" ThreadJoinFailure 515)
      else ret tt
  end.

(** Only these commands are replied to with a status. *)
(* src/src/enclave_proc/mod.rs:525-539 process_event_loop *)
Definition replies_status (cmd : EnclaveProcessCommandType) : bool :=
  match cmd with
  | Run | Terminate | Describe | GetEnclaveName | GetIDbyName => true
  | _ => false
  end.

(** From the command that was read to the reply. *)
(* src/src/enclave_proc/mod.rs:474-540 process_event_loop *)
Definition execute_command (cmd : EnclaveProcessCommandType) (connection : Connection)
    : IOS LoopState Ctl :=
  let! status := try (handle_command cmd connection) in
  let! '(status_code, do_break) :=
    match status with
    | Ok value => ret value
    | Err error_info =>
        let error_info := set_action "Run Enclave"
          (add_subaction ("Failed to execute command `" +:+ show_command cmd +:+ "`") error_info) in
        do! lift (notify_error_with_conn (error_message error_info) connection cmd);
        ret (EINVAL, true)
    end in
  do! (if do_break : bool then
         do! on_listener listener_stop;
         join_terminate_thread
       else ret tt);
  do! (if replies_status cmd then
         lift (map_err (fun _ =>
           failure_at "Process event loop failed" EnclaveProcessSendReplyFailure 531)
           (write_status connection status_code))
       else ret tt);
  ret (if do_break : bool then Break (Ok tt) else Continue).

(** One round of the loop on a connection. *)
(* src/src/enclave_proc/mod.rs:442-472 process_event_loop *)
Definition handle_connection (connection : Connection) : IOS LoopState Ctl :=
  let! event := lift (try (try_handle_enclave_event connection)) in
  match event with
  | Ok HangUp => ret (Break (Ok tt))
  | Ok Unexpected => ret Continue
  | Err error_info =>
      ret (Break (Err (add_subaction "Error while trying to handle enclave event" error_info)))
  | Ok NoEvent =>
      let! cmd := lift (try (read_command connection)) in
      match cmd with
      | Ok cmd => execute_command cmd connection
      | Err error_info =>
          let error_info := set_action "Run Enclave"
            (add_subaction "Failed to read command" error_info) in
          do! lift (notify_error_with_conn (error_message error_info) connection NotPermitted);
          ret (Break (Ok tt))
      end
  end.

(** The loop's reference to the connection is dropped at the end of a round. *)
Definition round (connection : Connection) : IOS LoopState Ctl :=
  let! r := try (handle_connection connection) in
  let! s := self in
  do! (if shared connection s then ret tt else lift (connection_drop connection));
  of_result r.

(** [rounds] bounds the number of connections; [None] when the loop has not
    ended by then. *)
(* src/src/enclave_proc/mod.rs:442-541 process_event_loop *)
Fixpoint event_loop (rounds : nat) : IOS LoopState (option (NitroCliResult unit)) :=
  match rounds with
  | O => ret None
  | S rounds =>
      let! enc_fd := try (on_manager get_enclave_descriptor) in
      do! meanwhile;
      let! s := self in
      let! connection := lift (get_next_connection (ls_listener s) (to_option enc_fd)) in
      let! ctl := round connection in
      match ctl with
      | Continue => event_loop rounds
      | Break ret_value => ret (Some ret_value)
      end
  end.

(** The thread of the signal handler, which writes to a stream that is
    registered like a connection. *)
(* src/src/enclave_proc/mod.rs enclave_proc_configure_signal_handler *)
Definition enclave_proc_configure_signal_handler : IO (option (nat -> IO bool)) :=
  let! signal_handler := map_err (add_subaction "Failed to configure signal handler")
    (mask_all signal_handler_defaults) in
  let! fds := try (map_err_to (fun e =>
    set_action "Run Enclave"
      (failure_at ("Failed to create stream pair: " +:+ e) SocketPairCreationFailure 154))
    (syscall SysSocketPair)) in
  let! fds := ok_or_exit_with_errno (Some "Failed to create stream pair"%string) fds in
  do! map_err (add_subaction "Failed to add stream to epoll when configuring signal handler")
        (add_stream_to_epoll (hd (-1) fds));
  ret (snd (start_handler signal_handler (hd (-1) (tl fds)) (fun fd _ => enclave_proc_handle_signals fd))).

(** The locals are dropped when the function returns: the manager, unless a
    thread still has a clone of it, and the listener with its socket. *)
(* src/src/enclave_proc/mod.rs process_event_loop *)
Definition process_event_loop (comm_stream : Z) (logger : Mutex string) (rounds : nat)
    : IO (option (NitroCliResult unit)) :=
  let! conn_listener := listener_new in
  let s0 := mk_loop _ conn_listener default_manager None [] None logger in
  fun w =>
    let run : IOS LoopState (option (NitroCliResult unit)) :=
      let! r := try (
        let! _ := lift (map_err (add_subaction "Failed to configure signal handler")
          enclave_proc_configure_signal_handler) in
        let! _ := lift (map_err (add_subaction "Failed to add CLI communication channel to epoll")
          (handle_new_connection comm_stream)) in
        event_loop rounds) in
      match r with
      | Ok None => ret None
      | _ =>
          let! s := self in
          do! (if bool_decide (unfinished s = []) then on_manager manager_drop else ret tt);
          do! lift (Socket.sock_drop (socket (ls_listener s)));
          of_result r
      end in
    let '(r, (_, w')) := run (s0, w) in (r, w').

End Loop.

(** ** Gentle computations

    What requesters without privileges may cause: messages on streams and the
    fetching of measurements. *)

Section Gentle.
Context `{IF : ImageFormat}.

(** The same enclave, up to the measurements and the metadata that describing
    it fetches. *)
Definition same_but_measurements (m m' : EnclaveManager) : Prop :=
  enclave_id m' = enclave_id m /\ enclave_name m' = enclave_name m /\
  exists b md, guarded (enclave_handle m') = set_metadata_field md (set_build_info b (guarded (enclave_handle m))).

Lemma same_but_measurements_refl m : same_but_measurements m m.
Proof.
  split_and!; [done|done|]. exists (build_info (guarded (enclave_handle m))), (metadata (guarded (enclave_handle m))).
  by destruct (guarded (enclave_handle m)).
Qed.

Lemma same_but_measurements_trans m1 m2 m3 :
  same_but_measurements m1 m2 -> same_but_measurements m2 m3 -> same_but_measurements m1 m3.
Proof.
  intros (I1 & N1 & b1 & d1 & G1) (I2 & N2 & b2 & d2 & G2). split_and!; [congruence|congruence|].
  exists b2, d2. rewrite G2, G1. by destruct (guarded (enclave_handle m1)).
Qed.

Definition gentle_step (s s' : LoopState * World) : Prop :=
  ls_listener (fst s') = ls_listener (fst s) /\ ls_terminate (fst s') = ls_terminate (fst s) /\
  ls_threads (fst s') = ls_threads (fst s) /\
  same_but_measurements (ls_manager (fst s)) (ls_manager (fst s')) /\
  exists evs, w_log (snd s') = w_log (snd s) ++ evs /\ Forall is_stream evs.

#[export] Instance gentle_step_preorder : PreOrder gentle_step.
Proof.
  split.
  - intros s. split_and!; try done; [apply same_but_measurements_refl|].
    exists []. by rewrite app_nil_r.
  - intros s1 s2 s3 (L1 & T1 & D1 & M1 & e1 & E1 & F1) (L2 & T2 & D2 & M2 & e2 & E2 & F2).
    split_and!; try congruence; [by eapply same_but_measurements_trans|].
    exists (e1 ++ e2). rewrite E2, E1, app_assoc. split; [done|]. by apply Forall_app.
Qed.

Definition gentle {A} (m : IOS LoopState A) : Prop := forall s, gentle_step s (snd (m s)).

Lemma gentle_same {A} (m : IOS LoopState A) : (forall s, snd (m s) = s) -> gentle m.
Proof. intros Hm s. by rewrite Hm. Qed.

Lemma gentle_bind {A B} (m : IOS LoopState A) (k : A -> IOS LoopState B) :
  gentle m -> (forall a, gentle (k a)) -> gentle (bind m k).
Proof.
  intros Hm Hk s. specialize (Hm s). unfold bind.
  destruct (m s) as [[[a|e]|c|] s1]; simpl in *; try done. etrans; [exact Hm|apply Hk].
Qed.

Lemma gentle_map_err {A} f (m : IOS LoopState A) : gentle m -> gentle (map_err f m).
Proof. intros Hm s. specialize (Hm s). unfold map_err. by destruct (m s) as [[[?|?]|?|] ?]. Qed.

Lemma gentle_lift {A} (m : IO A) : emits is_stream m -> gentle (lift m).
Proof.
  intros Hm [s w]. destruct (Hm w) as (evs & E & F). unfold lift, zoom. simpl.
  destruct (m w) as [r w']. cbv [log_of has_log_world world_of has_world_world] in E. simpl in *.
  split_and!; try done; [apply same_but_measurements_refl|]. eauto.
Qed.

Lemma gentle_ret {A} (a : A) : gentle (ret a).
Proof. by apply gentle_same. Qed.
Lemma gentle_self : gentle self.
Proof. by apply gentle_same. Qed.
Lemma gentle_of_result {A} (r : NitroCliResult A) : gentle (of_result r).
Proof. by apply gentle_same. Qed.
Lemma gentle_set_describe d : gentle (change (set_describe d)).
Proof.
  intros [s w]. split_and!; try done; [apply same_but_measurements_refl|].
  exists []. by rewrite app_nil_r.
Qed.

Lemma gentle_set_manager s w m :
  same_but_measurements (ls_manager s) m -> gentle_step (s, w) (set_manager m s, w).
Proof. intros Hs. split_and!; try done. exists []. by rewrite app_nil_r. Qed.

(** A method of the manager that at most sets measurements or metadata and
    makes no call. *)
Lemma gentle_locked {A} l (m : IOS EnclaveHandle A) :
  (forall h w, exists b md, snd (m (h, w)) = (set_metadata_field md (set_build_info b h), w)) ->
  gentle (on_manager (locked l m)).
Proof.
  intros Hm [s w]. unfold on_manager, zoom, locked. simpl.
  destruct (poisoned _).
  { apply gentle_set_manager, same_but_measurements_refl. }
  destruct (Hm (guarded (enclave_handle (ls_manager s))) w) as (b & md & E).
  destruct (m _) as [o [h' w']]. simpl in E. simplify_eq.
  destruct o as [r|c|]; apply gentle_set_manager; (split_and!; [done|done|by exists b, md]).
Qed.

Lemma handle_unchanged (h : EnclaveHandle) :
  exists b md, h = set_metadata_field md (set_build_info b h).
Proof. exists (build_info h), (metadata h). by destruct h. Qed.
End Gentle.

Create HintDb gentle.
#[export] Hint Resolve gentle_ret gentle_self gentle_of_result gentle_set_describe
  emits_safe_conn_println emits_write_reply : gentle.

Section GentleCommands.
Context `{IF : ImageFormat} `{IT : @ImageTools IF} `{Kernel} `{Env}
  `{Serde EnclaveProcessCommandType} `{Serde EnclaveProcessReply} `{Serde unit}
  `{Serde RunEnclavesArgs} `{Serde DescribeEnclavesArgs} `{Serde string}
  `{ToJson EnclaveRunInfo} `{ToJson EnclaveTerminateInfo} `{ToJson EnclaveDescribeInfo} `{ToJson string}.

Lemma gentle_peek {A} l (f : EnclaveHandle -> A) : gentle (on_manager (peek l f)).
Proof.
  apply gentle_locked. intros h w. destruct (handle_unchanged h) as (b & md & E).
  exists b, md. unfold gets. simpl. by rewrite <- E.
Qed.

Lemma gentle_cid : gentle (on_manager get_console_resources_enclave_cid).
Proof.
  apply gentle_locked. intros h w. destruct (handle_unchanged h) as (b & md & E).
  exists b, md. rewrite <- E. unfold bind, self, gets. simpl. by destruct (enclave_cid h).
Qed.

Lemma gentle_description : gentle (on_manager get_description_resources).
Proof.
  apply gentle_locked. intros h w. destruct (handle_unchanged h) as (b & md & E).
  exists b, md. rewrite <- E. unfold bind, self, gets. simpl. by destruct (enclave_cid h).
Qed.

Lemma gentle_set_measurements m : gentle (on_manager (set_measurements m)).
Proof.
  apply gentle_locked. intros h w. exists (build_info_new m), (metadata h). simpl. by destruct h.
Qed.

Lemma gentle_set_metadata m : gentle (on_manager (set_metadata m)).
Proof.
  apply gentle_locked. intros h w. exists (build_info h), (Some m). simpl. by destruct h.
Qed.
Hint Resolve gentle_peek gentle_cid gentle_description gentle_set_measurements gentle_set_metadata : gentle.

(** [on_manager] of a sequence is the sequence of the parts. *)
Lemma on_manager_bind {A B} (m : IOS EnclaveManager A) (k : A -> IOS EnclaveManager B) s :
  on_manager (bind m k) s = bind (on_manager m) (fun a => on_manager (k a)) s.
Proof.
  destruct s as [st w]. unfold on_manager, bind, zoom. simpl.
  destruct (m _) as [[[a|e]|c|] [m' w']]; simpl; try done.
Qed.

Lemma gentle_on_manager_bind {A B} (m : IOS EnclaveManager A) (k : A -> IOS EnclaveManager B) :
  gentle (on_manager m) -> (forall a, gentle (on_manager (k a))) -> gentle (on_manager (bind m k)).
Proof. intros Hm Hk s. rewrite on_manager_bind. by apply gentle_bind. Qed.

Lemma gentle_on_manager_map_err {A} f (m : IOS EnclaveManager A) :
  gentle (on_manager m) -> gentle (on_manager (map_err f m)).
Proof.
  intros Hm s. specialize (Hm s). unfold on_manager, zoom, map_err in *.
  by destruct (m _) as [[[?|?]|?|] [? ?]].
Qed.

Lemma gentle_on_manager_same {A} (m : IOS EnclaveManager A) :
  (forall s, snd (m s) = s) -> gentle (on_manager m).
Proof.
  intros Hm [s w]. specialize (Hm (ls_manager s, w)). unfold on_manager, zoom. simpl.
  destruct (m _) as [o [m' w']]. simpl in *. simplify_eq. by destruct s.
Qed.

Lemma gentle_on_manager_lift {A} (m : IO A) : emits is_stream m -> gentle (on_manager (lift m)).
Proof.
  intros Hm [s w]. pose proof (gentle_lift m Hm (s, w)) as Hg. unfold on_manager, lift, zoom in *.
  simpl in *. destruct (m w) as [o w']. by destruct s.
Qed.

(** Decompose a computation into gentle parts. *)
Ltac gentle :=
  repeat match goal with
  | |- gentle (bind _ _) => apply gentle_bind; [|intros ?]
  | |- gentle (map_err _ _) => apply gentle_map_err
  | |- gentle (on_manager (bind _ _)) => apply gentle_on_manager_bind; [|intros ?]
  | |- gentle (on_manager (map_err _ _)) => apply gentle_on_manager_map_err
  | |- gentle (on_manager (lift _)) => apply gentle_on_manager_lift
  | |- gentle (on_manager (ret _)) => by apply gentle_on_manager_same
  | |- gentle (on_manager (of_result _)) => by apply gentle_on_manager_same
  | |- gentle (on_manager self) => by apply gentle_on_manager_same
  | |- gentle (lift _) => apply gentle_lift; apply emits_map_err || idtac
  | |- gentle (match ?x with _ => _ end) => destruct x
  | |- gentle (on_manager (match ?x with _ => _ end)) => destruct x
  | |- gentle (let _ := _ in _) => cbv zeta
  | _ => solve [eauto with gentle emits]
  end.

Lemma emits_with_stream {A} Q c l none (k : Z -> IO A) :
  (forall fd, emits Q (k fd)) -> emits Q (with_stream c l none k).
Proof. intros Hk. unfold with_stream. emits. Qed.
Lemma emits_write_u64 c v : emits is_stream (write_u64 c v).
Proof. apply emits_with_stream. eauto with emits. Qed.
Lemma emits_conn_read Q T `{Serde T} c : emits Q (conn_read T c).
Proof. apply emits_with_stream. eauto with emits. Qed.
Hint Resolve emits_write_u64 emits_conn_read : gentle.

Lemma emits_on_manager {A} Q (m : IOS EnclaveManager A) : emits Q m -> emits Q (on_manager m).
Proof. intros Hm. by apply (emits_zoom Q _ _ m). Qed.
Lemma emits_on_listener {A} Q (m : IOS ConnectionListener A) : emits Q m -> emits Q (on_listener m).
Proof. intros Hm. by apply (emits_zoom Q _ _ m). Qed.
Lemma emits_change Q f : emits Q (change f).
Proof. by apply emits_quiet. Qed.

(** Fetching the result of the description thread makes no call. *)
Lemma emits_fetch Q : emits Q fetch_describe_result.
Proof.
  pose proof (fun A => @emits_on_manager A Q). pose proof (fun A => @emits_locked _ A Q).
  pose proof (emits_change Q). pose proof (emits_update Q).
  unfold fetch_describe_result, set_measurements, set_metadata. emits.
Qed.

Lemma gentle_fetch : gentle fetch_describe_result.
Proof. unfold fetch_describe_result. gentle. Qed.
Hint Resolve gentle_fetch : gentle.

Lemma gentle_describe c b : gentle (on_manager (describe_enclaves c b)).
Proof. unfold describe_enclaves, get_enclave_describe_info. gentle. Qed.
Hint Resolve gentle_describe : gentle.

(** Read-only commands, and the one that stands for a refusal. *)
Lemma gentle_handle_command cmd c :
  read_only cmd = true \/ cmd = NotPermitted -> gentle (handle_command cmd c).
Proof.
  intros Hc. destruct cmd; try (by destruct Hc); cbn [handle_command];
    unfold handle_get, confirm, print_json; gentle.
Qed.
End GentleCommands.

(** ** Properties *)

Section Properties.
Context `{IF : ImageFormat} `{IT : @ImageTools IF} `{Kernel} `{Env}
  `{Serde EnclaveProcessCommandType} `{Serde EnclaveProcessReply} `{Serde unit}
  `{Serde RunEnclavesArgs} `{Serde DescribeEnclavesArgs} `{Serde string}
  `{ToJson EnclaveRunInfo} `{ToJson EnclaveTerminateInfo} `{ToJson EnclaveDescribeInfo} `{ToJson string}.

(** The thread that is started is at its beginning. *)
Lemma notify_terminate_ok c m w t w' :
  notify_terminate c m w = (Return (Ok t), w') ->
  exists f, t = mk_thread c f (enclave_id m) (enclave_name m) Announce.
Proof.
  unfold notify_terminate. intros (fds & w3 & _ & E)%bind_ok_inv.
  apply bind_ok_inv in E as ([[]|e] & w4 & _ & E); [|by apply bind_ok_inv in E as (? & ? & _ & ?)].
  injection E as <- _. by eexists.
Qed.

(** *** Waiting for a thread *)

Lemma on_thread_left i th s w :
  ls_threads s !! i = Some th -> over (th_step th) = false ->
  match on_thread i (s, w) with
  | (Return (Ok _), (s', _)) => exists t, ls_threads s' !! i = Some (set_step t th) /\
      (steps_left t < steps_left (th_step th))%nat
  | (Exit _, _) => True
  | _ => False
  end.
Proof.
  intros Hi Ho. unfold on_thread, bind at 1, self, gets. cbn [fst]. rewrite Hi.
  unfold on_manager, zoom. cbn [fst snd]. pose proof (thread_step_left th (ls_manager s, w) Ho) as Hl.
  apply lookup_lt_Some in Hi as Hlen.
  destruct (thread_step th _) as [[[t|e]|c|] [m' w']]; try done; cbn [fst snd set_terminate ls_threads set_manager];
    eexists; (split; [by apply list_lookup_insert_eq|]); [done|].
  destruct (steps_left (th_step th)) eqn:Hs; [|simpl; lia]. by rewrite steps_left_over in Ho.
Qed.

(** The fuel of [join_terminate_thread] is enough: the wait ends, unless the
    process is left. *)
Lemma finish_thread_ends i s :
  match finish_thread thread_fuel i s with
  | (Return (Ok _), (s', _)) => forall th, ls_threads s' !! i = Some th -> over (th_step th) = true
  | (Exit _, _) => True
  | _ => False
  end.
Proof.
  assert (forall n s, (forall th, ls_threads (fst s) !! i = Some th -> (steps_left (th_step th) <= n)%nat) ->
    match finish_thread n i s with
    | (Return (Ok _), (s', _)) => forall th, ls_threads s' !! i = Some th -> over (th_step th) = true
    | (Exit _, _) => True
    | _ => False
    end) as Hn.
  { clear s. intros n. induction n as [|n IH]; intros [s w] Hle; cbn [finish_thread];
      unfold bind at 1, self, gets; cbn [fst] in *;
      (destruct (ls_threads s !! i) as [th|] eqn:Hi; [|simpl; congruence]); specialize (Hle th eq_refl);
      (destruct (over (th_step th)) eqn:Ho; [simpl; congruence|]).
    { rewrite steps_left_over in Ho; [done|lia]. }
    pose proof (on_thread_left i th s w Hi Ho) as Hl. unfold bind.
    destruct (on_thread i (s, w)) as [[[[]|e]|c|] [s1 w1]]; try done. destruct Hl as (t & Hi1 & Ht).
    apply IH. cbn [fst]. intros th1. rewrite Hi1. intros [= <-]. simpl. lia. }
  apply Hn. intros. apply steps_left_fuel.
Qed.

Lemma event_of_stream connection fd w :
  input_stream (guarded (data connection)) = Some fd ->
  try_handle_enclave_event connection w = (Return (Ok NoEvent), w) \/
  exists e, try_handle_enclave_event connection w = (Return (Err e), w).
Proof.
  intros Hfd. unfold try_handle_enclave_event, get_enclave_event_flags. rewrite Hfd.
  unfold bind, map_err. destruct (poisoned _); simpl; eauto.
Qed.

(** The loop goes on only after a command that succeeded and did not ask for
    its end; then only the reply remains to be written. *)
Lemma execute_command_continues cmd connection st st2 :
  execute_command cmd connection st = (Return (Ok Continue), st2) ->
  exists code st1, handle_command cmd connection st = (Return (Ok (code, false)), st1) /\
    (if replies_status cmd then
       lift (map_err (fun _ => failure_at "Process event loop failed" EnclaveProcessSendReplyFailure 531)
         (write_status connection code)) st1
     else ret tt st1) = (Return (Ok tt), st2).
Proof.
  unfold execute_command. intros E. m_inv. destruct a0 as [code brk].
  match goal with X : try _ _ = _ |- _ => apply try_inv in X; rename X into Eh end.
  m_inv. unfold ret in *. destruct brk; simplify_eq.
  destruct a as [r|e]; [|m_inv; done]. simplify_eq. m_inv.
  eexists _, _. split; [exact Eh|]. by destruct (replies_status cmd).
Qed.

(** C2: whatever a client sends, if the user at the other end of the stream is
    neither the owner of the process nor root and the loop goes on after the
    connection, then nothing but messages on streams has happened: the enclave
    is the same up to the measurements and the metadata that are fetched for
    descriptions, no driver, memory or descriptor call has been made, and the
    listener and the terminating threads are as they were. *)
Theorem unprivileged_connection_is_harmless (connection : Connection) fd uid gid s w s' w' :
  input_stream (guarded (data connection)) = Some fd ->
  k_peer_credentials fd = Ok (uid, gid) -> uid <> k_getuid -> uid <> 0 ->
  handle_connection connection (s, w) = (Return (Ok Continue), (s', w')) ->
  gentle_step (s, w) (s', w').
Proof.
  intros Hfd Hcr Hu Hroot E. unfold handle_connection, bind at 1, lift at 1, zoom, try at 1 in E.
  cbn [fst snd] in E.
  destruct (event_of_stream connection fd w Hfd) as [Ee|[e Ee]]; rewrite Ee in E; [|done].
  apply bind_ok_inv in E as (r & [s1 w1] & Er & E). apply lift_inv in Er as [-> Er].
  apply try_inv in Er. destruct r as [cmd|e]; [|m_inv; done].
  apply read_command_ok in Er as (L & _ & fd' & Hfd' & Hcmd).
  assert (read_only cmd = true \/ cmd = NotPermitted) as Hro.
  { destruct Hcmd as [->|(u & g & Hc & [?|[?|?]])]; [auto|auto| |]; exfalso; congruence. }
  apply execute_command_continues in E as (code & [s2 w2] & Eh & Ew).
  pose proof (gentle_handle_command cmd connection Hro (s, w1)) as Hg. rewrite Eh in Hg.
  cbn [snd] in Hg.
  assert (gentle_step (s2, w2) (s', w')) as Hg2.
  { destruct (replies_status cmd); [|unfold ret in Ew; by simplify_eq].
    match type of Ew with ?m _ = _ => assert (gentle m) as Hm end.
    { apply gentle_lift, emits_map_err. unfold write_status. eauto with emits. }
    specialize (Hm (s2, w2)). by rewrite Ew in Hm. }
  assert (gentle_step (s, w) (s, w1)) as Hg0.
  { split_and!; try done; [apply same_but_measurements_refl|]. exists []. by rewrite app_nil_r. }
  by rewrite Hg0, Hg.
Qed.

(** A command that fails ends the event loop, and with it the process and
    its enclave, whoever sent it: after an error [execute_command] never lets
    the loop continue. *)
Theorem failed_command_ends_loop cmd connection st e st1 st2 :
  handle_command cmd connection st = (Return (Err e), st1) ->
  execute_command cmd connection st <> (Return (Ok Continue), st2).
Proof. intros Ef (code & st3 & Eh & _)%execute_command_continues. congruence. Qed.

(** A Run request to a process that already has an enclave is answered with
    EEXIST, without reading its arguments and without any effect. *)
Theorem second_run_refused connection s w :
  enclave_id (ls_manager s) <> ""%string ->
  handle_command Run connection (s, w) = (Return (Ok (EEXIST, false)), (s, w)).
Proof.
  intros Hid. cbn [handle_command]. unfold handle_run, bind at 1, self, gets. cbn [fst].
  by rewrite bool_decide_false.
Qed.

(** A refused command is not answered: the status EACCES is computed, but
    the refusal has replaced the command, and only five commands, not
    including the replacement, are replied to with a status. The client reads
    the end of the stream instead. *)
Theorem refusal_is_silent connection s w :
  execute_command NotPermitted connection (s, w) = (Return (Ok Continue), (s, w)) /\
  fst (handle_command NotPermitted connection (s, w)) = Return (Ok (EACCES, false)).
Proof. split; reflexivity. Qed.
End Properties.

(** ** Witnesses *)

(** An encoding with no values: whatever is received cannot be decoded. *)
Definition serde_none (T : Type) : Serde T := {|
  to_vec _ := Err "unsupported"%string;
  from_slice _ := Err "missing field"%string;
|}.

(** The kernel of user 1000; the peer of every stream is user 1001. *)
Definition stranger_system : Kernel := sample_kernel sample_mmap sample_ioctl (1001, 1001).

Definition sample_loop : @LoopState sample_format :=
  mk_loop _ (mk_listener 6 NoThread Socket.default_sock) sample_manager None [] None (mk_mutex false "").

(** The connection of stream 9, on which [sent] is still to be read. *)
Definition sample_connection : Connection := connection_new 0 (Some 9).
Definition sample_world (sent : list Z) : World := mk_world [] ∅ {[9 := sent]}.

Definition sample_handle_connection (K : Kernel) (sent : list Z) :=
  @handle_connection sample_format sample_tools K sample_env sample_serde_command sample_serde_reply
    (serde_none unit) (serde_none _) (serde_none _) (serde_none _)
    (fun _ => Ok "{}"%string) (fun _ => Ok "{}"%string) (fun _ => Ok "{}"%string) (fun s => Ok s)
    sample_connection (sample_loop, sample_world sent).

(** User 1001 asks for the enclave's name. *)
Lemma unprivileged_connection_is_harmless_witness :
  fst (sample_handle_connection stranger_system (frame [6])) = Return (Ok Continue) /\
  gentle_step (sample_loop, sample_world (frame [6]))
    (snd (sample_handle_connection stranger_system (frame [6]))).
Proof.
  split; [vm_compute; reflexivity|].
  refine (@unprivileged_connection_is_harmless sample_format sample_tools stranger_system sample_env
    sample_serde_command sample_serde_reply (serde_none unit) (serde_none _) (serde_none _) (serde_none _)
    (fun _ => Ok "{}"%string) (fun _ => Ok "{}"%string) (fun _ => Ok "{}"%string) (fun s => Ok s)
    sample_connection 9 1001 1001 sample_loop (sample_world (frame [6]))
    (fst (snd (sample_handle_connection stranger_system (frame [6]))))
    (snd (snd (sample_handle_connection stranger_system (frame [6])))) eq_refl eq_refl _ _ _).
  - discriminate.
  - discriminate.
  - vm_compute. reflexivity.
Defined.

(** User 1001 sends Describe with arguments that are no arguments. *)
Lemma failed_command_ends_loop_witness :
  fst (sample_handle_connection stranger_system (frame [3] ++ frame [0])) = Return (Ok (Break (Ok tt))) /\
  forall st2, @execute_command sample_format sample_tools stranger_system sample_env
    sample_serde_command sample_serde_reply (serde_none unit) (serde_none _) (serde_none _) (serde_none _)
    (fun _ => Ok "{}"%string) (fun _ => Ok "{}"%string) (fun _ => Ok "{}"%string) (fun s => Ok s)
    Describe sample_connection (sample_loop, sample_world (frame [0])) <> (Return (Ok Continue), st2).
Proof.
  split; [vm_compute; reflexivity|]. intros st2.
  assert (exists e st1, @handle_command sample_format sample_tools stranger_system sample_env
    sample_serde_reply (serde_none _) (serde_none _) (serde_none _)
    (fun _ => Ok "{}"%string) (fun _ => Ok "{}"%string) (fun s => Ok s)
    Describe sample_connection (sample_loop, sample_world (frame [0])) = (Return (Err e), st1)) as (e & st1 & E).
  { eexists _, _. vm_compute. reflexivity. }
  exact (@failed_command_ends_loop sample_format sample_tools stranger_system sample_env
    sample_serde_command sample_serde_reply (serde_none unit) (serde_none _) (serde_none _) (serde_none _)
    (fun _ => Ok "{}"%string) (fun _ => Ok "{}"%string) (fun _ => Ok "{}"%string) (fun s => Ok s)
    Describe sample_connection _ e st1 st2 E).
Defined.

Lemma second_run_refused_witness :
  @handle_command sample_format sample_tools sample_system sample_env
    sample_serde_reply (serde_none _) (serde_none _) (serde_none _)
    (fun _ => Ok "{}"%string) (fun _ => Ok "{}"%string) (fun s => Ok s)
    Run sample_connection (sample_loop, sample_world []) =
  (Return (Ok (17, false)), (sample_loop, sample_world [])).
Proof.
  refine (@second_run_refused sample_format sample_tools sample_system sample_env
    sample_serde_reply (serde_none _) (serde_none _) (serde_none _)
    (fun _ => Ok "{}"%string) (fun _ => Ok "{}"%string) (fun s => Ok s)
    sample_connection sample_loop (sample_world []) _).
  discriminate.
Defined.
