(* ===== verification/Lifecycle.v ===== *)
(** * The life of an enclave process

    What the event loop and the terminating threads ([EventLoop],
    [TerminateThread], src/src/enclave_proc/mod.rs) promise, as an abstract
    machine: a process has no enclave or one, the enclave is in one of three
    phases, and each request to terminate it is at one of four stages. The loop,
    with the threads that go on while it waits, refines that machine
    ([event_loop_refines_lifecycle]). *)
From S2P Require Import Prelude.
From S2P Require Import RustStd.
From S2P Require Import Failure.
From S2P Require Import CommandsParser.
From S2P Require Import EnclaveIds.
From S2P Require Import Os.
From S2P Require Import Sample.
From S2P Require Import Wire.
From S2P Require Import Connection.
From S2P Require Import Memory.
From S2P Require Import EifWriter.
From S2P Require Import Logs.
From S2P Require Import Events.
From S2P Require Import Enclave.
From S2P Require Import Commands.
From S2P Require Import Listener.
From S2P Require Import TerminateThread.
From S2P Require Import EventLoop.
From stdpp Require Import base list numbers strings gmap relations.
From Stdlib Require Import ZArith Lia.
Local Open Scope Z_scope.
Local Open Scope nitro_scope.

(** ** The abstract machine *)

(** A request to terminate has been accepted, the termination is under way, the
    enclave has been found empty, or the request is over, for whatever reason. *)
Inductive Stage : Type := Asked | Working | Marked | Ended.

Record Lifecycle : Type := mk_life {
  l_enclave : option string;
  l_phase : EnclaveState;
  l_requests : list Stage;
}.

(** What becomes of a request, and of the phase of the enclave with it. *)
Inductive progress : Stage * EnclaveState -> Stage * EnclaveState -> Prop :=
| progress_announce ph : progress (Asked, ph) (Working, Terminating)
| progress_mark ph : progress (Working, ph) (Marked, Enclave.Empty)
| progress_end st ph : progress (st, ph) (Ended, ph).

(** While the loop goes on: an enclave is started where there is none, its
    termination is requested, or a request makes progress. *)
Inductive serve : Lifecycle -> Lifecycle -> Prop :=
| serve_run id ph rs :
    serve (mk_life None ph rs) (mk_life (Some id) Running rs)
| serve_terminate e ph rs :
    serve (mk_life e ph rs) (mk_life e ph (rs ++ [Asked]))
| serve_progress e ph ph' before st st' later :
    progress (st, ph) (st', ph') ->
    serve (mk_life e ph (before ++ st :: later)) (mk_life e ph' (before ++ st' :: later)).

(** The end of the loop: a request that is over is taken off. *)
Inductive wind_up : Lifecycle -> Lifecycle -> Prop :=
| wind_up_join e ph before later :
    wind_up (mk_life e ph (before ++ Ended :: later)) (mk_life e ph (before ++ later)).

Lemma serve_keeps_enclave a b id : serve a b -> l_enclave a = Some id -> l_enclave b = Some id.
Proof. by destruct 1. Qed.

Lemma serves_keep_enclave a b id :
  rtc serve a b -> l_enclave a = Some id -> l_enclave b = Some id.
Proof. induction 1; eauto using serve_keeps_enclave. Qed.

Lemma serves_requests a b : rtc serve a b -> (length (l_requests a) <= length (l_requests b))%nat.
Proof. induction 1 as [|a b c []]; simpl in *; rewrite ?length_app in *; simpl in *; lia. Qed.

(** An enclave that nobody asks to terminate goes on running. *)
Lemma serves_unasked a b id :
  rtc serve a b -> l_enclave a = Some id -> l_requests b = [] -> l_phase b = l_phase a.
Proof.
  induction 1 as [|a b c Hs Hr IH]; [done|]. intros He Hn. rewrite IH; [|by eapply serve_keeps_enclave|done].
  apply serves_requests in Hr. rewrite Hn in Hr.
  destruct Hs as [| |e ph ph' before st st' later _]; [done|done|].
  simpl in Hr. rewrite length_app in Hr. simpl in Hr. lia.
Qed.

(** ** The abstraction of the loop's state *)

Section Abstraction.
Context `{IF : ImageFormat}.

Definition enclave_of (m : EnclaveManager) : option string :=
  if decide (enclave_id m = ""%string) then None else Some (enclave_id m).
Definition phase_of (m : EnclaveManager) : EnclaveState := state (guarded (enclave_handle m)).
Definition stage_of (t : TerminateStep) : Stage :=
  match t with
  | Announce => Asked
  | Fetch | Release _ _ | Clear _ | Discard _ _ | Mark | Warn _ => Working
  | Tell | Show => Marked
  | Done _ | Over _ | Gone => Ended
  end.
Definition lifecycle (s : LoopState) : Lifecycle :=
  mk_life (enclave_of (ls_manager s)) (phase_of (ls_manager s)) (map (fun th => stage_of (th_step th)) (ls_threads s)).

Definition served (s s' : LoopState * World) : Prop :=
  rtc serve (lifecycle (fst s)) (lifecycle (fst s')).

#[export] Instance served_preorder : PreOrder served.
Proof.
  split; [intros s; apply rtc_refl|]. intros s1 s2 s3 H1 H2. unfold served in *. by etrans.
Qed.

Lemma served_same s w s' w' : lifecycle s' = lifecycle s -> served (s, w) (s', w').
Proof. unfold served. simpl. intros ->. apply rtc_refl. Qed.

Lemma keeps_served_lift {A} (m : IO A) : keeps served (lift m).
Proof. intros [s w]. unfold lift, zoom. simpl. destruct (m w). by apply served_same. Qed.

Lemma keeps_served_listener {A} (m : IOS ConnectionListener A) : keeps served (on_listener m).
Proof.
  intros [s w]. unfold on_listener, zoom. simpl. destruct (m _) as [? []]. by apply served_same.
Qed.

Lemma keeps_served_logger l : keeps served (change (set_logger l)).
Proof. intros [s w]. by apply served_same. Qed.

Lemma keeps_served_self : keeps served self.
Proof. intros s. unfold self, gets. by destruct s. Qed.

(** What may happen to a manager that is used or dropped, its phase apart. *)
Definition same_phase (s s' : EnclaveManager * World) : Prop :=
  enclave_id (fst s') = enclave_id (fst s) /\ phase_of (fst s') = phase_of (fst s).

Lemma on_manager_lifecycle {A} (m : IOS EnclaveManager A) s w :
  keeps same_phase m -> lifecycle (fst (snd (on_manager m (s, w)))) = lifecycle s.
Proof.
  intros Hm. destruct (Hm (ls_manager s, w)) as [Hi Hp]. unfold on_manager, zoom. simpl.
  destruct (m _) as [o [m' w']]. simpl in *. unfold lifecycle, enclave_of. simpl. by rewrite Hi, Hp.
Qed.

Lemma keeps_served_manager {A} (m : IOS EnclaveManager A) :
  keeps same_phase m -> keeps served (on_manager m).
Proof.
  intros Hm [s w]. pose proof (on_manager_lifecycle m s w Hm) as E.
  destruct (snd (on_manager m (s, w))). by apply served_same.
Qed.

Lemma gentle_served {A} (m : IOS LoopState A) : gentle m -> keeps served m.
Proof.
  intros Hm [s w]. destruct (Hm (s, w)) as (_ & Ht & Hd & (Hi & _ & b & md & Hg) & _).
  destruct (m (s, w)) as [o [s' w']]. simpl in *. apply served_same.
  unfold lifecycle, enclave_of, phase_of. by rewrite Hi, Hg, Hd.
Qed.

Lemma keeps_served_descriptor : keeps served (on_manager get_enclave_descriptor).
Proof. apply gentle_served, gentle_peek. Qed.
End Abstraction.
#[export] Hint Resolve keeps_served_lift keeps_served_listener keeps_served_self keeps_served_logger
  keeps_served_descriptor : keeps.


(** ** Dropping, running and terminating *)

Section Managers.
Context `{IF : ImageFormat} `{IT : @ImageTools IF} `{KN : Kernel} `{EV : Env}
  `{Serde EnclaveProcessCommandType} `{Serde EnclaveProcessReply} `{Serde unit}
  `{ToJson EnclaveRunInfo} `{ToJson EnclaveTerminateInfo}.

Definition same_state (s s' : EnclaveHandle * World) : Prop := state (fst s') = state (fst s).

#[export] Instance same_state_preorder : PreOrder same_state.
Proof. split; unfold same_state; [by intros s|]. intros s1 s2 s3. congruence. Qed.
#[export] Instance same_phase_preorder : PreOrder same_phase.
Proof.
  split; unfold same_phase; [by intros s|]. intros s1 s2 s3 [] []. split; congruence.
Qed.

Lemma keeps_state_lift {A} (m : IO A) : keeps same_state (lift m).
Proof. intros [h w]. unfold lift, zoom, same_state. simpl. by destruct (m w). Qed.
Lemma keeps_state_allocator {A} (m : IOS ResourceAllocator A) : keeps same_state (on_allocator m).
Proof. intros [h w]. unfold on_allocator, zoom, same_state. simpl. by destruct (m _) as [? []]. Qed.
Lemma keeps_state_self : keeps same_state self.
Proof. by intros s. Qed.
Lemma keeps_state_clear : keeps same_state (update clear).
Proof. by intros s. Qed.
#[local] Hint Resolve keeps_state_lift keeps_state_allocator keeps_state_self keeps_state_clear : keeps.

Lemma keeps_state_drop : keeps same_state handle_drop.
Proof. unfold handle_drop, terminate_enclave_and_notify, handle_terminate_enclave. keeps. Qed.

Lemma keeps_phase_drop : keeps same_phase manager_drop.
Proof.
  intros [mgr w]. pose proof (keeps_state_drop (guarded (enclave_handle mgr), w)) as Hs.
  unfold manager_drop. destruct (handle_drop _) as [r [h w']]. split; [done|exact Hs].
Qed.

(** A locked computation does to the phase what it does to the state. *)
Lemma keeps_locked {A} l (m : IOS EnclaveHandle A) : keeps same_state m -> keeps same_phase (locked l m).
Proof.
  intros Hm [mgr w]. unfold locked. destruct (poisoned _); [done|].
  specialize (Hm (guarded (enclave_handle mgr), w)).
  destruct (m _) as [[r|c|] [h' w']]; (split; [done|exact Hm]).
Qed.

(** What a step of a terminating thread does, to its stage and to the manager. *)
Definition advance (t t' : TerminateStep) (m m' : EnclaveManager) : Prop :=
  enclave_id m' = enclave_id m /\
  rtc progress (stage_of t, phase_of m) (stage_of t', phase_of m').

Lemma advance_quiet t t' m : stage_of t' = stage_of t \/ stage_of t' = Ended -> advance t t' m m.
Proof. intros [E|E]; (split; [done|]); rewrite E; [apply rtc_refl|apply rtc_once; constructor]. Qed.

Lemma branch_stage {A} t (n : IOS EnclaveManager A) k f s :
  (forall a, stage_of (k a) = stage_of t \/ stage_of (k a) = Ended) ->
  (forall e, stage_of (f e) = stage_of t \/ stage_of (f e) = Ended) ->
  stage_of (after (fst (branch n k f s))) = stage_of t \/ stage_of (after (fst (branch n k f s))) = Ended.
Proof. intros Hk Hf. unfold branch. rewrite bind_try. destruct (n s) as [[[a|e]|c|] s']; simpl; auto. Qed.

(** A step that leaves the manager alone keeps its stage or ends the request. *)
Lemma quiet_stage th s : writes (th_step th) = None ->
  stage_of (after (fst (thread_step th s))) = stage_of (th_step th) \/
  stage_of (after (fst (thread_step th s))) = Ended.
Proof.
  intros Hw. unfold thread_step. destruct (th_step th) as [| |fd ra|ra|ra r| | | |e|r| |]; try done;
    cbn [terminate_step]; try (by right); try (apply branch_stage; intros; repeat case_match; simpl; auto).
  - rewrite bind_try. destruct (bind (of_result _) _ s) as [[?|?|] ?]; simpl; auto.
  - unfold bind. destruct (lift _ s) as [[[?|?]|?|] ?]; simpl; auto.
Qed.

Lemma thread_step_advance th m w :
  advance (th_step th) (after (fst (thread_step th (m, w)))) m (fst (snd (thread_step th (m, w)))).
Proof.
  destruct (writes (th_step th)) eqn:Hw.
  2: { rewrite step_manager by done. by apply advance_quiet, quiet_stage. }
  unfold thread_step. destruct (th_step th); try done; cbn [terminate_step]; unfold branch; rewrite bind_try;
    unfold map_err, update_state; rewrite locked_update_run;
    (destruct (poisoned _); [apply advance_quiet; simpl; auto|split; [done|]]).
  - apply rtc_once, progress_announce.
  - apply rtc_refl.
  - apply rtc_once, progress_mark.
Qed.
End Managers.

(** ** The loop refines the machine *)

Section Refinement.
Context `{IF : ImageFormat} `{IT : @ImageTools IF} `{KN : Kernel} `{EV : Env}
  `{Serde EnclaveProcessCommandType} `{Serde EnclaveProcessReply} `{Serde unit}
  `{Serde RunEnclavesArgs} `{Serde DescribeEnclavesArgs} `{Serde string}
  `{ToJson EnclaveRunInfo} `{ToJson EnclaveTerminateInfo} `{ToJson EnclaveDescribeInfo} `{ToJson string}.

Lemma generated_id_nonempty tag slot id : generate_enclave_id tag slot = Ok id -> id <> ""%string.
Proof.
  unfold generate_enclave_id. intros E. destruct (tag_metadata_ok tag); r_inv; simplify_eq; [|done].
  by destruct (retain_non_whitespace _).
Qed.

Lemma create_enclave_id name conn s id s' :
  create_enclave name conn s = (Return (Ok id), s') -> id <> ""%string.
Proof.
  unfold create_enclave. intros E. m_inv.
  match goal with X : of_result (rmap_err _ (get_run_enclaves_info _ _ _ _ _ _ _)) _ = _ |- _ =>
    apply of_result_inv in X as [X%rmap_err_ok_inv _];
    apply rbind_ok_inv in X as (i & Hi%generated_id_nonempty & [= <-]) end.
  exact Hi.
Qed.

Lemma run_enclave_id conn s s' :
  run_enclave conn s = (Return (Ok tt), s') -> enclave_id (fst s') <> ""%string.
Proof.
  destruct s as [mgr w]. unfold run_enclave, self, gets. intros E. m_inv.
  match goal with X : locked _ _ _ = (_, ?s) |- _ =>
    destruct s as [m1 w1];
    apply locked_ok in X as (h & X%map_err_ok_inv%create_enclave_id & _); exact X end.
Qed.

(** A run that succeeds yields a manager whose enclave has an ID and runs. *)
Lemma run_enclaves_running args conn w r w' :
  run_enclaves args conn w = (Return (Ok r), w') ->
  enclave_of (rr_enclave_manager r) = Some (enclave_id (rr_enclave_manager r)) /\
  phase_of (rr_enclave_manager r) = Running.
Proof.
  unfold run_enclaves. intros E. m_inv. destruct (run_enclave_name args); [|done]. m_inv.
  destruct a3 as [[] mgr]. m_inv. simpl.
  match goal with X : owning_manager ?m0 ?m _ = _ |- _ =>
    unfold owning_manager in X; destruct (m (m0, _)) as [[[[]|]|c|] [m1 w1]] eqn:Em end;
    [|by destruct (manager_drop _) as [[[]|c|] []]|done..].
  simplify_eq. apply bind_ok_inv in Em as ([] & sc & _ & Em).
  apply bind_ok_inv in Em as ([] & [m2 w2] & Er%map_err_ok_inv%run_enclave_id & Eu%map_err_ok_inv).
  apply locked_ok in Eu as (h & Eu & ->). unfold update, modify in Eu. simplify_eq.
  unfold enclave_of, phase_of. simpl in *. by destruct (decide _).
Qed.

Lemma handle_run_served c : keeps served (handle_run c).
Proof.
  intros [s w]. unfold handle_run. apply (bind_related served); [done|].
  intros s0 st [= <- <-]. destruct (decide (enclave_id (ls_manager s) = ""%string)) as [Hid|Hid];
    [|by rewrite bool_decide_false].
  rewrite bool_decide_true by done. simpl negb. cbv iota.
  apply (bind_related served); [apply keeps_served_lift|]. intros args [s2 w2] [-> _]%lift_inv.
  apply (bind_related served); [apply keeps_served_lift|].
  intros r [s3 w3] [-> Er%map_err_ok_inv]%lift_inv. apply run_enclaves_running in Er as [He Hp].
  apply (bind_related served); [apply keeps_served_manager, keeps_phase_drop|].
  intros [] [s4 w4] Ed.
  pose proof (on_manager_lifecycle manager_drop s w3 keeps_phase_drop) as Hl.
  rewrite Ed in Hl. simpl in Hl.
  apply (bind_related served).
  { apply rtc_once. simpl. rewrite Hl. unfold lifecycle at 1, enclave_of. rewrite decide_True by done.
    unfold lifecycle. simpl. rewrite He, Hp. injection Hl as _ _ ->. constructor. }
  intros [] s5 _. eapply keeps_at. keeps.
Qed.

Lemma handle_terminate_served c : keeps served (handle_terminate c).
Proof.
  unfold handle_terminate. apply (keeps_bind served); [keeps|]. intros s0.
  intros st. apply (bind_related served); [by apply keeps_map_err, keeps_served_lift|].
  intros t [s w] E%map_err_ok_inv.
  destruct st as [s1 w1]. apply lift_inv in E as [-> [f ->]%notify_terminate_ok].
  apply rtc_once. simpl. unfold lifecycle. cbn [set_terminate ls_threads ls_manager].
  rewrite map_app. constructor.
Qed.

(** *** The threads *)

Lemma stages_insert i th t (ts : list Thread) :
  ts !! i = Some th ->
  exists before later, map (fun th => stage_of (th_step th)) ts = before ++ stage_of (th_step th) :: later /\
    map (fun th => stage_of (th_step th)) (<[i := set_step t th]> ts) = before ++ stage_of t :: later.
Proof.
  intros Hi. apply take_drop_middle in Hi as Hts.
  exists (map (fun th => stage_of (th_step th)) (take i ts)), (map (fun th => stage_of (th_step th)) (drop (S i) ts)).
  apply lookup_lt_Some in Hi as Hl. split; [by rewrite <- Hts at 1; rewrite map_app|].
  by rewrite insert_take_drop, map_app.
Qed.

Lemma progress_serve e before later a b :
  rtc progress a b ->
  rtc serve (mk_life e (snd a) (before ++ fst a :: later)) (mk_life e (snd b) (before ++ fst b :: later)).
Proof.
  induction 1 as [a|[st ph] [st' ph'] b Hp _ IH]; [apply rtc_refl|]. eapply rtc_l; [|exact IH].
  by constructor.
Qed.

Lemma on_thread_served i : keeps served (on_thread i).
Proof.
  intros [s w]. unfold on_thread, bind at 1, self, gets. cbn [fst snd].
  destruct (ls_threads s !! i) as [th|] eqn:Hi; [|by apply served_same].
  pose proof (thread_step_advance th (ls_manager s) w) as [Hid Hp].
  destruct (stages_insert i th (after (fst (thread_step th (ls_manager s, w)))) _ Hi) as (before & later & E1 & E2).
  assert (served (s, w)
    (set_terminate (ls_terminate s)
      (<[i := set_step (after (fst (thread_step th (ls_manager s, w)))) th]> (ls_threads s))
      (set_manager (fst (snd (thread_step th (ls_manager s, w)))) s), w)) as Hs.
  { unfold served, lifecycle, enclave_of. cbn [fst set_terminate set_manager ls_manager ls_threads].
    rewrite Hid, E1, E2. exact (progress_serve _ _ _ _ _ Hp). }
  unfold on_manager, zoom. cbn [fst snd].
  by destruct (thread_step th (ls_manager s, w)) as [o [m' w']].
Qed.

Lemma on_threads_served l : keeps served (on_threads l).
Proof. induction l as [|i l IH]; cbn [on_threads]; keeps. apply on_thread_served. Qed.
Lemma meanwhile_served : keeps served meanwhile.
Proof. unfold meanwhile. keeps. apply on_threads_served. Qed.
Lemma finish_served n i : keeps served (finish_thread n i).
Proof.
  induction n as [|n IH]; cbn [finish_thread]; keeps;
    first [apply on_thread_served|by intros [? ?]; apply served_same].
Qed.
#[local] Hint Resolve meanwhile_served finish_served : keeps.

Lemma handle_command_served cmd c : keeps served (handle_command cmd c).
Proof.
  destruct cmd; try (apply gentle_served, gentle_handle_command; auto; fail); simpl.
  - apply handle_run_served.
  - apply handle_terminate_served.
  - keeps.
  - keeps.
Qed.
#[local] Hint Resolve handle_command_served : keeps.

(** The end of the loop: nothing, or the join of the latest request. *)
Definition ended (s s' : LoopState * World) : Prop :=
  exists a, rtc serve (lifecycle (fst s)) a /\
    (lifecycle (fst s') = a \/ wind_up a (lifecycle (fst s'))).

Lemma served_ended s s' : served s s' -> ended s s'.
Proof. intros Hs. by exists (lifecycle (fst s')); auto. Qed.

Lemma ended_after s s1 s2 : served s s1 -> ended s1 s2 -> ended s s2.
Proof. intros Hs (a & Ha & He). exists a. split; [by etrans|done]. Qed.

Lemma ended_before s s1 s2 : ended s s1 -> lifecycle (fst s2) = lifecycle (fst s1) -> ended s s2.
Proof. unfold ended. by intros Hs ->. Qed.

Lemma bind_ended {A B} (m : IOS LoopState A) (k : A -> IOS LoopState B) s :
  served s (snd (m s)) ->
  (forall a s1, m s = (Return (Ok a), s1) -> ended s1 (snd (k a s1))) ->
  ended s (snd (bind m k s)).
Proof.
  intros Hm Hk. unfold bind. destruct (m s) as [[[a|e]|c|] s1] eqn:Em; simpl in *;
    try by apply served_ended. eapply ended_after; [exact Hm|]. by apply Hk.
Qed.

(** After the wait the thread is over, or the process has been left. *)
Lemma finish_over n i s s' :
  finish_thread n i s = (Return (Ok tt), s') ->
  forall th, ls_threads (fst s') !! i = Some th -> over (th_step th) = true.
Proof.
  revert s. induction n as [|n IH]; intros [s w] E; cbn [finish_thread] in E;
    unfold bind at 1, self, gets in E; cbn [fst] in E;
    (destruct (ls_threads s !! i) as [th|] eqn:Hi; [|unfold ret in E; simplify_eq; cbn [fst]; congruence]);
    (destruct (over (th_step th)) eqn:Ho; [unfold ret in E; simplify_eq; cbn [fst]; congruence|]).
  - done.
  - apply bind_ok_inv in E as ([] & s1 & _ & E). by eapply IH.
Qed.

Lemma join_ended s : ended s (snd (join_terminate_thread s)).
Proof.
  destruct s as [s w]. unfold join_terminate_thread.
  unfold bind at 1, self, gets. cbn [fst]. destruct (ls_terminate s) as [i|]; [|by apply served_ended].
  apply bind_ended; [eapply keeps_at; keeps|]. intros [] s1 _.
  apply bind_ended; [eapply keeps_at; keeps|]. intros [] [s2 w2] Ef.
  pose proof (finish_over _ _ _ _ Ef) as Ho. cbn [fst] in Ho.
  exists (lifecycle s2). split; [apply rtc_refl|].
  unfold bind, change, modify, self, gets. cbn [fst snd].
  assert (lifecycle (set_terminate None (delete i (ls_threads s2)) s2) = lifecycle s2 \/
    wind_up (lifecycle s2) (lifecycle (set_terminate None (delete i (ls_threads s2)) s2))) as He.
  { unfold lifecycle. cbn [set_terminate ls_threads ls_manager].
    destruct (ls_threads s2 !! i) as [th|] eqn:Hi.
    - right. specialize (Ho th eq_refl). apply take_drop_middle in Hi as Hts.
      rewrite delete_take_drop. rewrite <- Hts at 1. rewrite !map_app. simpl.
      replace (stage_of (th_step th)) with Ended by (by destruct (th_step th)). constructor.
    - left. rewrite delete_take_drop, take_ge by (by apply lookup_ge_None).
      rewrite drop_ge by (apply lookup_ge_None in Hi; lia). by rewrite app_nil_r. }
  by destruct (panicked i s2).
Qed.

(** After the join there are only messages. *)
Lemma ended_bind {A B} (m : IOS LoopState A) (k : A -> IOS LoopState B) s :
  ended s (snd (m s)) ->
  (forall a s1, lifecycle (fst (snd (k a s1))) = lifecycle (fst s1)) ->
  ended s (snd (bind m k s)).
Proof.
  intros Hm Hk. unfold bind. destruct (m s) as [[[a|e]|c|] s1]; simpl in *; try done.
  eapply ended_before; [exact Hm|]. apply Hk.
Qed.

Lemma lift_lifecycle {A} (m : IO A) (s : LoopState * World) : fst (snd (lift m s)) = fst s.
Proof. unfold lift, zoom. by destruct (m _). Qed.

Lemma send_status_lifecycle (b : bool) (m : IO unit) (r : Ctl) s :
  lifecycle (fst (snd ((do! (if b then lift m else ret tt); ret r) s))) = lifecycle (fst s).
Proof.
  destruct b; [|done]. pose proof (lift_lifecycle m s) as E. unfold bind.
  destruct (lift m s) as [[[]|c|] s1]; simpl in *; by rewrite E.
Qed.

Lemma execute_command_ended cmd c s w :
  ended (s, w) (snd (execute_command cmd c (s, w))).
Proof.
  unfold execute_command.
  apply bind_ended.
  { eapply keeps_at. keeps. }
  intros status s1 _. apply bind_ended.
  { eapply keeps_at. destruct status; keeps. }
  intros [code brk] s2 _. apply ended_bind; [|intros; apply send_status_lifecycle].
  destruct brk; [|apply served_ended; done].
  apply bind_ended; [eapply keeps_at; keeps|]. intros. apply join_ended.
Qed.

Lemma execute_command_continues_served cmd c s w s' :
  execute_command cmd c (s, w) = (Return (Ok Continue), s') ->
  served (s, w) s'.
Proof.
  intros (code & s1 & Eh & Ew)%execute_command_continues.
  pose proof (handle_command_served cmd c (s, w)) as Hs. rewrite Eh in Hs. etrans; [exact Hs|].
  destruct (replies_status cmd).
  - pose proof (keeps_served_lift (map_err (fun _ =>
      failure_at "Process event loop failed" EnclaveProcessSendReplyFailure 531)
      (write_status c code)) s1) as Hw. by rewrite Ew in Hw.
  - unfold ret in Ew. by simplify_eq.
Qed.

Lemma handle_connection_ended c s w :
  ended (s, w) (snd (handle_connection c (s, w))).
Proof.
  unfold handle_connection. apply bind_ended; [eapply keeps_at; keeps|].
  intros event [s1 w1] [-> _]%lift_inv.
  destruct event as [[| |]|e]; try by apply served_ended.
  apply bind_ended; [eapply keeps_at; keeps|]. intros cmd [s2 w2] [-> _]%lift_inv.
  destruct cmd as [cmd|e]; [by apply execute_command_ended|].
  apply served_ended. eapply keeps_at. keeps.
Qed.

Lemma handle_connection_continues_served c s w s' :
  handle_connection c (s, w) = (Return (Ok Continue), s') ->
  served (s, w) s'.
Proof.
  intros E. unfold handle_connection in E.
  apply bind_ok_inv in E as (event & [s1 w1] & [-> _]%lift_inv & E).
  destruct event as [[| |]|e]; try done.
  { unfold ret in E. simplify_eq. by apply served_same. }
  apply bind_ok_inv in E as (cmd & [s2 w2] & [-> _]%lift_inv & E).
  destruct cmd as [cmd|e].
  - exact (execute_command_continues_served _ _ _ _ _ E).
  - apply bind_ok_inv in E as ([] & s3 & _ & E). done.
Qed.

(** The connection is dropped at the end of a round. *)
Lemma drop_lifecycle c (r : NitroCliResult Ctl) s :
  lifecycle (fst (snd ((let! s := self in
    do! (if shared c s then ret tt else lift (connection_drop c)); of_result r) s))) = lifecycle (fst s).
Proof.
  unfold bind at 1, self, gets. simpl. destruct (shared c _); [done|].
  pose proof (lift_lifecycle (connection_drop c) s) as E. unfold bind.
  destruct (lift _ s) as [[[]|?|] s1]; simpl in *; by rewrite E.
Qed.

Lemma round_ended c s w : ended (s, w) (snd (round c (s, w))).
Proof.
  apply ended_bind; [|intros; apply drop_lifecycle].
  pose proof (handle_connection_ended c s w). unfold try.
  by destruct (handle_connection c (s, w)) as [[?|?|] ?].
Qed.

Lemma round_continues_served c s w s' :
  round c (s, w) = (Return (Ok Continue), s') -> served (s, w) s'.
Proof.
  intros E. apply bind_ok_inv in E as (r & s1 & E1%try_inv & E).
  pose proof (drop_lifecycle c r s1) as Hd. rewrite E in Hd. simpl in Hd.
  assert (r = Ok Continue) as ->.
  { apply bind_ok_inv in E as (? & ? & _ & E). by apply bind_ok_inv in E as (? & ? & _ & [-> _]%of_result_inv). }
  apply handle_connection_continues_served in E1. unfold served in *. by rewrite Hd.
Qed.

(** The result of the loop that ended, or has not. *)
Definition loop_result (s s' : LoopState * World) (o : outcome (NitroCliResult (option (NitroCliResult unit)))) : Prop :=
  exists a, rtc serve (lifecycle (fst s)) a /\
    (lifecycle (fst s') = a \/ (o <> Return (Ok None) /\ wind_up a (lifecycle (fst s')))).

Lemma served_loop_result s s1 s' o : served s s1 -> loop_result s1 s' o -> loop_result s s' o.
Proof. intros Hs (a & Ha & He). exists a. split; [by etrans|done]. Qed.

Lemma ended_loop_result s s' o : o <> Return (Ok None) -> ended s s' -> loop_result s s' o.
Proof. intros Ho (a & Ha & He). exists a. split; [done|]. naive_solver. Qed.

(** A part of a round that only serves. *)
Lemma served_bind_loop {A} (m : IOS LoopState A) (k : A -> IOS LoopState _) s o s' :
  keeps served m -> bind m k s = (o, s') ->
  (forall a s1, m s = (Return (Ok a), s1) -> served s s1 -> k a s1 = (o, s') -> loop_result s1 s' o) ->
  loop_result s s' o.
Proof.
  intros Hm E Hk. specialize (Hm s). apply bind_inv in E as [(a & s1 & Em & E)|[<- Ho]].
  - rewrite Em in Hm. eapply served_loop_result; [exact Hm|]. by eapply Hk.
  - apply ended_loop_result; [done|by apply served_ended].
Qed.

Lemma event_loop_result rounds s o s' : event_loop rounds s = (o, s') -> loop_result s s' o.
Proof.
  revert s. induction rounds as [|rounds IH]; intros s E.
  { injection E as <- <-. exists (lifecycle (fst s)). split; [apply rtc_refl|by left]. }
  cbn [event_loop] in E.
  eapply served_bind_loop; [|exact E|]; [by apply keeps_try, keeps_served_descriptor|].
  intros fd s1 _ Hs1 E1. eapply served_bind_loop; [|exact E1|]; [keeps|].
  intros [] s2 _ Hs2 E2. eapply served_bind_loop; [|exact E2|]; [keeps|].
  intros st s3 _ Hs3 E3. eapply served_bind_loop; [|exact E3|]; [keeps|].
  intros c [s4 w4] _ Hs4 E4.
  apply bind_inv in E4 as [([|r] & s5 & Er & E5)|[<- Ho]].
  - apply round_continues_served in Er. eapply served_loop_result; [exact Er|by apply IH].
  - pose proof (round_ended c s4 w4) as He. rewrite Er in He. unfold ret in E5. simplify_eq.
    by apply ended_loop_result.
  - apply ended_loop_result; [done|]. by apply round_ended.
Qed.

(** C1: the event loop, with the terminating threads that make steps at any time
    while it waits, refines the life cycle: however it is left - in the midst of
    serving, at its end, by an exit or by a panic - what happened is a sequence of
    starts, of requests to terminate and of their progress, and, if the loop
    ended, at most one request that was over has been joined. In particular an
    enclave is started only where there is none, every termination was requested
    before, and one that is EMPTY again was announced as TERMINATING. *)
Theorem event_loop_refines_lifecycle (rounds : nat) s w o s' w' :
  event_loop rounds (s, w) = (o, (s', w')) ->
  exists a, rtc serve (lifecycle s) a /\
    (lifecycle s' = a \/ (o <> Return (Ok None) /\ wind_up a (lifecycle s'))).
Proof. intros E. by apply event_loop_result in E. Qed.

(** C17: a process owns at most one enclave in its life: whatever is requested, and
    however the loop ends, an enclave that the process has keeps its ID and
    none other takes its place; and of the requests to terminate it at most one
    is joined by the loop. *)
Theorem one_enclave_per_process (rounds : nat) s w o s' w' id :
  enclave_of (ls_manager s) = Some id -> event_loop rounds (s, w) = (o, (s', w')) ->
  enclave_of (ls_manager s') = Some id /\ (length (pending s) <= S (length (pending s')))%nat.
Proof.
  intros Hid E. apply event_loop_result in E as (a & Ha & He).
  pose proof (serves_keep_enclave _ _ _ Ha Hid) as Hka.
  pose proof (serves_requests _ _ Ha) as Hn. cbn [fst] in *.
  assert (forall s, length (pending s) = length (l_requests (lifecycle s))) as Hl
    by (intros; unfold pending; simpl; by rewrite !length_map).
  rewrite !Hl. change (l_enclave (lifecycle s') = Some id /\
    (length (l_requests (lifecycle s)) <= S (length (l_requests (lifecycle s'))))%nat).
  destruct He as [->|[_ Hw]]; [auto|]. rewrite <- Hka.
  destruct Hw; simpl in *; rewrite !length_app in *; simpl in *. auto with lia.
Qed.
End Refinement.

(** ** Witnesses *)

Module Demo.
(** The owner asks for the termination of the enclave, and the thread reports
    that it is complete. *)
Definition requests : World := sample_world (frame [1] ++ frame [2]).
Definition running_loop : @LoopState sample_format :=
  set_manager (mk_manager _ (enclave_id sample_manager) (enclave_name sample_manager)
    (mk_mutex false (set_state Running (guarded (enclave_handle sample_manager))))) sample_loop.
Definition sample_event_loop (rounds : nat) :=
  @event_loop sample_format sample_tools sample_system sample_env sample_serde_command
    sample_serde_reply (serde_none unit) (serde_none _) (serde_none _) (serde_none _)
    (fun _ => Ok "{}"%string) (fun _ => Ok "{}"%string) (fun _ => Ok "{}"%string) (fun s => Ok s)
    rounds (running_loop, requests).
Definition outcome_of (rounds : nat) := fst (sample_event_loop rounds).
Definition state_after (rounds : nat) := fst (snd (sample_event_loop rounds)).
Definition world_after (rounds : nat) := snd (snd (sample_event_loop rounds)).

Lemma event_loop_refines_lifecycle_witness :
  lifecycle running_loop = mk_life (Some "i-0000000000000000-enc5"%string) Running [] /\
  lifecycle (state_after 1) = mk_life (Some "i-0000000000000000-enc5"%string) Running [Asked] /\
  lifecycle (state_after 2) = mk_life (Some "i-0000000000000000-enc5"%string) Enclave.Empty [] /\
  exists a, rtc serve (lifecycle running_loop) a /\
    (lifecycle (state_after 2) = a \/
     (outcome_of 2 <> Return (Ok None) /\ wind_up a (lifecycle (state_after 2)))).
Proof.
  split; [reflexivity|]. split; [vm_compute; reflexivity|]. split; [vm_compute; reflexivity|].
  refine (@event_loop_refines_lifecycle sample_format sample_tools sample_system sample_env
    sample_serde_command sample_serde_reply (serde_none unit) (serde_none _) (serde_none _) (serde_none _)
    (fun _ => Ok "{}"%string) (fun _ => Ok "{}"%string) (fun _ => Ok "{}"%string) (fun s => Ok s)
    2 running_loop requests (outcome_of 2) (state_after 2) (world_after 2) _).
  vm_compute. reflexivity.
Defined.

Lemma one_enclave_per_process_witness :
  outcome_of 2 = Return (Ok (Some (Ok tt))) /\
  enclave_of (ls_manager (state_after 2)) = Some "i-0000000000000000-enc5"%string.
Proof.
  split; [vm_compute; reflexivity|].
  refine (proj1 (@one_enclave_per_process sample_format sample_tools sample_system sample_env
    sample_serde_command sample_serde_reply (serde_none unit) (serde_none _) (serde_none _) (serde_none _)
    (fun _ => Ok "{}"%string) (fun _ => Ok "{}"%string) (fun _ => Ok "{}"%string) (fun s => Ok s)
    2 running_loop requests (outcome_of 2) (state_after 2) (world_after 2) _ eq_refl _)).
  vm_compute. reflexivity.
Defined.
End Demo.
