(* ===== verification/Threads.v ===== *)
(** * The terminating threads next to the event loop

    The threads ([TerminateThread]) run next to the event loop and to each other,
    and only hold the lock of the enclave's handle for single accesses. The step
    relation [sys_step] has every interleaving of their steps with the commands
    that the loop handles; here is what holds in all of them. *)
From S2P Require Import Prelude.
From S2P Require Import RustStd.
From S2P Require Import Failure.
From S2P Require Import CommandsParser.
From S2P Require Import EnclaveIds.
From S2P Require Import Os.
From S2P Require Import Sample.
From S2P Require Import Wire.
From S2P Require Import Connection.
From S2P Require Import Memory.
From S2P Require Import EifWriter.
From S2P Require Import Logs.
From S2P Require Import Events.
From S2P Require Import Enclave.
From S2P Require Import Commands.
From S2P Require Import Listener.
From S2P Require Import TerminateThread.
From S2P Require Import EventLoop.
From stdpp Require Import base list numbers strings gmap relations.
From Stdlib Require Import ZArith Lia.
Local Open Scope Z_scope.
Local Open Scope nitro_scope.

(** ** Threads and loop together *)

Section System.
Context `{IF : ImageFormat} `{IT : @ImageTools IF} `{KN : Kernel} `{EV : Env}
  `{Serde EnclaveProcessCommandType} `{Serde EnclaveProcessReply} `{Serde unit}
  `{Serde RunEnclavesArgs} `{Serde DescribeEnclavesArgs} `{Serde string}
  `{ToJson EnclaveRunInfo} `{ToJson EnclaveTerminateInfo} `{ToJson EnclaveDescribeInfo} `{ToJson string}.

(** In any order, a thread makes its next step, or the loop handles a command;
    on a request to terminate that starts a thread. *)
Inductive sys_step : LoopState * World -> LoopState * World -> Prop :=
| sys_thread i s w o s' w' :
    on_thread i (s, w) = (o, (s', w')) -> sys_step (s, w) (s', w')
| sys_command cmd c s w o s' w' :
    handle_command cmd c (s, w) = (o, (s', w')) -> sys_step (s, w) (s', w').

(** *** What holds in all interleavings *)

Definition cleared (h : EnclaveHandle) : Prop :=
  cpu_ids h = [] /\ allocated_memory_mib h = 0 /\ slot_uid h = 0 /\ enclave_cid h = Some 0 /\ enc_fd h = -1.

(** The steps of a thread that has cleared the handle. *)
Definition past_clear (t : TerminateStep) : Prop :=
  match t with Discard _ (Ok _) | Mark | Tell | Show | Done (Ok _) | Over (Ok _) => True | _ => False end.

Definition handle_of (m : EnclaveManager) : EnclaveHandle := guarded (enclave_handle m).

(** What one step of a thread does to the manager. *)
Definition step_effect (t t' : TerminateStep) (m m' : EnclaveManager) : Prop :=
  enclave_id m' = enclave_id m /\
  (cleared (handle_of m) -> cleared (handle_of m')) /\
  (past_clear t' -> past_clear t \/ cleared (handle_of m')) /\
  (state (handle_of m') = Enclave.Empty -> state (handle_of m) = Enclave.Empty \/ past_clear t).

Lemma effect_same t t' m : (past_clear t' -> past_clear t) -> step_effect t t' m m.
Proof. intros Ht. split_and!; auto. Qed.

Lemma branch_past_clear {A} t (n : IOS EnclaveManager A) k f s :
  (forall a, past_clear (k a) -> past_clear t) -> (forall e, past_clear (f e) -> past_clear t) ->
  past_clear (after (fst (branch n k f s))) -> past_clear t.
Proof. intros Hk Hf. unfold branch. rewrite bind_try. destruct (n s) as [[[a|e]|c|] s']; simpl; naive_solver. Qed.

(** A step that leaves the manager alone does not pass the clearing. *)
Lemma quiet_past_clear th s : writes (th_step th) = None ->
  past_clear (after (fst (thread_step th s))) -> past_clear (th_step th).
Proof.
  intros Hw. unfold thread_step. destruct (th_step th) as [| |fd ra|ra|ra r| | | |e|r| |]; try done;
    cbn [terminate_step]; try done.
  - apply branch_past_clear; done.
  - apply branch_past_clear; done.
  - apply branch_past_clear; [|done]. by destruct r.
  - apply branch_past_clear; done.
  - unfold bind. destruct (lift _ s) as [[[?|?]|?|] ?]; simpl; by destruct r.
Qed.

Lemma thread_step_effect th m w :
  step_effect (th_step th) (after (fst (thread_step th (m, w)))) m (fst (snd (thread_step th (m, w)))).
Proof.
  destruct (writes (th_step th)) eqn:Hw.
  2: { rewrite step_manager by done. by apply effect_same, quiet_past_clear. }
  unfold thread_step. destruct (th_step th); try done; cbn [terminate_step];
    unfold branch; rewrite bind_try; unfold map_err, update_state; rewrite locked_update_run;
    (destruct (poisoned _); [by apply effect_same|]).
  - by split_and!.
  - assert (cleared (clear (guarded (enclave_handle m)))) as Hc by done.
    unfold step_effect, handle_of. simpl. naive_solver.
  - unfold step_effect, handle_of. simpl. auto 10.
Qed.

(** A step of a thread of the system. *)
Lemma on_thread_run i s w o s' w' :
  on_thread i (s, w) = (o, (s', w')) ->
  (ls_threads s !! i = None /\ s' = s /\ w' = w) \/
  exists th o' m', ls_threads s !! i = Some th /\ thread_step th (ls_manager s, w) = (o', (m', w')) /\
    s' = set_terminate (ls_terminate s) (<[i := set_step (after o') th]> (ls_threads s)) (set_manager m' s).
Proof.
  unfold on_thread, bind at 1, self, gets. cbn [fst].
  destruct (ls_threads s !! i) as [th|]; [|intros [= _ <- <-]; by left].
  unfold on_manager, zoom. cbn [fst snd]. destruct (thread_step th (ls_manager s, w)) as [o' [m' w1]] eqn:E.
  intros [= _ <- <-]. right. by exists th, o', m'.
Qed.

(** The loop's commands keep the enclave as it is, up to its measurements. *)
Definition same_enclave_state (m m' : EnclaveManager) : Prop :=
  enclave_id m' = enclave_id m /\ state (handle_of m') = state (handle_of m) /\
  (cleared (handle_of m) -> cleared (handle_of m')).

Lemma gentle_enclave_state m m' : same_but_measurements m m' -> same_enclave_state m m'.
Proof. intros (Hi & _ & b & md & Hg). unfold same_enclave_state, handle_of. by rewrite Hi, Hg. Qed.

(** A request to terminate starts a thread, or none. *)
Lemma request_effect c s w o s' w' :
  handle_command Terminate c (s, w) = (o, (s', w')) ->
  ls_manager s' = ls_manager s /\
  (ls_threads s' = ls_threads s \/
   exists f, ls_threads s' = ls_threads s ++ [mk_thread c f (enclave_id (ls_manager s)) (enclave_name (ls_manager s)) Announce]).
Proof.
  cbn [handle_command]. unfold handle_terminate, bind at 1, self, gets. cbn [fst]. intros E. apply bind_inv in E.
  unfold map_err, lift, zoom in E. cbn [fst snd] in E.
  destruct (notify_terminate c (ls_manager s) w) as [[[t|?]|?|] w1] eqn:En; destruct E as [(t' & [s1 w2] & E1 & E2)|[E1 Ho]];
    cbn [snd] in *; simplify_eq; try (split; [done|by left]).
  unfold bind, change, modify, ret in E2. simplify_eq. split; [done|]. right.
  apply notify_terminate_ok in En as [f ->]. by exists f.
Qed.

Lemma command_effect cmd c s w o s' w' :
  enclave_id (ls_manager s) <> ""%string ->
  handle_command cmd c (s, w) = (o, (s', w')) ->
  same_enclave_state (ls_manager s) (ls_manager s') /\
  (ls_threads s' = ls_threads s \/
   exists f, cmd = Terminate /\ ls_threads s' =
     ls_threads s ++ [mk_thread c f (enclave_id (ls_manager s)) (enclave_name (ls_manager s)) Announce]).
Proof.
  intros Hid E. assert (same_enclave_state (ls_manager s) (ls_manager s)) as Hs by by split_and!.
  destruct (decide (cmd = Terminate)) as [->|Ht].
  { apply request_effect in E as [-> [->|[f ->]]]; eauto. }
  destruct (decide (cmd = Run)) as [->|Hc].
  { rewrite (second_run_refused c s w Hid) in E. simplify_eq. auto. }
  destruct (decide (cmd = TerminateComplete \/ cmd = ConnectionListenerStop)) as [[-> | ->]|Hd];
    [unfold handle_command, ret in E; simplify_eq; auto..|].
  assert (gentle (handle_command cmd c)) as Hg.
  { apply gentle_handle_command. destruct cmd; simpl in *; auto; naive_solver. }
  specialize (Hg (s, w)). rewrite E in Hg. destruct Hg as (_ & _ & Hd' & Hm & _). cbn [fst snd] in *.
  split; [by apply gentle_enclave_state|]. by left.
Qed.

Definition consistent (s : LoopState) : Prop :=
  let m := ls_manager s in
  enclave_id m <> ""%string /\
  (state (handle_of m) = Enclave.Empty -> cleared (handle_of m)) /\
  forall th, th ∈ ls_threads s -> past_clear (th_step th) -> cleared (handle_of m).

Lemma consistent_thread i s w o s' w' : on_thread i (s, w) = (o, (s', w')) -> consistent s -> consistent s'.
Proof.
  intros [(_ & -> & _)|(th & o' & m' & Hi & E & ->)]%on_thread_run (Hid & He & Ht); [done|].
  pose proof (thread_step_effect th (ls_manager s) w) as Hf. rewrite E in Hf. destruct Hf as (Hi' & Hc & Hp & Hm).
  cbn [fst snd] in *. apply list_elem_of_lookup_2 in Hi as Hin.
  unfold consistent. cbn [set_terminate set_manager ls_manager ls_threads].
  split_and!; [congruence|naive_solver|]. intros th1 [->|Hin1]%elem_of_insert_inv.
  - simpl. intros Hpc. destruct (Hp Hpc); [|done]. apply Hc. by eapply Ht.
  - intros Hpc. apply Hc. by eapply Ht.
Qed.

Lemma consistent_command cmd c s w o s' w' :
  handle_command cmd c (s, w) = (o, (s', w')) -> consistent s -> consistent s'.
Proof.
  intros E (Hid & He & Ht). destruct (command_effect _ _ _ _ _ _ _ Hid E) as [(Hi & Hst & Hc) Hts].
  unfold consistent. split_and!; [congruence|rewrite Hst; auto|]. intros th Hin Hpc. apply Hc.
  destruct Hts as [Hts|(f & _ & Hts)]; rewrite Hts in Hin; [by eapply Ht|].
  apply elem_of_app in Hin as [Hin|Hin%list_elem_of_singleton]; [by eapply Ht|]. by subst.
Qed.

Lemma sys_steps_consistent y y' : rtc sys_step y y' -> consistent (fst y) -> consistent (fst y').
Proof. induction 1 as [|y1 y2 y3 [] _ IH]; simpl in *; eauto using consistent_thread, consistent_command. Qed.

(** C4: whatever order the steps of the terminating threads and of the event loop
    are taken in, and however many requests to terminate arrive, an enclave that
    is said to be EMPTY has been cleared: no CPUs, no memory, no slot, no CID, no
    descriptor; the same holds once a terminating thread has reported success. *)
Theorem empty_enclave_is_cleared s w s' w' :
  enclave_id (ls_manager s) <> ""%string -> state (handle_of (ls_manager s)) <> Enclave.Empty ->
  ls_threads s = [] -> rtc sys_step (s, w) (s', w') ->
  let h := handle_of (ls_manager s') in
  (state h = Enclave.Empty -> cleared h) /\
  forall th, th ∈ ls_threads s' -> th_step th = Done (Ok tt) \/ th_step th = Over (Ok tt) -> cleared h.
Proof.
  intros Hid Hst Hts Hr.
  assert (consistent s') as (_ & He & Ht).
  { apply (sys_steps_consistent (s, w) (s', w') Hr). split_and!; [done|done|]. simpl. rewrite Hts. by intros ? ?%elem_of_nil. }
  split; [done|]. intros th Hth Hd. apply (Ht th Hth). by destruct Hd as [-> | ->].
Qed.

(** *** Schedules *)

(** A schedule names the thread that moves, or the command the loop handles. *)
Inductive Move : Type :=
| MoveThread (i : nat)
| MoveCommand (cmd : EnclaveProcessCommandType) (c : Connection).

Definition move (mv : Move) (y : LoopState * World) : LoopState * World :=
  match mv with
  | MoveThread i => snd (on_thread i y)
  | MoveCommand cmd c => snd (handle_command cmd c y)
  end.

Lemma move_step mv y : sys_step y (move mv y).
Proof.
  destruct y as [s w], mv as [i|cmd c]; cbn [move].
  - destruct (on_thread i (s, w)) as [o [s' w']] eqn:E. by eapply sys_thread.
  - destruct (handle_command cmd c (s, w)) as [o [s' w']] eqn:E. by eapply sys_command.
Qed.

Definition run_schedule (mvs : list Move) (y : LoopState * World) : LoopState * World :=
  foldl (fun y mv => move mv y) y mvs.

Lemma run_schedule_steps mvs : forall y, rtc sys_step y (run_schedule mvs y).
Proof.
  induction mvs as [|mv mvs IH]; intros y; [apply rtc_refl|].
  eapply rtc_l; [apply move_step|apply (IH (move mv y))].
Qed.

(** *** Two requests at the same time *)

(** The descriptors closed in a log, whatever the kernel answered. *)
Definition closes (l : log) : list Z := omap (fun e => match e with EvClose fd _ => Some fd | _ => None end) l.

Lemma closes_app l1 l2 : closes (l1 ++ l2) = closes l1 ++ closes l2.
Proof. apply omap_app. Qed.
Lemma closes_memory evs : Forall is_memory evs -> closes evs = [].
Proof. induction 1 as [|e evs He _ IH]; [done|]. by destruct e. Qed.

(** A kernel that removes every mapping it is asked to remove, as Linux does for
    aligned ranges, mapped or not. *)
Context (munmap_succeeds : forall l a n, 0 <= k_munmap l a n).

Lemma region_free_total r w : exists r' w', region_free r w = (Return (Ok r'), w').
Proof.
  unfold region_free. destruct (_ =? 0); [by eexists _, _|]. unfold bind, munmap. cbn.
  destruct (Z.ltb_spec (k_munmap (w_log w) (mem_addr r) (mem_size r)) 0); [|by eexists _, _].
  pose proof (munmap_succeeds (w_log w) (mem_addr r) (mem_size r)). lia.
Qed.

Lemma free_regions_total rs : forall freed s, exists s', free_regions freed rs s = (Return (Ok tt), s').
Proof.
  induction rs as [|r rs IH]; intros freed [ra w]; cbn [free_regions]; [by eexists|].
  destruct (region_free_total r w) as (r' & w' & E).
  unfold bind at 1, map_err, lift, zoom. cbn [fst snd]. rewrite E. apply IH.
Qed.

Lemma allocator_free_total ra w : exists ra' evs,
  allocator_free (ra, w) = (Return (Ok tt), (ra', grow w evs)) /\ mem_regions ra' = [] /\
  closes evs = [] /\ unmapped evs = live (mem_regions ra).
Proof.
  destruct (allocator_free (ra, w)) as [o [ra' w']] eqn:E.
  assert (o = Return (Ok tt)) as ->.
  { unfold allocator_free, bind at 1, self, gets in E. cbn [fst] in E.
    destruct (free_regions_total (mem_regions ra) [] (ra, w)) as [s1 E1].
    rewrite (bind_run_ok _ _ _ _ _ E1) in E. by injection E as <-. }
  pose proof (emits_allocator_free (ra, w)) as (evs & L & F). rewrite E in L.
  apply allocator_free_ok in E as (Hn & evs' & -> & _ & Hu). exists ra', evs'.
  cbv [log_of has_log_world world_of has_world_pair] in L. simpl in L. apply app_inv_head in L as ->.
  split_and!; [done|done|by apply closes_memory|done].
Qed.

Lemma allocator_drop_total ra w : exists ra' evs,
  allocator_drop (ra, w) = (Return (Ok tt), (ra', grow w evs)) /\ mem_regions ra' = [] /\
  closes evs = [] /\ unmapped evs = live (mem_regions ra).
Proof.
  destruct (allocator_free_total ra w) as (ra' & evs & E & H'). exists ra', evs. split; [|done].
  unfold allocator_drop. by rewrite bind_try, E.
Qed.

(** Releasing always closes and unmaps: when the descriptor cannot be closed, the
    clone of the allocator is destroyed. *)
Lemma release_resources_total fd ra w : exists r ra' evs,
  release_resources fd (ra, w) = (Return r, (ra', grow w evs)) /\ closes evs = [fd] /\
  unmapped evs = live (mem_regions ra).
Proof.
  set (rc := k_close (w_log w) fd).
  assert (lift (release_enclave_descriptor fd) (ra, w) =
    (Return (if rc <? 0 then Err (Enclave.failure_at "Failed to close enclave descriptor" FileOperationFailure 1165)
             else Ok tt), (ra, grow w [EvClose fd rc]))) as Er.
  { unfold lift, zoom, release_enclave_descriptor, bind, close. cbn. fold rc. by destruct (rc <? 0). }
  unfold release_resources. rewrite bind_try. unfold bind at 1, map_err at 1. rewrite Er.
  destruct (rc <? 0).
  - destruct (allocator_drop_total ra (grow w [EvClose fd rc])) as (ra' & evs & E & _ & Hc & Hu).
    unfold bind. rewrite E. eexists _, ra', ([EvClose fd rc] ++ evs). rewrite grow_grow, closes_app, Hc.
    done.
  - destruct (allocator_free_total ra (grow w [EvClose fd rc])) as (ra' & evs & E & _ & Hc & Hu).
    unfold map_err. rewrite E. eexists _, ra', ([EvClose fd rc] ++ evs). rewrite grow_grow, closes_app, Hc.
    done.
Qed.

(** The steps up to the release, for a handle whose lock is not poisoned. *)
Lemma announce_run c id name m w :
  poisoned (enclave_handle m) = false ->
  terminate_step c id name Announce (m, w) =
  (Return (Ok Fetch), (mk_manager _ (enclave_id m) (enclave_name m)
                         (mk_mutex false (set_state Terminating (handle_of m))), w)).
Proof.
  intros Hp. cbn [terminate_step]. unfold branch. rewrite bind_try.
  unfold map_err, update_state. rewrite locked_update_run. by rewrite Hp.
Qed.

Lemma fetch_run c id name m w :
  poisoned (enclave_handle m) = false ->
  terminate_step c id name Fetch (m, w) =
  (Return (Ok (Release (enc_fd (handle_of m)) (resource_allocator (handle_of m)))), (m, w)).
Proof.
  intros Hp. cbn [terminate_step]. unfold branch. rewrite bind_try.
  unfold map_err, get_termination_resources, peek, locked. rewrite Hp. by destruct m as [? ? [[] ?]].
Qed.

Lemma release_run c id name fd ra m w : exists t evs,
  terminate_step c id name (Release fd ra) (m, w) = (Return (Ok t), (m, grow w evs)) /\
  closes evs = [fd] /\ unmapped evs = live (mem_regions ra).
Proof.
  destruct (release_resources_total fd ra w) as (r & ra' & evs & E & Hc & Hu).
  cbn [terminate_step]. unfold branch. rewrite bind_try. unfold on_local. rewrite E.
  destruct r as [[]|e]; eexists _, evs; split; done.
Qed.

(** A thread that is in the middle of [terminate_enclaves] makes a step. *)
Lemma middle_step i th s w t m' w' :
  ls_threads s !! i = Some th -> (forall r, th_step th <> Done r) ->
  terminate_step (Some (th_connection th)) (th_id th) (th_name th) (th_step th) (ls_manager s, w) =
    (Return (Ok t), (m', w')) ->
  sys_step (s, w) (set_terminate (ls_terminate s) (<[i := set_step t th]> (ls_threads s)) (set_manager m' s), w').
Proof.
  intros Hi Hd E. eapply sys_thread with (i := i). unfold on_thread, bind at 1, self, gets. cbn [fst]. rewrite Hi.
  assert (thread_step th (ls_manager s, w) = (Return (Ok t), (m', w'))) as Et.
  { unfold thread_step. destruct (th_step th) eqn:Es; try (exact E). by destruct (Hd r). }
  unfold on_manager, zoom. cbn [fst snd]. by rewrite Et.
Qed.

(** C9: two requests to terminate that overlap release the enclave twice: the second
    thread can fetch the resources before the first has cleared the handle, and
    then the same descriptor is closed twice and every extent of the memory is
    unmapped twice, even if the second close fails. *)
Theorem overlapping_terminations_release_twice c1 f1 c2 f2 s w :
  let m := ls_manager s in
  let starting c f := mk_thread c f (enclave_id m) (enclave_name m) Announce in
  poisoned (enclave_handle m) = false -> ls_threads s = [starting c1 f1; starting c2 f2] ->
  exists y evs, rtc sys_step (s, w) y /\
    w_log (snd y) = w_log w ++ evs /\
    closes evs = [enc_fd (handle_of m); enc_fd (handle_of m)] /\
    unmapped evs = live (mem_regions (resource_allocator (handle_of m))) ++
                   live (mem_regions (resource_allocator (handle_of m))).
Proof.
  intros m starting Hp Hts.
  set (m' := mk_manager _ (enclave_id m) (enclave_name m) (mk_mutex false (set_state Terminating (handle_of m)))).
  destruct (release_run (Some c1) (enclave_id m) (enclave_name m) (enc_fd (handle_of m))
    (resource_allocator (handle_of m)) m' w) as (r1 & e1 & E1 & C1 & U1).
  destruct (release_run (Some c2) (enclave_id m) (enclave_name m) (enc_fd (handle_of m))
    (resource_allocator (handle_of m)) m' (grow w e1)) as (r2 & e2 & E2 & C2 & U2).
  eexists (_, grow (grow w e1) e2), (e1 ++ e2). split.
  { eapply rtc_l; [eapply (middle_step 0); [by rewrite Hts|done|by apply announce_run]|]. fold m. rewrite Hts.
    eapply rtc_l; [eapply (middle_step 1); [done|done|by apply announce_run]|].
    eapply rtc_l; [eapply (middle_step 0); [done|done|by apply fetch_run]|].
    eapply rtc_l; [eapply (middle_step 1); [done|done|by apply fetch_run]|].
    eapply rtc_l; [eapply (middle_step 0); [done|done|exact E1]|].
    eapply rtc_l; [eapply (middle_step 1); [done|done|exact E2]|]. apply rtc_refl. }
  cbn [snd]. by rewrite grow_grow, closes_app, unmapped_app, C1, C2, U1, U2.
Qed.
End System.

(** ** Witnesses *)

Module ThreadsDemo.
Definition running : @EnclaveManager sample_format :=
  mk_manager _ (enclave_id sample_manager) (enclave_name sample_manager)
    (mk_mutex false (set_state Running (guarded (enclave_handle sample_manager)))).
Definition running_loop : @LoopState sample_format := set_manager running sample_loop.

Definition initial : @LoopState sample_format * World := (running_loop, sample_world []).
Definition steps (mvs : list Move) : @LoopState sample_format * World :=
  @run_schedule sample_format sample_tools sample_system sample_env sample_serde_command sample_serde_reply
    (serde_none unit) (serde_none _) (serde_none _) (serde_none _) (fun _ => Ok "{}"%string)
    (fun _ => Ok "{}"%string) (fun _ => Ok "{}"%string) (fun s => Ok s) mvs initial.

(** A request to terminate, the nine steps of its thread, and between them
    questions for the name of the enclave. *)
Definition schedule : list Move :=
  [MoveCommand Terminate sample_connection; MoveThread 0; MoveCommand GetEnclaveName sample_connection;
   MoveThread 0; MoveThread 0; MoveThread 0; MoveCommand GetEnclaveName sample_connection; MoveThread 0;
   MoveThread 0; MoveThread 0; MoveThread 0; MoveThread 0].

Lemma empty_enclave_is_cleared_witness :
  state (handle_of (ls_manager (fst (steps schedule)))) = Enclave.Empty /\
  map th_step (ls_threads (fst (steps schedule))) = [Over (Ok tt)] /\
  cleared (handle_of (ls_manager (fst (steps schedule)))).
Proof.
  split; [vm_compute; reflexivity|]. split; [vm_compute; reflexivity|].
  refine (proj1 (@empty_enclave_is_cleared sample_format sample_tools sample_system sample_env sample_serde_command
    sample_serde_reply (serde_none unit) (serde_none _) (serde_none _) (serde_none _) (fun _ => Ok "{}"%string)
    (fun _ => Ok "{}"%string) (fun _ => Ok "{}"%string) (fun s => Ok s) running_loop (sample_world [])
    (fst (steps schedule)) (snd (steps schedule)) _ _ eq_refl _) _).
  - discriminate.
  - discriminate.
  - rewrite <- surjective_pairing. apply run_schedule_steps.
  - vm_compute. reflexivity.
Defined.

Definition terminating (stream : Z) : Thread :=
  mk_thread sample_connection stream (enclave_id running) (enclave_name running) Announce.
Definition asked_twice : @LoopState sample_format := set_terminate (Some 1%nat) [terminating 21; terminating 31] running_loop.

(** Descriptor 7 is closed twice, and the one region unmapped twice. *)
Lemma overlapping_terminations_release_twice_witness :
  exists y, rtc (@sys_step sample_format sample_tools sample_system sample_env sample_serde_command sample_serde_reply
      (serde_none unit) (serde_none _) (serde_none _) (serde_none _) (fun _ => Ok "{}"%string)
      (fun _ => Ok "{}"%string) (fun _ => Ok "{}"%string) (fun s => Ok s))
      (asked_twice, sample_world []) y /\
    closes (w_log (snd y)) = [7; 7] /\
    unmapped (w_log (snd y)) = [(4096, 2 * MiB); (4096, 2 * MiB)].
Proof.
  destruct (@overlapping_terminations_release_twice sample_format sample_tools sample_system sample_env
    sample_serde_command sample_serde_reply (serde_none unit) (serde_none _) (serde_none _) (serde_none _)
    (fun _ => Ok "{}"%string) (fun _ => Ok "{}"%string) (fun _ => Ok "{}"%string) (fun s => Ok s)
    (fun _ _ _ => Z.le_refl 0) sample_connection 21 sample_connection 31 asked_twice (sample_world []) eq_refl eq_refl)
    as (y & evs & Hr & Hl & Hc & Hu).
  exists y. rewrite Hl. split; [exact Hr|]. split; [exact Hc|]. exact Hu.
Defined.
End ThreadsDemo.
