(* ===== verification/Process.v ===== *)
(** * Starting the enclave process
    (src/src/enclave_proc/mod.rs, src/src/enclave_proc_comm.rs)

    The CLI forks an intermediate process, which becomes a daemon: the enclave
    process. [fork] answers 0 in the child, so that one model covers both
    processes. *)
From S2P Require Import Prelude.
From S2P Require Import Logs.
From S2P Require Import RustStd.
From S2P Require Import Failure.
From S2P Require Import CommandsParser.
From S2P Require Import EnclaveIds.
From S2P Require Import Os.
From S2P Require Import Sample.
From S2P Require Import Wire.
From S2P Require Import Memory.
From S2P Require Import Events.
From S2P Require Import Enclave.
From S2P Require Import Commands.
From S2P Require Import SignalHandler.
From S2P Require Import EventLoop.
From stdpp Require Import base list numbers strings gmap sets.
From Stdlib Require Import ZArith Lia.
Local Open Scope Z_scope.
Local Open Scope nitro_scope.

Definition failure_at (subaction : string) (code : NitroCliErrorEnum) (file : string) (l : Z) : NitroCliFailure :=
  new_nitro_cli_failure subaction code file l.

Section Daemon.
Context `{Kernel}.

(** A call that cannot fail and answers a number. *)
Definition process_number (c : Syscall) : IO Z :=
  let! r := attempt (syscall c) in
  ret (match r with Ok answer => hd (-1) answer | Err _ => -1 end).

(** The wait for the parent to be gone; [false] when it is still there after so
    many looks. *)
(* src/src/enclave_proc/mod.rs:575-577 create_enclave_process *)
Fixpoint wait_orphaned (rounds : nat) (ppid : Z) : IO bool :=
  match rounds with
  | O => ret false
  | S rounds =>
      let! parent := process_number SysGetPpid in
      if parent =? ppid then
        let! _ := attempt (F := NitroCliFailure) (syscall (SysSleep 10)) in
        wait_orphaned rounds ppid
      else ret true
  end.

(** The log writer with its new ID, or [None] when the wait is not over. *)
(* src/src/enclave_proc/mod.rs create_enclave_process *)
Definition create_enclave_process (rounds : nat) (logger : Mutex string) : IO (option (Mutex string)) :=
  let! signal_handler := map_err (add_subaction "Failed to mask signals")
    (mask_all (signal_handler_new [SIGHUP])) in
  let! ppid := process_number SysGetPid in
  do! map_err_to (fun e => failure_at ("Failed to daemonize enclave process: " +:+ e)
        DaemonizeProcessFailure "src/enclave_proc/mod.rs" 561) (syscall SysDaemon);
  let! logger := of_result (rmap_err (add_subaction "Failed to update logger id")
    (update_logger_id logger ("enc-xxxxxxx:" +:+ show_u k_process_id))) in
  let! orphaned := wait_orphaned rounds ppid in
  if (orphaned : bool) then
    let! _ := map_err (add_subaction "Failed to restore signal handlers") (unmask_all signal_handler) in
    ret (Some logger)
  else ret None.
End Daemon.

Section Process.
Context `{IF : ImageFormat} `{IT : @ImageTools IF} `{Kernel} `{Env}
  `{Serde EnclaveProcessCommandType} `{Serde EnclaveProcessReply} `{Serde unit}
  `{Serde RunEnclavesArgs} `{Serde DescribeEnclavesArgs} `{Serde string}
  `{ToJson EnclaveRunInfo} `{ToJson EnclaveTerminateInfo} `{ToJson EnclaveDescribeInfo} `{ToJson string}.

(** The process always exits; [None] when it is still running after so many
    rounds. *)
(* src/src/enclave_proc/mod.rs enclave_process_run *)
Definition enclave_process_run (comm_stream : Z) (logger : Mutex string) (rounds : nat)
    : IO (option unit) :=
  let! created := try (map_err (set_action "Run Enclave") (create_enclave_process rounds logger)) in
  let! created := ok_or_exit_with_errno None created in
  match created with
  | None => ret None
  | Some logger =>
      let! res := try (process_event_loop comm_stream logger rounds) in
      match res with
      | Ok None => ret None
      | Ok (Some (Ok _)) => exit 0
      | Ok (Some (Err error_info)) | Err error_info =>
          let error_info := set_action "Run Enclave" error_info in
          do! notify_error (error_message error_info);
          exit (error_discriminant (error_code error_info))
      end
  end.

(** [FD_CLOEXEC] *)
Definition FD_CLOEXEC : Z := 1.

(** The CLI's end of the new process's first connection; [None] in the child,
    when it is still running. *)
(* src/src/enclave_proc_comm.rs enclave_proc_spawn *)
Definition enclave_proc_spawn (logger : Mutex string) (rounds : nat) : IO (option Z) :=
  let! fds := map_err_to (fun e => failure_at ("Could not create a socket pair: " +:+ e)
    SocketPairCreationFailure "src/enclave_proc_comm.rs" 36) (syscall SysSocketPair) in
  let cli_socket := hd (-1) fds in
  let enclave_proc_fd := hd (-1) (tl fds) in
  let! flags := process_number (SysFcntlGet enclave_proc_fd) in
  let! _ := process_number (SysFcntlSet enclave_proc_fd (Z.land flags (Z.lnot FD_CLOEXEC))) in
  let! fork_status := attempt (syscall SysFork) in
  match fork_status with
  | Ok (0 :: _) =>
      do! enclave_process_run enclave_proc_fd logger rounds;
      ret None
  | Ok _ =>
      let! _ := close enclave_proc_fd in
      ret (Some cli_socket)
  | Err e =>
      let! _ := close enclave_proc_fd in
      let! _ := close cli_socket in
      fail (failure_at ("Failed to create intermediate process: " +:+ e) ProcessSpawnFailure
              "src/enclave_proc_comm.rs" 62)
  end.
End Process.

(** ** Lemmas *)

Definition number (answer : result string (list Z)) : Z :=
  match answer with Ok ns => hd (-1) ns | Err _ => -1 end.

Definition sys_ok (e : Event) : Prop := match e with EvSys _ (Ok _) => True | _ => False end.

(** A look at the parent that found the process [ppid], and the pause after it. *)
Definition looks_for (ppid : Z) (e : Event) : Prop :=
  match e with
  | EvSys SysGetPpid answer => number answer = ppid
  | EvSys (SysSleep ms) _ => ms = 10
  | _ => False
  end.

(** How many times the log says that the parent was looked up. *)
Definition parent_looks (l : log) : nat :=
  length (List.filter (fun e => match e with EvSys SysGetPpid _ => true | _ => false end) l).

Lemma parent_looks_app l1 l2 : parent_looks (l1 ++ l2) = (parent_looks l1 + parent_looks l2)%nat.
Proof. unfold parent_looks. by rewrite List.filter_app, length_app. Qed.

Section Lemmas.
Context `{KN : Kernel}.

Lemma process_number_run c w :
  process_number c w =
    (Return (Ok (number (k_sys (w_log w) c))), grow w [EvSys c (k_sys (w_log w) c)]).
Proof. unfold process_number, bind, attempt, syscall. simpl. by destruct (k_sys _ _). Qed.

Lemma wait_orphaned_run rounds ppid w b w' :
  wait_orphaned rounds ppid w = (Return (Ok b), w') ->
  exists waited, Forall (looks_for ppid) waited /\
    if b then exists parent, w' = grow w (waited ++ [EvSys SysGetPpid parent]) /\ number parent <> ppid
    else w' = grow w waited.
Proof.
  revert w. induction rounds as [|rounds IH]; intros w E; cbn [wait_orphaned] in E.
  { m_inv. exists []. by rewrite grow_nil. }
  unfold bind at 1 in E. rewrite process_number_run in E. cbv beta iota in E.
  destruct (Z.eqb_spec (number (k_sys (w_log w) SysGetPpid)) ppid) as [Hp|Hp].
  2: { m_inv. exists []. split; [constructor|]. eexists. split; [reflexivity|done]. }
  apply bind_ok_inv in E as (r & w2 & E2%attempt_inv & E). unfold syscall in E2. simplify_eq.
  apply IH in E as (waited & Hw & E). match type of E with context [add_event ?e _] => set (sleep := e) in E end.
  exists ([EvSys SysGetPpid (k_sys (w_log w) SysGetPpid); sleep] ++ waited).
  split. { simpl. by repeat constructor. }
  change (add_event sleep ?x) with (grow x [sleep]) in E. rewrite !grow_grow in E.
  destruct b; [|done]. destruct E as (parent & -> & Hn). exists parent.
  by rewrite grow_grow, app_assoc.
Qed.

Lemma set_mask_run block text code l set w s w' :
  set_mask block text code l (mk_signal_handler (Some set)) w = (Return (Ok s), w') ->
  s = mk_signal_handler (Some set) /\
  exists ns, w' = grow w [EvSys (SysSigMask block set) (Ok ns)].
Proof.
  unfold set_mask, bind, map_err_to, syscall. simpl.
  destruct (k_sys _ _) as [ns|e] eqn:E; [|done]. intros [= <- <-]. split; [done|]. by exists ns.
Qed.
End Lemmas.

Lemma wait_orphaned_ends `{KN : Kernel} ppid n rounds w :
  (forall l, (n <= parent_looks l)%nat -> number (k_sys l SysGetPpid) <> ppid) ->
  (parent_looks (w_log w) <= n < rounds + parent_looks (w_log w))%nat ->
  exists w', wait_orphaned rounds ppid w = (Return (Ok true), w').
Proof.
  intros Hgone. revert w. induction rounds as [|rounds IH]; intros w Hn; cbn [wait_orphaned]; [lia|].
  unfold bind at 1. rewrite process_number_run. cbv beta iota.
  destruct (Z.eqb_spec (number (k_sys (w_log w) SysGetPpid)) ppid) as [Hp|Hp]; [|by eexists].
  assert (parent_looks (w_log w) < n)%nat. { apply Nat.nle_gt. intros H. by apply Hgone in H. }
  unfold bind, attempt, syscall. cbv beta iota. apply IH.
  simpl. rewrite !parent_looks_app. unfold parent_looks in *. simpl. lia.
Qed.

Section Start.
Context `{KN : Kernel}.

Lemma returns_set_mask block text code l h : returns (set_mask block text code l h).
Proof. unfold set_mask. destruct (sig_set h); returns. Qed.
Lemma returns_wait_orphaned rounds ppid : returns (wait_orphaned rounds ppid).
Proof.
  induction rounds; cbn [wait_orphaned]; unfold process_number; returns.
Qed.
Lemma returns_create rounds logger : returns (create_enclave_process rounds logger).
Proof.
  pose proof returns_set_mask. pose proof returns_wait_orphaned.
  unfold create_enclave_process, process_number, mask_all, unmask_all. returns.
Qed.

Lemma errs_create rounds logger :
  errs (fun e => error_code e ∈
    [SignalMaskingError; DaemonizeProcessFailure; LockAcquireFailure; SignalUnmaskingError])
    (create_enclave_process rounds logger).
Proof.
  assert (forall P rounds ppid, errs P (wait_orphaned rounds ppid)) as Hw.
  { intros P n ppid. induction n; cbn [wait_orphaned]; unfold process_number; errs. }
  unfold create_enclave_process, mask_all, unmask_all, set_mask, process_number, update_logger_id.
  errs; try (apply errs_of_result; intros e; destruct (poisoned _); simpl; intros [= <-]); simpl; set_solver.
Qed.
End Start.

Section Spawn.
Context `{IF : ImageFormat} `{IT : @ImageTools IF} `{KN : Kernel} `{EV : Env}
  `{Serde EnclaveProcessCommandType} `{Serde EnclaveProcessReply} `{Serde unit}
  `{Serde RunEnclavesArgs} `{Serde DescribeEnclavesArgs} `{Serde string}
  `{ToJson EnclaveRunInfo} `{ToJson EnclaveTerminateInfo} `{ToJson EnclaveDescribeInfo} `{ToJson string}.

(** What the parent has done when it goes on with the stream [comm]: the other end
    of the socket pair has been left to the child, and closed. *)
Definition spawned (comm : Z) (evs : log) : Prop :=
  exists fds flags set pid closed,
    comm = hd (-1) fds /\ head pid <> Some 0 /\
    let child_end := hd (-1) (tl fds) in
    evs = [EvSys SysSocketPair (Ok fds); EvSys (SysFcntlGet child_end) flags;
           EvSys (SysFcntlSet child_end (Z.land (number flags) (Z.lnot FD_CLOEXEC))) set;
           EvSys SysFork (Ok pid); EvClose child_end closed].

Lemma syscall_logged c w r w' : syscall c w = (Return r, w') -> w' = grow w [EvSys c r].
Proof. unfold syscall. by intros [= <- <-]. Qed.

Lemma process_number_answer c w n w' :
  process_number c w = (Return (Ok n), w') -> exists r, n = number r /\ w' = grow w [EvSys c r].
Proof. rewrite process_number_run. intros [= <- <-]. eauto. Qed.

Lemma spawn_parent logger rounds w comm w' :
  enclave_proc_spawn logger rounds w = (Return (Ok (Some comm)), w') ->
  exists evs, w' = grow w evs /\ spawned comm evs.
Proof.
  unfold enclave_proc_spawn. intros E.
  apply bind_ok_inv in E as (fds & w1 & E1%map_err_to_ok_inv%syscall_logged & E).
  apply bind_ok_inv in E as (n & w2 & (flags & -> & E2)%process_number_answer & E).
  apply bind_ok_inv in E as (? & w3 & (set & _ & E3)%process_number_answer & E).
  apply bind_ok_inv in E as (pid & w4 & E4%attempt_inv%syscall_logged & E).
  destruct pid as [pid|e].
  2: { apply bind_ok_inv in E as (? & ? & _ & E). by apply bind_ok_inv in E as (? & ? & _ & ?). }
  assert (head pid <> Some 0 /\ exists closed, comm = hd (-1) fds /\
    w' = grow w4 [EvClose (hd (-1) (tl fds)) closed]) as (Hpid & closed & -> & ->).
  { destruct pid as [|[]]; [| by apply bind_ok_inv in E as (? & ? & _ & ?)| |]; (split; [done|]);
      apply bind_ok_inv in E as (closed & w5 & [= _ <-] & [= <- <-]); by eexists. }
  subst. rewrite !grow_grow. eexists. split; [reflexivity|].
  by exists fds, flags, set, pid, closed.
Qed.
End Spawn.

(** ** What starting a process promises *)

(** While the process becomes a daemon it blocks the hang-up signal: a
    successful start blocks SIGHUP, asks for its own ID, daemonizes, looks for
    its parent every 10 ms until that is no longer the process it was before, and
    only then unblocks SIGHUP; the log writer has the ID of the daemon. *)
Theorem daemon_blocks_hangup `{KN : Kernel} rounds logger logger' w w' :
  create_enclave_process rounds logger w = (Return (Ok (Some logger')), w') ->
  exists m pid d waited parent u,
    w' = grow w ([EvSys (SysSigMask true [SIGHUP]) (Ok m); EvSys SysGetPid pid; EvSys SysDaemon (Ok d)] ++
                 waited ++ [EvSys SysGetPpid parent; EvSys (SysSigMask false [SIGHUP]) (Ok u)]) /\
    Forall (looks_for (number pid)) waited /\ number parent <> number pid /\
    poisoned logger = false /\ logger' = mk_mutex false ("enc-xxxxxxx:" +:+ show_u k_process_id)%string.
Proof.
  unfold create_enclave_process, mask_all, unmask_all. intros E.
  apply bind_ok_inv in E as (h & w1 & E1%map_err_ok_inv & E). apply set_mask_run in E1 as (-> & m & ->).
  unfold bind at 1 in E. rewrite process_number_run in E. cbv beta iota in E.
  apply bind_ok_inv in E as (d & w3 & E3%map_err_to_ok_inv & E). unfold syscall in E3. injection E3 as E3 <-.
  apply bind_ok_inv in E as (lg & w4 & [E4 ->]%of_result_inv & E).
  apply bind_ok_inv in E as (b & w5 & (waited & Hw & Hb)%wait_orphaned_run & E).
  destruct b; [|by m_inv]. destruct Hb as (parent & -> & Hn).
  apply bind_ok_inv in E as (h' & w6 & (-> & u & ->)%map_err_ok_inv%set_mask_run & E). m_inv.
  unfold update_logger_id in E4. destruct (poisoned logger); simpl in E4; simplify_eq.
  exists m, (k_sys (w_log w ++ [EvSys (SysSigMask true [SIGHUP]) (Ok m)]) SysGetPid), d, waited, parent, u.
  split_and!; try done. unfold add_event, grow. simpl. cbn in E3. rewrite E3, <- !app_assoc. done.
Qed.

(** C28: The start ends: when the kernel hands the process over to another parent
    by the [n]-th look at the latest, one round more than that is enough, and then
    the start succeeds or fails with one of its four errors; it never panics or
    leaves the process. *)
Theorem daemon_start_ends `{KN : Kernel} n rounds logger w :
  (forall l l', (n <= parent_looks l)%nat -> number (k_sys l SysGetPpid) <> number (k_sys l' SysGetPid)) ->
  (parent_looks (w_log w) <= n < rounds + parent_looks (w_log w))%nat ->
  exists r w', create_enclave_process rounds logger w = (Return r, w') /\
    match r with
    | Ok started => is_Some started
    | Err e => error_code e ∈
        [SignalMaskingError; DaemonizeProcessFailure; LockAcquireFailure; SignalUnmaskingError]
    end.
Proof.
  intros Hgone Hn. destruct (returns_create rounds logger w) as (r & w' & E). exists r, w'. split; [done|].
  destruct r as [started|e]; [|by eapply errs_create].
  unfold create_enclave_process, mask_all, unmask_all in E.
  apply bind_ok_inv in E as (h & w1 & E1%map_err_ok_inv & E). apply set_mask_run in E1 as (-> & m & ->).
  unfold bind at 1 in E. rewrite process_number_run in E. cbv beta iota in E.
  apply bind_ok_inv in E as (d & w3 & E3%map_err_to_ok_inv & E). unfold syscall in E3. injection E3 as E3 <-.
  apply bind_ok_inv in E as (lg & w4 & [E4 ->]%of_result_inv & E).
  unfold bind at 1 in E. match type of E with context [wait_orphaned rounds ?p ?w4] =>
    destruct (wait_orphaned_ends p n rounds w4) as (w5 & Ew) end.
  - intros l Hl. by apply Hgone.
  - simpl. rewrite !parent_looks_app. unfold parent_looks in *. simpl. lia.
  - rewrite Ew in E. m_inv. by eexists.
Qed.

Definition gone_system : Kernel := {|
  k_mmap := sample_mmap; k_munmap _ _ _ := 0; k_ioctl := sample_ioctl; k_close _ _ := 0;
  k_open_device _ := Ok 4; k_vsock_bind _ _ _ := None; k_poll _ _ _ := None; k_accept _ _ := None;
  k_read _ _ _ := None; k_write _ _ _ := None; k_shutdown _ _ := None; k_epoll_add _ _ := None;
  k_epoll_del _ _ := None;
  k_sys l c := match c with
               | SysGetPid => Ok [100]
               | SysGetPpid => Ok [if (parent_looks l <? 2)%nat then 100 else 1]
               | _ => Ok []
               end;
  k_interruptions _ := 0%nat; k_peer_credentials _ := Ok (0, 0); k_threads _ := []; k_getuid := 0; k_process_id := 101;
|}.

Lemma daemon_blocks_hangup_witness :
  exists w' m pid d waited parent u,
    @create_enclave_process gone_system 3 (mk_mutex false ""%string) world0 =
      (Return (Ok (Some (mk_mutex false "enc-xxxxxxx:101"%string))), w') /\
    w' = grow world0 ([EvSys (SysSigMask true [SIGHUP]) (Ok m); EvSys SysGetPid pid; EvSys SysDaemon (Ok d)] ++
                 waited ++ [EvSys SysGetPpid parent; EvSys (SysSigMask false [SIGHUP]) (Ok u)]) /\
    number parent <> number pid.
Proof.
  set (w' := snd (@create_enclave_process gone_system 3 (mk_mutex false ""%string) world0)).
  assert (@create_enclave_process gone_system 3 (mk_mutex false ""%string) world0 =
    (Return (Ok (Some (mk_mutex false "enc-xxxxxxx:101"%string))), w')) as E by (vm_compute; reflexivity).
  destruct (@daemon_blocks_hangup gone_system _ _ _ _ _ E) as (m & pid & d & waited & parent & u & Ew & _ & Hn & _).
  exists w', m, pid, d, waited, parent, u. split; [exact E|]. split; [exact Ew|exact Hn].
Defined.

Lemma gone_system_hands_over l l' :
  (2 <= parent_looks l)%nat ->
  number (@k_sys gone_system l SysGetPpid) <> number (@k_sys gone_system l' SysGetPid).
Proof. intros Hl. simpl. destruct (Nat.ltb_spec (parent_looks l) 2); [lia|done]. Qed.

Lemma daemon_start_ends_witness :
  exists r w', @create_enclave_process gone_system 3 (mk_mutex false ""%string) world0 = (Return (Ok r), w') /\ is_Some r.
Proof.
  destruct (@daemon_start_ends gone_system 2 3 (mk_mutex false ""%string) world0 gone_system_hands_over)
    as (r & w' & E & Hr); [vm_compute; lia|].
  exists (Some (mk_mutex false "enc-xxxxxxx:101"%string)), w'. split; [|by eexists].
  rewrite (surjective_pairing (create_enclave_process _ _ _)) in E |- *. injection E as _ <-. f_equal.
Defined.
