(* ===== verification/DriverCalls.v ===== *)
(** * The driver's calls are well formed

    The code of a driver call says how many bytes the driver copies in or out of
    the process. This file relates the codes of [Enclave] to the structures of
    [Bindings]: whatever the enclave process does, the argument it hands over is
    the structure of that call, with as many bytes as the code says. *)
From S2P Require Import Prelude.
From S2P Require Import Logs.
From S2P Require Import RustStd.
From S2P Require Import Failure.
From S2P Require Import CommandsParser.
From S2P Require Import EnclaveIds.
From S2P Require Import Os.
From S2P Require Import Bindings.
From S2P Require Import Wire.
From S2P Require Import Connection.
From S2P Require Import Memory.
From S2P Require Import EifWriter.
From S2P Require Import Boot.
From S2P Require Import Events.
From S2P Require Import Enclave.
From S2P Require Import Commands.
From S2P Require Import Listener.
From S2P Require Import SignalHandler.
From S2P Require Import TerminateThread.
From S2P Require Import EventLoop.
From S2P Require Import Process.
From stdpp Require Import base list numbers strings gmap.
From Stdlib Require Import ZArith Lia.
Local Open Scope Z_scope.
Local Open Scope nitro_scope.

(** ** Codes *)

(** The fields of a request code. *)
Definition code_number (code : Z) : Z := Z.land code 0xFF.
Definition code_type (code : Z) : Z := Z.land (Z.shiftr code 8) 0xFF.
Definition code_size (code : Z) : Z := Z.land (Z.shiftr code 16) 0x3FFF.
Definition code_direction (code : Z) : Z := Z.shiftr code 30.

(** What the driver expects for an argument: the number of the call, and whether
    it reads the structure (1), writes it (2) or both (3). *)
Definition arg_number (arg : IoctlArg) : Z :=
  match arg with
  | ArgU64 _ => 0x20
  | ArgU32 _ => 0x21
  | ArgImageLoadInfo _ _ => 0x22
  | ArgUserMemoryRegion _ _ _ => 0x23
  | ArgStartInfo _ _ => 0x24
  end.
Definition arg_direction (arg : IoctlArg) : Z :=
  match arg with ArgU64 _ => 2 | ArgUserMemoryRegion _ _ _ => 1 | _ => 3 end.

Record matches (code : Z) (arg : IoctlArg) : Prop := {
  same_type : code_type code = NE_MAGIC;
  same_number : code_number code = arg_number arg;
  same_direction : code_direction code = arg_direction arg;
  same_size : code_size code = Z.of_nat (length (arg_bytes arg));
}.

Definition well_formed (e : Event) : Prop :=
  match e with EvIoctl _ code arg _ => matches code arg | _ => True end.

(** ** The calls of the program *)

Lemma matches_create v : matches NE_CREATE_VM (ArgU64 v).
Proof. by constructor; rewrite ?length_arg_bytes. Qed.
Lemma matches_vcpu v : matches NE_ADD_VCPU (ArgU32 v).
Proof. by constructor; rewrite ?length_arg_bytes. Qed.
Lemma matches_load f o : matches NE_GET_IMAGE_LOAD_INFO (ArgImageLoadInfo f o).
Proof. by constructor; rewrite ?length_arg_bytes. Qed.
(** The size in the code is that of another structure, which is as large. *)
Lemma matches_region r : matches NE_SET_USER_MEMORY_REGION (user_memory_region r).
Proof. by constructor; rewrite ?length_arg_bytes. Qed.
Lemma matches_start f c : matches NE_START_ENCLAVE (ArgStartInfo f c).
Proof. by constructor; rewrite ?length_arg_bytes. Qed.

Section Calls.
Context `{IF : ImageFormat} `{IT : @ImageTools IF} `{KN : Kernel} `{EV : Env}
  `{Serde EnclaveProcessCommandType} `{Serde EnclaveProcessReply} `{Serde unit}
  `{Serde RunEnclavesArgs} `{Serde DescribeEnclavesArgs} `{Serde string}
  `{ToJson EnclaveRunInfo} `{ToJson EnclaveTerminateInfo} `{ToJson EnclaveDescribeInfo} `{ToJson string}.

(** Computations on a part of the state. *)
Ltac emits_step ::=
  match goal with
  | |- emits _ (lift _) => apply emits_lift
  | |- emits _ (locked _ _) => apply emits_locked
  | |- emits _ (on_allocator _) => apply emits_on_allocator
  | |- emits _ (on_manager _) => apply emits_on_manager
  | |- emits _ (on_listener _) => apply emits_on_listener
  end.

(** *** What makes no driver call *)

Lemma wf_of {E T A} `{HasWorld T} (P : Event -> Prop) (m : M E T A) :
  emits P m -> (forall e, P e -> ~ is_ioctl e) -> emits well_formed m.
Proof. intros Hm HP. eapply emits_impl; [exact Hm|]. intros e He%HP. by destruct e; try destruct (He I). Qed.

Lemma wf_stream {E T A} `{HasWorld T} (m : M E T A) : emits is_stream m -> emits well_formed m.
Proof. intros Hm. eapply wf_of; [exact Hm|]. intros []; naive_solver. Qed.
Lemma wf_memory {E T A} `{HasWorld T} (m : M E T A) : emits is_memory m -> emits well_formed m.
Proof. intros Hm. eapply wf_of; [exact Hm|]. intros []; naive_solver. Qed.
Lemma wf_socket {E T A} `{HasWorld T} (m : M E T A) : emits is_socket m -> emits well_formed m.
Proof. intros Hm. eapply wf_of; [exact Hm|]. intros []; naive_solver. Qed.
Lemma wf_notify {E T A} `{HasWorld T} (m : M E T A) : emits is_notify m -> emits well_formed m.
Proof. intros Hm. eapply wf_of; [exact Hm|]. intros []; naive_solver. Qed.

Lemma wf_notify_error msg : emits well_formed (notify_error msg).
Proof. apply wf_notify, emits_notify_error. Qed.
Lemma wf_exit {A} info (r : NitroCliResult A) : emits well_formed (ok_or_exit_with_errno info r).
Proof. apply wf_notify, emits_ok_or_exit. Qed.
Lemma wf_close E fd : emits well_formed (close fd : M E World Z).
Proof. apply wf_socket, emits_close. Qed.
Lemma wf_vsock_bind E cid port : emits well_formed (vsock_bind cid port : M E World (option Z)).
Proof. apply wf_socket, emits_vsock_bind. Qed.
Lemma wf_enclave_ready l t : emits well_formed (enclave_ready l t).
Proof. apply wf_socket, emits_enclave_ready. Qed.
Lemma wf_open_device : emits well_formed open_device.
Proof. apply emits_one. intros s. eexists. by split. Qed.
Lemma wf_epoll_add fd : emits well_formed (epoll_add fd).
Proof. apply emits_one. intros s. eexists. by split. Qed.
Lemma wf_epoll_del fd : emits well_formed (epoll_del fd).
Proof. apply emits_one. intros s. eexists. by split. Qed.
Lemma wf_shutdown fd : emits well_formed (shutdown fd).
Proof. apply emits_one. intros s. eexists. by split. Qed.
Lemma wf_syscall c : emits well_formed (syscall c).
Proof. by apply emits_syscall. Qed.
Lemma wf_emit e : well_formed e -> emits well_formed (emit e).
Proof. intros He. apply emits_one. intros s. by exists e. Qed.
Lemma wf_allocate : emits well_formed allocate.
Proof. apply wf_memory, emits_allocate. Qed.
Lemma wf_free : emits well_formed allocator_free.
Proof. apply wf_memory, emits_allocator_free. Qed.
Lemma wf_drop : emits well_formed allocator_drop.
Proof. apply wf_memory, emits_allocator_drop. Qed.
Lemma wf_reply c r : emits well_formed (write_reply c r).
Proof. apply wf_stream, emits_write_reply. Qed.
Lemma wf_write_u64 c v : emits well_formed (write_u64 c v).
Proof. apply wf_stream, emits_write_u64. Qed.
Hint Resolve wf_notify_error wf_exit wf_close wf_vsock_bind wf_enclave_ready wf_open_device wf_epoll_add
  wf_epoll_del wf_shutdown wf_syscall wf_allocate wf_free wf_drop wf_reply wf_write_u64
  emits_conn_read emits_update emits_change emits_fetch emits_on_allocator emits_locked emits_on_manager
  emits_on_listener : emits.
Hint Extern 1 (emits _ (emit _)) => (by apply wf_emit) : emits.

Lemma wf_println c msg : emits well_formed (Connection.println c msg).
Proof. unfold Connection.println. emits. Qed.
Lemma wf_eprintln c msg : emits well_formed (Connection.eprintln c msg).
Proof. unfold Connection.eprintln. emits. Qed.
Lemma wf_safe_println c msg : emits well_formed (safe_conn_println c msg).
Proof. unfold safe_conn_println. pose proof wf_println. emits. Qed.
Lemma wf_safe_eprintln c msg : emits well_formed (safe_conn_eprintln c msg).
Proof. unfold safe_conn_eprintln. pose proof wf_eprintln. emits. Qed.
Lemma wf_on_file {A} f (m : IOS File A) : emits well_formed m -> emits well_formed (on_file f m).
Proof. intros Hm. by apply (emits_zoom well_formed _ _ m). Qed.
Lemma wf_owning {E A} fd (m : M E World A) : emits well_formed m -> emits well_formed (owning fd m).
Proof. intros Hm. apply emits_owning; [by intros []|done]. Qed.
Hint Resolve wf_println wf_eprintln wf_safe_println wf_safe_eprintln wf_on_file wf_owning : emits.

(** *** The driver calls *)

Lemma wf_ioctl fd code arg : matches code arg -> emits well_formed (do_ioctl fd code arg).
Proof.
  intros Hm. apply emits_one. intros s. unfold do_ioctl.
  destruct (k_ioctl _ _ _ _) as [[rc errno] arg']. exists (EvIoctl fd code arg rc).
  by destruct (0 <=? rc).
Qed.
Lemma wf_create fd v : emits well_formed (do_ioctl fd NE_CREATE_VM (ArgU64 v)).
Proof. apply wf_ioctl, matches_create. Qed.
Lemma wf_vcpu fd v : emits well_formed (do_ioctl fd NE_ADD_VCPU (ArgU32 v)).
Proof. apply wf_ioctl, matches_vcpu. Qed.
Lemma wf_load fd f o : emits well_formed (do_ioctl fd NE_GET_IMAGE_LOAD_INFO (ArgImageLoadInfo f o)).
Proof. apply wf_ioctl, matches_load. Qed.
Lemma wf_region fd r : emits well_formed (do_ioctl fd NE_SET_USER_MEMORY_REGION (user_memory_region r)).
Proof. apply wf_ioctl, matches_region. Qed.
Lemma wf_start fd f c : emits well_formed (do_ioctl fd NE_START_ENCLAVE (ArgStartInfo f c)).
Proof. apply wf_ioctl, matches_start. Qed.
Hint Resolve wf_create wf_vcpu wf_load wf_region wf_start : emits.

Lemma wf_handle_new cid mem cpus eif debug : emits well_formed (handle_new cid mem cpus eif debug).
Proof. unfold handle_new. emits. apply wf_owning. emits. Qed.
Lemma wf_regions fd rs : emits well_formed (set_user_memory_regions fd rs).
Proof. induction rs; cbn [set_user_memory_regions]; emits. Qed.
Hint Resolve wf_handle_new wf_regions : emits.
Lemma wf_init_memory c : emits well_formed (init_memory c).
Proof. unfold init_memory. emits. Qed.
Lemma wf_init_cpu id : emits well_formed (init_single_cpu id).
Proof. unfold init_single_cpu. emits. Qed.
Hint Resolve wf_init_memory wf_init_cpu : emits.
Lemma wf_cpu_list ids : emits well_formed (init_cpu_list ids).
Proof. induction ids; cbn [init_cpu_list]; emits. Qed.
Lemma wf_cpu_count n : emits well_formed (init_cpu_count n).
Proof. induction n; cbn [init_cpu_count]; emits. Qed.
Hint Resolve wf_cpu_list wf_cpu_count : emits.
Lemma wf_init_cpus : emits well_formed init_cpus.
Proof. unfold init_cpus. emits. Qed.
Lemma wf_start_enclave c : emits well_formed (start c).
Proof. unfold start. emits. Qed.
Lemma wf_terminate_and_notify : emits well_formed terminate_enclave_and_notify.
Proof. unfold terminate_enclave_and_notify, handle_terminate_enclave, release_enclave_descriptor. emits. Qed.
Hint Resolve wf_init_cpus wf_start_enclave wf_terminate_and_notify : emits.
Lemma wf_terminate_error err : emits well_formed (terminate_enclave_error err).
Proof. unfold terminate_enclave_error. emits. Qed.
Hint Resolve wf_terminate_error : emits.
Lemma wf_boot c : emits well_formed (boot_enclave c).
Proof. unfold boot_enclave. emits. Qed.
Lemma wf_handle_drop : emits well_formed handle_drop.
Proof. unfold handle_drop. emits. Qed.
Hint Resolve wf_boot wf_handle_drop emits_manager_drop : emits.
Lemma wf_create_enclave name c : emits well_formed (create_enclave name c).
Proof. unfold create_enclave. emits. Qed.
Hint Resolve wf_create_enclave : emits.
Lemma wf_run_enclave c : emits well_formed (run_enclave c).
Proof. unfold run_enclave. emits. Qed.
Lemma wf_manager_drop : emits well_formed manager_drop.
Proof. apply emits_manager_drop, wf_handle_drop. Qed.
Hint Resolve wf_run_enclave wf_manager_drop : emits.

(** *** Commands *)

Lemma wf_run_enclaves args c : emits well_formed (run_enclaves args c).
Proof. unfold run_enclaves, manager_new, update_state. emits. apply emits_owning_manager; emits. Qed.

Lemma wf_with_local {T S A} (t : T) (m : IOS T A) (d : IOS T unit) (k : A -> IOS S unit) :
  emits well_formed m -> emits well_formed d -> (forall a, emits well_formed (k a)) ->
  emits well_formed (with_local t m d k).
Proof.
  intros Hm Hd Hk [s w]. destruct (Hm (t, w)) as (e1 & E1 & F1). unfold with_local.
  destruct (m (t, w)) as [[[a|e]|c|] [t1 w1]];
    cbv [log_of has_log_world world_of has_world_pair has_world_world snd] in *; try (by exists e1).
  match goal with |- context [bind ?m' ?k' (s, w1)] =>
    assert (emits well_formed (bind m' k')) as He end.
  { apply emits_bind; [by apply emits_try|intros r]. apply emits_bind; [|emits]. intros [s2 w2]. destruct (Hd (t1, w2)) as (e2 & E2 & F2). exists e2.
    cbv [log_of has_log_world world_of has_world_pair has_world_world] in *. by destruct (d _) as [? [? ?]]. }
  destruct (He (s, w1)) as (e2 & E2 & F2). exists (e1 ++ e2). rewrite app_assoc, <- E1. split; [exact E2|].
  by apply Forall_app.
Qed.

Lemma wf_terminate_enclave : emits well_formed terminate_enclave.
Proof.
  unfold terminate_enclave, get_termination_resources, peek, release_resources, release_enclave_descriptor.
  emits. apply wf_with_local; emits.
Qed.
Hint Resolve wf_run_enclaves wf_terminate_enclave : emits.
Lemma wf_terminate_enclaves c : emits well_formed (terminate_enclaves c).
Proof. unfold terminate_enclaves, update_state. emits. Qed.
Lemma wf_describe_enclaves c b : emits well_formed (describe_enclaves c b).
Proof.
  unfold describe_enclaves, get_enclave_describe_info, get_description_resources, get_metadata,
    get_measurements, peek. emits.
Qed.
Hint Resolve wf_terminate_enclaves wf_describe_enclaves : emits.

(** *** The listener *)

Lemma wf_send_single {T} `{Serde T} cmd (args : option T) fd :
  emits well_formed (enclave_proc_command_send_single cmd args fd).
Proof.
  apply wf_stream. unfold enclave_proc_command_send_single, send_command_bytes. emits.
Qed.
Lemma wf_sock_drop s : emits well_formed (Socket.sock_drop s).
Proof. unfold Socket.sock_drop, Socket.close_mut, Socket.path_exists. emits. Qed.
Hint Resolve wf_send_single wf_sock_drop : emits.
Lemma wf_sock_close s : emits well_formed (Socket.sock_close s).
Proof. unfold Socket.sock_close, Socket.close_mut, Socket.path_exists. emits. Qed.
Lemma wf_listener_start id : emits well_formed (listener_start id).
Proof. unfold listener_start, enable_credentials_passing, Socket.start_monitoring, lending. emits. Qed.
Hint Resolve wf_sock_close wf_listener_start : emits.
Lemma wf_listener_stop : emits well_formed listener_stop.
Proof. unfold listener_stop, join_listener. emits. Qed.
Lemma wf_epoll_wait n fd : emits well_formed (epoll_wait_retry n fd).
Proof. induction n; cbn [epoll_wait_retry]; emits. Qed.
Hint Resolve wf_listener_stop wf_epoll_wait : emits.
Lemma wf_get_next l fd : emits well_formed (get_next_connection l fd).
Proof. unfold get_next_connection. emits. Qed.
Lemma wf_handle_new_connection fd : emits well_formed (handle_new_connection fd).
Proof. unfold handle_new_connection, add_stream_to_epoll. emits. Qed.
Lemma wf_connection_drop c : emits well_formed (connection_drop c).
Proof. unfold connection_drop. emits. Qed.
Hint Resolve wf_get_next wf_handle_new_connection wf_connection_drop : emits.

(** *** The event loop *)

Lemma wf_notify_with_conn msg c cmd : emits well_formed (notify_error_with_conn msg c cmd).
Proof. unfold notify_error_with_conn. emits. Qed.
Lemma wf_send_and_close cmd fd : emits well_formed (send_command_and_close cmd fd).
Proof. unfold send_command_and_close. emits. Qed.
Hint Resolve wf_notify_with_conn wf_send_and_close : emits.
Lemma wf_run_terminate c fd r : emits well_formed (run_terminate c fd r).
Proof. unfold run_terminate. emits. Qed.
Hint Resolve wf_run_terminate : emits.

(** The threads. *)
Lemma wf_on_local {T S A} (t : T) (m : IOS T A) : emits well_formed m -> emits well_formed (on_local t m : IOS S _).
Proof.
  intros Hm [s w]. destruct (Hm (t, w)) as (evs & L & F). exists evs. unfold on_local.
  cbv [log_of has_log_world world_of has_world_pair has_world_world] in *.
  by destruct (m (t, w)) as [[[?|?]|?|] [? ?]].
Qed.

Lemma wf_thread_step th : emits well_formed (thread_step th).
Proof.
  unfold thread_step. destruct (th_step th); cbn [terminate_step];
    unfold branch, update_state, get_termination_resources, peek, release_resources, release_enclave_descriptor;
    emits; apply wf_on_local; emits.
Qed.
Lemma wf_on_thread i : emits well_formed (on_thread i).
Proof.
  unfold on_thread. apply emits_bind; [emits|intros [s0 w0]]. destruct (_ !! i) as [th|]; [|emits].
  intros s. destruct (emits_on_manager well_formed _ (wf_thread_step th) s) as (evs & L & F). exists evs.
  cbv [log_of has_log_world world_of has_world_pair has_world_world] in *.
  destruct (on_manager _ s) as [o [s' w']]. by destruct o.
Qed.
Hint Resolve wf_on_thread : emits.
Lemma wf_on_threads l : emits well_formed (on_threads l).
Proof. induction l; cbn [on_threads]; emits. Qed.
Lemma wf_finish n i : emits well_formed (finish_thread n i).
Proof. induction n; cbn [finish_thread]; emits. Qed.
Hint Resolve wf_on_threads wf_finish : emits.
Lemma wf_meanwhile : emits well_formed meanwhile.
Proof. unfold meanwhile. emits. Qed.
Hint Resolve wf_meanwhile : emits.
Lemma wf_handle_run c : emits well_formed (handle_run c).
Proof. unfold handle_run, register_enclave_descriptor, get_enclave_descriptor, peek. emits. Qed.
Lemma wf_handle_terminate c : emits well_formed (handle_terminate c).
Proof. unfold handle_terminate, notify_terminate, add_stream_to_epoll. emits. Qed.
Hint Resolve wf_handle_run wf_handle_terminate : emits.
Lemma wf_handle_command cmd c : emits well_formed (handle_command cmd c).
Proof.
  destruct cmd; cbn [handle_command]; unfold handle_get, confirm, print_json,
    get_console_resources_enclave_cid, get_console_resources_enclave_flags, peek; emits.
Qed.
Lemma wf_join : emits well_formed join_terminate_thread.
Proof.
  unfold join_terminate_thread. emits.
Qed.
Hint Resolve wf_handle_command wf_join : emits.
Lemma wf_handle_connection c : emits well_formed (handle_connection c).
Proof.
  unfold handle_connection, execute_command, try_handle_enclave_event, get_enclave_event_flags, write_status,
    read_command. emits; apply emits_with_stream; intros ?; emits.
Qed.
Hint Resolve wf_handle_connection : emits.
Lemma wf_event_loop rounds : emits well_formed (event_loop rounds).
Proof.
  induction rounds; cbn [event_loop]; unfold round, get_enclave_descriptor, peek; emits.
Qed.
Lemma wf_configure_signals : emits well_formed enclave_proc_configure_signal_handler.
Proof. unfold enclave_proc_configure_signal_handler, mask_all, set_mask, add_stream_to_epoll. emits. Qed.
Hint Resolve wf_event_loop wf_configure_signals : emits.
Lemma wf_process_event_loop stream logger rounds : emits well_formed (process_event_loop stream logger rounds).
Proof.
  unfold process_event_loop, listener_new. emits. intros w.
  match goal with |- context [bind ?m ?k (?s0, w)] =>
    assert (emits well_formed (bind m k)) as He by emits; destruct (He (s0, w)) as (evs & L & F); exists evs end.
  cbv [log_of has_log_world world_of has_world_pair has_world_world] in *.
  by destruct (bind _ _ _) as [r [s w']].
Qed.
Lemma wf_wait_orphaned n ppid : emits well_formed (wait_orphaned n ppid).
Proof. induction n; cbn [wait_orphaned]; unfold process_number; emits. Qed.
Hint Resolve wf_process_event_loop wf_wait_orphaned : emits.
Lemma wf_create_process rounds logger : emits well_formed (create_enclave_process rounds logger).
Proof. unfold create_enclave_process, mask_all, unmask_all, set_mask, process_number. emits. Qed.
Hint Resolve wf_create_process : emits.

(** C26: in whatever the enclave process does, from its start to its end, the
    terminating threads included, each driver call has the code that
    belongs to its argument: the driver's magic number, the number of the call,
    the direction of the copy, and the size that the argument has in memory as the
    C structure of the bindings. *)
Theorem driver_calls_well_formed (comm_stream : Z) (logger : Mutex string) (rounds : nat) (w : World) :
  exists evs, w_log (snd (enclave_process_run comm_stream logger rounds w)) = w_log w ++ evs /\
    forall fd code arg rc, EvIoctl fd code arg rc ∈ evs -> matches code arg.
Proof.
  assert (emits well_formed (enclave_process_run comm_stream logger rounds)) as He
    by (unfold enclave_process_run; emits).
  destruct (He w) as (evs & L & F). exists evs. split; [exact L|]. intros fd code arg rc Hin.
  by apply (proj1 (Forall_forall _ _) F) in Hin.
Qed.
End Calls.
