(* ===== verification/ClientComm.v ===== *)
(** * The client's side of the protocol (src/src/enclave_proc_comm.rs)

    How a CLI instance finds the enclave processes, sends them a command, waits
    for their confirmations, and collects what they answer. *)
From S2P Require Import Prelude.
From S2P Require Import RustStd.
From S2P Require Import Failure.
From S2P Require Import EnclaveIds.
From S2P Require Import Os.
From S2P Require Import Sample.
From S2P Require Import Wire.
From S2P Require Import Connection.
From S2P Require Import Memory.
From S2P Require Import Logs.
From S2P Require Import Events.
From stdpp Require Import base list numbers strings gmap.
From Stdlib Require Import ZArith Lia.
Local Open Scope Z_scope.
Local Open Scope nitro_scope.

(** Printing here is to the terminal, not to a connection. *)
Abbreviation println := Os.println.
Abbreviation eprintln := Os.eprintln.

Definition failure_at (subaction : string) (code : NitroCliErrorEnum) (l : Z) : NitroCliFailure :=
  new_nitro_cli_failure subaction code "src/enclave_proc_comm.rs" l.

(** An entry of the sockets directory: its path, when the entry could be read
    and the path is valid Unicode, and whether it is a directory. *)
Record DirEntry : Type := mk_entry {
  entry_path : option string;
  entry_is_dir : bool;
}.

(** The text of the error whose kind is [PermissionDenied]. *)
Definition permission_denied : string := "Permission denied (os error 13)".

Section Comm.
Context `{Kernel} `{Env} `{Serde EnclaveProcessCommandType} `{Serde EnclaveProcessReply}.

(** ** Finding the enclave processes *)

(** The closure that tries one path. *)
(* src/src/enclave_proc_comm.rs:88-123 enclave_proc_connect_to_all *)
Definition try_socket (path_str : string) : IO (option Z) :=
  if negb (ends_with ".sock" path_str) then ret None
  else
    let! r := attempt (syscall (SysUnixConnect path_str)) in
    match r with
    | Ok fd => ret (Some (hd (-1) fd))
    | Err e =>
        if decide (e = permission_denied) then ret None
        else
          let! _ := attempt (F := NitroCliFailure) (syscall (SysRemoveFile path_str)) in
          ret None
    end.

Fixpoint try_sockets (entries : list DirEntry) : IO (list Z) :=
  match entries with
  | [] => ret []
  | e :: entries =>
      match entry_path e with
      | Some path_str =>
          if entry_is_dir e then try_sockets entries
          else
            let! conn := try_socket path_str in
            let! conns := try_sockets entries in
            ret (match conn with Some fd => fd :: conns | None => conns end)
      | None => try_sockets entries
      end
  end.

(* src/src/enclave_proc_comm.rs enclave_proc_connect_to_all *)
Definition enclave_proc_connect_to_all (dir : result string (list DirEntry)) : IO (list Z) :=
  let! paths := of_result (rmap_err (fun e =>
    failure_at ("Failed to access sockets directory: " +:+ e) ReadFromDiskFailure 79) dir) in
  try_sockets paths.

(* src/src/enclave_proc_comm.rs enclave_proc_connect_to_single *)
Definition enclave_proc_connect_to_single (enclave_id : string) : IO Z :=
  let! socket_path := of_result (rmap_err (fun e =>
    set_error_code SocketError (add_subaction "Connect to specific enclave process" e))
    (get_socket_path env_sockets_path enclave_id)) in
  let! fd := map_err_to (fun e =>
    failure_at ("Failed to connect to specific enclave process: " +:+ e) SocketError 134)
    (syscall (SysUnixConnect socket_path)) in
  ret (hd (-1) fd).

(** ** Broadcasting a command *)

(** The closure that sends to one socket; the socket is closed when the send
    fails. *)
(* src/src/enclave_proc_comm.rs:162-181 enclave_proc_command_send_all *)
Definition send_to {T} `{Serde T} (cmd : EnclaveProcessCommandType) (args : option T) (socket : Z)
    : IO unit :=
  let! sent := try (enclave_proc_command_send_single cmd args socket) in
  match sent with
  | Err e => let! _ := close socket in fail e
  | Ok _ =>
      map_err_to (fun e => failure_at ("Failed to register socket with epoll: " +:+ e) EpollError 172)
        (fun w =>
          let r := k_epoll_add (w_log w) socket in
          (Return (match r with None => Ok tt | Some e => Err e end), add_event (EvEpollAdd socket r) w))
  end.

Fixpoint send_to_each {T} `{Serde T} (cmd : EnclaveProcessCommandType) (args : option T)
    (sockets : list Z) : IO (list (NitroCliResult unit)) :=
  match sockets with
  | [] => ret []
  | socket :: sockets =>
      let! r := try (send_to cmd args socket) in
      let! rs := send_to_each cmd args sockets in
      ret (r :: rs)
  end.

(** [epoll_wait] with the time-out, retried while it is interrupted: the
    descriptor that is ready, or [None] when the time has passed. *)
Fixpoint wait_reply (interruptions : nat) (epoll_fd : Z) : IO (option Z) :=
  match interruptions with
  | O =>
      let! event := map_err_to (fun e => failure_at ("Failed to wait on epoll: " +:+ e) EpollError 202)
        (syscall (SysEpollWait epoll_fd)) in
      ret (head event)
  | S n =>
      do! emit (EvSys (SysEpollWait epoll_fd) (Err "EINTR"%string));
      wait_reply n epoll_fd
  end.

(** Streams owned by the function are closed when it returns an error. *)
Fixpoint close_all (fds : list Z) : IO unit :=
  match fds with
  | [] => ret tt
  | fd :: fds => let! _ := close fd in close_all fds
  end.
Definition or_close {A} (fds : list Z) (m : IO A) : IO A :=
  let! r := try m in
  match r with
  | Ok a => ret a
  | Err e => do! close_all fds; fail e
  end.

(** The loop over the expected replies. A stream that does not confirm is
    closed at the end of its round. *)
(* src/src/enclave_proc_comm.rs:196-241 enclave_proc_command_send_all *)
Fixpoint collect_confirmations (num_replies_expected : nat) (epoll_fd : Z) (replies : list Z)
    : IO (list Z) :=
  match num_replies_expected with
  | O => ret replies
  | S n =>
      let! k := gets (fun w => k_interruptions (w_log w)) in
      let! event := or_close replies (wait_reply k epoll_fd) in
      match event with
      | None => collect_confirmations n epoll_fd replies
      | Some fd =>
          let! reply := try (read_u64_le fd) in
          let confirmed :=
            match reply with Ok v => v =? MSG_ENCLAVE_CONFIRM | Err _ => false end in
          do! or_close (replies ++ [fd]) (map_err_to (fun e =>
                failure_at ("Failed to remove socket from epoll: " +:+ e) EpollError 236)
                (fun w =>
                  let r := k_epoll_del (w_log w) fd in
                  (Return (match r with None => Ok tt | Some e => Err e end), add_event (EvEpollDel fd r) w)));
          do! (if confirmed then ret tt else let! _ := close fd in ret tt);
          collect_confirmations n epoll_fd (if confirmed then replies ++ [fd] else replies)
      end
  end.

Definition count_errors (rs : list (NitroCliResult unit)) : nat :=
  length (List.filter (fun r => negb (is_ok r)) rs).

(* src/src/enclave_proc_comm.rs enclave_proc_command_send_all *)
Definition enclave_proc_command_send_all {T} `{Serde T} (dir : result string (list DirEntry))
    (cmd : EnclaveProcessCommandType) (args : option T) : IO (list Z * Z) :=
  let! epoll_fd := map_err_to (fun e => failure_at ("Failed to create epoll: " +:+ e) EpollError 152)
    (syscall SysEpollCreate) in
  let! sockets := map_err (add_subaction "Failed to send command to all enclave processes")
    (enclave_proc_connect_to_all dir) in
  let! comms := send_to_each cmd args sockets in
  match comms with
  | [] => ret ([], 0)
  | _ =>
      let! replies := collect_confirmations (length comms - count_errors comms) (hd (-1) epoll_fd) [] in
      ret (replies, Z.of_nat (length comms) - Z.of_nat (length replies))
  end.

(** ** Collecting the answers *)

(** The loop that reads replies until one cannot be received. The fuel bounds
    the number of replies; running out of it is a panic. *)
(* src/src/enclave_proc_comm.rs:258-264 enclave_proc_handle_output *)
Fixpoint read_replies (fuel : nat) (conn : Z) (stdout_str : string) (status : option Z)
    : IO (string * option Z) :=
  match fuel with
  | O => panic
  | S fuel =>
      let! reply := try (receive_from_stream EnclaveProcessReply conn) in
      match reply with
      | Ok (StdOutMessage msg) => read_replies fuel conn (stdout_str +:+ msg) status
      | Ok (StdErrMessage msg) => do! eprint msg; read_replies fuel conn stdout_str status
      | Ok (Status status_code) => read_replies fuel conn stdout_str (Some status_code)
      | Err _ => ret (stdout_str, status)
      end
  end.

(** Every reply takes at least the eight bytes of its length. *)
Definition reply_fuel (conn : Z) (w : World) : nat := S (length (default [] (w_in w !! conn))).

(* src/src/enclave_proc_comm.rs enclave_proc_handle_output *)
Definition enclave_proc_handle_output (T : Type) `{FromJson T} (conn : Z)
    : IO (option T * option Z) :=
  let! fuel := gets (reply_fuel conn) in
  let! '(stdout_str, status) := read_replies fuel conn "" None in
  let! shut := attempt (shutdown conn) in
  let! status :=
    match shut with
    | Ok _ => ret status
    | Err e => do! notify_error ("Failed to shut connection down: " +:+ e); ret (Some (-1))
    end in
  ret (to_option (from_json stdout_str), status).

(* src/src/enclave_proc_comm.rs enclave_proc_handle_outputs *)
Fixpoint enclave_proc_handle_outputs (T : Type) `{FromJson T} (conns : list Z) : IO (list (T * Z)) :=
  match conns with
  | [] => ret []
  | conn :: conns =>
      let! '(object, status) := enclave_proc_handle_output T conn in
      let! objects := enclave_proc_handle_outputs T conns in
      ret (match object, status with
           | Some o, Some s => (o, s) :: objects
           | _, _ => objects
           end)
  end.

Fixpoint print_objects {T} `{ToJson T} (objects : list T) : IO unit :=
  match objects with
  | [] => ret tt
  | o :: objects =>
      let! text := of_result (rmap_err (fun e =>
        failure_at ("Failed to print JSON object: " +:+ e) SerdeError 332) (to_string_pretty o)) in
      do! println text;
      print_objects objects
  end.

Definition not_allowed (allowed : list Z) {T} (v : T * Z) : bool :=
  negb (bool_decide (snd v ∈ allowed)).

(* src/src/enclave_proc_comm.rs enclave_process_handle_all_replies *)
Definition enclave_process_handle_all_replies (T : Type) `{FromJson T} `{ToJson T} `{ToJson (list T)}
    (replies : list Z) (prev_failed_conns : Z) (print_as_vec : bool) (allowed_return_codes : list Z)
    : IO (list T) :=
  let! objects := enclave_proc_handle_outputs T replies in
  let failed_conns :=
    prev_failed_conns + Z.of_nat (length replies) - Z.of_nat (length objects) in
  do! (if 0 <? failed_conns then eprintln ("Failed connections: " +:+ show_u failed_conns) else ret tt);
  do! (if print_as_vec then
         let! text := of_result (rmap_err (fun e =>
           failure_at ("Failed to print JSON vector: " +:+ e) SerdeError 323)
           (to_string_pretty (map fst objects))) in
         println text
       else print_objects (map fst objects));
  let not_executed := length (List.filter (not_allowed allowed_return_codes) objects) in
  if (0 <? not_executed)%nat then
    fail (failure_at ("Failed to execute " +:+ show_u (Z.of_nat not_executed) +:+
            " enclave process commands") EnclaveProcessCommandNotExecuted 347)
  else if 0 <? failed_conns then
    fail (failure_at ("Failed to connect to " +:+ show_u failed_conns +:+ " enclave processes")
            EnclaveProcessConnectionFailure 358)
  else ret (map fst objects).

(** ** Single requests *)

(** The two requests for a number. *)
Definition get_number `{Serde unit} (cmd : EnclaveProcessCommandType) (send_err read_err shut_err : string)
    (l : Z) (enclave_id : string) : IO Z :=
  let! comm := map_err (add_subaction "Failed to connect to enclave process")
    (enclave_proc_connect_to_single enclave_id) in
  owning comm (
    do! map_err (add_subaction send_err)
          (enclave_proc_command_send_single cmd (None : option unit) comm);
    let! v := map_err (add_subaction read_err) (read_u64_le comm) in
    do! map_err_to (fun e => failure_at (shut_err +:+ e) SocketError l) (shutdown comm);
    ret v).

(* src/src/enclave_proc_comm.rs enclave_proc_get_cid *)
Definition enclave_proc_get_cid `{Serde unit} : string -> IO Z :=
  get_number GetEnclaveCID "Failed to send CID request to enclave process"
    "Failed to read CID from enclave process"
    "Failed to shut down connection after obtaining enclave CID: " 385.

(* src/src/enclave_proc_comm.rs enclave_proc_get_flags *)
Definition enclave_proc_get_flags `{Serde unit} : string -> IO Z :=
  get_number GetEnclaveFlags "Failed to send flags request to enclave process"
    "Failed to read flags from enclave process"
    "Failed to shut down connection after obtaining enclave flags: " 415.
End Comm.

(** ** What the replies of a process amount to *)

Definition stdout_of (rs : list EnclaveProcessReply) : string :=
  foldr (fun r acc => match r with StdOutMessage m => m +:+ acc | _ => acc end) ""%string rs.
Definition stderr_of (rs : list EnclaveProcessReply) : list string :=
  omap (fun r => match r with StdErrMessage m => Some m | _ => None end) rs.
Definition status_of (init : option Z) (rs : list EnclaveProcessReply) : option Z :=
  fold_left (fun acc r => match r with Status c => Some c | _ => acc end) rs init.

(** The process writes these replies one after the other. *)
Fixpoint write_replies `{Kernel} `{Serde EnclaveProcessReply} (c : Connection)
    (rs : list EnclaveProcessReply) : IO unit :=
  match rs with
  | [] => ret tt
  | r :: rs => do! write_reply c r; write_replies c rs
  end.

Section Lemmas.
Context `{Kernel} `{SerdeLaws EnclaveProcessReply}.

Lemma write_replies_ok c rs fd w w' :
  input_stream (guarded (data c)) = Some fd ->
  write_replies c rs w = (Return (Ok tt), w') ->
  exists bss, Forall2 (fun r bs => to_vec r = Ok bs) rs bss /\
    written fd (w_log w') = written fd (w_log w) ++ flat_map frame bss.
Proof.
  intros Hfd. revert w. induction rs as [|r rs IH]; intros w E; cbn [write_replies] in E.
  { unfold ret in E. simplify_eq. exists []. split; [constructor|]. by rewrite app_nil_r. }
  m_inv. destruct (IH _ E1) as (bss & Hb & Hw).
  apply with_stream_ok in E0 as (fd' & _ & Hfd' & E0). rewrite Hfd in Hfd'. simplify_eq.
  io_inv. unfold write_u64_le in *. io_inv.
  match goal with X : to_vec r = Ok ?b |- _ => exists (b :: bss); split; [by constructor|] end.
  repeat match goal with X : write_all _ _ _ = _ |- _ => apply write_all_ok in X; subst end.
  rewrite Hw. simpl. rewrite !written_app. simpl. rewrite Z.eqb_refl, !app_nil_r.
  unfold frame. by rewrite <- !app_assoc.
Qed.

Lemma receive_eof fd w :
  default [] (w_in w !! fd) = [] ->
  exists e, receive_from_stream EnclaveProcessReply fd w = (Return (Err e), set_in (<[fd := []]> (w_in w)) w).
Proof.
  intros E. unfold receive_from_stream, read_u64_le, read_exact.
  unfold bind, map_err, map_err_to. rewrite E. simpl. eauto.
Qed.

Lemma read_replies_run rs bss : Forall2 (fun r bs => to_vec r = Ok bs) rs bss ->
  forall fuel conn out st w,
  (length rs < fuel)%nat -> w_in w !! conn = Some (flat_map frame bss) ->
  exists w', read_replies fuel conn out st w = (Return (Ok (out +:+ stdout_of rs, status_of st rs)), w') /\
    w_log w' = w_log w ++ map (EvPrint true) (stderr_of rs) /\ w_in w' = <[conn := []]> (w_in w).
Proof.
  induction 1 as [|r bs rs bss Hr _ IH]; intros fuel conn out st w Hf Hin.
  - destruct fuel as [|fuel]; [simpl in Hf; lia|]. cbn [read_replies].
    destruct (receive_eof conn w) as [e E]; [by rewrite Hin|].
    exists (set_in (<[conn := []]> (w_in w)) w). unfold bind at 1, try. rewrite E. simpl.
    by rewrite app_nil_r, str_app_nil_r.
  - destruct fuel as [|fuel]; [simpl in Hf; lia|]. cbn [read_replies].
    destruct (receive_frame conn r bs (flat_map frame bss) w Hr Hin) as (w1 & E & Hin1 & Hl1 & _).
    unfold bind at 1, try. rewrite E.
    assert (w_in w1 !! conn = Some (flat_map frame bss)) as Hin2 by (by rewrite Hin1, lookup_insert_eq).
    simpl in Hf.
    destruct r as [msg|msg|code].
    + destruct (IH fuel conn (out +:+ msg) st w1) as (w2 & E2 & Hl2 & I2); [lia|done|].
      exists w2. rewrite E2, Hl2, Hl1, I2, Hin1, insert_insert_eq. split; [|done]. simpl. by rewrite str_app_assoc.
    + unfold bind, eprint, modify.
      destruct (IH fuel conn out st (add_event (EvPrint true msg) w1)) as (w2 & E2 & Hl2 & I2); [lia|done|].
      exists w2. rewrite E2, Hl2, I2. simpl. rewrite Hl1, Hin1, insert_insert_eq, <- app_assoc. done.
    + destruct (IH fuel conn out (Some code) w1) as (w2 & E2 & Hl2 & I2); [lia|done|].
      exists w2. rewrite E2, Hl2, Hl1, I2, Hin1, insert_insert_eq. done.
Qed.

Lemma length_frames rs bss : Forall2 (fun r bs => to_vec (T := EnclaveProcessReply) r = Ok bs) rs bss ->
  (length rs <= length (flat_map frame bss))%nat.
Proof.
  induction 1 as [|r bs rs bss _ _ IH]; simpl; [lia|].
  rewrite length_app. assert (1 <= length (frame bs))%nat; [|lia].
  unfold frame. rewrite length_app, length_to_le_bytes. lia.
Qed.
End Lemmas.

(** ** Properties *)

Section Properties.
Context `{Kernel} `{Env} `{Serde EnclaveProcessCommandType} `{SerdeLaws EnclaveProcessReply}.

(** What a client makes of a stream that holds these replies. *)
Lemma handle_output_replies (T : Type) `{FromJson T} rs bss conn v :
  Forall2 (fun r bs => to_vec r = Ok bs) rs bss -> w_in v !! conn = Some (flat_map frame bss) ->
  (forall l fd, k_shutdown l fd = None) ->
  exists v', enclave_proc_handle_output T conn v =
      (Return (Ok (to_option (from_json (stdout_of rs)), status_of None rs)), v') /\
    w_log v' = w_log v ++ map (EvPrint true) (stderr_of rs) ++ [EvShutdown conn None] /\
    w_in v' = <[conn := []]> (w_in v).
Proof.
  intros Hb Hin Hs.
  destruct (read_replies_run rs bss Hb (reply_fuel conn v) conn "" None v) as (w2 & E & Hl & Hi).
  { unfold reply_fuel. rewrite Hin. simpl. pose proof (length_frames _ _ Hb). lia. }
  { done. }
  unfold enclave_proc_handle_output, bind at 1, gets. rewrite (bind_run_ok _ _ _ _ _ E).
  unfold bind, attempt, shutdown. rewrite Hs. simpl. eexists. split; [reflexivity|].
  simpl. by rewrite Hl, Hi, <- app_assoc.
Qed.

(** C15: what an enclave process writes on a connection is what the client makes
    of it: after any sequence of replies, the client decodes the JSON object
    from the messages for standard output put together, has printed the
    messages for standard error in order, and has the last status, or none if
    no status was sent. Shutting the stream down succeeds, as it does for a
    connected Unix socket. *)
Theorem replies_reach_client (T : Type) `{FromJson T} c rs fd conn w w1 v :
  input_stream (guarded (data c)) = Some fd ->
  write_replies c rs w = (Return (Ok tt), w1) ->
  w_in v !! conn = Some (drop (length (written fd (w_log w))) (written fd (w_log w1))) ->
  (forall l fd, k_shutdown l fd = None) ->
  exists v', enclave_proc_handle_output T conn v =
      (Return (Ok (to_option (from_json (stdout_of rs)), status_of None rs)), v') /\
    w_log v' = w_log v ++ map (EvPrint true) (stderr_of rs) ++ [EvShutdown conn None].
Proof.
  intros Hfd Hw Hin Hs. apply (write_replies_ok _ _ _ _ _ Hfd) in Hw as (bss & Hb & Hw).
  rewrite Hw, drop_app_length in Hin.
  destruct (handle_output_replies T rs bss conn v Hb Hin Hs) as (v' & E & L & _). by exists v'.
Qed.

(** What one attempt to connect may remove. *)
Definition stale (p : string) (evs : log) : Prop :=
  ends_with ".sock" p = true /\
  exists e, EvSys (SysUnixConnect p) (Err e) ∈ evs /\ e <> permission_denied.

Definition removals_justified (entries : list DirEntry) (evs : log) : Prop :=
  forall p r, EvSys (SysRemoveFile p) r ∈ evs -> mk_entry (Some p) false ∈ entries /\ stale p evs.

Lemma removals_app entries evs1 evs2 :
  removals_justified entries evs1 -> removals_justified entries evs2 ->
  removals_justified entries (evs1 ++ evs2).
Proof.
  intros J1 J2 p r [Hp|Hp]%elem_of_app.
  - destruct (J1 p r Hp) as (Hin & Hs & e & He & Hne). split; [done|]. split; [done|].
    exists e. rewrite elem_of_app. auto.
  - destruct (J2 p r Hp) as (Hin & Hs & e & He & Hne). split; [done|]. split; [done|].
    exists e. rewrite elem_of_app. auto.
Qed.

Lemma removals_weaken e entries evs :
  removals_justified entries evs -> removals_justified (e :: entries) evs.
Proof. intros J p r Hp. destruct (J p r Hp). rewrite elem_of_cons. auto. Qed.

Lemma removals_nil entries : removals_justified entries [].
Proof. intros p r Hp. by apply elem_of_nil in Hp. Qed.

Lemma try_socket_run p entries w :
  exists r evs w', try_socket p w = (Return (Ok r), w') /\ w_log w' = w_log w ++ evs /\
    removals_justified (mk_entry (Some p) false :: entries) evs.
Proof.
  unfold try_socket. destruct (ends_with ".sock" p) eqn:Hs; simpl.
  2: { exists None, [], w. rewrite app_nil_r. split_and!; try done. apply removals_nil. }
  unfold bind at 1, attempt, syscall.
  destruct (k_sys (w_log w) (SysUnixConnect p)) as [fd|e] eqn:Ek.
  { eexists _, _, _. split; [reflexivity|]. split; [reflexivity|].
    intros q r. rewrite elem_of_cons, elem_of_nil. naive_solver. }
  destruct (decide (e = permission_denied)) as [->|Hne].
  { eexists _, _, _. split; [reflexivity|]. split; [reflexivity|].
    intros q r. rewrite elem_of_cons, elem_of_nil. naive_solver. }
  eexists _, _, _. split; [reflexivity|]. split; [simpl; by rewrite <- app_assoc|].
  intros q r. simpl. rewrite !elem_of_cons, elem_of_nil. intros [?|[?|[]]]; simplify_eq.
  split; [auto|]. split; [done|]. exists e. rewrite !elem_of_cons. auto.
Qed.

Lemma try_sockets_run entries w :
  exists r evs w', try_sockets entries w = (Return (Ok r), w') /\ w_log w' = w_log w ++ evs /\
    removals_justified entries evs.
Proof.
  revert w. induction entries as [|[path dir] entries IH]; intros w; cbn [try_sockets entry_path entry_is_dir].
  { exists [], [], w. rewrite app_nil_r. split_and!; try done. apply removals_nil. }
  destruct path as [p|]; [destruct dir|].
  - destruct (IH w) as (r & evs & w' & E & L & J). exists r, evs, w'. auto using removals_weaken.
  - destruct (try_socket_run p entries w) as (r1 & e1 & w1 & E1 & L1 & J1).
    destruct (IH w1) as (r2 & e2 & w2 & E2 & L2 & J2).
    eexists _, (e1 ++ e2), w2. rewrite (bind_run_ok _ _ _ _ _ E1), (bind_run_ok _ _ _ _ _ E2).
    split; [reflexivity|]. rewrite L2, L1, app_assoc. split; [done|].
    apply removals_app; [done|]. by apply removals_weaken.
  - destruct (IH w) as (r & evs & w' & E & L & J). exists r, evs, w'. auto using removals_weaken.
Qed.

(** Looking for the enclave processes removes a file only when it is one of
    the entries of the sockets directory, no directory, named [*.sock], and
    connecting to it failed for another reason than missing permissions; the
    search itself always succeeds once the directory could be read. *)
Theorem only_stale_sockets_removed (entries : list DirEntry) (w : World) :
  exists conns evs w', enclave_proc_connect_to_all (Ok entries) w = (Return (Ok conns), w') /\
    w_log w' = w_log w ++ evs /\
    forall p r, EvSys (SysRemoveFile p) r ∈ evs ->
      mk_entry (Some p) false ∈ entries /\ ends_with ".sock" p = true /\
      exists e, EvSys (SysUnixConnect p) (Err e) ∈ evs /\ e <> permission_denied.
Proof. apply (try_sockets_run entries w). Qed.

Lemma handle_outputs_length (T : Type) `{FromJson T} conns w objs w' :
  enclave_proc_handle_outputs T conns w = (Return (Ok objs), w') -> (length objs <= length conns)%nat.
Proof.
  revert w objs w'. induction conns as [|c conns IH]; intros w objs w' E; cbn [enclave_proc_handle_outputs] in E.
  { unfold ret in E. by simplify_eq. }
  m_inv. destruct a as [o st]. m_inv.
  match goal with X : enclave_proc_handle_outputs _ _ _ = _ |- _ => apply IH in X end.
  destruct o, st; simpl; lia.
Qed.

(** *** What is received from a process *)

(** These replies are received one after the other, the messages for standard
    error printed as they come, until none can be received. *)
Inductive heard (conn : Z) : list EnclaveProcessReply -> World -> World -> Prop :=
| heard_end w e w' :
    receive_from_stream EnclaveProcessReply conn w = (Return (Err e), w') -> heard conn [] w w'
| heard_message msg rs w w1 w' :
    receive_from_stream EnclaveProcessReply conn w = (Return (Ok (StdOutMessage msg)), w1) ->
    heard conn rs w1 w' -> heard conn (StdOutMessage msg :: rs) w w'
| heard_remark msg rs w w1 w' :
    receive_from_stream EnclaveProcessReply conn w = (Return (Ok (StdErrMessage msg)), w1) ->
    heard conn rs (add_event (EvPrint true msg) w1) w' -> heard conn (StdErrMessage msg :: rs) w w'
| heard_status code rs w w1 w' :
    receive_from_stream EnclaveProcessReply conn w = (Return (Ok (Status code)), w1) ->
    heard conn rs w1 w' -> heard conn (Status code :: rs) w w'.

Lemma read_replies_heard fuel conn : forall out st w out' st' w',
  read_replies fuel conn out st w = (Return (Ok (out', st')), w') ->
  exists rs, heard conn rs w w' /\ out' = out +:+ stdout_of rs /\ st' = status_of st rs.
Proof.
  induction fuel as [|fuel IH]; intros out st w out' st' w' E; cbn [read_replies] in E; [done|].
  apply bind_ok_inv in E as ([[msg|msg|code]|e] & w1 & E1%try_inv & E).
  - apply IH in E as (rs & Hh & -> & ->). exists (StdOutMessage msg :: rs).
    split; [by eapply heard_message|]. by rewrite str_app_assoc.
  - apply bind_ok_inv in E as ([] & w2 & [= <-] & E). apply IH in E as (rs & Hh & -> & ->).
    exists (StdErrMessage msg :: rs). split; [by eapply heard_remark|done].
  - apply IH in E as (rs & Hh & -> & ->). exists (Status code :: rs). split; [by eapply heard_status|done].
  - injection E as <- <- <-. exists []. split; [by eapply heard_end|]. by rewrite str_app_nil_r.
Qed.

(** An object with the status of success: the stream has been shut down. *)
Lemma handle_output_success (T : Type) `{FromJson T} conn w info w' :
  enclave_proc_handle_output T conn w = (Return (Ok (Some info, Some 0)), w') ->
  exists rs w1, heard conn rs w w1 /\ from_json (stdout_of rs) = Ok info /\ status_of None rs = Some 0 /\
    w' = add_event (EvShutdown conn None) w1.
Proof.
  unfold enclave_proc_handle_output. intros E.
  apply bind_ok_inv in E as (fuel & w0 & [= <- <-] & E).
  apply bind_ok_inv in E as ([out st] & w1 & (rs & Hh & -> & ->)%read_replies_heard & E).
  apply bind_ok_inv in E as (shut & w2 & E2%attempt_inv & E).
  apply bind_ok_inv in E as (status & w3 & E3 & [= Ho Hs <-]). exists rs, w1.
  unfold shutdown in E2. destruct (k_shutdown (w_log w1) conn); injection E2 as <- <-.
  - apply bind_ok_inv in E3 as (? & ? & _ & [= <- _]). done.
  - injection E3 as <- <-. split_and!; try done. destruct (from_json (stdout_of rs)); simpl in Ho; congruence.
Qed.

(** One process was asked, and nothing but its success is accepted: its object is
    printed and returned. *)
Lemma single_reply_success (T : Type) `{FromJson T} `{ToJson T} `{ToJson (list T)} conn w l w' :
  enclave_process_handle_all_replies T [conn] 0 false [0] w = (Return (Ok l), w') ->
  exists info text rs w1, l = [info] /\ heard conn rs w w1 /\ from_json (stdout_of rs) = Ok info /\
    status_of None rs = Some 0 /\ to_string_pretty info = Ok text /\
    w' = add_event (EvPrint false (text +:+ String LF "")) (add_event (EvShutdown conn None) w1).
Proof.
  unfold enclave_process_handle_all_replies. intros E.
  apply bind_ok_inv in E as (objects & w1 & Eo & E). cbn [enclave_proc_handle_outputs] in Eo.
  apply bind_ok_inv in Eo as ([object status] & w2 & E2 & Eo).
  apply bind_ok_inv in Eo as (? & ? & [= <- <-] & [= <- <-]).
  destruct object as [info|], status as [st|]; cbn in E;
    try (by apply bind_ok_inv in E as (? & ? & _ & E); apply bind_ok_inv in E as (? & ? & _ & ?)).
  apply bind_ok_inv in E as ([] & w3 & [= <-] & E).
  apply bind_ok_inv in E as ([] & w4 & E4 & E).
  unfold not_allowed in E. cbn [snd List.filter] in E. destruct (bool_decide_reflect (st ∈ [0])) as [Hst|]; [|done].
  apply list_elem_of_singleton in Hst as ->. injection E as <- <-.
  apply bind_ok_inv in E4 as (text & w5 & [Et%rmap_err_ok_inv ->]%of_result_inv & E4).
  apply bind_ok_inv in E4 as ([] & w6 & [= <-] & [= <-]).
  apply handle_output_success in E2 as (rs & w7 & Hh & Hj & Hs & ->).
  by exists info, text, rs, w7.
Qed.

(** Handling the replies of a broadcast succeeds only when every process
    that was written to has confirmed and has sent a well-formed object and an
    allowed status; the result is then the objects of all of them, in the
    order of the connections. *)
Theorem all_replies_succeed (T : Type) `{FromJson T} `{ToJson T} `{ToJson (list T)}
    replies prev_failed as_vec allowed w l w' :
  0 <= prev_failed ->
  enclave_process_handle_all_replies T replies prev_failed as_vec allowed w = (Return (Ok l), w') ->
  prev_failed = 0 /\ length l = length replies /\
  exists objs w1, enclave_proc_handle_outputs T replies w = (Return (Ok objs), w1) /\
    l = map fst objs /\ Forall (fun v => snd v ∈ allowed) objs.
Proof.
  intros Hp E. unfold enclave_process_handle_all_replies in E. apply bind_ok_inv in E as (objs & w1 & Eo & E).
  pose proof (handle_outputs_length _ _ _ _ _ Eo) as Hlen.
  apply bind_ok_inv in E as (? & ? & _ & E). apply bind_ok_inv in E as (? & ? & _ & E).
  destruct (Nat.ltb_spec 0 (length (List.filter (not_allowed allowed) objs))) as [|Hz]; [done|].
  destruct (Z.ltb_spec 0 (prev_failed + Z.of_nat (length replies) - Z.of_nat (length objs))) as [|Hf]; [done|].
  unfold ret in E. simplify_eq. rewrite length_map. split; [lia|]. split; [lia|].
  exists objs, w1. split; [done|]. split; [done|]. apply Forall_forall. intros v Hv.
  destruct (decide (snd v ∈ allowed)) as [|Hn]; [done|].
  assert (v ∈ List.filter (not_allowed allowed) objs) as Hin.
  { apply list_elem_of_In, filter_In. split; [by apply list_elem_of_In|].
    unfold not_allowed. by rewrite bool_decide_false. }
  destruct (List.filter (not_allowed allowed) objs); [by apply elem_of_nil in Hin|simpl in Hz; lia].
Qed.
End Properties.

(** ** Witnesses *)

Definition sample_replies : list EnclaveProcessReply :=
  [StdErrMessage "started"; StdOutMessage "{"; StdOutMessage "}"; Status 0].

Definition sample_written : World :=
  snd (@write_replies sample_system sample_serde_reply (connection_new 0 (Some 3)) sample_replies world0).

Lemma replies_reach_client_witness :
  exists v', @enclave_proc_handle_output sample_system sample_serde_reply string (fun s => Ok s) 9
      (mk_world [] ∅ {[9 := written 3 (w_log sample_written)]}) = (Return (Ok (Some "{}"%string, Some 0)), v') /\
    w_log v' = [EvPrint true "started"; EvShutdown 9 None].
Proof.
  refine (@replies_reach_client sample_system sample_serde_reply sample_serde_reply_laws
    string (fun s => Ok s) (connection_new 0 (Some 3)) sample_replies 3 9 world0 sample_written
    (mk_world [] ∅ {[9 := written 3 (w_log sample_written)]}) eq_refl _ _ _).
  - vm_compute. reflexivity.
  - vm_compute. reflexivity.
  - reflexivity.
Defined.

Lemma all_replies_succeed_witness :
  exists l w', @enclave_process_handle_all_replies sample_system sample_serde_reply string (fun s => Ok s)
      (fun s => Ok s) (fun _ => Ok "[]"%string) [9] 0 true [0; 13]
      (mk_world [] ∅ {[9 := written 3 (w_log sample_written)]}) = (Return (Ok l), w') /\ length l = 1%nat.
Proof.
  eexists _, _. split; [vm_compute; reflexivity|].
  refine (proj1 (proj2 (@all_replies_succeed sample_system sample_serde_reply string (fun s => Ok s)
    (fun s => Ok s) (fun _ => Ok "[]"%string) [9] 0 true [0; 13]
      (mk_world [] ∅ {[9 := written 3 (w_log sample_written)]}) _ _ _ _))).
  - lia.
  - vm_compute. reflexivity.
Defined.
