(* ===== verification/Conversation.v ===== *)
(** * The two ends of a conversation

    The command line ([ClientComm]) and the enclave process ([Listener],
    [EventLoop]) run on kernels of their own, and share only what the one writes
    and the other reads. Here the two are put together: what the client makes of
    the answer is what the state of the process says. *)
From S2P Require Import Prelude.
From S2P Require Import RustStd.
From S2P Require Import Failure.
From S2P Require Import CommandsParser.
From S2P Require Import EnclaveIds.
From S2P Require Import Os.
From S2P Require Import Sample.
From S2P Require Import Wire.
From S2P Require Import Connection.
From S2P Require Import Memory.
From S2P Require Import EifWriter.
From S2P Require Import Logs.
From S2P Require Import Events.
From S2P Require Import Enclave.
From S2P Require Import Commands.
From S2P Require Import Listener.
From S2P Require Import EventLoop.
From S2P Require Import ClientComm.
From stdpp Require Import base list numbers strings gmap.
From Stdlib Require Import ZArith Lia.
Local Open Scope Z_scope.
Local Open Scope nitro_scope.

(** The bytes written on a stream between two worlds. *)
Definition sent (fd : Z) (w w' : World) : list Z :=
  drop (length (written fd (w_log w))) (written fd (w_log w')).

Lemma sent_written fd w w' bs :
  written fd (w_log w') = written fd (w_log w) ++ bs -> sent fd w w' = bs.
Proof. intros E. unfold sent. by rewrite E, drop_app_length. Qed.

(** ** What is written on a stream *)

(** Events that write nothing on [fd]. *)
Definition unheard (fd : Z) (e : Event) : Prop :=
  match e with EvWrite fd' _ None => fd' <> fd | _ => True end.

Lemma written_unheard fd evs : Forall (unheard fd) evs -> written fd evs = [].
Proof.
  induction 1 as [|e evs He _ IH]; [done|]. destruct e; try done. simpl in *.
  destruct err; [done|]. by rewrite (proj2 (Z.eqb_neq _ _)) by congruence.
Qed.

Lemma unheard_memory fd e : is_memory e -> unheard fd e.
Proof. by destruct e. Qed.
Lemma unheard_ioctl fd e : is_ioctl e -> unheard fd e.
Proof. by destruct e. Qed.
Lemma unheard_notify fd e : is_notify e -> unheard fd e.
Proof. by destruct e. Qed.

Section Told.
Context `{Serde EnclaveProcessReply} (fd : Z).

(** Between two worlds, exactly these replies were written on [fd]. *)
Definition told (rs : list EnclaveProcessReply) (w w' : World) : Prop :=
  exists bss, Forall2 (fun r bs => to_vec r = Ok bs) rs bss /\
    written fd (w_log w') = written fd (w_log w) ++ flat_map frame bss.

Lemma told_same w w' : w_log w' = w_log w -> told [] w w'.
Proof. unfold told. intros ->. exists []. by rewrite app_nil_r. Qed.

Lemma told_trans rs1 rs2 w1 w2 w3 : told rs1 w1 w2 -> told rs2 w2 w3 -> told (rs1 ++ rs2) w1 w3.
Proof.
  intros (b1 & F1 & W1) (b2 & F2 & W2). exists (b1 ++ b2). split; [by apply Forall2_app|].
  by rewrite W2, W1, flat_map_app, app_assoc.
Qed.

Lemma told_log w w' evs : w_log w' = w_log w ++ evs -> Forall (unheard fd) evs -> told [] w w'.
Proof. intros L F. exists []. rewrite L, written_app, (written_unheard fd evs F). done. Qed.

Lemma told_quiet {E T A} `{HasWorld T} (m : M E T A) s r s' :
  emits (unheard fd) m -> m s = (r, s') -> told [] (world_of s) (world_of s').
Proof.
  intros Hm Es. destruct (Hm s) as (evs & L & F). rewrite Es in L. eapply told_log; [exact L|done].
Qed.
End Told.

Section Replies.
Context `{KN : Kernel} `{SR : Serde EnclaveProcessReply}.

Lemma write_reply_told c r fd w w' :
  input_stream (guarded (data c)) = Some fd -> write_reply c r w = (Return (Ok tt), w') -> told fd [r] w w'.
Proof.
  intros Hfd E. apply (write_replies_ok c [r] fd); [done|]. cbn [write_replies].
  by rewrite (bind_run_ok _ _ _ _ _ E).
Qed.

Lemma write_u64_sent c v fd w w' :
  input_stream (guarded (data c)) = Some fd -> write_u64 c v w = (Return (Ok tt), w') ->
  written fd (w_log w') = written fd (w_log w) ++ to_le_bytes 8 v /\ w_in w' = w_in w.
Proof.
  intros Hfd (fd' & _ & Hfd' & E)%with_stream_ok. rewrite Hfd in Hfd'. simplify_eq.
  apply map_err_to_ok_inv, write_all_ok in E as ->. split; [|done].
  unfold add_event. cbn [w_log]. rewrite written_app. cbn [written]. by rewrite Z.eqb_refl, app_nil_r.
Qed.

(** What a client reads when these replies, and nothing else, are to come. *)
Lemma told_reach_client `{EV : Env} (T : Type) `{FromJson T} `{!SerdeLaws EnclaveProcessReply} rs fd conn w w1 v :
  told fd rs w w1 -> w_in v !! conn = Some (sent fd w w1) -> (forall l fd, k_shutdown l fd = None) ->
  exists v', enclave_proc_handle_output T conn v =
      (Return (Ok (to_option (from_json (stdout_of rs)), status_of None rs)), v') /\
    w_log v' = w_log v ++ map (EvPrint true) (stderr_of rs) ++ [EvShutdown conn None].
Proof.
  intros (bss & Hb & Hw) Hin Hs. rewrite (sent_written _ _ _ _ Hw) in Hin.
  destruct (handle_output_replies T rs bss conn v Hb Hin Hs) as (v' & E & L & _). by exists v'.
Qed.
End Replies.

(** ** From the client to the handler *)

Section Delivery.
Context `{KN : Kernel} `{SC : Serde EnclaveProcessCommandType} `{!SerdeLaws EnclaveProcessCommandType}.

(** What a client writes to send a command. *)
Lemma send_single_sent {T} `{Serde T} cmd (args : option T) fd w w' :
  enclave_proc_command_send_single cmd args fd w = (Return (Ok tt), w') ->
  exists cb ab, to_vec cmd = Ok cb /\
    match args with Some a => exists b, to_vec a = Ok b /\ ab = frame b | None => ab = [] end /\
    written fd (w_log w') = written fd (w_log w) ++ frame cb ++ frame cb ++ ab /\ w_in w' = w_in w.
Proof.
  unfold enclave_proc_command_send_single, write_u64_le. intros E. io_inv.
  repeat match goal with
  | X : send_command_bytes _ _ _ = _ |- _ =>
      let L := fresh "L" in let I := fresh "I" in apply send_command_bytes_ok in X as (I & _ & L)
  end.
  match goal with X : to_vec cmd = Ok ?b |- _ => exists b end.
  destruct args as [arg|]; io_inv.
  - repeat match goal with X : write_all _ _ _ = _ |- _ => apply write_all_ok in X; subst end.
    match goal with X : to_vec arg = Ok ?b |- _ => exists (frame b) end.
    split_and!; [done|by eexists| |simpl; congruence].
    unfold add_event. cbn [w_log]. rewrite !written_app. cbn [written].
    rewrite Z.eqb_refl, !app_nil_r. unfold frame at 3. rewrite L, L0, <- !app_assoc. done.
  - exists []. split_and!; [done|done| |congruence]. by rewrite L, L0, app_nil_r, <- app_assoc.
Qed.

(** The listener takes the first copy of the command and hands the stream over
    to epoll. *)
Lemma listener_takes_copy cmd cb fd rest w c w1 :
  to_vec cmd = Ok cb -> cmd <> ConnectionListenerStop ->
  w_in w !! fd = Some (frame cb ++ rest) -> handle_new_connection fd w = (Return (Ok c), w1) ->
  c = cmd /\ w_in w1 !! fd = Some rest /\ written fd (w_log w1) = written fd (w_log w).
Proof.
  intros Hc Hn Hin E. destruct (receive_frame fd cmd cb rest w Hc Hin) as (w2 & E2 & I2 & L2 & _).
  unfold handle_new_connection in E. rewrite bind_try in E. unfold map_err at 1 in E. rewrite E2 in E.
  rewrite decide_True in E by done. apply bind_ok_inv in E as ([] & w3 & E3 & E).
  unfold ret in E. simplify_eq. apply map_err_ok_inv, map_err_to_ok_inv in E3.
  unfold epoll_add in E3. destruct (k_epoll_add _ _); simplify_eq. cbn [add_event w_in w_log].
  rewrite I2, lookup_insert_eq, written_app, L2. cbn. by rewrite app_nil_r.
Qed.

(** The loop takes the second copy; a read-only command is let through whoever
    sent it. *)
Lemma read_command_takes_copy connection fd creds cmd cb rest w c w1 :
  input_stream (guarded (data connection)) = Some fd -> k_peer_credentials fd = Ok creds ->
  read_only cmd = true \/ fst creds = k_getuid \/ fst creds = 0 -> cmd <> NotPermitted ->
  to_vec cmd = Ok cb -> w_in w !! fd = Some (frame cb ++ rest) ->
  read_command connection w = (Return (Ok c), w1) ->
  c = cmd /\ w_in w1 = <[fd := rest]> (w_in w) /\ w_log w1 = w_log w.
Proof.
  intros Hfd Hcr Hro Hnp Hc Hin E. apply with_stream_ok in E as (fd' & _ & Hfd' & E).
  rewrite Hfd in Hfd'. simplify_eq.
  destruct (receive_frame fd' cmd cb rest w Hc Hin) as (w2 & E2 & I2 & L2 & _).
  rewrite (bind_run_ok _ _ _ _ _ E2), Hcr in E.
  assert (can_execute_command (new_with_defaults k_getuid) cmd creds = true) as Hcan.
  { destruct creds as [u g]. apply can_execute_spec. simpl in Hro. tauto. }
  rewrite Hcan in E. unfold ret in E. simpl in E. by simplify_eq.
Qed.
(** The arguments that a handler reads are those that were sent. *)
Lemma conn_read_takes {T} `{Serde T} `{!SerdeLaws T} connection fd (args args' : T) ab w w1 :
  input_stream (guarded (data connection)) = Some fd -> to_vec args = Ok ab ->
  w_in w !! fd = Some (frame ab) -> conn_read T connection w = (Return (Ok args'), w1) ->
  args' = args /\ w_log w1 = w_log w.
Proof.
  intros Hfd Hab Hin E. apply with_stream_ok in E as (fd' & _ & Hfd' & E). rewrite Hfd in Hfd'. injection Hfd' as <-.
  destruct (receive_frame fd args ab [] w Hab) as (w2 & E2 & _ & L2 & _); [by rewrite app_nil_r|].
  rewrite E2 in E. by injection E as <- <-.
Qed.
End Delivery.

(** A connection after which the loop goes on: its command was read, it
    succeeded, and the status was written if the command has one. *)
Lemma connection_continues `{IF : ImageFormat} `{IT : @ImageTools IF} `{KN : Kernel} `{EV : Env}
    `{Serde EnclaveProcessCommandType} `{Serde EnclaveProcessReply} `{Serde unit}
    `{Serde RunEnclavesArgs} `{Serde DescribeEnclavesArgs} `{Serde string}
    `{ToJson EnclaveRunInfo} `{ToJson EnclaveTerminateInfo} `{ToJson EnclaveDescribeInfo} `{ToJson string}
    connection fd s w s' w' :
  input_stream (guarded (data connection)) = Some fd ->
  handle_connection connection (s, w) = (Return (Ok Continue), (s', w')) ->
  exists cmd w1 code w2, read_command connection w = (Return (Ok cmd), w1) /\
    handle_command cmd connection (s, w1) = (Return (Ok (code, false)), (s', w2)) /\
    if replies_status cmd then write_status connection code w2 = (Return (Ok tt), w') else w' = w2.
Proof.
  intros Hfd E. unfold handle_connection in E.
  apply bind_ok_inv in E as (event & [s1 w1] & [-> Ev]%lift_inv & E). apply try_inv in Ev.
  destruct (event_of_stream connection fd w Hfd) as [Ee|[e Ee]]; rewrite Ee in Ev;
    injection Ev as <- <-; [|done].
  apply bind_ok_inv in E as (cmd & [s2 w2] & [-> Er%try_inv]%lift_inv & E).
  destruct cmd as [cmd|e]; [|by apply bind_ok_inv in E as ([] & ? & _ & E)].
  apply execute_command_continues in E as (code & [s3 w3] & Eh & Ew).
  destruct (replies_status cmd) eqn:Hrs.
  - apply lift_inv in Ew as [-> Ew%map_err_ok_inv]. exists cmd, w2, code, w3. by rewrite Hrs.
  - unfold ret in Ew. simplify_eq. exists cmd, w2, code, w'. by rewrite Hrs.
Qed.

(** ** The number of an enclave *)

(** The two numbers a client can ask for. *)
Inductive Number : Type := Cid | Flags.

Section Numbers.
Context `{IF : ImageFormat} `{IT : @ImageTools IF} (KC KS : Kernel) (EC ES : Env)
  `{SC : Serde EnclaveProcessCommandType} `{!SerdeLaws EnclaveProcessCommandType}
  `{SU : Serde unit} `{Serde EnclaveProcessReply}
  `{Serde RunEnclavesArgs} `{Serde DescribeEnclavesArgs} `{Serde string}
  `{ToJson EnclaveRunInfo} `{ToJson EnclaveTerminateInfo} `{ToJson EnclaveDescribeInfo} `{ToJson string}.

Definition ask (n : Number) : string -> IO Z :=
  match n with Cid => enclave_proc_get_cid (H := KC) (H0 := EC) | Flags => enclave_proc_get_flags (H := KC) (H0 := EC) end.
Definition number_of (n : Number) (m : EnclaveManager) : option Z :=
  let h := guarded (enclave_handle m) in match n with Cid => enclave_cid h | Flags => Some (flags h) end.
Definition number_command (n : Number) : EnclaveProcessCommandType :=
  match n with Cid => GetEnclaveCID | Flags => GetEnclaveFlags end.

Lemma connect_quiet id w c w' :
  enclave_proc_connect_to_single (H := KC) (H0 := EC) id w = (Return (Ok c), w') ->
  w_in w' = w_in w /\ forall fd, written fd (w_log w') = written fd (w_log w).
Proof.
  unfold enclave_proc_connect_to_single. intros E. io_inv. unfold syscall in *. simplify_eq.
  split; [done|]. intros fd. cbn [add_event w_log]. rewrite written_app. simpl. by rewrite app_nil_r.
Qed.

(** What the client has written and read when it has its number. *)
Lemma ask_ok n id wc v wc' comm wc0 :
  enclave_proc_connect_to_single (H := KC) (H0 := EC) id wc = (Return (Ok comm), wc0) ->
  ask n id wc = (Return (Ok v), wc') ->
  exists cb, to_vec (number_command n) = Ok cb /\ sent comm wc wc' = frame cb ++ frame cb /\
    v = from_le_bytes (take 8 (default [] (w_in wc !! comm))).
Proof.
  intros Ec E.
  assert (exists e1 e2 e3 l, get_number (H := KC) (H0 := EC) (number_command n) e1 e2 e3 l id wc = (Return (Ok v), wc'))
    as (e1 & e2 & e3 & l & E') by (destruct n; eexists _, _, _, _; exact E).
  clear E. unfold get_number in E'. apply bind_ok_inv in E' as (c & w0 & Ec'%map_err_ok_inv & E).
  rewrite Ec in Ec'. injection Ec' as <- <-. destruct (connect_quiet _ _ _ _ Ec) as [I0 L0].
  apply owning_ok in E as (w4 & rc & E & ->).
  apply bind_ok_inv in E as ([] & w1 & Es%map_err_ok_inv & E).
  apply send_single_sent in Es as (cb & ab & Hcb & -> & L1 & I1).
  apply bind_ok_inv in E as (v' & w2 & Er%map_err_ok_inv & E).
  apply bind_ok_inv in Er as (bs & w2' & Er%map_err_to_ok_inv & [= <- <-]).
  unfold read_exact in Er. destruct (_ <=? _)%nat in Er; [|done]. injection Er as <- <-.
  apply bind_ok_inv in E as ([] & w3 & Esh%map_err_to_ok_inv & [= <- <-]).
  unfold shutdown in Esh. injection Esh as _ <-.
  exists cb. split; [done|]. split; [|by rewrite I1, I0].
  apply sent_written. cbn [add_event set_in w_log]. rewrite !written_app. simpl.
  rewrite !app_nil_r, L1, app_nil_r, L0. done.
Qed.

(** What the process writes when it is asked. *)
Lemma number_answered n connection fd s w code s' w' :
  input_stream (guarded (data connection)) = Some fd ->
  handle_command (H := KS) (number_command n) connection (s, w) = (Return (Ok (code, false)), (s', w')) ->
  exists v, number_of n (ls_manager s) = Some v /\
    written fd (w_log w') = written fd (w_log w) ++ to_le_bytes 8 v.
Proof.
  intros Hfd E.
  assert (exists a g e m, handle_get (H := KS) a g e m connection (s, w) = (Return (Ok (code, false)), (s', w')) /\
    forall mgr w v mgr' w', m (mgr, w) = (Return (Ok v), (mgr', w')) -> number_of n mgr = Some v /\ w' = w)
    as (a & g & e & m & Eg & Hm).
  { destruct n; (eexists _, _, _, _; split; [exact E|]); clear; intros mgr w v mgr' w' (h & E & _)%locked_ok.
    - unfold bind, self, gets in E. simpl in E. destruct (enclave_cid _) eqn:Ec; [|done].
      unfold ret in E. injection E as -> _ <-. by simpl.
    - unfold gets in E. simpl in E. by injection E as <- _ <-. }
  clear E. unfold handle_get in Eg. apply bind_ok_inv in Eg as (v & [s1 w1] & Ev%map_err_ok_inv & Eg).
  unfold on_manager, zoom in Ev. cbn [fst snd] in Ev. destruct (m (ls_manager s, w)) as [o [m1 w1']] eqn:Em.
  injection Ev as -> _ <-. apply Hm in Em as [Hv ->].
  apply bind_ok_inv in Eg as ([] & [s2 w2] & [_ Ew%map_err_ok_inv]%lift_inv & [= _ _ <-]).
  apply (write_u64_sent (KN := KS) _ _ fd) in Ew as [Ew _]; [|done]. by exists v.
Qed.

(** C8: the number that the command line shows is that of the enclave: when a
    client obtains a CID or flags over a connection whose other end the listener
    and the loop of an enclave process serve, and that process goes on, then the
    number is the one in the handle of its enclave, whoever runs the client. *)
Theorem number_conversation n id connection comm sfd creds wc wc0 v wc' s w c w1 s' w2 :
  input_stream (guarded (data connection)) = Some sfd -> k_peer_credentials (Kernel := KS) sfd = Ok creds ->
  (forall x, number_of n (ls_manager s) = Some x -> 0 <= x <= u64_MAX) ->
  enclave_proc_connect_to_single (H := KC) (H0 := EC) id wc = (Return (Ok comm), wc0) ->
  ask n id wc = (Return (Ok v), wc') ->
  w_in w !! sfd = Some (sent comm wc wc') ->
  handle_new_connection (H := KS) sfd w = (Return (Ok c), w1) ->
  handle_connection (H := KS) connection (s, w1) = (Return (Ok Continue), (s', w2)) ->
  w_in wc !! comm = Some (sent sfd w w2) ->
  number_of n (ls_manager s) = Some v.
Proof.
  intros Hfd Hcr Hrange Ec Ea Hin El Eh Hback.
  apply (ask_ok n id wc v wc' comm wc0 Ec) in Ea as (cb & Hcb & Hs & ->). rewrite Hs in Hin.
  assert (number_command n <> ConnectionListenerStop /\ number_command n <> NotPermitted /\
    read_only (number_command n) = true /\ replies_status (number_command n) = false) as (Hn1 & Hn2 & Hro & Hrs)
    by by destruct n.
  destruct (listener_takes_copy (KN := KS) _ cb sfd (frame cb) w c w1 Hcb Hn1 Hin El) as (-> & Hin1 & L1).
  destruct (connection_continues (KN := KS) connection sfd s w1 s' w2 Hfd Eh) as (cmd & w3 & code & w4 & Er & Ehc & Ew).
  destruct (read_command_takes_copy (KN := KS) connection sfd creds (number_command n) cb [] w1 cmd w3)
    as (-> & _ & L3); try done; [by auto|by rewrite app_nil_r|].
  rewrite Hrs in Ew. subst w4.
  destruct (number_answered n connection sfd s w3 code s' w2 Hfd Ehc) as (v & Hv & L2).
  rewrite Hback, (sent_written sfd w w2 (to_le_bytes 8 v)) by (by rewrite L2, L3, L1).
  change (default [] (Some (to_le_bytes 8 v))) with (to_le_bytes 8 v).
  rewrite take_ge by by rewrite length_to_le_bytes. rewrite le_bytes_roundtrip; [done|].
  specialize (Hrange v Hv). unfold u64_MAX in Hrange. simpl. lia.
Qed.
End Numbers.

(** ** The description of an enclave *)

Section Describe.
Context `{IF : ImageFormat} `{IT : @ImageTools IF} (KC KS : Kernel) (ES : Env)
  `{SC : Serde EnclaveProcessCommandType} `{!SerdeLaws EnclaveProcessCommandType}
  `{SU : Serde unit} `{SR : Serde EnclaveProcessReply} `{!SerdeLaws EnclaveProcessReply}
  `{Serde RunEnclavesArgs} `{SD : Serde DescribeEnclavesArgs} `{!SerdeLaws DescribeEnclavesArgs} `{Serde string}
  `{ToJson EnclaveRunInfo} `{ToJson EnclaveTerminateInfo} `{ToJson EnclaveDescribeInfo}
  `{FromJson EnclaveDescribeInfo} `{ToJson string}.

(** What the description [info] says of the enclave of a manager. *)
Definition describes (with_metadata : bool) (m : EnclaveManager) (info : EnclaveDescribeInfo) : Prop :=
  let h := guarded (enclave_handle m) in
  di_enclave_name info = Some (enclave_name m) /\
  generate_enclave_id (env_asset_tag (Env := ES)) (slot_uid h) = Ok (di_enclave_id info) /\
  enclave_cid h = Some (di_enclave_cid info) /\
  di_cpu_ids info = cpu_ids h /\ di_memory_mib info = allocated_memory_mib h /\
  di_state info = show_state (state h) /\ di_flags info = flags_to_string (flags h) /\
  di_build_info info = Some (build_info h) /\
  di_metadata info = (if with_metadata then metadata_info_new <$> metadata h else None).

Lemma describe_answered connection fd s w code s' w' :
  input_stream (guarded (data connection)) = Some fd ->
  handle_command Describe connection (s, w) = (Return (Ok (code, false)), (s', w')) ->
  exists args w1 info text w2, conn_read DescribeEnclavesArgs connection w = (Return (Ok args), w1) /\
    code = 0 /\ describes (describe_metadata args) (ls_manager s') info /\
    to_string_pretty info = Ok text /\
    written fd (w_log w2) = written fd (w_log w1) ++ to_le_bytes 8 MSG_ENCLAVE_CONFIRM /\
    told fd [StdOutMessage (text +:+ String LF "")] w2 w'.
Proof.
  intros Hfd E. cbn [handle_command] in E.
  apply bind_ok_inv in E as (args & [s1 w1] & [-> Er%map_err_ok_inv]%lift_inv & E).
  apply bind_ok_inv in E as ([] & [s2 w2] & [-> Ec%map_err_ok_inv]%lift_inv & E).
  apply (write_u64_sent _ _ fd) in Ec as [Lc _]; [|done].
  apply bind_ok_inv in E as ([] & [s3 w3] & Ef & E).
  pose proof (told_quiet fd _ _ _ _ (emits_fetch _) Ef) as Hf.
  apply bind_ok_inv in E as ([] & [s4 w4] & Ed%map_err_ok_inv & [= <- <- <-]).
  unfold on_manager, zoom in Ed. cbn [fst snd] in Ed.
  destruct (describe_enclaves connection (describe_metadata args) (ls_manager s3, w3)) as [o [m w5]] eqn:Em.
  injection Ed as -> <- <-. unfold describe_enclaves in Em.
  apply bind_ok_inv in Em as (info & [m1 w6] & Ei%map_err_ok_inv & Em).
  apply describe_info_ok in Ei as (Hg & Hname & -> & D1 & D2 & D3 & D4 & D5 & D6 & D7 & D8 & D9 & D10).
  apply bind_ok_inv in Em as (text & [m2 w7] & [Et%rmap_err_ok_inv [= -> ->]]%of_result_inv & Em).
  apply lift_inv in Em as [-> Ep]. apply (write_reply_told _ _ fd) in Ep; [|done].
  exists args, w1, info, text, w2. split_and!; try done.
  - unfold describes. cbn [ls_manager set_manager]. by rewrite Hg, Hname.
  - by apply (told_trans fd [] [_] w2 w3).
Qed.

(** C7: what describe-enclaves shows is the enclave: a client that sends Describe over
    a connection whose other end the listener and the loop of an enclave process
    serve, and that goes on to read the answer, first reads the confirmation, and
    then obtains, with the status of success, what its JSON decoder makes of the
    text of a description; that description is the one of the enclave in the state
    the process is left in, whoever runs the client. The client obtains the
    description itself when it has not asked for metadata, or when serde reads the
    metadata back as they were written. It need not: the custom metadata are
    flattened into the object of the metadata and left out when they are null, so
    that null is read back as the empty object, and a key that is also the name of
    a field is refused as a duplicate. *)
Theorem describe_conversation (reads_back : MetadataDescribeInfo -> Prop) args connection comm sfd creds wc wc' s w c w1 s' w2 v :
  (forall l fd, k_shutdown (Kernel := KC) l fd = None) ->
  (forall info text, (forall meta, di_metadata info = Some meta -> reads_back meta) ->
    to_string_pretty info = Ok text -> from_json (text +:+ String LF "") = Ok info) ->
  input_stream (guarded (data connection)) = Some sfd -> k_peer_credentials (Kernel := KS) sfd = Ok creds ->
  enclave_proc_command_send_single (H := KC) Describe (Some args) comm wc = (Return (Ok tt), wc') ->
  w_in w !! sfd = Some (sent comm wc wc') ->
  handle_new_connection sfd w = (Return (Ok c), w1) ->
  handle_connection connection (s, w1) = (Return (Ok Continue), (s', w2)) ->
  w_in v !! comm = Some (sent sfd w w2) ->
  exists info text object v1 v2, read_u64_le comm v = (Return (Ok MSG_ENCLAVE_CONFIRM), v1) /\
    enclave_proc_handle_output (H := KC) EnclaveDescribeInfo comm v1 =
      (Return (Ok (object, Some 0)), v2) /\
    describes (describe_metadata args) (ls_manager s') info /\
    to_string_pretty info = Ok text /\ object = to_option (from_json (text +:+ String LF "")) /\
    ((describe_metadata args = true -> forall m, metadata (guarded (enclave_handle (ls_manager s'))) = Some m ->
      reads_back (metadata_info_new m)) -> object = Some info).
Proof.
  intros Hshut Hjson Hfd Hcr Ea Hin El Eh Hback.
  apply (send_single_sent (KN := KC)) in Ea as (cb & ab & Hcb & (ab' & Hab & ->) & Ls & _).
  rewrite (sent_written _ _ _ _ Ls) in Hin.
  destruct (listener_takes_copy _ cb sfd (frame cb ++ frame ab') w c w1 Hcb) as (-> & Hin1 & L1); [done..|].
  destruct (connection_continues connection sfd s w1 s' w2 Hfd Eh) as (cmd & w3 & code & w4 & Er & Ehc & Ew).
  destruct (read_command_takes_copy connection sfd creds Describe cb (frame ab') w1 cmd w3)
    as (-> & I3 & L3); try done; [by auto|].
  destruct (describe_answered connection sfd s w3 code s' w4 Hfd Ehc)
    as (args' & w5 & info & text & w6 & Er' & -> & Hd & Ht & L5 & T1).
  destruct (conn_read_takes connection sfd args args' ab' w3 w5 Hfd Hab) as [-> L4];
    [by rewrite I3, lookup_insert_eq|done|].
  cbn [replies_status] in Ew. apply (write_reply_told _ _ sfd) in Ew; [|done].
  destruct (told_trans sfd _ _ _ _ _ T1 Ew) as (bss & Hb & Lb). cbn [app] in Hb.
  rewrite (sent_written sfd w w2 (to_le_bytes 8 MSG_ENCLAVE_CONFIRM ++ flat_map frame bss)) in Hback
    by by rewrite Lb, L5, L4, L3, L1, <- app_assoc.
  set (v1 := set_in (<[comm := flat_map frame bss]> (w_in v)) v).
  assert (read_u64_le comm v = (Return (Ok MSG_ENCLAVE_CONFIRM), v1)) as E1.
  { unfold read_u64_le. unfold bind at 1, map_err_to at 1.
    rewrite (read_exact_ok comm 8 v _ _ Hback) by apply length_to_le_bytes.
    by rewrite le_bytes_roundtrip. }
  destruct (handle_output_replies (H := KC) EnclaveDescribeInfo _ bss comm v1 Hb) as (v2 & E2 & _);
    [by cbn; rewrite lookup_insert_eq|done|].
  cbn [stdout_of status_of foldr fold_left] in E2. rewrite str_app_nil_r in E2.
  eexists info, text, _, v1, v2. split_and!; try done. intros Hmeta. rewrite (Hjson info text); [done| |done].
  destruct Hd as (_ & _ & _ & _ & _ & _ & _ & _ & ->). intros meta. destruct (describe_metadata args); [|done].
  destruct (metadata _) as [m|]; [|done]. intros [= <-]. by apply Hmeta.
Qed.
End Describe.

(** ** Witnesses *)

(** A codec that knows one value. *)
Definition serde_one {T} `{EqDecision T} (x : T) : Serde T := {|
  to_vec y := if decide (y = x) then Ok [1] else Err "unsupported"%string;
  from_slice bs := if decide (bs = [1]) then Ok x else Err "unknown variant"%string;
|}.
Lemma serde_one_laws {T} `{EqDecision T} (x : T) : @SerdeLaws T (serde_one x).
Proof. split; intros y bs E; simpl in E; case_decide; simplify_eq; [done|]. unfold isize_MAX. simpl. lia. Qed.

(** JSON texts of one value. *)
Definition json_one {T} `{EqDecision T} (x y : T) : result string string :=
  if decide (y = x) then Ok "{}"%string else Err "unsupported"%string.
Definition read_one {T} (x : T) (text : string) : result string T :=
  if decide (text = "{}" +:+ String LF "")%string then Ok x else Err "expected value"%string.
Lemma read_json_one {T} `{EqDecision T} (x y : T) text :
  json_one x y = Ok text -> read_one x (text +:+ String LF "") = Ok y.
Proof. unfold json_one. case_decide; [|done]. intros [= <-]. by subst. Qed.

#[local] Instance describe_args_eq : EqDecision DescribeEnclavesArgs.
Proof. solve_decision. Defined.
#[local] Instance build_info_eq : EqDecision EnclaveBuildInfo.
Proof. solve_decision. Defined.
#[local] Instance metadata_info_eq : EqDecision (@MetadataDescribeInfo sample_format).
Proof. intros [] []. unfold Decision. cbn in *. repeat decide equality. Defined.
#[local] Instance describe_info_eq : EqDecision (@EnclaveDescribeInfo sample_format).
Proof. solve_decision. Defined.

Module ConversationDemo.
#[local] Existing Instances sample_format sample_tools sample_env sample_serde_command sample_serde_reply.
#[local] Instance no_units : Serde unit := serde_none unit.
#[local] Instance no_runs : Serde RunEnclavesArgs := serde_none _.
#[local] Instance no_strings : Serde string := serde_none _.
#[local] Instance run_json : ToJson EnclaveRunInfo := fun _ => Ok "{}"%string.
#[local] Instance end_json : ToJson EnclaveTerminateInfo := fun _ => Ok "{}"%string.
#[local] Instance string_json : ToJson string := fun s => Ok s.

(** The arguments and the description that are exchanged. *)
Definition args : DescribeEnclavesArgs := mk_describe_args false.
Definition info : EnclaveDescribeInfo := Eval vm_compute in
  match fst (get_enclave_describe_info (H := stranger_system) false (sample_manager, world0)) with
  | Return (Ok i) => i
  | _ => mk_describe_info _ None "" 0 0 0 [] 0 "" "" None None None None
  end.
#[local] Instance describe_serde : Serde DescribeEnclavesArgs := serde_one args.
#[local] Instance describe_json : ToJson EnclaveDescribeInfo := json_one info.
#[local] Instance describe_read : FromJson EnclaveDescribeInfo := read_one info.

(** User 1001 asks for the CID of the enclave. *)
Definition number_client : World := mk_world [] ∅ {[22 := to_le_bytes 8 16]}.
Definition number_id : string := "i-0000000000000000-enc5".
Definition number_asked := @ask stranger_system sample_env sample_serde_command no_units Cid number_id number_client.
Definition number_listened :=
  @handle_new_connection stranger_system sample_serde_command 9
    (sample_world (sent 22 number_client (snd number_asked))).
Definition served (K : Kernel) (w : World) :=
  handle_connection (H := K) sample_connection (sample_loop, w).
Definition number_served := served stranger_system (snd number_listened).

Lemma number_conversation_witness :
  fst number_asked = Return (Ok 16) /\ number_of Cid (ls_manager sample_loop) = Some 16.
Proof.
  split; [vm_compute; reflexivity|].
  refine (@number_conversation sample_format sample_tools stranger_system stranger_system sample_env sample_env
    sample_serde_command sample_serde_command_laws no_units sample_serde_reply no_runs describe_serde no_strings
    run_json end_json describe_json string_json Cid number_id sample_connection 22 9 (1001, 1001) number_client
    (snd (@enclave_proc_connect_to_single stranger_system sample_env number_id number_client))
    16 (snd number_asked) sample_loop (sample_world (sent 22 number_client (snd number_asked))) GetEnclaveCID
    (snd number_listened) (fst (snd number_served)) (snd (snd number_served)) _ _ _ _ _ _ _ _ _).
  3: by intros x [= <-].
  all: vm_compute; reflexivity.
Defined.

(** User 1001 asks for the description of the enclave. *)
Definition describe_asked :=
  @enclave_proc_command_send_single stranger_system sample_serde_command _ describe_serde Describe (Some args) 22 world0.
Definition describe_listened :=
  @handle_new_connection stranger_system sample_serde_command 9 (sample_world (sent 22 world0 (snd describe_asked))).
Definition describe_served := served stranger_system (snd describe_listened).
Definition describe_reader : World :=
  mk_world [] ∅ {[22 := sent 9 (sample_world (sent 22 world0 (snd describe_asked))) (snd (snd describe_served))]}.

Lemma describe_conversation_witness :
  fst describe_served = Return (Ok Continue) /\
  exists info v1 v2, read_u64_le 22 describe_reader = (Return (Ok MSG_ENCLAVE_CONFIRM), v1) /\
    @enclave_proc_handle_output stranger_system sample_serde_reply EnclaveDescribeInfo describe_read 22 v1 =
      (Return (Ok (Some info, Some 0)), v2) /\
    describes sample_env false (ls_manager (fst (snd describe_served))) info.
Proof.
  split; [vm_compute; reflexivity|].
  destruct (@describe_conversation sample_format sample_tools stranger_system stranger_system sample_env
    sample_serde_command sample_serde_command_laws no_units sample_serde_reply sample_serde_reply_laws
    no_runs describe_serde (serde_one_laws args) no_strings
    run_json end_json describe_json describe_read string_json (fun _ => False) args sample_connection 22 9 (1001, 1001) world0
    (snd describe_asked) sample_loop (sample_world (sent 22 world0 (snd describe_asked))) Describe
    (snd describe_listened) (fst (snd describe_served)) (snd (snd describe_served)) describe_reader
    (fun _ _ => eq_refl) (fun i text _ => read_json_one info i text) eq_refl eq_refl) as (i & text & object & v1 & v2 & H1 & H2 & H3 & _ & _ & H4);
    [vm_compute; reflexivity..|].
  rewrite H4 in H2 by done. exists i, v1, v2. split; [exact H1|]. split; [exact H2|exact H3].
Defined.
End ConversationDemo.
