(* ===== verification/RunConversation.v ===== *)
(** * Running an enclave, seen from both ends

    The client of [Main.run_enclave_command] sends the arguments to the process it
    has started and reads replies until the end of the stream; the process
    allocates, starts and boots the enclave meanwhile, and reports on the same
    stream ([Enclave], [Commands], [EventLoop]). *)
From S2P Require Import Prelude.
From S2P Require Import RustStd.
From S2P Require Import Failure.
From S2P Require Import CommandsParser.
From S2P Require Import CpuInfo.
From S2P Require Import EnclaveIds.
From S2P Require Import Os.
From S2P Require Import Sample.
From S2P Require Import Wire.
From S2P Require Import Connection.
From S2P Require Import Memory.
From S2P Require Import EifWriter.
From S2P Require Import Boot.
From S2P Require Import Logs.
From S2P Require Import Events.
From S2P Require Import Enclave.
From S2P Require Import Commands.
From S2P Require Import Listener.
From S2P Require Import EventLoop.
From S2P Require Import ClientComm.
From S2P Require Import Conversation.
From stdpp Require Import base list numbers strings gmap.
From Stdlib Require Import ZArith Lia.
Local Open Scope Z_scope.
Local Open Scope nitro_scope.

(** ** Calls that write nothing on the client's stream *)

Section Quiet.
Context `{IF : ImageFormat} `{KN : Kernel} `{EV : Env} (fd : Z).
Local Abbreviation unheard := (unheard fd).

Lemma quiet_memory {E T A} `{HasWorld T} (m : M E T A) : emits is_memory m -> emits unheard m.
Proof. intros Hm. eapply emits_impl; [exact Hm|apply unheard_memory]. Qed.
Lemma quiet_ioctl f c a : emits unheard (do_ioctl f c a).
Proof. eapply emits_impl; [apply emits_do_ioctl|apply unheard_ioctl]. Qed.
Lemma quiet_notify msg : emits unheard (notify_error msg).
Proof. eapply emits_impl; [apply emits_notify_error|apply unheard_notify]. Qed.
Lemma quiet_exit {A} info (r : NitroCliResult A) : emits unheard (ok_or_exit_with_errno info r).
Proof. eapply emits_impl; [apply emits_ok_or_exit|apply unheard_notify]. Qed.
Lemma quiet_close E f : emits unheard (close f : M E World Z).
Proof. apply emits_one. intros s. eexists. split; [reflexivity|done]. Qed.
Lemma quiet_vsock_bind E cid port : emits unheard (vsock_bind cid port : M E World (option Z)).
Proof. apply emits_one. intros s. eexists. split; [reflexivity|done]. Qed.
Lemma quiet_open_device : emits unheard open_device.
Proof. apply emits_one. intros s. eexists. split; [reflexivity|done]. Qed.
Lemma quiet_epoll_add f : emits unheard (epoll_add f).
Proof. apply emits_one. intros s. eexists. split; [reflexivity|done]. Qed.
Lemma quiet_syscall c : emits unheard (syscall c).
Proof. by apply emits_syscall. Qed.
Hint Resolve quiet_ioctl quiet_notify quiet_exit quiet_close quiet_vsock_bind quiet_open_device quiet_epoll_add
  quiet_syscall : emits.

Lemma quiet_allocate : emits unheard allocate.
Proof. apply quiet_memory, emits_allocate. Qed.
Lemma quiet_free : emits unheard allocator_free.
Proof. apply quiet_memory, emits_allocator_free. Qed.
Lemma quiet_drop : emits unheard allocator_drop.
Proof. apply quiet_memory, emits_allocator_drop. Qed.
Lemma quiet_on_allocator {A} (m : IOS ResourceAllocator A) : emits unheard m -> emits unheard (on_allocator m).
Proof. intros Hm. by apply (emits_zoom unheard _ _ m). Qed.
Lemma quiet_on_file {A} f (m : IOS File A) : emits unheard m -> emits unheard (on_file f m).
Proof. intros Hm. by apply (emits_zoom unheard _ _ m). Qed.
Lemma quiet_update f : emits unheard (update f).
Proof. by apply emits_quiet. Qed.
Hint Resolve quiet_allocate quiet_free quiet_drop quiet_on_allocator quiet_on_file quiet_update : emits.

Lemma quiet_handle_new cid mem cpus eif debug : emits unheard (handle_new cid mem cpus eif debug).
Proof. unfold handle_new, owning. emits. Qed.

Lemma quiet_regions f rs : emits unheard (set_user_memory_regions f rs).
Proof. induction rs; cbn [set_user_memory_regions]; emits. Qed.

Lemma quiet_init_cpu id : emits unheard (init_single_cpu id).
Proof. unfold init_single_cpu. emits. Qed.
Hint Resolve quiet_regions quiet_init_cpu : emits.
Lemma quiet_cpu_list ids : emits unheard (init_cpu_list ids).
Proof. induction ids; cbn [init_cpu_list]; emits. Qed.
Lemma quiet_cpu_count n : emits unheard (init_cpu_count n).
Proof. induction n; cbn [init_cpu_count]; emits. Qed.
Hint Resolve quiet_cpu_list quiet_cpu_count : emits.
Lemma quiet_init_cpus : emits unheard init_cpus.
Proof. unfold init_cpus. emits. Qed.

Lemma quiet_terminate_and_notify : emits unheard terminate_enclave_and_notify.
Proof. unfold terminate_enclave_and_notify, handle_terminate_enclave, release_enclave_descriptor. emits. Qed.
Hint Resolve quiet_terminate_and_notify : emits.
Lemma quiet_terminate_error err : emits unheard (terminate_enclave_error err).
Proof. unfold terminate_enclave_error. emits. Qed.
Lemma quiet_handle_drop : emits unheard handle_drop.
Proof. unfold handle_drop. emits. Qed.
Lemma quiet_manager_drop : emits unheard manager_drop.
Proof. apply emits_manager_drop, quiet_handle_drop. Qed.

(** The listener accepts on a descriptor of its own. *)
Context (accepted : forall l f, k_accept l f <> Some fd).

Lemma quiet_write_all f bs : f <> fd -> emits unheard (write_all f bs).
Proof.
  intros Hf. apply emits_one. intros w. eexists. split; [reflexivity|]. simpl. by case_match.
Qed.
Lemma quiet_read E f n : emits unheard (read f n : M E World (option (list Z))).
Proof. apply emits_one. intros s. eexists. split; [reflexivity|done]. Qed.
Lemma quiet_poll E f t : emits unheard (poll f t : M E World (option Z)).
Proof. apply emits_one. intros s. eexists. split; [reflexivity|done]. Qed.

Lemma quiet_owning {E A} f (m : M E World A) : emits unheard m -> emits unheard (owning f m).
Proof. intros Hm. unfold owning. emits. Qed.

Lemma quiet_enclave_ready listener timeout : emits unheard (enclave_ready listener timeout).
Proof.
  unfold enclave_ready. pose proof (quiet_poll EifLoaderError). pose proof (quiet_read EifLoaderError).
  apply quiet_owning, emits_bind; [emits|intros r].
  case_decide; [emits|]. case_decide; [emits|]. intros w. unfold bind at 1, accept.
  set (w1 := add_event _ w). assert (k_accept (w_log w) listener <> Some fd) as Ha by apply accepted.
  assert (forall m : M EifLoaderError World unit, emits unheard m ->
    exists evs, log_of (snd (m w1)) = log_of w ++ evs /\ Forall unheard evs) as Hm.
  { intros m Hm. destruct (Hm w1) as (evs & L & F).
    exists (EvAccept listener (k_accept (w_log w) listener) :: evs).
    rewrite L. split; [|by constructor].
    change (log_of w1) with (w_log w ++ [EvAccept listener (k_accept (w_log w) listener)]).
    by rewrite <- app_assoc. }
  destruct (k_accept (w_log w) listener) as [stream|]; apply Hm; [|emits].
  apply quiet_owning. emits. apply quiet_write_all. congruence.
Qed.
End Quiet.

(** ** Remarks on the way *)

(** What is only shown on the client's error stream. *)
Definition remarks : list EnclaveProcessReply -> Prop := Forall (fun r => exists t, r = StdErrMessage t).

Lemma remarks_stdout rs rest : remarks rs -> stdout_of (rs ++ rest) = stdout_of rest.
Proof. by induction 1 as [|? ? [? ->] _ IH]. Qed.
Lemma remarks_status rs rest : remarks rs -> forall i, status_of i (rs ++ rest) = status_of i rest.
Proof. unfold status_of. induction 1 as [|? ? [? ->] _ IH]; simpl; auto. Qed.

Section Remarks.
Context `{IF : ImageFormat} `{IT : @ImageTools IF} `{KN : Kernel} `{EV : Env} `{SR : Serde EnclaveProcessReply}
  `{ToJson EnclaveRunInfo} `{ToJson EnclaveTerminateInfo} `{ToJson EnclaveDescribeInfo} (fd : Z) (connection : Connection).
Context (Hfd : input_stream (guarded (data connection)) = Some fd).
Context (accepted : forall l f, k_accept l f <> Some fd).
Local Abbreviation unheard := (unheard fd).
Local Abbreviation told := (told fd).

Definition remarked (w w' : World) : Prop := exists rs, remarks rs /\ told rs w w'.

(** A computation that, when it succeeds, has only made remarks. *)
Definition remarking {T A} `{HasWorld T} (m : M NitroCliFailure T A) : Prop :=
  forall s a s', m s = (Return (Ok a), s') -> remarked (world_of s) (world_of s').

Lemma remarked_trans w1 w2 w3 : remarked w1 w2 -> remarked w2 w3 -> remarked w1 w3.
Proof.
  intros (r1 & R1 & T1) (r2 & R2 & T2). exists (r1 ++ r2).
  split; [by apply Forall_app|]. by eapply told_trans.
Qed.

Lemma remarking_quiet {T A} `{HasWorld T} (m : M NitroCliFailure T A) : emits unheard m -> remarking m.
Proof. intros Hm s a s' E. exists []. split; [by constructor|]. by eapply (told_quiet fd m). Qed.
Lemma remarking_bind {T A B} `{HasWorld T} (m : M NitroCliFailure T A) (k : A -> M NitroCliFailure T B) :
  remarking m -> (forall a, remarking (k a)) -> remarking (bind m k).
Proof.
  intros Hm Hk s b s' (a & s1 & E1 & E2)%bind_ok_inv. eapply remarked_trans; [by eapply Hm|by eapply Hk].
Qed.
Lemma remarking_map_err {T A} `{HasWorld T} f (m : M NitroCliFailure T A) :
  remarking m -> remarking (map_err f m).
Proof. intros Hm s a s' E%map_err_ok_inv. by eapply Hm. Qed.
Lemma remarking_try {T A B} `{HasWorld T} (m : M NitroCliFailure T A)
    (k : result NitroCliFailure A -> M NitroCliFailure T B) :
  remarking m -> (forall a, remarking (k (Ok a))) -> (forall e s a s', k (Err e) s <> (Return (Ok a), s')) ->
  remarking (bind (try m) k).
Proof.
  intros Hm Hk Hn s b s' (r & s1 & E1%try_inv & E2)%bind_ok_inv. destruct r as [a|e].
  - eapply remarked_trans; [by eapply Hm|by eapply Hk].
  - by destruct (Hn e s1 b s').
Qed.
Lemma remarking_eprintln msg : remarking (safe_conn_eprintln (Some connection) msg).
Proof.
  intros w [] w' E. exists [StdErrMessage (msg +:+ String LF "")].
  split; [by repeat econstructor|]. by eapply write_reply_told.
Qed.
Lemma remarking_lift {T A} (m : IO A) : remarking m -> remarking (lift m : IOS T A).
Proof. intros Hm [t w] a [t' w'] [_ E]%lift_inv. by eapply Hm. Qed.

(** Decompose into calls that are quiet and remarks. *)
Ltac remarking :=
  repeat match goal with
  | X : remarking ?m |- remarking ?m => exact X
  | |- remarking (bind _ _) => apply remarking_bind; [|intros ?]
  | |- remarking (map_err _ _) => apply remarking_map_err
  | |- remarking (lift _) => apply remarking_lift
  | |- remarking (safe_conn_eprintln _ _) => apply remarking_eprintln
  | |- remarking (let _ := _ in _) => cbv zeta
  | |- remarking (match ?x with _ => _ end) => destruct x
  | |- remarking _ => apply remarking_quiet; solve [emits]
  end.

Hint Resolve quiet_ioctl quiet_notify quiet_close quiet_vsock_bind quiet_allocate quiet_on_allocator quiet_on_file
  quiet_update quiet_regions quiet_init_cpus emits_write_eif quiet_enclave_ready quiet_terminate_error : emits.

Lemma remarking_init_memory : remarking (init_memory (Some connection)).
Proof. unfold init_memory. remarking. Qed.
Lemma remarking_start : remarking (start (Some connection)).
Proof. unfold start. remarking. Qed.
Lemma remarking_boot : remarking (boot_enclave (Some connection)).
Proof.
  pose proof remarking_start. unfold boot_enclave. do 2 (apply remarking_bind; [remarking|intros ?]).
  apply remarking_try; [remarking|intros []; remarking|].
  intros e s x s' E. by apply bind_ok_inv in E as (? & ? & _ & ?).
Qed.

(** What the announcement [info] says of the enclave of a manager. *)
Definition announces (m : EnclaveManager) (info : EnclaveRunInfo) : Prop :=
  let h := guarded (enclave_handle m) in
  ri_enclave_name info = enclave_name m /\ ri_enclave_id info = enclave_id m /\
  generate_enclave_id env_asset_tag (slot_uid h) = Ok (ri_enclave_id info) /\
  enclave_cid h = Some (ri_enclave_cid info) /\
  ri_cpu_ids info = cpu_ids h /\ ri_memory_mib info = allocated_memory_mib h /\ state h = Running.

(** One announcement, after remarks. *)
Definition announced (info : EnclaveRunInfo) (w w' : World) : Prop :=
  exists text w1, remarked w w1 /\ to_string_pretty info = Ok text /\
    told [StdOutMessage (text +:+ String LF "")] w1 w'.

Lemma remarked_quiet w w' : told [] w w' -> remarked w w'.
Proof. intros T. exists []. by split; [constructor|]. Qed.
Lemma announced_after info w1 w2 w3 : remarked w1 w2 -> announced info w2 w3 -> announced info w1 w3.
Proof. intros R (text & w & R' & Et & T). exists text, w. split; [by eapply remarked_trans|done]. Qed.
Lemma announced_then info w1 w2 w3 : announced info w1 w2 -> told [] w2 w3 -> announced info w1 w3.
Proof. intros (text & w & R & Et & T) T'. exists text, w. split_and!; [done..|]. by apply (told_trans fd [_] [] w w2). Qed.

Lemma create_enclave_announces name h w id h' w' :
  create_enclave name (Some connection) (h, w) = (Return (Ok id), (h', w')) ->
  exists info, announced info w w' /\ ri_enclave_name info = name /\ ri_enclave_id info = id /\
    generate_enclave_id env_asset_tag (slot_uid h') = Ok id /\
    enclave_cid h' = Some (ri_enclave_cid info) /\
    ri_cpu_ids info = cpu_ids h' /\ ri_memory_mib info = allocated_memory_mib h'.
Proof.
  unfold create_enclave. intros E.
  apply bind_ok_inv in E as ([] & [h1 w1] & E1%map_err_ok_inv%remarking_init_memory & E).
  apply bind_ok_inv in E as ([] & [h2 w2] & E2%map_err_ok_inv & E).
  apply bind_ok_inv in E as (cid & [h3 w3] & E3%remarking_boot & E).
  apply bind_ok_inv in E as ([] & [h4 w4] & [= <- <-] & E).
  apply bind_ok_inv in E as (h5 & [h6 w6] & [= <- <- <-] & E).
  apply bind_ok_inv in E as (info & [h7 w7] & [Ei%rmap_err_ok_inv [= -> ->]]%of_result_inv & E).
  apply bind_ok_inv in E as (text & [h8 w8] & [Et%rmap_err_ok_inv [= -> ->]]%of_result_inv & E).
  apply bind_ok_inv in E as ([] & [h9 w9] & [-> Ep]%lift_inv & [= <- <- <-]).
  apply rbind_ok_inv in Ei as (id & Hid & [= <-]). exists (run_info_new k_process_id name id cid (Z.of_nat (length (cpu_ids h3))) (cpu_ids h3)
    (allocated_memory_mib h3)).
  split_and!; [|reflexivity|reflexivity|exact Hid|reflexivity..].
  exists text, w3. split_and!; [|done|by eapply write_reply_told].
  eapply remarked_trans; [exact E1|]. eapply remarked_trans; [|exact E3].
  apply remarked_quiet. eapply (told_quiet fd _ (h1, w1) _ (h2, w2)); [|exact E2]. by apply quiet_init_cpus.
Qed.

Lemma run_enclave_announces m w m' w' :
  run_enclave (Some connection) (m, w) = (Return (Ok tt), (m', w')) ->
  exists info, announced info w w' /\ ri_enclave_name info = enclave_name m /\
    enclave_name m' = enclave_name m /\ ri_enclave_id info = enclave_id m' /\
    let h := guarded (enclave_handle m') in
    generate_enclave_id env_asset_tag (slot_uid h) = Ok (ri_enclave_id info) /\
    enclave_cid h = Some (ri_enclave_cid info) /\
    ri_cpu_ids info = cpu_ids h /\ ri_memory_mib info = allocated_memory_mib h.
Proof.
  unfold run_enclave. intros E. apply bind_ok_inv in E as (m0 & [m1 w1] & [= <- <- <-] & E).
  apply bind_ok_inv in E as (id & [m2 w2] & E%locked_ok & [= <- <-]).
  destruct E as (h & E%map_err_ok_inv%create_enclave_announces & ->).
  destruct E as (info & A & N & <- & I & C & P & M). by exists info.
Qed.

Hint Resolve quiet_handle_new quiet_manager_drop : emits.

Lemma run_enclaves_announces args w r w' :
  run_enclaves args (Some connection) w = (Return (Ok r), w') ->
  exists info, announced info w w' /\ announces (rr_enclave_manager r) info /\
    run_enclave_name args = Some (ri_enclave_name info).
Proof.
  unfold run_enclaves. intros E. apply bind_ok_inv in E as (eif & w1 & [_ ->]%of_result_inv & E).
  apply bind_ok_inv in E as (cpus & w2 & [_ ->]%of_result_inv & E).
  apply bind_ok_inv in E as (ids & w3 & [_ ->]%of_result_inv & E).
  destruct (run_enclave_name args) as [name|]; [|done].
  apply bind_ok_inv in E as (m & w4 & En%map_err_ok_inv & E).
  apply bind_ok_inv in En as (h & w5 & En%map_err_ok_inv & [= <- <-]).
  apply (told_quiet fd) in En; [|by apply quiet_handle_new].
  apply bind_ok_inv in E as ([[] m] & w6 & E & [= <- <-]). unfold owning_manager in E.
  match type of E with (match ?x with _ => _ end) = _ => destruct x as [[[[]|]|c|] [m1 w7]] eqn:Em end;
    [|by destruct (manager_drop _) as [[[]|c|] []]|done..].
  injection E as -> ->.
  apply bind_ok_inv in Em as ([] & [m2 w8] & [-> [_ ->]%of_result_inv]%lift_inv & Em).
  apply bind_ok_inv in Em as ([] & [m3 w9] & Er%map_err_ok_inv%run_enclave_announces & Eu%map_err_ok_inv).
  apply locked_ok in Eu as (h1 & [= <- <-] & ->).
  destruct Er as (info & A & N & N' & I & G & C & P & M). exists info. split_and!.
  - eapply announced_after; [|exact A]. by apply remarked_quiet.
  - unfold announces. simpl. simpl in *. split_and!; congruence.
  - by rewrite N.
Qed.
End Remarks.

(** ** From the arguments to the announcement *)

Section Run.
Context `{IF : ImageFormat} `{IT : @ImageTools IF} (KC KS : Kernel) (ES : Env)
  `{SC : Serde EnclaveProcessCommandType} `{!SerdeLaws EnclaveProcessCommandType}
  `{SU : Serde unit} `{SR : Serde EnclaveProcessReply} `{!SerdeLaws EnclaveProcessReply}
  `{SA : Serde RunEnclavesArgs} `{!SerdeLaws RunEnclavesArgs} `{SD : Serde DescribeEnclavesArgs} `{SS : Serde string}
  `{ToJson EnclaveRunInfo} `{FromJson EnclaveRunInfo} `{ToJson EnclaveTerminateInfo}
  `{ToJson EnclaveDescribeInfo} `{ToJson string}.

(** Starting the listener for the new enclave writes nothing on a stream. *)
Lemma quiet_listener_start fd id : emits (unheard fd) (listener_start id).
Proof.
  pose proof (quiet_syscall (KN := KS) fd) as Hs. pose proof (@quiet_exit ES fd) as Hx.
  pose proof (quiet_close (KN := KS) fd) as Hcl.
  assert (forall s, emits (unheard fd) (Socket.sock_drop s)) as Hd.
  { intros s. unfold Socket.sock_drop, Socket.close_mut, Socket.path_exists. emits. }
  unfold listener_start, enable_credentials_passing, Socket.start_monitoring, lending. emits.
Qed.

Lemma on_manager_ok {A} (m : IOS EnclaveManager A) s w a s' w' :
  on_manager m (s, w) = (Return (Ok a), (s', w')) ->
  exists mgr, m (ls_manager s, w) = (Return (Ok a), (mgr, w')) /\ s' = set_manager mgr s.
Proof. unfold on_manager, zoom. simpl. destruct (m _) as [o [mgr w1]]. intros [= -> <- <-]. eauto. Qed.
Lemma on_listener_ok {A} (m : IOS ConnectionListener A) s w a s' w' :
  on_listener m (s, w) = (Return (Ok a), (s', w')) ->
  exists l, m (ls_listener s, w) = (Return (Ok a), (l, w')) /\ s' = set_listener l s.
Proof. unfold on_listener, zoom. simpl. destruct (m _) as [o [l w1]]. intros [= -> <- <-]. eauto. Qed.

Lemma run_answered connection fd s w code s' w' :
  (forall l f, k_accept l f <> Some fd) ->
  input_stream (guarded (data connection)) = Some fd -> enclave_id (ls_manager s) = ""%string ->
  handle_command Run connection (s, w) = (Return (Ok (code, false)), (s', w')) ->
  exists args w1 info, conn_read RunEnclavesArgs connection w = (Return (Ok args), w1) /\
    code = 0 /\ announced fd info w1 w' /\ announces (ls_manager s') info /\
    run_enclave_name args = Some (ri_enclave_name info).
Proof.
  intros Hacc Hfd Hid E. cbn [handle_command] in E. unfold handle_run in E.
  apply bind_ok_inv in E as (s0 & [s1 w1] & [= <- <- <-] & E). rewrite Hid in E. simpl negb in E. cbv iota in E.
  apply bind_ok_inv in E as (args & [s2 w2] & [-> Er%map_err_ok_inv]%lift_inv & E).
  apply bind_ok_inv in E as (r & [s3 w3] & [-> Ee%map_err_ok_inv]%lift_inv & E).
  apply (run_enclaves_announces fd connection Hfd Hacc) in Ee as (info & A & N & Hn).
  apply bind_ok_inv in E as ([] & [s4 w4] & (m1 & Ed & ->)%on_manager_ok & E).
  apply (told_quiet fd) in Ed; [|by apply quiet_manager_drop].
  apply bind_ok_inv in E as ([] & [s5 w5] & [= <- <-] & E).
  apply bind_ok_inv in E as (s6 & [s7 w7] & [= <- <- <-] & E).
  apply bind_ok_inv in E as (lg & [s8 w8] & [_ [= -> ->]]%of_result_inv & E).
  apply bind_ok_inv in E as ([] & [s9 w9] & [= <- <-] & E).
  apply bind_ok_inv in E as ([] & [s10 w10] & (l & El & ->)%map_err_ok_inv%on_listener_ok & E).
  apply (told_quiet fd) in El; [|by apply quiet_listener_start].
  apply bind_ok_inv in E as (efd & [s11 w11] & (m2 & Em & ->)%map_err_ok_inv%on_manager_ok & E).
  apply locked_ok in Em as (h & [= <- <- <-] & ->).
  apply bind_ok_inv in E as ([] & [s12 w12] & [-> Ea]%map_err_ok_inv%lift_inv & [= <- <- <-]).
  apply (told_quiet fd) in Ea; [|by apply emits_map_err_to, quiet_epoll_add].
  exists args, w2, info. split_and!; try done.
  eapply announced_then; [|exact Ea]. eapply announced_then; [|exact El]. by eapply announced_then.
Qed.

(** C3: what run-enclave reports is the enclave that runs: a client that sends Run
    over a connection whose other end the listener and the loop of a process
    without an enclave serve, as the owner of that process or as root, and that
    goes on, obtains, with the status of success and after what was remarked on
    the way, an announcement; the process it leaves has an enclave that runs,
    under the name that was asked for, with the ID, the CID, the CPUs and the
    memory announced. *)
Theorem run_conversation args connection comm sfd creds wc wc' s w c w1 s' w2 v :
  (forall l fd, k_shutdown (Kernel := KC) l fd = None) ->
  (forall l f, k_accept (Kernel := KS) l f <> Some sfd) ->
  (forall info text, to_string_pretty info = Ok text -> from_json (text +:+ String LF "") = Ok info) ->
  input_stream (guarded (data connection)) = Some sfd -> k_peer_credentials (Kernel := KS) sfd = Ok creds ->
  fst creds = k_getuid (Kernel := KS) \/ fst creds = 0 ->
  enclave_id (ls_manager s) = ""%string ->
  enclave_proc_command_send_single (H := KC) Run (Some args) comm wc = (Return (Ok tt), wc') ->
  w_in w !! sfd = Some (sent comm wc wc') ->
  handle_new_connection sfd w = (Return (Ok c), w1) ->
  handle_connection connection (s, w1) = (Return (Ok Continue), (s', w2)) ->
  w_in v !! comm = Some (sent sfd w w2) ->
  exists info v', enclave_proc_handle_output (H := KC) EnclaveRunInfo comm v = (Return (Ok (Some info, Some 0)), v') /\
    announces (ls_manager s') info /\ run_enclave_name args = Some (ri_enclave_name info).
Proof.
  intros Hshut Hacc Hjson Hfd Hcr Hown Hid Ea Hin El Eh Hback.
  apply (send_single_sent (KN := KC)) in Ea as (cb & ab & Hcb & (ab' & Hab & ->) & Ls & _).
  rewrite (sent_written _ _ _ _ Ls) in Hin.
  destruct (listener_takes_copy _ cb sfd (frame cb ++ frame ab') w c w1 Hcb) as (-> & Hin1 & L1); [done..|].
  destruct (connection_continues connection sfd s w1 s' w2 Hfd Eh) as (cmd & w3 & code & w4 & Er & Ehc & Ew).
  destruct (read_command_takes_copy connection sfd creds Run cb (frame ab') w1 cmd w3)
    as (-> & I3 & L3); try done; [by auto|].
  destruct (run_answered connection sfd s w3 code s' w4 Hacc Hfd Hid Ehc)
    as (args' & w5 & info & Er' & -> & (text & w6 & (rs & R & T0) & Ht & T1) & Hn & Hname).
  destruct (conn_read_takes connection sfd args args' ab' w3 w5 Hfd Hab) as [-> L4];
    [by rewrite I3, lookup_insert_eq|done|].
  cbn [replies_status] in Ew. apply (write_reply_told _ _ sfd) in Ew; [|done].
  assert (told sfd (rs ++ [StdOutMessage (text +:+ String LF ""); Status 0]) w w2) as T.
  { apply (told_trans sfd [] _ w w5); [exists []; split; [constructor|]; by rewrite L4, L3, L1, app_nil_r|].
    eapply told_trans; [exact T0|].
    by apply (told_trans sfd [_] [_] w6 w4). }
  destruct (told_reach_client (KN := KC) EnclaveRunInfo _ sfd comm w w2 v T Hback Hshut) as (v' & E' & _).
  exists info, v'. split; [|done]. rewrite E', remarks_stdout, remarks_status by done.
  cbn [stdout_of status_of foldr fold_left]. rewrite str_app_nil_r. by rewrite (Hjson info text Ht).
Qed.
End Run.

(** ** Witness *)

#[local] Instance run_args_eq : EqDecision RunEnclavesArgs.
Proof. solve_decision. Defined.
#[local] Instance run_info_eq : EqDecision EnclaveRunInfo.
Proof. solve_decision. Defined.

Module RunDemo.
#[local] Existing Instances sample_format sample_env sample_serde_command sample_serde_reply.
#[local] Instance unsigned_tools : @ImageTools sample_format := {|
  open_image := open_image (ImageTools := sample_tools);
  cpu_pool := cpu_pool (ImageTools := sample_tools);
  image_signature _ := Ok None;
  image_reader := image_reader (ImageTools := sample_tools);
  image_hashes := image_hashes (ImageTools := sample_tools);
|}.
#[local] Instance no_units : Serde unit := serde_none unit.
#[local] Instance no_describes : Serde DescribeEnclavesArgs := serde_none _.
#[local] Instance no_strings : Serde string := serde_none _.
#[local] Instance end_json : ToJson EnclaveTerminateInfo := fun _ => Ok "{}"%string.
#[local] Instance describe_json : ToJson EnclaveDescribeInfo := fun _ => Ok "{}"%string.
#[local] Instance string_json : ToJson string := fun s => Ok s.
#[local] Instance run_serde : Serde RunEnclavesArgs := serde_one sample_args.
Definition info : EnclaveRunInfo :=
  run_info_new 4242 "app" "i-0000000000000000-enc0" 16 2 [0; 0] 64.
#[local] Instance run_json : ToJson EnclaveRunInfo := json_one info.
#[local] Instance run_read : FromJson EnclaveRunInfo := read_one info.

(** The process that has just been started, with its end of the pair of
    streams, 21. *)
Definition idle : @LoopState sample_format :=
  mk_loop _ (mk_listener 6 NoThread Socket.default_sock)
    (mk_manager _ "" "" (mk_mutex false sample_handle)) None [] None (mk_mutex false "").
Definition pair_end : Connection := connection_new 0 (Some 21).
Definition run_asked :=
  @enclave_proc_command_send_single sample_system sample_serde_command _ run_serde Run (Some sample_args) 20 world0.
Definition run_world : World := mk_world [] ∅ {[21 := sent 20 world0 (snd run_asked)]}.
Definition run_listened := @handle_new_connection sample_system sample_serde_command 21 run_world.
Definition run_served := handle_connection (H := sample_system) pair_end (idle, snd run_listened).
Definition run_reader : World := mk_world [] ∅ {[20 := sent 21 run_world (snd (snd run_served))]}.

Lemma run_conversation_witness :
  fst run_served = Return (Ok Continue) /\
  exists info v', @enclave_proc_handle_output sample_system sample_serde_reply EnclaveRunInfo run_read 20 run_reader =
      (Return (Ok (Some info, Some 0)), v') /\
    announces (ls_manager (fst (snd run_served))) info /\
    run_enclave_name sample_args = Some (ri_enclave_name info).
Proof.
  split; [vm_compute; reflexivity|].
  refine (@run_conversation sample_format unsigned_tools sample_system sample_system sample_env
    sample_serde_command sample_serde_command_laws no_units sample_serde_reply sample_serde_reply_laws
    run_serde (serde_one_laws sample_args) no_describes no_strings
    run_json run_read end_json describe_json string_json sample_args pair_end 20 21 (1000, 1000) world0
    (snd run_asked) idle run_world Run (snd run_listened) (fst (snd run_served)) (snd (snd run_served)) run_reader
    _ _ (read_json_one info) _ _ _ _ _ _ _ _ _).
  - done.
  - intros. cbn. discriminate.
  - reflexivity.
  - reflexivity.
  - by left.
  - reflexivity.
  - vm_compute. reflexivity.
  - vm_compute. reflexivity.
  - vm_compute. reflexivity.
  - vm_compute. reflexivity.
  - vm_compute. reflexivity.
Defined.
End RunDemo.
