(* ===== verification/TerminateConversation.v ===== *)
(** * Terminating an enclave, seen from both ends

    The loop answers a request to terminate with a status while the thread that it
    has started ([TerminateThread]) releases the enclave and reports on the same stream,
    and other clients are served in between. The client of
    [Cli.terminate_enclaves] reads until the end of the stream: what it makes of
    the replies does not depend on their order. *)
From S2P Require Import Prelude.
From S2P Require Import RustStd.
From S2P Require Import Failure.
From S2P Require Import CommandsParser.
From S2P Require Import EnclaveIds.
From S2P Require Import Os.
From S2P Require Import Sample.
From S2P Require Import Wire.
From S2P Require Import Connection.
From S2P Require Import Memory.
From S2P Require Import EifWriter.
From S2P Require Import Logs.
From S2P Require Import Events.
From S2P Require Import Enclave.
From S2P Require Import Commands.
From S2P Require Import Listener.
From S2P Require Import TerminateThread.
From S2P Require Import EventLoop.
From S2P Require Import Threads.
From S2P Require Import ClientComm.
From S2P Require Import Conversation.
From S2P Require Import RunConversation.
From stdpp Require Import base list numbers strings gmap relations.
From Stdlib Require Import ZArith Lia.
Local Open Scope Z_scope.
Local Open Scope nitro_scope.

(** ** Replies in any order *)

Lemma stdout_of_app rs1 rs2 : stdout_of (rs1 ++ rs2) = stdout_of rs1 +:+ stdout_of rs2.
Proof. induction rs1 as [|[] rs1 IH]; simpl; try done. by rewrite IH, str_app_assoc. Qed.
Lemma status_of_app i rs1 rs2 : status_of i (rs1 ++ rs2) = status_of (status_of i rs1) rs2.
Proof. unfold status_of. by rewrite fold_left_app. Qed.

(** ** The threads, the loop and the other clients *)

Record Conf `{ImageFormat} : Type := mk_conf {
  cf_status : bool;
  cf_loop : LoopState;
  cf_world : World;
}.

Section Terminate.
Context `{IF : ImageFormat} `{IT : @ImageTools IF} `{KN : Kernel} `{EV : Env}
  `{SC : Serde EnclaveProcessCommandType} `{SU : Serde unit}
  `{SR : Serde EnclaveProcessReply} `{SA : Serde RunEnclavesArgs} `{SD : Serde DescribeEnclavesArgs} `{SS : Serde string}
  `{ToJson EnclaveRunInfo} `{TT : ToJson EnclaveTerminateInfo} `{ToJson EnclaveDescribeInfo} `{ToJson string}.
Context (connection : Connection) (fd : Z) (id name : string) (number : nat).
Context (Hfd : input_stream (guarded (data connection)) = Some fd).
Local Abbreviation unheard := (unheard fd).
Local Abbreviation told := (told fd).

(** What a thread reports to the loop goes over a stream of its own, and so does
    what other threads than the one of this client answer. *)
Definition elsewhere (i : nat) (th : Thread) : Prop :=
  th_stream th <> fd /\ (i <> number -> input_stream (guarded (data (th_connection th))) <> Some fd).

(** Any of the threads makes a step, the loop writes the status of the request,
    once, or it serves another client, which may ask for the termination too. *)
Inductive serving : Conf -> Conf -> Prop :=
| serve_thread i b s w r s' w' :
    (forall th, ls_threads s !! i = Some th -> elsewhere i th) ->
    on_thread i (s, w) = (Return r, (s', w')) -> serving (mk_conf _ b s w) (mk_conf _ b s' w')
| serve_status s w w' :
    write_status connection 0 w = (Return (Ok tt), w') ->
    serving (mk_conf _ false s w) (mk_conf _ true s w')
| serve_command b cmd c s w r s' w' :
    input_stream (guarded (data c)) <> Some fd ->
    handle_command cmd c (s, w) = (Return r, (s', w')) -> serving (mk_conf _ b s w) (mk_conf _ b s' w')
| serve_reply b c code s w r w' :
    input_stream (guarded (data c)) <> Some fd -> write_status c code w = (Return r, w') ->
    serving (mk_conf _ b s w) (mk_conf _ b s w').

(** *** Other clients are not heard on this stream *)

Lemma quiet_stream {A} c l none (k : Z -> IO A) :
  input_stream (guarded (data c)) <> Some fd -> (forall f, f <> fd -> emits unheard (k f)) ->
  emits unheard (with_stream c l none k).
Proof.
  intros Hc Hk. unfold with_stream. destruct (poisoned (data c)); [emits|].
  destruct (input_stream (guarded (data c))) as [f|]; [|emits]. apply Hk. congruence.
Qed.
Lemma quiet_write_u64_le f v : f <> fd -> emits unheard (write_u64_le f v).
Proof. intros Hf. unfold write_u64_le. by apply emits_map_err_to, quiet_write_all. Qed.
Lemma quiet_write_u64 c v : input_stream (guarded (data c)) <> Some fd -> emits unheard (write_u64 c v).
Proof.
  intros Hc. apply quiet_stream; [done|]. intros f Hf. pose proof (quiet_write_u64_le f v Hf). emits.
Qed.
Lemma quiet_reply c r : input_stream (guarded (data c)) <> Some fd -> emits unheard (write_reply c r).
Proof.
  intros Hc. apply quiet_stream; [done|]. intros f Hf.
  pose proof (fun v => quiet_write_u64_le f v Hf). pose proof (fun bs => quiet_write_all fd f bs Hf). emits.
Qed.
Lemma quiet_notify_terminate c m : emits unheard (notify_terminate c m).
Proof.
  pose proof (quiet_syscall fd). pose proof (quiet_close fd). pose proof (quiet_epoll_add fd).
  unfold notify_terminate, add_stream_to_epoll. emits.
Qed.

Lemma quiet_command cmd c :
  cmd <> Run -> input_stream (guarded (data c)) <> Some fd -> emits unheard (handle_command cmd c).
Proof.
  intros Hr Hc. pose proof (fun r => quiet_reply c r Hc). pose proof (fun v => quiet_write_u64 c v Hc).
  pose proof quiet_notify_terminate. pose proof (fun f => emits_change unheard f).
  assert (forall msg, emits unheard (Connection.println c msg)) by (intros; by apply quiet_reply).
  destruct cmd; try done; cbn [handle_command]; unfold handle_terminate, handle_get, confirm, print_json,
    describe_enclaves, get_enclave_describe_info, get_console_resources_enclave_cid,
    get_console_resources_enclave_flags, get_description_resources, get_measurements, get_metadata, peek,
    safe_conn_println;
    repeat (emits; first [apply emits_on_manager | apply emits_locked | apply emits_fetch | apply emits_conn_read]).
Qed.

Lemma command_unheard cmd c s w r s' w' :
  enclave_id (ls_manager s) <> ""%string -> input_stream (guarded (data c)) <> Some fd ->
  handle_command cmd c (s, w) = (Return r, (s', w')) -> told [] w w'.
Proof.
  intros Hid Hc E. destruct (decide (cmd = Run)) as [->|Hr].
  - rewrite (second_run_refused c s w Hid) in E. simplify_eq. by apply told_same.
  - by apply (told_quiet fd _ _ _ _ (quiet_command cmd c Hr Hc) E).
Qed.

(** *** The steps of the threads *)

Lemma branch_ok {S A} (m : IOS S A) k f s t s' :
  branch m k f s = (Return (Ok t), s') ->
  (exists a, m s = (Return (Ok a), s') /\ t = k a) \/ (exists e, m s = (Return (Err e), s') /\ t = f e).
Proof.
  unfold branch. intros ([a|e] & s1 & E%try_inv & [= <- <-])%bind_ok_inv; eauto.
Qed.

Lemma quiet_on_local {T A} (t : T) (m : IOS T A) : emits unheard m -> emits unheard (on_local t m : IOS EnclaveManager _).
Proof.
  intros Hm [s w]. destruct (Hm (t, w)) as (evs & L & F). exists evs. unfold on_local.
  cbv [log_of has_log_world world_of has_world_pair has_world_world] in *.
  by destruct (m (t, w)) as [[[?|?]|?|] [? ?]].
Qed.
Lemma quiet_release efd : emits unheard (release_resources efd).
Proof.
  pose proof (quiet_close fd). pose proof quiet_free. pose proof quiet_drop.
  unfold release_resources, release_enclave_descriptor. emits.
Qed.

(** The end of a thread writes on the stream of the thread, and an error on its
    connection. *)
Lemma quiet_run_terminate c f r :
  f <> fd -> (is_ok r = true \/ input_stream (guarded (data c)) <> Some fd) -> emits unheard (run_terminate c f r).
Proof.
  intros Hf Hr. pose proof (quiet_close fd). pose proof (@quiet_exit EV fd).
  assert (forall fd', emits unheard (shutdown fd')) by (intros; apply emits_one; intros; eexists; by split).
  assert (emits unheard (match r with Ok _ => ret tt | Err e => notify_error_with_conn (error_message e) c Terminate end)).
  { destruct r as [|e]; [emits|]. destruct Hr as [?|Hc]; [done|]. pose proof (quiet_notify fd).
    pose proof (fun r => quiet_reply c r Hc). unfold notify_error_with_conn, Connection.eprintln. emits. }
  assert (emits unheard (connection_drop c)) by (unfold connection_drop; emits).
  assert (emits unheard (send_command_and_close TerminateComplete f)).
  { pose proof (fun v => quiet_write_u64_le f v Hf). pose proof (fun bs => quiet_write_all fd f bs Hf).
    unfold send_command_and_close, enclave_proc_command_send_single, send_command_bytes. emits. }
  unfold run_terminate. emits.
Qed.

(** The steps that only touch the handle and the allocator. *)
Definition silent_step (t : TerminateStep) : bool :=
  match t with Tell | Show | Warn _ | Done (Err _) => false | _ => true end.

Lemma quiet_thread th :
  th_stream th <> fd -> silent_step (th_step th) = true \/ input_stream (guarded (data (th_connection th))) <> Some fd ->
  emits unheard (thread_step th).
Proof.
  intros Hf Ht. pose proof quiet_release. pose proof (fun A t (m : IOS ResourceAllocator A) => quiet_on_local t m).
  pose proof (quiet_drop fd). pose proof (fun f => quiet_update fd f).
  assert (forall msg, input_stream (guarded (data (th_connection th))) <> Some fd ->
    emits unheard (safe_conn_eprintln (Some (th_connection th)) msg) /\
    emits unheard (safe_conn_println (Some (th_connection th)) msg)) as Hm by (split; by apply quiet_reply).
  pose proof (fun r => quiet_run_terminate (th_connection th) (th_stream th) r Hf) as Hend.
  unfold thread_step. destruct (th_step th) as [| |? ?|?|? ?| | | |e|r|r|] eqn:Es; cbn [terminate_step];
    try (destruct Ht as [?|Ht]; [done|];
         pose proof (fun msg => proj1 (Hm msg Ht)); pose proof (fun msg => proj2 (Hm msg Ht)); emits; fail).
  1-6: unfold branch, update_state, get_termination_resources, peek; repeat (emits; first [apply emits_locked]).
  { assert (is_ok r = true \/ input_stream (guarded (data (th_connection th))) <> Some fd) as Hr
      by (destruct r; [by left|right; by destruct Ht]).
    pose proof (Hend r Hr). emits. }
  all: emits.
Qed.

(** A step of a thread that is not this client's. *)
Lemma other_thread i s w r s' w' :
  i <> number -> (forall th, ls_threads s !! i = Some th -> elsewhere i th) ->
  on_thread i (s, w) = (Return r, (s', w')) -> told [] w w'.
Proof.
  intros Hi He [(_ & _ & ->)|(th & o' & m' & Hth & E & _)]%on_thread_run; [by apply told_same|].
  destruct (He th Hth) as [Hs Hc].
  by apply (told_quiet fd _ _ _ _ (quiet_thread th Hs (or_intror (Hc Hi))) E).
Qed.

(** The steps of a thread that will fail. *)
Definition doomed (t : TerminateStep) : bool :=
  match t with Discard _ (Err _) | Warn _ | Done (Err _) | Over (Err _) | Gone => true | _ => false end.

(** The enclave is EMPTY, or another request has been accepted. *)
Definition asked_again (s : LoopState) : Prop := exists j th, j <> number /\ ls_threads s !! j = Some th.
Definition emptied (s : LoopState) : Prop := state (handle_of (ls_manager s)) = Enclave.Empty \/ asked_again s.

(** What has become of the handle before a step. *)
Definition reached (t : TerminateStep) (s : LoopState) : Prop :=
  match t with
  | Discard _ (Ok _) | Mark => cleared (handle_of (ls_manager s))
  | Tell | Show | Done (Ok _) | Over (Ok _) => cleared (handle_of (ls_manager s)) /\ emptied s
  | _ => True
  end.

(** What the thread has printed on the standard output before a step. *)
Definition printed (t : TerminateStep) (out : string) : Prop :=
  match t with
  | Done (Ok _) | Over (Ok _) => exists text, to_string_pretty (terminate_info_new (Some name) id true) = Ok text /\
      out = text +:+ String LF ""
  | _ => out = ""%string
  end.

(** The client's thread. *)
Definition ours (th : Thread) : Prop :=
  th_connection th = connection /\ th_id th = id /\ th_name th = name.

Lemma locked_update l f m w u m' w' :
  locked l (update f) (m, w) = (Return (Ok u), (m', w')) -> handle_of m' = f (handle_of m).
Proof. intros (h & [= _ <- _] & ->)%locked_ok. done. Qed.

Lemma thread_reached th s w t' w' s' :
  thread_step th (ls_manager s, w) = (Return (Ok t'), (ls_manager s', w')) -> doomed t' = false ->
  (asked_again s -> asked_again s') ->
  doomed (th_step th) = false /\ (reached (th_step th) s -> reached t' s').
Proof.
  intros E Hd Ha.
  assert (ls_manager s' = ls_manager s -> cleared (handle_of (ls_manager s)) /\ emptied s ->
    cleared (handle_of (ls_manager s')) /\ emptied s') as Hsame.
  { unfold emptied. intros ->. tauto. }
  assert (writes (th_step th) = None -> ls_manager s' = ls_manager s) as Hm.
  { intros Hw. pose proof (step_manager th (ls_manager s) w Hw) as Hm. by rewrite E in Hm. }
  unfold thread_step in E. destruct (th_step th) as [| |efd ra|ra|ra r| | | |e|r|r|] eqn:Es;
    cbn [terminate_step] in E; try specialize (Hm eq_refl).
  - by apply branch_ok in E as [(? & _ & ->)|(? & _ & ->)].
  - by apply branch_ok in E as [(? & _ & ->)|(? & _ & ->)].
  - by apply branch_ok in E as [(? & _ & ->)|(? & _ & ->)].
  - apply bind_ok_inv in E as ([[]|e] & [m1 w1] & E%try_inv & [= <- Em _]); [|done].
    apply locked_update in E. rewrite Em in E. split; [done|]. intros _. simpl. by rewrite E.
  - apply branch_ok in E as [(? & E & ->)|(? & _ & ->)]; [|done]. destruct r as [[]|e]; [|done].
    split; [done|]. simpl. by rewrite Hm.
  - apply branch_ok in E as [(? & E & ->)|(? & _ & ->)]; [|done]. apply locked_update in E.
    split; [done|]. intros Hr. simpl in *. unfold emptied. rewrite E. by split; [|left].
  - apply branch_ok in E as [(? & _ & ->)|(? & _ & ->)]; [|done]. split; [done|exact (Hsame Hm)].
  - apply bind_ok_inv in E as ([[]|e] & [m1 w1] & _ & [= <- _ _]); [|done]. split; [done|exact (Hsame Hm)].
  - by apply branch_ok in E as [(? & _ & ->)|(? & _ & ->)].
  - apply bind_ok_inv in E as ([] & s1 & _ & [= <- _]). destruct r; [|done]. split; [done|exact (Hsame Hm)].
  - injection E as <- _ _. destruct r; [|done]. split; [done|exact (Hsame Hm)].
  - by injection E as <- _ _.
Qed.

Lemma thread_told th m w t' m' w' :
  ours th -> th_stream th <> fd ->
  thread_step th (m, w) = (Return (Ok t'), (m', w')) -> doomed t' = false ->
  exists rs, told rs w w' /\ (forall i, status_of i rs = i) /\
    forall out, printed (th_step th) out -> printed t' (out +:+ stdout_of rs).
Proof.
  intros (Hco & Hi & Hn) Hf E Hd. destruct (silent_step (th_step th)) eqn:Ht.
  - exists []. split; [by apply (told_quiet fd _ _ _ _ (quiet_thread th Hf (or_introl Ht)) E)|]. split; [done|].
    intros out. simpl. rewrite str_app_nil_r. unfold thread_step in E.
    destruct (th_step th); try done; cbn [terminate_step] in E;
      first [injection E as <- _ _; done
            |apply branch_ok in E as [(? & _ & ->)|(? & _ & ->)]; try done; by repeat case_match
            |by apply bind_ok_inv in E as (? & [? ?] & _ & [= <- _ _])].
  - unfold thread_step in E. rewrite Hco, Hi, Hn in E.
    destruct (th_step th) as [| |? ?|?|? ?| | | |e|[|r]| |]; try done; cbn [terminate_step] in E.
    + apply branch_ok in E as [(? & [_ E]%lift_inv & ->)|(? & _ & ->)]; [|done].
      destruct x. apply (write_reply_told connection _ fd) in E; [|done].
      eexists. split; [exact E|]. split; [done|]. simpl. intros out ->. done.
    + apply bind_ok_inv in E as ([[]|e] & [m1 w1] & E%try_inv & [= <- <- <-]); [|done].
      apply bind_ok_inv in E as (text & [m2 w2] & [Et%rmap_err_ok_inv [= -> ->]]%of_result_inv & [-> E]%lift_inv).
      apply (write_reply_told connection _ fd) in E; [|done].
      eexists. split; [exact E|]. split; [done|]. simpl. intros out ->. exists text. split; [done|].
      simpl. by rewrite str_app_nil_r.
    + by apply branch_ok in E as [(? & _ & ->)|(? & _ & ->)].
    + by apply bind_ok_inv in E as ([] & s1 & _ & [= <- _]).
Qed.

(** *** What holds in every order *)

(** The client's thread is going to fail, or what was written since [w0] and what
    has become of the handle fit its next step. *)
Definition on_track (w0 : World) (c : Conf) : Prop :=
  exists th, ls_threads (cf_loop c) !! number = Some th /\ ours th /\
  enclave_id (ls_manager (cf_loop c)) <> ""%string /\
  (doomed (th_step th) = true \/
   (reached (th_step th) (cf_loop c) /\
    exists rs, told rs w0 (cf_world c) /\ status_of None rs = (if cf_status c then Some 0 else None) /\
      printed (th_step th) (stdout_of rs))).

(** The thread does not move, and nothing is written on the stream. *)
Lemma on_track_quiet w0 b s w s' w' :
  told [] w w' -> enclave_id (ls_manager s') = enclave_id (ls_manager s) ->
  ls_threads s' !! number = ls_threads s !! number ->
  (forall t, reached t s -> reached t s') ->
  on_track w0 (mk_conf _ b s w) -> on_track w0 (mk_conf _ b s' w').
Proof.
  intros T Hid Hth Hr (th & Hn & Ho & He & Hc). exists th. cbn [cf_status cf_loop cf_world] in *.
  rewrite Hth, Hid. split_and!; [done..|]. destruct Hc as [Hd|(Hre & rs & T0 & Hst & Hp)]; [by left|]. right.
  split; [by apply Hr|]. exists rs. split; [|done]. rewrite <- (app_nil_r rs). by eapply told_trans.
Qed.

Lemma reached_after t s s' :
  (cleared (handle_of (ls_manager s)) -> cleared (handle_of (ls_manager s'))) -> (emptied s -> emptied s') ->
  reached t s -> reached t s'.
Proof. intros Hc He. destruct t as [| | | |? []| | | | |[]|[]|]; simpl; tauto. Qed.

Lemma serving_on_track w0 c c' : serving c c' -> on_track w0 c -> on_track w0 c'.
Proof.
  intros [i b s w r s' w' He E|s w w' E|b cmd o s w r s' w' Ho E|b o code s w r w' Ho E] Hc.
  - destruct (decide (i = number)) as [->|Hi].
    + destruct (on_thread_run _ _ _ _ _ _ E) as [(_ & -> & ->)|(th & o' & m' & Hth & Et & Hs')]; [done|].
      destruct Hc as (th0 & Hth0 & Hou & Hid & Hc). cbn [cf_status cf_loop cf_world] in *.
      rewrite Hth in Hth0. injection Hth0 as <-.
      exists (set_step (after o') th). cbn [cf_status cf_loop cf_world]. subst s'.
      cbn [set_terminate ls_threads ls_manager set_manager].
      split_and!; [by apply list_lookup_insert_eq, (lookup_lt_Some _ _ _ Hth)|done| |].
      { pose proof (thread_step_effect th (ls_manager s) w) as Hf. rewrite Et in Hf. cbn [fst snd] in Hf. by destruct Hf as [-> _]. }
      destruct (doomed (after o')) eqn:Hd; [by left|]. right.
      destruct o' as [[t'|?]|?|]; try done. simpl in *.
      destruct (thread_reached th s w t' w' (set_terminate (ls_terminate s)
        (<[number:=set_step t' th]> (ls_threads s)) (set_manager m' s)) Et Hd) as [Hd0 Hre].
      { intros (j & th1 & Hj & Hl). exists j, th1. split; [done|]. cbn [set_terminate ls_threads].
        by rewrite list_lookup_insert_ne by done. }
      destruct Hc as [Hc|(Hr & rs & T & Hst & Hp)]; [congruence|]. split; [by apply Hre|].
      destruct (thread_told th _ _ _ _ _ Hou (proj1 (He th Hth)) Et Hd) as (rs' & T' & Hst' & Hp').
      exists (rs ++ rs'). split; [by eapply told_trans|]. by rewrite status_of_app, Hst', stdout_of_app, Hst; auto.
    + pose proof (other_thread _ _ _ _ _ _ Hi He E) as T.
      destruct (on_thread_run _ _ _ _ _ _ E) as [(_ & -> & ->)|(th & o' & m' & Hth & Et & ->)]; [done|].
      pose proof (thread_step_effect th (ls_manager s) w) as Hf. rewrite Et in Hf. cbn [fst snd] in Hf.
      destruct Hf as (Hid & Hcl & _ & _).
      eapply on_track_quiet; [exact T|done| | |exact Hc]; cbn [set_terminate ls_threads ls_manager set_manager].
      { by rewrite list_lookup_insert_ne. }
      intros t. apply reached_after; [done|]. intros _. right. exists i. cbn [set_terminate ls_threads].
      exists (set_step (after o') th). split; [done|]. by apply list_lookup_insert_eq, (lookup_lt_Some _ _ _ Hth).
  - destruct Hc as (th & Hth & Hou & Hid & Hc). exists th. cbn [cf_status cf_loop cf_world] in *.
    split_and!; [done..|]. destruct Hc as [Hc|(Hre & rs & T & Hst & Hp)]; [by left|]. right.
    split; [done|]. apply (write_reply_told connection _ fd) in E; [|done].
    exists (rs ++ [Status 0]). split; [by eapply told_trans|].
    rewrite status_of_app, stdout_of_app. simpl. by rewrite str_app_nil_r.
  - assert (enclave_id (ls_manager s) <> ""%string) as Hid by by destruct Hc as (? & _ & _ & ? & _).
    pose proof (command_unheard _ _ _ _ _ _ _ Hid Ho E) as T.
    destruct (command_effect _ _ _ _ _ _ _ Hid E) as [(Hi & Hst & Hcl) Hts].
    assert (exists more, ls_threads s' = ls_threads s ++ more) as [more Hmore].
    { destruct Hts as [->|(f & _ & ->)]; [exists []; by rewrite app_nil_r|by eexists]. }
    assert (forall j th, ls_threads s !! j = Some th -> ls_threads s' !! j = Some th) as Hkeep.
    { intros j th Hj. rewrite Hmore. by apply lookup_app_l_Some. }
    eapply on_track_quiet; [exact T|done| | |exact Hc].
    { destruct Hc as (th & Hth & _). cbn [cf_loop] in Hth. by rewrite Hth, (Hkeep _ _ Hth). }
    intros t. apply reached_after; [done|]. intros [He|(j & th & Hj & Hl)]; [left; congruence|].
    right. exists j, th. auto.
  - eapply on_track_quiet; [|done|done|done|exact Hc].
    by apply (told_quiet fd _ _ _ _ (quiet_reply o (Status code) Ho) E).
Qed.

Lemma run_on_track w0 c c' : rtc serving c c' -> on_track w0 c -> on_track w0 c'.
Proof. induction 1; eauto using serving_on_track. Qed.

(** *** Schedules *)

Inductive Turn : Type :=
| TurnThread (i : nat)
| TurnStatus
| TurnCommand (cmd : EnclaveProcessCommandType) (c : Connection).

Definition elsewhere_b (i : nat) (s : LoopState) : bool :=
  match ls_threads s !! i with
  | None => true
  | Some th => bool_decide (th_stream th <> fd) &&
      (bool_decide (i = number) || bool_decide (input_stream (guarded (data (th_connection th))) <> Some fd))
  end.

Definition take_turn (turn : Turn) (c : Conf) : option Conf :=
  let '(mk_conf _ b s w) := c in
  match turn with
  | TurnThread i =>
      if elsewhere_b i s then
        match on_thread i (s, w) with
        | (Return _, (s', w')) => Some (mk_conf _ b s' w')
        | _ => None
        end
      else None
  | TurnStatus =>
      match b, write_status connection 0 w with
      | false, (Return (Ok _), w') => Some (mk_conf _ true s w')
      | _, _ => None
      end
  | TurnCommand cmd o =>
      if bool_decide (input_stream (guarded (data o)) <> Some fd) then
        match handle_command cmd o (s, w) with
        | (Return _, (s', w')) => Some (mk_conf _ b s' w')
        | _ => None
        end
      else None
  end.

Lemma take_turn_serving turn c c' : take_turn turn c = Some c' -> serving c c'.
Proof.
  destruct c as [b s w], turn as [i| |cmd o]; cbn [take_turn].
  - destruct (elsewhere_b i s) eqn:He; [|done].
    destruct (on_thread _ _) as [[r|?|] [s' w']] eqn:E; [|done..]. intros [= <-].
    eapply serve_thread; [|exact E]. intros th Hth. unfold elsewhere_b in He. rewrite Hth in He.
    apply andb_true_iff in He as [Hb1%bool_decide_eq_true Hb2]. split; [done|]. intros Hi.
    apply orb_true_iff in Hb2 as [Hb2%bool_decide_eq_true|Hb2%bool_decide_eq_true]; done.
  - destruct b; [done|]. destruct (write_status _ _ _) as [[[[]|?]|?|] w'] eqn:E; [|done..]. intros [= <-].
    by apply serve_status.
  - case_bool_decide as Ho; [|done].
    destruct (handle_command _ _ _) as [[r|?|] [s' w']] eqn:E; [|done..]. intros [= <-].
    by eapply serve_command.
Qed.

Fixpoint take_turns (turns : list Turn) (c : Conf) : option Conf :=
  match turns with
  | [] => Some c
  | turn :: turns => match take_turn turn c with Some c' => take_turns turns c' | None => None end
  end.

Lemma take_turns_serving turns : forall c c', take_turns turns c = Some c' -> rtc serving c c'.
Proof.
  induction turns as [|turn turns IH]; intros c c' E; simpl in E; [injection E as <-; apply rtc_refl|].
  destruct (take_turn turn c) as [c1|] eqn:E1; [|done].
  eapply rtc_l; [by apply (take_turn_serving turn)|by apply IH].
Qed.
End Terminate.

(** The request starts the thread and is answered with success. *)
Lemma terminate_accepted `{IF : ImageFormat} `{IT : @ImageTools IF} `{KN : Kernel} `{EV : Env}
    `{Serde EnclaveProcessReply} `{Serde RunEnclavesArgs} `{Serde DescribeEnclavesArgs} `{Serde string}
    `{ToJson EnclaveRunInfo} `{ToJson EnclaveTerminateInfo} `{ToJson EnclaveDescribeInfo} `{ToJson string}
    connection fd s w code brk s' w' :
  handle_command Terminate connection (s, w) = (Return (Ok (code, brk)), (s', w')) ->
  code = 0 /\ brk = false /\ ls_manager s' = ls_manager s /\
  (exists f, ls_threads s' = ls_threads s ++
     [mk_thread connection f (enclave_id (ls_manager s)) (enclave_name (ls_manager s)) Announce]) /\ told fd [] w w'.
Proof.
  intros E. cbn [handle_command] in E. unfold handle_terminate in E. unfold bind at 1, self, gets in E. cbn [fst] in E.
  apply bind_ok_inv in E as (t & [s1 w1] & [-> En]%map_err_ok_inv%lift_inv & E).
  apply bind_ok_inv in E as ([] & [s2 w2] & [= <- <-] & [= <- <- <- <-]).
  split_and!; [done|done|done| |by apply (told_quiet fd _ _ _ _ (quiet_notify_terminate fd _ _) En)].
  apply notify_terminate_ok in En as [f ->]. by exists f.
Qed.

(** ** From the request to the answer *)

Section Conversation.
Context `{IF : ImageFormat} `{IT : @ImageTools IF} (KC KS : Kernel) (ES : Env)
  `{SC : Serde EnclaveProcessCommandType} `{!SerdeLaws EnclaveProcessCommandType}
  `{SU : Serde unit} `{SR : Serde EnclaveProcessReply} `{!SerdeLaws EnclaveProcessReply}
  `{SA : Serde RunEnclavesArgs} `{SD : Serde DescribeEnclavesArgs} `{SS : Serde string}
  `{ToJson EnclaveRunInfo} `{ToJson EnclaveTerminateInfo} `{FromJson EnclaveTerminateInfo}
  `{ToJson EnclaveDescribeInfo} `{ToJson string}.

(** C5: what terminate-enclave reports is true: a client that sends Terminate over a
    connection whose other end the listener and the loop serve, as the owner of
    the process or as root, and reads until the stream ends, obtains, with the
    status of success, the name and the ID of the enclave, once its thread has
    ended with success; and then the enclave has been cleared, and its state is
    EMPTY unless another request to terminate it has been accepted as well. This
    holds in whatever order the steps of the threads, the status that the loop
    writes on the same stream, and any requests of other clients come, further
    requests to terminate included. *)
Theorem terminate_conversation connection comm sfd creds wc wc' s w c w1 cmd w2 code s2 w3 s4 w4 th v :
  (forall l fd, k_shutdown (Kernel := KC) l fd = None) ->
  (forall info text, to_string_pretty info = Ok text -> from_json (text +:+ String LF "") = Ok info) ->
  input_stream (guarded (data connection)) = Some sfd -> k_peer_credentials (Kernel := KS) sfd = Ok creds ->
  fst creds = k_getuid (Kernel := KS) \/ fst creds = 0 ->
  enclave_id (ls_manager s) <> ""%string ->
  enclave_proc_command_send_single (H := KC) Terminate (None : option unit) comm wc = (Return (Ok tt), wc') ->
  w_in w !! sfd = Some (sent comm wc wc') ->
  handle_new_connection sfd w = (Return (Ok c), w1) ->
  read_command connection w1 = (Return (Ok cmd), w2) ->
  handle_command cmd connection (s, w2) = (Return (Ok (code, false)), (s2, w3)) ->
  let id := enclave_id (ls_manager s) in
  let name := enclave_name (ls_manager s) in
  let number := length (ls_threads s) in
  rtc (serving connection sfd number) (mk_conf _ false s2 w3) (mk_conf _ true s4 w4) ->
  ls_threads s4 !! number = Some th -> th_step th = Done (Ok tt) \/ th_step th = Over (Ok tt) ->
  w_in v !! comm = Some (sent sfd w w4) ->
  (exists v', enclave_proc_handle_output (H := KC) EnclaveTerminateInfo comm v =
     (Return (Ok (Some (mk_terminate_info (Some name) id true), Some 0)), v')) /\
  cleared (handle_of (ls_manager s4)) /\
  (state (handle_of (ls_manager s4)) = Enclave.Empty \/
   exists j other, j <> number /\ ls_threads s4 !! j = Some other).
Proof.
  intros Hshut Hjson Hfd Hcr Hown Hid Ea Hin El Er Eh id name number Hr Hth Hend Hback.
  apply (send_single_sent (KN := KC)) in Ea as (cb & ab & Hcb & -> & Ls & _).
  rewrite (sent_written _ _ _ _ Ls), app_nil_r in Hin.
  destruct (listener_takes_copy _ cb sfd (frame cb) w c w1 Hcb) as (-> & Hin1 & L1); [done..|].
  destruct (read_command_takes_copy connection sfd creds Terminate cb [] w1 cmd w2)
    as (-> & _ & L2); try done; [by auto|by rewrite app_nil_r|].
  destruct (terminate_accepted connection sfd s w2 code false s2 w3 Eh) as (_ & _ & Hm & [f Hts] & T3).
  assert (on_track connection sfd id name number w (mk_conf _ false s2 w3)) as Hon.
  { eexists. cbn [cf_status cf_loop cf_world]. rewrite Hm, Hts. split_and!; [by apply list_lookup_middle|done|done|].
    right. split; [done|]. exists [].
    split_and!; [|done|done]. destruct T3 as (bss & Hb & Hw). exists bss. split; [done|]. by rewrite Hw, L2, L1. }
  apply (run_on_track connection sfd id name number Hfd w _ _ Hr) in Hon as (th' & Hth' & _ & _ & Hc).
  cbn [cf_status cf_loop cf_world] in *. rewrite Hth in Hth'. injection Hth' as <-.
  assert (reached number (th_step th) s4 /\ exists rs, told sfd rs w w4 /\ status_of None rs = Some 0 /\
    printed id name (th_step th) (stdout_of rs)) as (Hre & rs & T & Hs & Ho).
  { destruct Hc as [Hc|Hc]; [by destruct Hend as [E|E]; rewrite E in Hc|done]. }
  assert (cleared (handle_of (ls_manager s4)) /\ emptied number s4) as [Hcl He]
    by (by destruct Hend as [E|E]; rewrite E in Hre).
  assert (exists text, to_string_pretty (terminate_info_new (Some name) id true) = Ok text /\
    stdout_of rs = text +:+ String LF "") as (text & Ht & Hout) by (by destruct Hend as [E|E]; rewrite E in Ho).
  split; [|split; [done|exact He]].
  destruct (told_reach_client (KN := KC) EnclaveTerminateInfo rs sfd comm w w4 v T Hback Hshut) as (v' & E' & _).
  exists v'. rewrite E', Hs, Hout. by rewrite (Hjson _ _ Ht).
Qed.
End Conversation.

(** ** Witness *)

#[local] Instance terminate_info_eq : EqDecision EnclaveTerminateInfo.
Proof. solve_decision. Defined.

Module TerminateDemo.
#[local] Existing Instances sample_format sample_tools sample_env sample_serde_command sample_serde_reply.
#[local] Instance no_units : Serde unit := serde_none unit.
#[local] Instance no_runs : Serde RunEnclavesArgs := serde_none _.
#[local] Instance no_describes : Serde DescribeEnclavesArgs := serde_none _.
#[local] Instance no_strings : Serde string := serde_none _.
#[local] Instance run_json : ToJson EnclaveRunInfo := fun _ => Ok "{}"%string.
#[local] Instance describe_json : ToJson EnclaveDescribeInfo := fun _ => Ok "{}"%string.
#[local] Instance string_json : ToJson string := fun s => Ok s.
Definition info : EnclaveTerminateInfo := mk_terminate_info (Some "app"%string) "i-0000000000000000-enc5" true.
#[local] Instance end_json : ToJson EnclaveTerminateInfo := json_one info.
#[local] Instance end_read : FromJson EnclaveTerminateInfo := read_one info.

Definition asked := @enclave_proc_command_send_single sample_system sample_serde_command _ no_units Terminate
  (None : option unit) 22 world0.
Definition server_world : World := sample_world (sent 22 world0 (snd asked)).
Definition listened := @handle_new_connection sample_system sample_serde_command 9 server_world.
Definition command_read := @read_command sample_system sample_serde_command sample_connection (snd listened).
Definition accepted := handle_command (H := sample_system) Terminate sample_connection
  (ThreadsDemo.running_loop, snd command_read).

(** The thread begins, another client asks for the name and a third one for the
    termination as well; the threads go on in turns, the status is written between
    the two replies of the first, and its thread ends. *)
Definition other : Connection := connection_new 0 (Some 11).
Definition third : Connection := connection_new 0 (Some 12).
Definition turns : list Turn :=
  [TurnThread 0; TurnThread 0; TurnCommand GetEnclaveName other; TurnThread 0; TurnCommand Terminate third;
   TurnThread 0; TurnThread 0; TurnThread 1; TurnThread 0; TurnThread 0; TurnStatus; TurnThread 0;
   TurnThread 1; TurnThread 0].
Definition last_conf : @Conf sample_format :=
  default (mk_conf _ false ThreadsDemo.running_loop world0)
    (take_turns (KN := sample_system) sample_connection 9 0 turns
      (mk_conf _ false (fst (snd accepted)) (snd (snd accepted)))).
Definition reader : World := mk_world [] ∅ {[22 := sent 9 server_world (cf_world last_conf)]}.
Definition our_thread : Thread := mk_thread sample_connection 21 "i-0000000000000000-enc5" "app" (Over (Ok tt)).

Lemma terminate_conversation_witness :
  (exists v', @enclave_proc_handle_output sample_system sample_serde_reply EnclaveTerminateInfo end_read 22 reader =
     (Return (Ok (Some info, Some 0)), v')) /\
  cleared (handle_of (ls_manager (cf_loop last_conf))) /\
  (state (handle_of (ls_manager (cf_loop last_conf))) = Enclave.Empty \/
   exists j th, j <> 0%nat /\ ls_threads (cf_loop last_conf) !! j = Some th).
Proof.
  refine (@terminate_conversation sample_format sample_tools sample_system sample_system sample_env
    sample_serde_command sample_serde_command_laws no_units sample_serde_reply sample_serde_reply_laws
    no_runs no_describes no_strings run_json end_json end_read describe_json string_json
    sample_connection 22 9 (1000, 1000) world0 (snd asked) ThreadsDemo.running_loop server_world Terminate
    (snd listened) Terminate (snd command_read) 0 (fst (snd accepted)) (snd (snd accepted))
    (cf_loop last_conf) (cf_world last_conf) our_thread reader
    _ (read_json_one info) _ _ _ _ _ _ _ _ _ _ _ _ _).
  - done.
  - reflexivity.
  - reflexivity.
  - by left.
  - discriminate.
  - vm_compute. reflexivity.
  - vm_compute. reflexivity.
  - vm_compute. reflexivity.
  - vm_compute. reflexivity.
  - vm_compute. reflexivity.
  - apply (take_turns_serving sample_connection 9 0 turns). vm_compute. reflexivity.
  - vm_compute. reflexivity.
  - by right.
  - vm_compute. reflexivity.
Defined.

(** Without the third client the enclave is EMPTY at the end. *)
Definition alone : list Turn :=
  [TurnThread 0; TurnThread 0; TurnThread 0; TurnThread 0; TurnThread 0; TurnThread 0; TurnStatus; TurnThread 0;
   TurnThread 0; TurnThread 0].
Example alone_empty :
  (fun c => state (handle_of (ls_manager (cf_loop c)))) <$>
    take_turns (KN := sample_system) sample_connection 9 0 alone
      (mk_conf _ false (fst (snd accepted)) (snd (snd accepted))) = Some Enclave.Empty.
Proof. vm_compute. reflexivity. Qed.
End TerminateDemo.
