(* ===== verification/Console.v ===== *)
(** * The console of an enclave (src/src/utils.rs)

    In debug mode the hypervisor offers the console of an enclave on a vsock
    port. A [Console] is its descriptor. The loops are given a number of rounds,
    and answer whether they have ended. *)
From S2P Require Import Prelude.
From S2P Require Import Logs.
From S2P Require Import RustStd.
From S2P Require Import Failure.
From S2P Require Import Os.
From S2P Require Import Sample.
From S2P Require Import Memory.
From S2P Require Import Events.
From stdpp Require Import base list numbers strings gmap.
From Stdlib Require Import ZArith Lia.
Local Open Scope Z_scope.
Local Open Scope nitro_scope.

Abbreviation println := Os.println.

Definition failure_at (subaction : string) (code : NitroCliErrorEnum) (l : Z) : NitroCliFailure :=
  new_nitro_cli_failure subaction code "src/utils.rs" l.

(* src/src/utils.rs BUFFER_SIZE *)
Definition BUFFER_SIZE : Z := 1024.
(* src/src/utils.rs CONSOLE_CONNECT_TIMEOUT *)
Definition CONSOLE_CONNECT_TIMEOUT : Z := 20000.
(* src/src/utils.rs POLL_TIMEOUT *)
Definition POLL_TIMEOUT : Z := 10000.
(* src/src/utils.rs TIMEOUT *)
Definition TIMEOUT : Z := 100.

(* src/src/utils.rs Console *)
Record Console : Type := mk_console { console_fd : Z }.

Section Console.
Context `{Kernel}.

(** A system call whose answer is a number. *)
Definition call_fd (c : Syscall) (f : string -> NitroCliFailure) : IO Z :=
  let! answer := map_err_to f (syscall c) in
  ret (hd (-1) answer).

(** The answer of [setsockopt] is its return value. *)
(* src/src/utils.rs vsock_set_connect_timeout *)
Definition vsock_set_connect_timeout (fd millis : Z) : IO unit :=
  let! r := attempt (syscall (SysVsockTimeout fd millis)) in
  let rc := match r with Ok answer => hd 0 answer | Err _ => -1 end in
  if rc =? 0 then ret tt
  else fail (failure_at ("Failed to configure SO_VM_SOCKETS_CONNECT_TIMEOUT: " +:+ show_i rc)
               SocketConnectTimeoutError 310).

(** When setting the time-out or connecting fails, the socket is not closed. *)
(* src/src/utils.rs Console::new *)
Definition console_new (cid port : Z) : IO Console :=
  let! socket_fd := call_fd (SysVsockSocket false) (fun err =>
    failure_at ("Failed to create blocking console socket: " +:+ err) SocketError 70) in
  do! map_err (add_subaction "Failed to set console connect timeout")
        (vsock_set_connect_timeout socket_fd CONSOLE_CONNECT_TIMEOUT);
  do! map_err_to (fun err =>
        failure_at ("Failed to connect to the console: " +:+ err) EnclaveConsoleConnectionFailure 83)
        (syscall (SysVsockConnect socket_fd cid port));
  ret (mk_console socket_fd).

(* src/src/utils.rs Console::new_nonblocking *)
Definition console_new_nonblocking (cid port : Z) : IO Console :=
  let! socket_fd := call_fd (SysVsockSocket true) (fun err =>
    failure_at ("Failed to create nonblocking console socket: " +:+ err) SocketError 102) in
  do! map_err (add_subaction "Failed to set console connect timeout")
        (vsock_set_connect_timeout socket_fd CONSOLE_CONNECT_TIMEOUT);
  let! result := attempt (syscall (SysVsockConnect socket_fd cid port)) in
  do! match result with
      | Ok _ => println "Connected to the console"
      | Err error =>
          if String.eqb error "EINPROGRESS" then
            let! ready := poll socket_fd POLL_TIMEOUT in
            if bool_decide (ready = Some 1) then println "Connected to the console"
            else fail (failure_at "Failed to connect to the console" SocketError 125)
          else fail (failure_at "Failed to connect to the console" SocketError 133)
      end;
  ret (mk_console socket_fd).

(** What happens to one chunk that was read: it is offered to the output once,
    however much of it the output takes. *)
(* src/src/utils.rs:226-250 Console::read_to *)
Definition copy_chunk (self : Console) : IO bool :=
  let! buffer := map_err_to (fun e =>
    failure_at ("Failed to read data from the console: " +:+ e) EnclaveConsoleReadError 229)
    (syscall (SysRead (console_fd self) BUFFER_SIZE)) in
  match buffer with
  | [] => ret true
  | _ =>
      do! map_err_to (fun e =>
            failure_at ("Failed to write data from the console to the given stream: " +:+ e)
              EnclaveConsoleWriteOutputError 241) (syscall (SysWriteOut buffer));
      ret false
  end.

(** The loop; a wait answers the descriptor of the event, or nothing. *)
(* src/src/utils.rs:212-256 Console::read_to *)
Fixpoint read_loop (rounds : nat) (self : Console) (epoll : Z) : IO bool :=
  match rounds with
  | O => ret false
  | S rounds =>
      let! events := map_err_to (fun e => failure_at ("Failed to wait epoll: " +:+ e) EpollError 215)
        (syscall (SysEpollWait epoll)) in
      match events with
      | [] => read_loop rounds self epoll
      | fd :: _ =>
          if fd =? console_fd self then
            let! ended := copy_chunk self in
            if (ended : bool) then ret true else read_loop rounds self epoll
          else ret true
      end
  end.

(** The console and the timer are registered. A timer that cannot be armed is
    closed; one that has been armed never is. *)
(* src/src/utils.rs:159-207 Console::read_to *)
Definition console_epoll (self : Console) (disconnect_timeout_sec : option Z) (epoll : Z) : IO unit :=
  do! map_err_to (fun e => failure_at ("Failed to add fd to epoll: " +:+ e) EpollError 166)
        (syscall (SysEpollCtlAdd epoll (console_fd self)));
  match disconnect_timeout_sec with
  | None => ret tt
  | Some disconnect_timeout =>
      let! timerfd := call_fd SysTimerCreate (fun e =>
        failure_at ("Failed to initialize timerfd: " +:+ e) EpollError 177) in
      do! lending timerfd (map_err_to (fun e => failure_at ("Failed to arm timerfd: " +:+ e) EpollError 187)
            (syscall (SysTimerArm timerfd disconnect_timeout)));
      do! map_err_to (fun e => failure_at ("Failed to add fd to epoll: " +:+ e) EpollError 202)
            (syscall (SysEpollCtlAdd epoll timerfd));
      ret tt
  end.

(** The descriptor is closed when [m] is over; [false] means that it is not. *)
Definition closing (fd : Z) (m : IO bool) : IO bool :=
  let! r := try m in
  match r with
  | Ok false => ret false
  | _ => let! _ := close fd in of_result r
  end.

(* src/src/utils.rs Console::read_to *)
Definition read_to (rounds : nat) (self : Console) (disconnect_timeout_sec : option Z) : IO bool :=
  let! epoll := call_fd SysEpollCreate (fun e => failure_at ("Failed to create epoll: " +:+ e) EpollError 152) in
  closing epoll (
    do! console_epoll self disconnect_timeout_sec epoll;
    read_loop rounds self epoll).

(** The time that has passed, in nanoseconds. Errors of [read] are ignored. *)
(* src/src/utils.rs Console::read_to_buffer *)
Fixpoint read_to_buffer (rounds : nat) (self : Console) (buf : list Z) (duration : Z)
    : IO (bool * list Z) :=
  match rounds with
  | O => ret (false, buf)
  | S rounds =>
      let! result := attempt (syscall (SysRead (console_fd self) BUFFER_SIZE)) in
      let buf := buf ++ match result with Ok bytes => bytes | Err _ => [] end in
      let! _ := attempt (F := NitroCliFailure) (syscall (SysSleep TIMEOUT)) in
      let! time_elapsed := call_fd SysElapsed (fun err =>
        failure_at ("System time moved backwards: " +:+ err) ClockSkewError 280) in
      if duration <=? time_elapsed then ret (true, buf) else read_to_buffer rounds self buf duration
  end.

(** The descriptor is closed; what [close] answers is ignored. *)
(* src/src/utils.rs Console::drop *)
Definition console_drop (self : Console) : IO unit :=
  let! _ := close (console_fd self) in
  ret tt.
End Console.

(** ** What goes through the console *)

(** The bytes read from the descriptor; the bytes offered to the output; and
    those that the output took of them. *)
Definition console_received (fd : Z) (l : log) : list Z :=
  flat_map (fun e => match e with EvSys (SysRead fd' _) (Ok bs) => if fd =? fd' then bs else [] | _ => [] end) l.
Definition offered (l : log) : list Z :=
  flat_map (fun e => match e with EvSys (SysWriteOut bs) _ => bs | _ => [] end) l.
Definition accepted (l : log) : list Z :=
  flat_map (fun e => match e with EvSys (SysWriteOut bs) (Ok (n :: _)) => take (Z.to_nat n) bs | _ => [] end) l.

(** The output took everything it was offered. *)
Definition taken_whole (e : Event) : Prop :=
  match e with
  | EvSys (SysWriteOut bs) (Ok (n :: _)) => n = Z.of_nat (length bs)
  | EvSys (SysWriteOut bs) _ => False
  | _ => True
  end.

Definition waits (l : log) : nat :=
  length (List.filter (fun e => match e with EvSys (SysEpollWait _) (Ok _) => true | _ => false end) l).

Lemma console_received_app fd l1 l2 : console_received fd (l1 ++ l2) = console_received fd l1 ++ console_received fd l2.
Proof. apply flat_map_app. Qed.
Lemma offered_app l1 l2 : offered (l1 ++ l2) = offered l1 ++ offered l2.
Proof. apply flat_map_app. Qed.
Lemma accepted_app l1 l2 : accepted (l1 ++ l2) = accepted l1 ++ accepted l2.
Proof. apply flat_map_app. Qed.
Lemma waits_app l1 l2 : waits (l1 ++ l2) = (waits l1 + waits l2)%nat.
Proof. unfold waits. by rewrite List.filter_app, length_app. Qed.

(** Everything that was offered and taken is what was read. *)
Lemma accepted_whole l : Forall taken_whole l -> accepted l = offered l.
Proof.
  induction 1 as [|e l He _ IH]; [done|]. simpl. rewrite IH. f_equal.
  destruct e; try done. destruct call; try done. simpl in He.
  destruct answer as [[|n ns]|]; try done. subst n. by rewrite Nat2Z.id, firstn_all.
Qed.

Section ConsoleLemmas.
Context `{Kernel}.

Lemma syscall_run c w :
  syscall c w = (Return (k_sys (w_log w) c), grow w [EvSys c (k_sys (w_log w) c)]).
Proof. reflexivity. Qed.

(** One chunk: what it logs, and how it ends. *)
Lemma copy_chunk_run self w :
  exists r evs, copy_chunk self w = (r, grow w evs) /\ offered evs = console_received (console_fd self) evs /\
    waits evs = 0%nat /\
    match r with
    | Return (Ok true) => evs = [EvSys (SysRead (console_fd self) BUFFER_SIZE) (Ok [])]
    | Return (Ok false) => True
    | Return (Err e) => error_code e = EnclaveConsoleReadError \/ error_code e = EnclaveConsoleWriteOutputError
    | _ => False
    end.
Proof.
  unfold copy_chunk, bind at 1, map_err_to at 1. rewrite syscall_run.
  destruct (k_sys (w_log w) _) as [[|b bs]|e] eqn:Er; cbv beta iota.
  - eexists _, _. split; [reflexivity|]. simpl. by destruct (_ =? _).
  - set (w1 := grow w _). unfold bind, map_err_to. rewrite syscall_run.
    set (a := k_sys (w_log w1) _).
    destruct a as [taken|e] eqn:Ea;
      eexists _, ([EvSys (SysRead (console_fd self) BUFFER_SIZE) (Ok (b :: bs))] ++ [EvSys (SysWriteOut (b :: bs)) _]);
      (split; [unfold w1; rewrite grow_grow; reflexivity|]); simpl; rewrite Z.eqb_refl; auto.
  - eexists _, _. split; [reflexivity|]. simpl. auto.
Qed.

Lemma read_loop_run rounds self epoll w :
  exists r evs, read_loop rounds self epoll w = (r, grow w evs) /\
    offered evs = console_received (console_fd self) evs /\
    match r with
    | Return (Ok true) => exists fd rest, Exists (fun e => e = EvSys (SysRead (console_fd self) BUFFER_SIZE) (Ok []) \/
        (e = EvSys (SysEpollWait epoll) (Ok (fd :: rest)) /\ fd <> console_fd self)) evs
    | Return (Ok false) => waits evs = rounds
    | Return (Err e) => error_code e ∈ [EpollError; EnclaveConsoleReadError; EnclaveConsoleWriteOutputError]
    | _ => False
    end.
Proof.
  revert w. induction rounds as [|rounds IH]; intros w; cbn [read_loop].
  { eexists _, []. by rewrite grow_nil. }
  unfold bind at 1, map_err_to. rewrite syscall_run.
  destruct (k_sys (w_log w) _) as [events|e] eqn:Es; cbv beta iota.
  2: { eexists _, _. split; [reflexivity|]. split; [done|]. by left. }
  set (wait := EvSys (SysEpollWait epoll) (Ok events)).
  destruct events as [|fd events].
  { destruct (IH (grow w [wait])) as (r & evs & E & Ho & Hr). exists r, ([wait] ++ evs).
    rewrite E, grow_grow. split; [done|]. split; [done|].
    destruct r as [[[]|]|c|]; try done; [|by rewrite waits_app, Hr].
    destruct Hr as (x & rest & Hx). exists x, rest. by right. }
  destruct (Z.eqb_spec fd (console_fd self)) as [->|Hne].
  2: { eexists _, [wait]. split; [reflexivity|]. split; [done|]. exists fd, events. left. by right. }
  destruct (copy_chunk_run self (grow w [wait])) as (r1 & e1 & E1 & Ho1 & W1 & Hr1).
  unfold bind. rewrite E1, grow_grow.
  destruct r1 as [[[]|e]|c|]; try done.
  - eexists _, ([wait] ++ e1). split; [reflexivity|]. split; [by rewrite offered_app, console_received_app, Ho1|].
    subst e1. exists 0, []. right. left. by left.
  - destruct (IH (grow w ([wait] ++ e1))) as (r & evs & E & Ho & Hr). exists r, (([wait] ++ e1) ++ evs).
    rewrite E, grow_grow. split; [done|].
    split; [by rewrite !offered_app, !console_received_app, Ho1, Ho|].
    destruct r as [[[]|]|c|]; try done; [|by rewrite !waits_app, Hr, W1].
    destruct Hr as (x & rest & Hx). exists x, rest. apply Exists_app. by right.
  - eexists _, ([wait] ++ e1). split; [reflexivity|]. split; [by rewrite offered_app, console_received_app, Ho1|].
    destruct Hr1 as [-> | ->]; set_solver.
Qed.
End ConsoleLemmas.

(** Calls that neither read from the console nor write to the output. *)
Definition silent (e : Event) : Prop :=
  match e with EvSys (SysRead _ _) _ | EvSys (SysWriteOut _) _ => False | _ => True end.

Lemma silent_log fd l : Forall silent l -> offered l = [] /\ console_received fd l = [].
Proof.
  induction 1 as [|e l He _ [IH1 IH2]]; [done|]. simpl. rewrite IH1, IH2, !app_nil_r.
  by destruct e; [..|destruct call|destruct to_stderr|].
Qed.

Section ConsoleProperties.
Context `{Kernel}.


Lemma emits_console_close {E} fd : emits silent (close fd : M E World Z).
Proof. apply emits_one. intros s. eexists. by split. Qed.
Lemma emits_console_epoll self timeout epoll : emits silent (console_epoll self timeout epoll).
Proof.
  pose proof @emits_console_close.
  unfold console_epoll, call_fd, lending. emits; try (apply emits_syscall; done).
Qed.
Lemma returns_console_epoll self timeout epoll : returns (console_epoll self timeout epoll).
Proof.
  assert (forall fd, returns (close fd : IO Z)) by by intros fd w; eexists _, _.
  unfold console_epoll, call_fd, lending. returns.
Qed.

(** Calls of which none touches the stream add nothing to what is copied. *)
Definition copies (self : Console) (evs : log) : Prop :=
  offered evs = console_received (console_fd self) evs.
Lemma copies_silent self evs : Forall silent evs -> copies self evs.
Proof. intros S. unfold copies. by destruct (silent_log (console_fd self) evs S) as [-> ->]. Qed.
Lemma copies_app self e1 e2 : copies self e1 -> copies self e2 -> copies self (e1 ++ e2).
Proof. unfold copies. rewrite offered_app, console_received_app. congruence. Qed.

(** The end of the stream, or another descriptor that was ready. *)
Definition console_over (self : Console) (evs : log) : Prop :=
  exists epoll fd rest, Exists (fun e => e = EvSys (SysRead (console_fd self) BUFFER_SIZE) (Ok []) \/
    (e = EvSys (SysEpollWait epoll) (Ok (fd :: rest)) /\ fd <> console_fd self)) evs.
Lemma console_over_app self e1 e2 : console_over self e1 \/ console_over self e2 -> console_over self (e1 ++ e2).
Proof. unfold console_over. setoid_rewrite Exists_app. naive_solver. Qed.

(** Registering and reading. *)
Lemma read_registered_run rounds self timeout epoll w :
  exists r evs w', bind (console_epoll self timeout epoll) (fun _ => read_loop rounds self epoll) w = (Return r, w') /\
    w_log w' = w_log w ++ evs /\ copies self evs /\ (r = Ok true -> console_over self evs).
Proof.
  destruct (emits_console_epoll self timeout epoll w) as (e1 & E1 & S1). apply (copies_silent self) in S1.
  unfold bind. destruct (returns_console_epoll self timeout epoll w) as ([[]|e] & w1 & Ep);
    rewrite Ep in E1 |- *; unfold log_of, has_log_world, world_of, has_world_world in E1; simpl in E1.
  - destruct (read_loop_run rounds self epoll w1) as (r & e2 & -> & Ho & Hr).
    destruct r as [r|c|]; [|done..]. exists r, (e1 ++ e2), (grow w1 e2).
    split; [done|]. split; [simpl; by rewrite E1, app_assoc|]. split; [by apply copies_app|].
    intros ->. destruct Hr as (fd & rest & Hx). apply console_over_app. right. by exists epoll, fd, rest.
  - exists (Err e), e1, w1. by split_and!.
Qed.

(** C33: the console is copied faithfully. However long [read_to] is followed,
    the bytes it has offered to the output are exactly those it has read from
    the console, in order; they have also arrived there if every [write] took
    the whole chunk, as nothing that a [write] leaves over is offered again. It
    ends in success only at the end of the console's stream or when another
    descriptor, the timer, was ready; it never panics. *)
Theorem console_copies rounds self timeout w r w' :
  read_to rounds self timeout w = (r, w') ->
  exists evs, w_log w' = w_log w ++ evs /\
    offered evs = console_received (console_fd self) evs /\
    (Forall taken_whole evs -> accepted evs = console_received (console_fd self) evs) /\
    match r with
    | Return (Ok true) => exists epoll fd rest,
        Exists (fun e => e = EvSys (SysRead (console_fd self) BUFFER_SIZE) (Ok []) \/
          (e = EvSys (SysEpollWait epoll) (Ok (fd :: rest)) /\ fd <> console_fd self)) evs
    | Return _ => True
    | _ => False
    end.
Proof.
  intros E. assert (exists evs, w_log w' = w_log w ++ evs /\ copies self evs /\
    match r with Return (Ok true) => console_over self evs | Return _ => True | _ => False end) as (evs & L & Hc & Hr).
  2: { exists evs. split_and!; try done. intros Hw. by rewrite accepted_whole. }
  unfold read_to, call_fd in E. unfold bind at 1 2, map_err_to at 1 in E. rewrite syscall_run in E.
  set (create := EvSys SysEpollCreate _) in E.
  assert (copies self [create]) as Hc0 by (apply copies_silent; by repeat constructor).
  destruct (k_sys (w_log w) SysEpollCreate) as [answer|e]; cbn [ret] in E; [|injection E as <- <-; by exists [create]].
  unfold ret in E. cbv beta iota in E.
  destruct (read_registered_run rounds self timeout (hd (-1) answer) (grow w [create])) as (o & evs & w1 & E1 & L1 & Hc1 & Ho).
  unfold closing, bind at 1, try in E. rewrite E1 in E. cbn [w_log grow] in L1. rewrite <- app_assoc in L1.
  pose proof (copies_app _ _ _ Hc0 Hc1) as Hc.
  assert (forall closed, copies self (([create] ++ evs) ++ [EvClose (hd (-1) answer) closed])) as Hcl.
  { intros closed. apply copies_app; [done|]. apply copies_silent. by repeat constructor. }
  destruct o as [[]|e]; injection E as <- <-; (eexists; split; [first [exact L1 | simpl; rewrite L1, <- app_assoc; reflexivity]|]).
  - rewrite app_assoc. split; [apply Hcl|]. apply console_over_app. left. apply console_over_app. right. by apply Ho.
  - by split.
  - rewrite app_assoc. split; [apply Hcl|done].
Qed.
End ConsoleProperties.

(** A console with one chunk to read, which the output only takes in part. *)
Definition console_system : Kernel := {|
  k_mmap := sample_mmap; k_munmap _ _ _ := 0; k_ioctl := sample_ioctl; k_close _ _ := 0;
  k_open_device _ := Ok 4; k_vsock_bind _ _ _ := None; k_poll _ _ _ := None; k_accept _ _ := None;
  k_read _ _ _ := None; k_write _ _ _ := None; k_shutdown _ _ := None; k_epoll_add _ _ := None;
  k_epoll_del _ _ := None;
  k_sys l c :=
    match c with
    | SysEpollCreate => Ok [6]
    | SysEpollWait _ => Ok [5]
    | SysRead _ _ => if (length l <? 5)%nat then Ok [104; 105; 10] else Ok []
    | SysWriteOut _ => Ok [2]
    | _ => Ok [0]
    end;
  k_interruptions _ := 0%nat; k_peer_credentials _ := Err "none"%string; k_threads _ := []; k_getuid := 0; k_process_id := 1;
|}.

Lemma console_copies_witness :
  exists evs, w_log (snd (@read_to console_system 9 (mk_console 5) None world0)) = evs /\
    offered evs = [104; 105; 10] /\ accepted evs = [104; 105] /\
    offered evs = console_received 5 evs.
Proof.
  destruct (@console_copies console_system 9 (mk_console 5) None world0 _ _ eq_refl)
    as (evs & E & Ho & _). change (w_log world0 ++ evs) with evs in E.
  exists evs. split; [exact E|]. rewrite <- E in Ho |- *.
  split; [vm_compute; reflexivity|]. split; [vm_compute; reflexivity|exact Ho].
Defined.
