(* ===== verification/Logger.v ===== *)
(** * The log writer (src/src/common/logger.rs)

    One file takes the messages of all processes. The writer keeps the open file
    and the ID of the process that logs, each behind a mutex; it opens the file
    again when it is gone. Formatting a time and starting the logging library are
    parameters. *)
From S2P Require Import Prelude.
From S2P Require Import Logs.
From S2P Require Import RustStd.
From S2P Require Import Failure.
From S2P Require Import DocumentErrors.
From S2P Require Import EnclaveIds.
From S2P Require Import Os.
From S2P Require Import Sample.
From S2P Require Import Memory.
From S2P Require Import Events.
From stdpp Require Import base list numbers strings gmap.
From Stdlib Require Import ZArith Lia.
Local Open Scope Z_scope.
Local Open Scope nitro_scope.

Definition failure_at (subaction : string) (code : NitroCliErrorEnum) (l : Z) : NitroCliFailure :=
  new_nitro_cli_failure subaction code "src/common/logger.rs" l.

(* src/src/common/logger.rs DEFAULT_LOG_LEVEL *)
Definition DEFAULT_LOG_LEVEL : string := "info".
(* src/src/common/logger.rs LOGS_DIR_PATH *)
Definition LOGS_DIR_PATH : string := "/var/log/nitro_enclaves".
(* src/src/common/logger.rs LOG_FILE_NAME *)
Definition LOG_FILE_NAME : string := "nitro_enclaves.log".

(** The descriptor of the file and the ID. *)
(* src/src/common/logger.rs EnclaveProcLogWriter *)
Record EnclaveProcLogWriter : Type := mk_log_writer {
  out_file : Mutex Z;
  logger_id : Mutex string;
}.

(** The levels of the log crate, and a record with the parts that are printed. *)
Inductive LevelFilter : Type := LevelInfo | LevelDebug | LevelWarn | LevelError | LevelTrace.
Record LogRecord : Type := mk_record {
  record_level : string;
  record_file : option string;
  record_line : option Z;
  record_args : string;
}.

(** [NITRO_CLI_LOGS_PATH] is the argument. *)
(* src/src/common/logger.rs get_log_file_base_path *)
Definition get_log_file_base_path (env_path : option string) : string := default LOGS_DIR_PATH env_path.

(** The texts are lower-case already or not recognised. *)
(* src/src/common/logger.rs EnclaveProcLogWriter::max_log_level *)
Definition max_log_level (to_lowercase : string -> string) (rust_log : option string) : LevelFilter :=
  let level := to_lowercase (default DEFAULT_LOG_LEVEL rust_log) in
  if String.eqb level "info" then LevelInfo
  else if String.eqb level "debug" then LevelDebug
  else if String.eqb level "warn" then LevelWarn
  else if String.eqb level "error" then LevelError
  else if String.eqb level "trace" then LevelTrace
  else LevelInfo.

(** The logging library: reading the specification of levels, and starting. *)
Class LoggingLibrary : Type := {
  log_spec : string -> result string unit;
  log_start : log -> result string unit;
}.

Section Logger.
Context `{Kernel} `{EV : Env}.

(** The permissions rwxrw-rw-. *)
Definition MODE_766 : Z := 7 * 64 + 6 * 8 + 6.

(** Run [m] while owning a file, which is closed when [m] fails. *)
Definition or_close {A} (file : Z) (m : IO A) : IO A :=
  let! r := try m in
  match r with
  | Ok a => ret a
  | Err e => let! _ := close file in fail e
  end.

(** [log_path_base] of the environment is the value of [get_log_file_base_path]. *)
(* src/src/common/logger.rs get_log_file_path *)
Definition get_log_file_path : string := path_join (log_path_base env_log) LOG_FILE_NAME.

(* src/src/common/logger.rs open_log_file *)
Definition open_log_file (file_path : string) : IO Z :=
  let! fds := map_err_to (fun e => add_info [file_path; "Open"]%string
    (failure_at ("Failed to open log file: " +:+ e) FileOperationFailure 177)) (syscall (SysOpenAppend file_path)) in
  let file := hd (-1) fds in
  or_close file (
    let! owner := map_err_to (fun e => add_info [file_path; "Get metadata"]%string
      (failure_at ("Failed to get log file metadata: " +:+ e) FileOperationFailure 192))
      (syscall (SysFileOwner file)) in
    if hd (-1) owner =? k_getuid then
      let! _ := map_err_to (fun e =>
        failure_at ("Failed to change log file permissions: " +:+ e) FilePermissionsError 212)
        (syscall (SysSetPermissions file MODE_766)) in
      ret file
    else ret file).

(* src/src/common/logger.rs EnclaveProcLogWriter::new *)
Definition log_writer_new : IO EnclaveProcLogWriter :=
  let! file := map_err (add_subaction "Failed to open log file") (open_log_file get_log_file_path) in
  ret (mk_log_writer (mk_mutex false file) (mk_mutex false ""%string)).

(** The file that was open before is closed; when the lock fails, the new one is. *)
(* src/src/common/logger.rs EnclaveProcLogWriter::safe_open_log_file *)
Definition safe_open_log_file : IOS EnclaveProcLogWriter unit :=
  let! self := self in
  let! exists_ := lift (attempt (syscall (SysPathExists get_log_file_path))) in
  if match exists_ with Ok [1] => true | _ => false end then ret tt
  else
    let! new_file := lift (map_err (add_subaction "Failed to open log file")
      (open_log_file get_log_file_path)) in
    if poisoned (out_file self) then
      let! _ := lift (close new_file) in
      fail (failure_at ("Failed to acquire lock: " +:+ poison_error) LockAcquireFailure 64)
    else
      let! _ := lift (close (guarded (out_file self))) in
      set_self (mk_log_writer (mk_mutex false new_file) (logger_id self)).

(** [timestamp] is the formatted time. *)
(* src/src/common/logger.rs EnclaveProcLogWriter::create_msg *)
Definition create_msg (self : EnclaveProcLogWriter) (timestamp : string) (record : LogRecord)
    : NitroCliResult string :=
  if poisoned (logger_id self) then
    Err (failure_at ("Failed to acquire logger ID lock: " +:+ poison_error) LockAcquireFailure 95)
  else
    Ok ("[" +:+ guarded (logger_id self) +:+ "][" +:+ record_level record +:+ "][" +:+ timestamp +:+ "][" +:+
        default "?" (record_file record) +:+ ":" +:+ show_u (default 0 (record_line record)) +:+ "] " +:+
        record_args record +:+ String LF "")%string.

(** The result is an I/O error, given by its text. *)
(* src/src/common/logger.rs EnclaveProcLogWriter::write *)
Definition log_write (timestamp : string) (record : LogRecord) : M string (EnclaveProcLogWriter * World) unit :=
  let! opened := attempt safe_open_log_file in
  match opened with
  | Err _ => fail "Failed to safely open log file for writing"%string
  | Ok _ =>
      let! self := gets fst in
      match create_msg self timestamp record with
      | Ok record_str =>
          if poisoned (out_file self) then fail "Failed to lock log file"%string
          else
            let! _ := zoom snd (fun w t => (fst t, w)) (syscall (SysAppend (guarded (out_file self)) record_str)) in
            ret tt
      | Err _ => fail "Failed to create logger message"%string
      end
  end.

(* src/src/common/logger.rs init_logger *)
Definition init_logger `{LoggingLibrary} : IO EnclaveProcLogWriter :=
  let! log_writer := log_writer_new in
  let failed l e := failure_at ("Failed to initialize enclave process logger: " +:+ e) LoggerError l in
  or_close (guarded (out_file log_writer)) (
    do! of_result (rmap_err (failed 230) (log_spec DEFAULT_LOG_LEVEL));
    do! (fun w => (Return (rmap_err (failed 238) (log_start (w_log w))), w));
    ret log_writer).
End Logger.

(** ** What the log file receives *)

(** The text of a record. *)
Definition log_line (id timestamp : string) (r : LogRecord) : string :=
  "[" +:+ id +:+ "][" +:+ record_level r +:+ "][" +:+ timestamp +:+ "][" +:+
  default "?"%string (record_file r) +:+ ":" +:+ show_u (default 0 (record_line r)) +:+ "] " +:+
  record_args r +:+ String LF "".

(** The events of opening the log file: its permissions are changed when and
    only when it belongs to the user. *)
Definition opened_by `{Kernel} (path : string) (fd : Z) (evs : log) : Prop :=
  exists fds owner, hd (-1) fds = fd /\
    ((hd (-1) owner = k_getuid /\ exists r,
        evs = [EvSys (SysOpenAppend path) (Ok fds); EvSys (SysFileOwner fd) (Ok owner);
               EvSys (SysSetPermissions fd MODE_766) (Ok r)]) \/
     (hd (-1) owner <> k_getuid /\
        evs = [EvSys (SysOpenAppend path) (Ok fds); EvSys (SysFileOwner fd) (Ok owner)])).

Section Lemmas.
Context `{KN : Kernel} `{EV : Env}.

Lemma syscall_grows c w r w' : syscall c w = (Return r, w') -> w' = grow w [EvSys c r].
Proof. unfold syscall. by intros [= <- <-]. Qed.
Lemma syscall_ok c w a w' :
  syscall c w = (Return (Ok a), w') -> w' = grow w [EvSys c (Ok a)].
Proof. apply syscall_grows. Qed.
Lemma close_grows {E} fd w rc w' :
  (close fd : M E World Z) w = (Return (Ok rc), w') -> w' = grow w [EvClose fd rc].
Proof. unfold close. by intros [= <- <-]. Qed.

Lemma or_close_ok {A} file (m : IO A) w a w' :
  or_close file m w = (Return (Ok a), w') -> m w = (Return (Ok a), w').
Proof.
  unfold or_close. intros E. apply bind_ok_inv in E as ([b|e] & w1 & E1%try_inv & E2).
  - by m_inv.
  - apply bind_ok_inv in E2 as (? & ? & _ & ?). done.
Qed.

Lemma open_log_file_ok path w fd w' :
  open_log_file path w = (Return (Ok fd), w') ->
  exists evs, w' = grow w evs /\ opened_by path fd evs.
Proof.
  unfold open_log_file. intros E.
  apply bind_ok_inv in E as (fds & w1 & ->%map_err_to_ok_inv%syscall_ok & E%or_close_ok).
  apply bind_ok_inv in E as (owner & w2 & ->%map_err_to_ok_inv%syscall_ok & E).
  destruct (Z.eqb_spec (hd (-1) owner) k_getuid) as [Ho|Ho].
  - apply bind_ok_inv in E as (r & w3 & ->%map_err_to_ok_inv%syscall_ok & E). m_inv.
    eexists. rewrite !grow_grow. split; [reflexivity|]. exists fds, owner. split; [done|]. left. eauto.
  - m_inv. eexists. rewrite !grow_grow. split; [reflexivity|]. exists fds, owner. split; [done|]. by right.
Qed.

Lemma safe_open_ok lw w u lw' w' :
  safe_open_log_file (lw, w) = (Return (Ok u), (lw', w')) ->
  logger_id lw' = logger_id lw /\
  exists found reopened,
    w' = grow w (EvSys (SysPathExists get_log_file_path) found :: reopened) /\
    if decide (found = Ok [1]) then lw' = lw /\ reopened = []
    else exists evs rc, reopened = evs ++ [EvClose (guarded (out_file lw)) rc] /\
      opened_by get_log_file_path (guarded (out_file lw')) evs.
Proof.
  unfold safe_open_log_file. intros E. apply bind_ok_inv in E as (lw0 & s0 & E0 & E).
  unfold self, gets in E0. injection E0 as <- <-. simpl in E.
  apply bind_ok_inv in E as (found & [lw1 w1] & [-> ->%attempt_inv%syscall_grows]%lift_inv & E).
  destruct (decide (found = Ok [1])) as [->|Hn].
  { m_inv. split; [done|]. by exists (Ok [1]), []. }
  assert ((match found with Ok [1] => true | _ => false end) = false) as Hf.
  { destruct found as [[|[|[]|] []]|]; done. }
  rewrite Hf in E. clear Hf.
  apply bind_ok_inv in E as (fd & [lw2 w2] & [-> (evs & -> & Ho)%map_err_ok_inv%open_log_file_ok]%lift_inv & E).
  destruct (poisoned (out_file lw)); [by apply bind_ok_inv in E as (? & ? & _ & ?)|].
  apply bind_ok_inv in E as (rc & [lw3 w3] & [-> ->%close_grows]%lift_inv & E).
  unfold set_self, modify in E. injection E as _ <- <-.
  split; [done|]. exists found, (evs ++ [EvClose (guarded (out_file lw)) rc]).
  rewrite decide_False by done. split; [|by eexists _, _].
  by rewrite !grow_grow.
Qed.

(** A record that is written is one line with the ID of the process, the
    level, the time, the place and the message, appended with one call to the file
    of the writer; when the log file was gone, it was created again before, the
    file that was open is closed, and everybody was given access to the new one if
    it belongs to the user. *)
Theorem log_write_appends timestamp r lw w lw' w' :
  log_write timestamp r (lw, w) = (Return (Ok tt), (lw', w')) ->
  logger_id lw' = logger_id lw /\
  exists found reopened n,
    w' = grow w ([EvSys (SysPathExists get_log_file_path) found] ++ reopened ++
           [EvSys (SysAppend (guarded (out_file lw')) (log_line (guarded (logger_id lw)) timestamp r)) (Ok n)]) /\
    if decide (found = Ok [1]) then lw' = lw /\ reopened = []
    else exists evs rc, reopened = evs ++ [EvClose (guarded (out_file lw)) rc] /\
      opened_by get_log_file_path (guarded (out_file lw')) evs.
Proof.
  unfold log_write. intros E.
  apply bind_ok_inv in E as ([u|e] & [lw1 w1] & E1%attempt_inv & E); [|done].
  apply safe_open_ok in E1 as (Hid & found & reopened & -> & Hf).
  apply bind_ok_inv in E as (lw2 & s2 & E2 & E). injection E2 as <- <-. simpl in E.
  unfold create_msg in E. destruct (poisoned (logger_id lw1)); [done|]. destruct (poisoned (out_file lw1)); [done|].
  apply bind_ok_inv in E as (n & [lw3 w3] & E3 & E). unfold zoom in E3.
  destruct (syscall _ _) as [r3 w4] eqn:Es. simpl in Es. injection E3 as -> <- <-. apply syscall_ok in Es as ->.
  injection E as <- <-. split; [done|]. exists found, reopened, n. split; [|done].
  unfold log_line. rewrite grow_grow, <- Hid. done.
Qed.
End Lemmas.

(** The log file is there: the record is one line in it. *)
Lemma log_write_appends_witness :
  let lw := mk_log_writer (mk_mutex false 5) (mk_mutex false "enc-1:7"%string) in
  let r := mk_record "INFO" (Some "src/lib.rs"%string) (Some 53) "build_enclaves" in
  exists w', @log_write sample_system sample_env "12:00" r (lw, world0) = (Return (Ok tt), (lw, w')) /\
    exists n, In (EvSys (SysAppend 5 ("[enc-1:7][INFO][12:00][src/lib.rs:53] build_enclaves" +:+ String LF "")) (Ok n))
      (w_log w').
Proof.
  intros lw r.
  set (w' := snd (snd (@log_write sample_system sample_env "12:00" r (lw, world0)))).
  assert (@log_write sample_system sample_env "12:00" r (lw, world0) = (Return (Ok tt), (lw, w'))) as E
    by (vm_compute; reflexivity).
  exists w'. split; [exact E|].
  destruct (@log_write_appends sample_system sample_env _ _ _ _ _ _ E) as (_ & found & reopened & n & Ew & _).
  exists n. rewrite Ew. do 3 (apply in_or_app; right). left. reflexivity.
Defined.
