(* ===== verification/ImageBuild.v ===== *)
(** * Building an image from a container (src/enclave_build)

    [docker.rs] talks to the Docker daemon, [yaml_generator.rs] writes the inputs
    of linuxkit, and [lib.rs] puts the image together. The daemon (bollard), the
    JSON and YAML libraries, the image format library, linuxkit and the file
    system are the class [BuildSystem], whose answers may depend on what was done
    before; the state of a computation is the log of what it did. Messages of the
    log crate and the deletion of temporary files are left out. *)
From S2P Require Import Prelude.
From S2P Require Import Logs.
From S2P Require Import RustStd.
From stdpp Require Import base list numbers strings sets.
From Stdlib Require Import ZArith Lia Ascii.
Local Open Scope Z_scope.
Local Open Scope nitro_scope.

(** ** The libraries and the system *)

(** What bollard answers about an image. *)
Record ContainerConfig : Type := mk_config {
  cfg_cmd : option (list string);
  cfg_env : option (list string);
  cfg_entrypoint : option (list string);
}.
Record ImageInspect : Type := mk_inspect {
  inspect_config : option ContainerConfig;
  inspect_architecture : option string;
}.

(* src/enclave_build/src/docker.rs DockerError *)
Inductive DockerError : Type :=
| ConnectionError
| BuildError
| InspectError
| PullError
| RuntimeError
| TempfileError
| CredentialsError (msg : string)
| UnsupportedEntryPoint.

(* src/enclave_build/src/lib.rs Docker2EifError *)
Inductive Docker2EifError : Type :=
| DockerErr
| DockerfilePathError
| ImagePullError
| InitPathError
| NsmPathError
| KernelPathError
| LinuxkitExecError
| LinuxkitPathError
| MetadataPathError
| MetadataError (msg : string)
| ArtifactsPrefixError
| RamfsError
| RemoveFileError
| SignImageError (msg : string)
| SignArgsError
| UnsupportedArchError.

(** A user name and a password. *)
Abbreviation Credentials := (string * string)%type.

(* src/enclave_build/src/yaml_generator.rs DirTemplate *)
Record DirTemplate : Type := mk_dir { dir_path : string; dir_directory : bool; dir_mode : string }.
(* src/enclave_build/src/yaml_generator.rs FileTemplate *)
Record FileTemplate : Type := mk_file_template {
  ft_path : string;
  ft_source : string;
  ft_mode : string;
}.

(** The tuples of entries are lists of their components. *)
(* src/enclave_build/src/yaml_generator.rs BootstrapRamfsTemplate *)
Record BootstrapRamfsTemplate : Type := mk_bootstrap {
  bootstrap_dirs : list DirTemplate;
  bootstrap_files : list FileTemplate;
}.
(* src/enclave_build/src/yaml_generator.rs CustomerRamfsTemplate *)
Record CustomerRamfsTemplate : Type := mk_customer {
  ramfs_prefix : string;
  ramfs_init : list string;
  customer_dirs : list DirTemplate;
  customer_files : list FileTemplate;
}.

(** JSON values and the library types that only pass through the code. *)
Class BuildTypes : Type := {
  Json : Type;
  SignEnclaveInfo : Type;
  EifBuildInfo : Type;
}.

(** The identity of an image, which goes into its metadata section. *)
Record IdentityInfo `{BuildTypes} : Type := mk_identity {
  id_img_name : string;
  id_img_version : string;
  id_build_info : EifBuildInfo;
  id_docker_info : Json;
  id_custom_info : Json;
}.

(** The arguments of the image builder: kernel, command line, signature, header
    flags, identity and the ramdisks in order. *)
Record EifInput `{BuildTypes} : Type := mk_eif {
  eif_kernel : string;
  eif_cmdline : string;
  eif_sign : option SignEnclaveInfo;
  eif_flags : Z;
  eif_identity : IdentityInfo;
  eif_ramdisks : list string;
}.

Inductive BuildEvent `{BuildTypes} : Type :=
| BdInspect (image : string) (answer : option ImageInspect)
| BdPull (image : string) (credentials : option Credentials)
| BdBuild (image : string) (tarball : list Z)
| BdTemp (path : option string)
| BdAppend (path text : string) (ok : bool)
| BdExec (program : string) (args : list string) (success : option bool)
| BdEif (input : EifInput)
| BdPrint (msg : string)
| BdMkdir (path : string) (ok : bool)
| BdCreate (path : string) (ok : bool)
| BdStdout (msg : string).

Abbreviation blog := (list BuildEvent).

(** An item of an output stream: a transport error, or a progress message that
    may report an error. *)
Abbreviation StreamItem := (result string (option string)).

Class BuildSystem `{BuildTypes} : Type := {
  (** serde_json *)
  j_get : Json -> string -> option Json;
  j_as_object : Json -> option (list (string * Json));
  j_as_str : Json -> option string;
  j_to_string : Json -> string;
  j_null : Json;
  json_of_inspect : ImageInspect -> Json;
  json_from_file : string -> result string Json;
  (** url: the host of a URI, [None] when it cannot be parsed. *)
  url_host : string -> option (option string);
  (** base64 *)
  base64_decode : string -> result string (list Z);
  (** serde_yaml *)
  yaml_of_bootstrap : BootstrapRamfsTemplate -> string;
  yaml_of_customer : CustomerRamfsTemplate -> string;
  (** bollard, tokio, tar *)
  docker_connect : bool;
  runtime_new : blog -> bool;
  docker_inspect : blog -> string -> option ImageInspect;
  docker_pull : blog -> string -> option Credentials -> list StreamItem;
  docker_build : blog -> string -> list Z -> list StreamItem;
  tar_gz : string -> result string (list Z);
  (** the image format library *)
  sign_info_new : string -> string -> result string SignEnclaveInfo;
  parse_custom_metadata : string -> result string Json;
  write_eif : blog -> EifInput -> list (string * string);
  EIF_HDR_ARCH_ARM64 : Z;
  (** the system *)
  env_var : string -> option string;
  is_file : string -> bool;
  is_dir : string -> bool;
  path_exists : string -> bool;
  open_for_reading : string -> result string unit;
  temp_file : blog -> option string;
  temp_write : blog -> string -> bool;
  run_program : blog -> string -> list string -> option (bool * string);
}.

Section Build.
Context `{BT : BuildTypes} `{BS : @BuildSystem BT}.

Abbreviation B := (fun E => M E blog).

Definition note_build (e : BuildEvent) {E} : B E unit := modify (fun l => l ++ [e]).
Definition print_err {E} (msg : string) : B E unit := note_build (BdPrint msg).

(** ** Docker (docker.rs) *)

(* src/enclave_build/src/docker.rs DockerUtil *)
Record DockerUtil : Type := mk_docker { docker_image : string }.

(** Without a colon in the name, the tag "latest" is meant. *)
(* src/enclave_build/src/docker.rs DockerUtil::new *)
Definition docker_new (docker_image : string) : result DockerError DockerUtil :=
  let docker_image :=
    if str_contains ":" docker_image then docker_image else (docker_image +:+ ":latest")%string in
  if docker_connect then Ok (mk_docker docker_image) else Err ConnectionError.

(* src/enclave_build/src/docker.rs DockerUtil::parse_docker_host *)
Definition parse_docker_host (docker_image : string) : option string :=
  match url_host docker_image with
  | Some host => host
  | None =>
      match url_host ("dummy://" +:+ docker_image)%string with
      | Some host => host
      | None => None
      end
  end.

(** The path of the configuration file, which can be opened. *)
(* src/enclave_build/src/docker.rs DockerUtil::get_config_file *)
Definition get_config_file : result DockerError string :=
  match env_var "DOCKER_CONFIG" with
  | Some file =>
      let? _ := rmap_err (fun err =>
        CredentialsError ("Could not open file pointed by envDOCKER_CONFIG: " +:+ err)%string)
        (open_for_reading file) in
      Ok file
  | None =>
      let missing :=
        Err (CredentialsError "Config file not present, please set env DOCKER_CONFIG accordingly") in
      match env_var "HOME" with
      | Some home_dir =>
          let default_config_path := (home_dir +:+ "/.docker/config.json")%string in
          if path_exists default_config_path then
            let? _ := rmap_err (fun err =>
              CredentialsError ("Could not open file Some(" +:+ show_str default_config_path +:+ "): " +:+
                err)%string) (open_for_reading default_config_path) in
            Ok default_config_path
          else missing
      | None => missing
      end
  end.

(** [str::rfind] of a character: the text before its last occurrence and the
    text after it. *)
Fixpoint rsplit_once (c : ascii) (s : string) : option (string * string) :=
  match s with
  | EmptyString => None
  | String a s' =>
      match rsplit_once c s' with
      | Some (before, after) => Some (String a before, after)
      | None => if Ascii.eqb a c then Some (EmptyString, s') else None
      end
  end.

(** The double quote. *)
Definition QUOTE : ascii := ascii_of_N 34.

(** The text of a registry's entry: [replace] removes the double quotes of the
    printed JSON value. *)
(* src/enclave_build/src/docker.rs:107-120 DockerUtil::get_credentials *)
Definition decode_auth (registry_auths : Json) : result DockerError string :=
  let? auth := ok_or (j_get registry_auths "auth")
    (CredentialsError "Could not find auth key in config JSON") in
  let auth := str_filter (fun c => negb (Ascii.eqb c QUOTE)) (j_to_string auth) in
  let? decoded := rmap_err (fun err =>
    CredentialsError ("Invalid Base64 encoding for auth: " +:+ err)%string) (base64_decode auth) in
  rmap_err (fun err =>
    CredentialsError ("Invalid utf8 encoding for auth: " +:+ err)%string) (from_utf8 decoded).

(** The search among the registries; one whose text has no colon is skipped. *)
(* src/enclave_build/src/docker.rs:102-131 DockerUtil::get_credentials *)
Fixpoint find_credentials (host : string) (auths : list (string * Json)) : result DockerError Credentials :=
  match auths with
  | [] => Err (CredentialsError "No credentials found for the current image")
  | (registry_name, registry_auths) :: auths =>
      if negb (str_contains host registry_name) then find_credentials host auths
      else
        let? decoded := decode_auth registry_auths in
        match rsplit_once ":" decoded with
        | Some (user, password) => Ok (user, password)
        | None => find_credentials host auths
        end
  end.

(* src/enclave_build/src/docker.rs DockerUtil::get_credentials *)
Definition get_credentials (self : DockerUtil) : result DockerError Credentials :=
  let? host := ok_or (parse_docker_host (docker_image self))
    (CredentialsError "Invalid docker image URI!") in
  let? config_file := get_config_file in
  let? config_json := rmap_err (fun err =>
    CredentialsError ("JSON was not well-formatted: " +:+ err)%string) (json_from_file config_file) in
  let? auths := ok_or (j_get config_json "auths")
    (CredentialsError "Could not find auths key in config JSON") in
  match j_as_object auths with
  | Some auths => find_credentials host auths
  | None => Err (CredentialsError "No credentials found for the current image")
  end.

(* src/enclave_build/src/utils.rs handle_stream_output *)
Fixpoint handle_stream_output (stream : list StreamItem) (error_type : DockerError)
    : result DockerError unit :=
  match stream with
  | [] => Ok tt
  | Ok None :: stream => handle_stream_output stream error_type
  | Ok (Some _) :: _ => Err error_type
  | Err _ :: _ => Err error_type
  end.

Definition new_runtime : B DockerError unit :=
  let! ok := gets runtime_new in
  if (ok : bool) then ret tt else fail RuntimeError.

(* src/enclave_build/src/docker.rs DockerUtil::inspect *)
Definition inspect (self : DockerUtil) : B DockerError ImageInspect :=
  do! new_runtime;
  let! answer := gets (fun l => docker_inspect l (docker_image self)) in
  do! note_build (BdInspect (docker_image self) answer);
  of_result (ok_or answer InspectError).

(* src/enclave_build/src/docker.rs DockerUtil::inspect_image *)
Definition inspect_image (self : DockerUtil) : B DockerError Json :=
  let! r := try (inspect self) in
  match r with
  | Ok image => ret (json_of_inspect image)
  | Err _ => fail InspectError
  end.

(* src/enclave_build/src/docker.rs DockerUtil::pull_image *)
Definition pull_image (self : DockerUtil) : B DockerError unit :=
  let! local := try (inspect self) in
  match local with
  | Ok _ => print_err "Using the locally available Docker image..."
  | Err _ =>
      do! new_runtime;
      let credentials := to_option (get_credentials self) in
      let! stream := gets (fun l => docker_pull l (docker_image self) credentials) in
      do! note_build (BdPull (docker_image self) credentials);
      of_result (handle_stream_output stream PullError)
  end.

(* src/enclave_build/src/docker.rs DockerUtil::build_tarball *)
Definition build_tarball (dockerfile_dir : string) : result DockerError (list Z) :=
  rmap_err (fun _ => BuildError) (tar_gz dockerfile_dir).

(* src/enclave_build/src/docker.rs DockerUtil::build_image *)
Definition build_image (self : DockerUtil) (dockerfile_dir : string) : B DockerError unit :=
  do! new_runtime;
  let! tarball := of_result (build_tarball dockerfile_dir) in
  let! stream := gets (fun l => docker_build l (docker_image self) tarball) in
  do! note_build (BdBuild (docker_image self) tarball);
  of_result (handle_stream_output stream BuildError).

(** The command line is CMD, or ENTRYPOINT when there is no CMD. *)
(* src/enclave_build/src/docker.rs DockerUtil::extract_image *)
Definition extract_image (self : DockerUtil) : B DockerError (list string * list string)%type :=
  let! image := inspect self in
  let! config := of_result (ok_or (inspect_config image) UnsupportedEntryPoint) in
  match cfg_cmd config with
  | Some cmd => ret (cmd, default [] (cfg_env config))
  | None =>
      match cfg_entrypoint config with
      | Some entrypoint => ret (entrypoint, default [] (cfg_env config))
      | None => fail UnsupportedEntryPoint
      end
  end.

(** A temporary file; its path. *)
Definition new_temp {E} (e : E) : B E string :=
  let! path := gets temp_file in
  do! note_build (BdTemp path);
  of_result (ok_or path e).

Definition append_temp {E} (e : E) (path text : string) : B E unit :=
  let! ok := gets (fun l => temp_write l path) in
  do! note_build (BdAppend path text ok);
  if (ok : bool) then ret tt else fail e.

Fixpoint write_lines (path : string) (config : list string) : B DockerError unit :=
  match config with
  | [] => ret tt
  | line :: config =>
      do! append_temp TempfileError path (line +:+ String LF "")%string;
      write_lines path config
  end.

(* src/enclave_build/src/docker.rs write_config *)
Definition write_config (config : list string) : B DockerError string :=
  let! file := new_temp TempfileError in
  do! write_lines file config;
  ret file.

(* src/enclave_build/src/docker.rs DockerUtil::load *)
Definition load (self : DockerUtil) : B DockerError (string * string)%type :=
  let! '(cmd, env) := extract_image self in
  let! cmd_file := write_config cmd in
  let! env_file := write_config env in
  ret (cmd_file, env_file).

(* src/enclave_build/src/docker.rs DockerUtil::architecture *)
Definition architecture (self : DockerUtil) : B DockerError string :=
  let! image := inspect self in
  ret (default ""%string (inspect_architecture image)).

(** ** The inputs of linuxkit (yaml_generator.rs) *)

(* src/enclave_build/src/yaml_generator.rs YamlGeneratorError *)
Inductive YamlGeneratorError : Type := YamlTempfileError.

(* src/enclave_build/src/yaml_generator.rs YamlGenerator *)
Record YamlGenerator : Type := mk_yaml {
  yg_docker_image : string;
  yg_init_path : string;
  yg_nsm_path : string;
  yg_cmd_path : string;
  yg_env_path : string;
}.

(* src/enclave_build/src/yaml_generator.rs YamlGenerator::new *)
Definition yaml_new (docker_image init_path nsm_path cmd_path env_path : string) : YamlGenerator :=
  mk_yaml docker_image init_path nsm_path cmd_path env_path.

(* src/enclave_build/src/yaml_generator.rs:74-92 YamlGenerator::get_bootstrap_ramfs *)
Definition bootstrap_template (self : YamlGenerator) : BootstrapRamfsTemplate :=
  mk_bootstrap [mk_dir "dev" true "0755"]
    [mk_file_template "init" (yg_init_path self) "0755";
     mk_file_template "nsm.ko" (yg_nsm_path self) "0755"].

(* src/enclave_build/src/yaml_generator.rs:105-151 YamlGenerator::get_customer_ramfs *)
Definition customer_template (self : YamlGenerator) : CustomerRamfsTemplate :=
  mk_customer "rootfs/" [yg_docker_image self]
    (map (fun d => mk_dir ("rootfs/" +:+ d) true "0755") ["dev"; "run"; "sys"; "var"; "proc"; "tmp"]%string)
    [mk_file_template "cmd" (yg_cmd_path self) "0644";
     mk_file_template "env" (yg_env_path self) "0644"].

(* src/enclave_build/src/yaml_generator.rs YamlGenerator::get_bootstrap_ramfs *)
Definition get_bootstrap_ramfs (self : YamlGenerator) : B YamlGeneratorError string :=
  let yaml := yaml_of_bootstrap (bootstrap_template self) in
  let! file := new_temp YamlTempfileError in
  do! append_temp YamlTempfileError file yaml;
  ret file.

(* src/enclave_build/src/yaml_generator.rs YamlGenerator::get_customer_ramfs *)
Definition get_customer_ramfs (self : YamlGenerator) : B YamlGeneratorError string :=
  let yaml := yaml_of_customer (customer_template self) in
  let! file := new_temp YamlTempfileError in
  do! append_temp YamlTempfileError file yaml;
  ret file.

(** ** The image (lib.rs) *)

(** The output file is left to the image format library. *)
(* src/enclave_build/src/lib.rs Docker2Eif *)
Record Docker2Eif : Type := mk_docker2eif {
  d2e_docker_image : string;
  d2e_docker : DockerUtil;
  d2e_init_path : string;
  d2e_nsm_path : string;
  d2e_kernel_img_path : string;
  d2e_cmdline : string;
  d2e_linuxkit_path : string;
  d2e_artifacts_prefix : string;
  d2e_sign_info : option SignEnclaveInfo;
  d2e_img_name : option string;
  d2e_img_version : option string;
  d2e_metadata_path : option string;
  d2e_build_info : EifBuildInfo;
}.

(** The derived Debug text of a Docker error. *)
Definition show_docker_error (e : DockerError) : string :=
  match e with
  | ConnectionError => "ConnectionError"
  | BuildError => "BuildError"
  | InspectError => "InspectError"
  | PullError => "PullError"
  | RuntimeError => "RuntimeError"
  | TempfileError => "TempfileError"
  | CredentialsError msg => "CredentialsError(" +:+ show_str msg +:+ ")"
  | UnsupportedEntryPoint => "UnsupportedEntryPoint"
  end.

(** The text of an error of the Docker module is printed. *)
Definition docker_failed {A} (m : B DockerError A) : B Docker2EifError A :=
  let! r := attempt m in
  match r with
  | Ok a => ret a
  | Err e => do! print_err ("Docker error: " +:+ show_docker_error e)%string; fail DockerErr
  end.

(** The signature is made with a certificate and a key, or not at all. *)
(* src/enclave_build/src/lib.rs:101-108 Docker2Eif::new *)
Definition sign_info_of (certificate_path key_path : option string)
    : result Docker2EifError (option SignEnclaveInfo) :=
  match certificate_path, key_path with
  | None, None => Ok None
  | Some cert_path, Some key_path =>
      let? info := rmap_err SignImageError (sign_info_new cert_path key_path) in
      Ok (Some info)
  | _, _ => Err SignArgsError
  end.

(* src/enclave_build/src/lib.rs Docker2Eif::new *)
Definition docker2eif_new (docker_image init_path nsm_path kernel_img_path cmdline linuxkit_path
    artifacts_prefix : string) (certificate_path key_path img_name img_version metadata_path : option string)
    (build_info : EifBuildInfo) : B Docker2EifError Docker2Eif :=
  let! docker := docker_failed (of_result (docker_new docker_image)) in
  if negb (is_file init_path) then fail InitPathError
  else if negb (is_file nsm_path) then fail NsmPathError
  else if negb (is_file kernel_img_path) then fail KernelPathError
  else if negb (is_file linuxkit_path) then fail LinuxkitPathError
  else if negb (is_dir artifacts_prefix) then fail ArtifactsPrefixError
  else if (match metadata_path with Some path => negb (is_file path) | None => false end)
  then fail MetadataPathError
  else
    let! sign_info := of_result (sign_info_of certificate_path key_path) in
    ret (mk_docker2eif docker_image docker init_path nsm_path kernel_img_path cmdline linuxkit_path
           artifacts_prefix sign_info img_name img_version metadata_path build_info).

(* src/enclave_build/src/lib.rs Docker2Eif::pull_docker_image *)
Definition pull_docker_image (self : Docker2Eif) : B Docker2EifError unit :=
  docker_failed (pull_image (d2e_docker self)).

(* src/enclave_build/src/lib.rs Docker2Eif::build_docker_image *)
Definition build_docker_image (self : Docker2Eif) (dockerfile_dir : string) : B Docker2EifError unit :=
  if negb (is_dir dockerfile_dir) then fail DockerfilePathError
  else docker_failed (build_image (d2e_docker self) dockerfile_dir).

(** [str::strip_prefix] *)
Definition strip_prefix (pat s : string) : option string :=
  if starts_with pat s then Some (str_drop (String.length pat) s) else None.

(* src/enclave_build/src/lib.rs Docker2Eif::generate_identity_info *)
Definition generate_identity_info (self : Docker2Eif) : B Docker2EifError IdentityInfo :=
  let! docker_info := map_err_to (fun _ => MetadataError "Docker inspect error: InspectError")
    (inspect_image (d2e_docker self)) in
  let uri_split := split_char ":" (d2e_docker_image self) in
  let! name := match uri_split with
    | [] => fail (MetadataError "Wrong image name specified")
    | name :: _ => ret name
    end in
  let! img_hash := of_result (ok_or
    (match j_get docker_info "Id" with
     | Some val => match j_as_str val with Some str => strip_prefix "sha256:" str | None => None end
     | None => None
     end) (MetadataError "Image info must contain string Id field")) in
  let! custom_info :=
    match d2e_metadata_path self with
    | Some path => of_result (rmap_err MetadataError (parse_custom_metadata path))
    | None => ret j_null
    end in
  ret (mk_identity _ (default name (d2e_img_name self)) (default img_hash (d2e_img_version self))
         (d2e_build_info self) docker_info custom_info).

(** Run linuxkit; its output is printed when it fails. *)
(* src/enclave_build/src/lib.rs:225-243 Docker2Eif::create *)
Definition linuxkit (self : Docker2Eif) (which : string) (args : list string) : B Docker2EifError unit :=
  let! output := gets (fun l => run_program l (d2e_linuxkit_path self) args) in
  do! note_build (BdExec (d2e_linuxkit_path self) args (fst <$> output));
  match output with
  | None => fail LinuxkitExecError
  | Some (true, _) => ret tt
  | Some (false, stderr) =>
      do! print_err ("Linuxkit reported an error while creating the " +:+ which +:+ " ramfs: " +:+
                     show_str stderr)%string;
      fail LinuxkitExecError
  end.

Definition ramfs_failed {A} (m : B YamlGeneratorError A) : B Docker2EifError A :=
  let! r := attempt m in
  match r with
  | Ok a => ret a
  | Err _ => do! print_err "Ramfs error: TempfileError"; fail RamfsError
  end.

(* src/enclave_build/src/docker.rs DOCKER_ARCH_ARM64 *)
Definition DOCKER_ARCH_ARM64 : string := "arm64".
(* src/enclave_build/src/docker.rs DOCKER_ARCH_AMD64 *)
Definition DOCKER_ARCH_AMD64 : string := "amd64".

(* src/enclave_build/src/lib.rs:272-276 Docker2Eif::create *)
Definition arch_flags (arch : string) : result Docker2EifError Z :=
  if String.eqb arch DOCKER_ARCH_ARM64 then Ok EIF_HDR_ARCH_ARM64
  else if String.eqb arch DOCKER_ARCH_AMD64 then Ok 0 else Err UnsupportedArchError.

(* src/enclave_build/src/lib.rs Docker2Eif::create *)
Definition create (self : Docker2Eif) : B Docker2EifError (list (string * string)) :=
  let! '(cmd_file, env_file) := docker_failed (load (d2e_docker self)) in
  let yaml_generator :=
    yaml_new (d2e_docker_image self) (d2e_init_path self) (d2e_nsm_path self) cmd_file env_file in
  let! ramfs_config_file := ramfs_failed (get_bootstrap_ramfs yaml_generator) in
  let! ramfs_with_rootfs_config_file := ramfs_failed (get_customer_ramfs yaml_generator) in
  let bootstrap_ramfs := (d2e_artifacts_prefix self +:+ "/bootstrap-initrd.img")%string in
  let customer_ramfs := (d2e_artifacts_prefix self +:+ "/customer-initrd.img")%string in
  do! linuxkit self "bootstrap"
        ["build"; "--name"; bootstrap_ramfs; "--format"; "kernel+initrd-nogz"; "--no-sbom"; ramfs_config_file]%string;
  do! linuxkit self "customer"
        ["build"; "--docker"; "--name"; customer_ramfs; "--format"; "kernel+initrd-nogz"; "--no-sbom";
         ramfs_with_rootfs_config_file]%string;
  let! arch := docker_failed (architecture (d2e_docker self)) in
  let! flags := of_result (arch_flags arch) in
  let! identity := generate_identity_info self in
  let input := mk_eif _ (d2e_kernel_img_path self) (d2e_cmdline self) (d2e_sign_info self) flags identity
    [bootstrap_ramfs +:+ "-initrd.img"; customer_ramfs +:+ "-initrd.img"]%string in
  let! measurements := gets (fun l => write_eif l input) in
  do! note_build (BdEif input);
  ret measurements.


(** ** Steps that succeeded *)

Lemma docker_failed_ok_inv {A} (m : B DockerError A) s a s' :
  docker_failed m s = (Return (Ok a), s') -> m s = (Return (Ok a), s').
Proof.
  unfold docker_failed. intros H. apply bind_ok_inv in H as ([b|e] & s1 & H1%attempt_inv & H2); m_inv; done.
Qed.

Lemma ramfs_failed_ok_inv {A} (m : B YamlGeneratorError A) s a s' :
  ramfs_failed m s = (Return (Ok a), s') -> m s = (Return (Ok a), s').
Proof.
  unfold ramfs_failed. intros H. apply bind_ok_inv in H as ([b|e] & s1 & H1%attempt_inv & H2); m_inv; done.
Qed.

(** The events of a temporary file that holds the given pieces of text. *)
Definition temp_holding (path : string) (text : list string) : blog :=
  BdTemp (Some path) :: map (fun t => BdAppend path t true) text.

Lemma new_temp_ok {E} (e : E) s path s' :
  new_temp e s = (Return (Ok path), s') -> s' = s ++ temp_holding path [].
Proof.
  unfold new_temp, note_build. intros H. o_inv. by rewrite E0.
Qed.

Lemma append_temp_ok {E} (e : E) path text s u s' :
  append_temp e path text s = (Return (Ok u), s') -> s' = s ++ [BdAppend path text true].
Proof.
  unfold append_temp, note_build. intros H. m_inv. destruct (temp_write _ _); by m_inv.
Qed.

Lemma write_lines_ok path config s u s' :
  write_lines path config s = (Return (Ok u), s') ->
  s' = s ++ map (fun line => BdAppend path (line +:+ String LF "") true) config.
Proof.
  revert s. induction config as [|line config IH]; intros s H; simpl in *.
  - m_inv. by rewrite app_nil_r.
  - m_inv. apply append_temp_ok in H0 as ->. apply IH in H1 as ->. by rewrite <- app_assoc.
Qed.

(** A list written with [write_config]: one line for each element. *)
Definition config_file (path : string) (config : list string) : blog :=
  temp_holding path (map (fun line => line +:+ String LF "") config).

Lemma write_config_ok config s path s' :
  write_config config s = (Return (Ok path), s') -> s' = s ++ config_file path config.
Proof.
  unfold write_config. intros H. m_inv. apply new_temp_ok in H0 as ->. apply write_lines_ok in H2 as ->.
  unfold config_file, temp_holding. by rewrite map_map, <- app_assoc.
Qed.

Lemma inspect_ok self s image s' :
  inspect self s = (Return (Ok image), s') ->
  docker_inspect s (docker_image self) = Some image /\
  s' = s ++ [BdInspect (docker_image self) (Some image)].
Proof.
  unfold inspect, new_runtime, note_build. intros H. m_inv. destruct (runtime_new _); m_inv; o_inv.
  by rewrite E.
Qed.

(** The command line and the environment of an image. *)
Definition entry_of (image : ImageInspect) : option (list string * list string) :=
  config ← inspect_config image;
  cmd ← (match cfg_cmd config with Some cmd => Some cmd | None => cfg_entrypoint config end);
  Some (cmd, default [] (cfg_env config)).

Lemma extract_image_ok self s cmd env s' :
  extract_image self s = (Return (Ok (cmd, env)), s') ->
  exists image, docker_inspect s (docker_image self) = Some image /\ entry_of image = Some (cmd, env) /\
    s' = s ++ [BdInspect (docker_image self) (Some image)].
Proof.
  unfold extract_image. intros H. apply bind_ok_inv in H as (image & s1 & [Hi ->]%inspect_ok & H).
  exists image. unfold entry_of. o_inv. rewrite E. simpl.
  destruct (cfg_cmd a); [|destruct (cfg_entrypoint a)]; m_inv; done.
Qed.

Lemma load_ok self s cmd_file env_file s' :
  load self s = (Return (Ok (cmd_file, env_file)), s') ->
  exists image cmd env,
    docker_inspect s (docker_image self) = Some image /\ entry_of image = Some (cmd, env) /\
    s' = s ++ [BdInspect (docker_image self) (Some image)] ++ config_file cmd_file cmd ++
         config_file env_file env.
Proof.
  unfold load. intros H. apply bind_ok_inv in H as ([cmd env] & s1 & (image & Hi & He & ->)%extract_image_ok & H).
  apply bind_ok_inv in H as (p1 & s2 & ->%write_config_ok & H).
  apply bind_ok_inv in H as (p2 & s3 & ->%write_config_ok & H). m_inv.
  exists image, cmd, env. by rewrite <- !app_assoc.
Qed.

Lemma bootstrap_ok self s path s' :
  get_bootstrap_ramfs self s = (Return (Ok path), s') ->
  s' = s ++ temp_holding path [yaml_of_bootstrap (bootstrap_template self)].
Proof.
  unfold get_bootstrap_ramfs. intros H. apply bind_ok_inv in H as (p & s1 & ->%new_temp_ok & H).
  apply bind_ok_inv in H as (u & s2 & ->%append_temp_ok & H). m_inv. by rewrite <- app_assoc.
Qed.

Lemma customer_ok self s path s' :
  get_customer_ramfs self s = (Return (Ok path), s') ->
  s' = s ++ temp_holding path [yaml_of_customer (customer_template self)].
Proof.
  unfold get_customer_ramfs. intros H. apply bind_ok_inv in H as (p & s1 & ->%new_temp_ok & H).
  apply bind_ok_inv in H as (u & s2 & ->%append_temp_ok & H). m_inv. by rewrite <- app_assoc.
Qed.

Lemma linuxkit_ok self which args s u s' :
  linuxkit self which args s = (Return (Ok u), s') ->
  s' = s ++ [BdExec (d2e_linuxkit_path self) args (Some true)].
Proof.
  unfold linuxkit, note_build, print_err, note_build. intros H. m_inv.
  destruct (run_program _ _ _) as [[[] ?]|]; by m_inv.
Qed.

Lemma architecture_ok self s arch s' :
  architecture self s = (Return (Ok arch), s') ->
  exists image, arch = default ""%string (inspect_architecture image) /\
    docker_inspect s (docker_image self) = Some image /\
    s' = s ++ [BdInspect (docker_image self) (Some image)].
Proof.
  unfold architecture. intros H. apply bind_ok_inv in H as (image & s1 & [Hi ->]%inspect_ok & H). m_inv. eauto.
Qed.

Lemma strip_prefix_some pat s r : strip_prefix pat s = Some r -> s = (pat +:+ r)%string.
Proof.
  unfold strip_prefix. destruct (starts_with pat s) eqn:E; [|done]. intros [= <-].
  revert s E. induction pat as [|a pat IH]; intros [|b s]; simpl; try done.
  intros [->%Ascii.eqb_eq E]%andb_true_iff. f_equal. by apply IH.
Qed.

(** What the metadata section says about an image that was inspected. *)
Definition identity_of (self : Docker2Eif) (image : ImageInspect) (identity : IdentityInfo) : Prop :=
  exists hash,
    (j_get (json_of_inspect image) "Id" ≫= j_as_str) = Some ("sha256:" +:+ hash)%string /\
    id_img_name identity =
      default (hd ""%string (split_char ":" (d2e_docker_image self))) (d2e_img_name self) /\
    id_img_version identity = default hash (d2e_img_version self) /\
    id_build_info identity = d2e_build_info self /\
    id_docker_info identity = json_of_inspect image /\
    match d2e_metadata_path self with
    | Some path => parse_custom_metadata path = Ok (id_custom_info identity)
    | None => id_custom_info identity = j_null
    end.

Lemma identity_ok self s identity s' :
  generate_identity_info self s = (Return (Ok identity), s') ->
  exists image,
    docker_inspect s (docker_image (d2e_docker self)) = Some image /\
    s' = s ++ [BdInspect (docker_image (d2e_docker self)) (Some image)] /\
    identity_of self image identity.
Proof.
  unfold generate_identity_info, inspect_image. intros H.
  apply bind_ok_inv in H as (info & s1 & H1%map_err_to_ok_inv & H).
  apply bind_ok_inv in H1 as ([image|e] & s2 & H1%try_inv & H2); [|done].
  apply inspect_ok in H1 as [Hi ->]. m_inv. exists image. split; [done|].
  o_inv. destruct (split_char _ _) as [|name rest] eqn:Es; m_inv; [done|].
  unfold identity_of. rewrite Es. destruct (j_get _ _) as [val|]; [|done]. simpl.
  destruct (j_as_str val) as [str|]; [|done]. apply strip_prefix_some in E as ->.
  destruct (d2e_metadata_path self) as [path|] eqn:Em; o_inv; (split; [done|]); exists a0;
    rewrite ?Em; done.
Qed.

(** ** What the builder promises *)

Definition bootstrap_ramfs (self : Docker2Eif) : string :=
  (d2e_artifacts_prefix self +:+ "/bootstrap-initrd.img")%string.
Definition customer_ramfs (self : Docker2Eif) : string :=
  (d2e_artifacts_prefix self +:+ "/customer-initrd.img")%string.

(** The files that the builder writes, in order: command, environment, and the
    two inputs of linuxkit. *)
Record BuildFiles : Type := mk_files {
  file_cmd : string;
  file_env : string;
  file_bootstrap : string;
  file_customer : string;
}.

Definition generator (self : Docker2Eif) (files : BuildFiles) : YamlGenerator :=
  mk_yaml (d2e_docker_image self) (d2e_init_path self) (d2e_nsm_path self) (file_cmd files) (file_env files).

(** The input of the image format library. *)
Definition eif_input (self : Docker2Eif) (flags : Z) (identity : IdentityInfo) : EifInput :=
  mk_eif _ (d2e_kernel_img_path self) (d2e_cmdline self) (d2e_sign_info self) flags identity
    [bootstrap_ramfs self +:+ "-initrd.img"; customer_ramfs self +:+ "-initrd.img"]%string.

(** Everything a build does before it writes the image: [image] is what the
    first inspection said, [image1] and [image2] what the later ones said. *)
Definition build_trace (self : Docker2Eif) (files : BuildFiles) (cmd env : list string)
    (image image1 image2 : ImageInspect) : blog :=
  let inspected image := BdInspect (docker_image (d2e_docker self)) (Some image) in
  let linuxkit args := BdExec (d2e_linuxkit_path self) args (Some true) in
  [inspected image] ++
  config_file (file_cmd files) cmd ++ config_file (file_env files) env ++
  temp_holding (file_bootstrap files) [yaml_of_bootstrap (bootstrap_template (generator self files))] ++
  temp_holding (file_customer files) [yaml_of_customer (customer_template (generator self files))] ++
  [linuxkit ["build"; "--name"; bootstrap_ramfs self; "--format"; "kernel+initrd-nogz"; "--no-sbom";
             file_bootstrap files]%string;
   linuxkit ["build"; "--docker"; "--name"; customer_ramfs self; "--format"; "kernel+initrd-nogz";
             "--no-sbom"; file_customer files]%string;
   inspected image1; inspected image2].

(** C20: A build that succeeds has done the following and nothing else, in this
    order: it inspected the image, wrote its command line and its environment to
    two files, one line for each element, wrote the two inputs of linuxkit that
    name these files, let linuxkit build the bootstrap ramdisk and then the
    ramdisk of the customer, both with success, inspected the image for its
    architecture and for its identity, and gave the image format library the
    kernel, the command line, the signature, the flags of that architecture, that
    identity and the two ramdisks under the names that linuxkit gives them; its
    result are the measurements that the library returns. *)
Theorem create_builds_image (self : Docker2Eif) (l l' : blog) measurements :
  create self l = (Return (Ok measurements), l') ->
  exists files image image1 image2 cmd env flags identity,
    entry_of image = Some (cmd, env) /\
    arch_flags (default ""%string (inspect_architecture image1)) = Ok flags /\
    identity_of self image2 identity /\
    let before := l ++ build_trace self files cmd env image image1 image2 in
    l' = before ++ [BdEif (eif_input self flags identity)] /\
    measurements = write_eif before (eif_input self flags identity).
Proof.
  unfold create. intros H.
  apply bind_ok_inv in H as ([p1 p2] & s1 & (image & cmd & env & Hi & He & ->)%docker_failed_ok_inv%load_ok & H).
  apply bind_ok_inv in H as (p3 & s2 & ->%ramfs_failed_ok_inv%bootstrap_ok & H).
  apply bind_ok_inv in H as (p4 & s3 & ->%ramfs_failed_ok_inv%customer_ok & H).
  apply bind_ok_inv in H as (u & s4 & ->%linuxkit_ok & H).
  apply bind_ok_inv in H as (u' & s5 & ->%linuxkit_ok & H).
  apply bind_ok_inv in H as (arch & s6 & (image1 & -> & Hi1 & ->)%docker_failed_ok_inv%architecture_ok & H).
  apply bind_ok_inv in H as (flags & s7 & [Hf ->]%of_result_inv & H).
  apply bind_ok_inv in H as (identity & s8 & (image2 & Hi2 & -> & Hid)%identity_ok & H).
  injection H as <- <-.
  exists (mk_files p1 p2 p3 p4), image, image1, image2, cmd, env, flags, identity.
  repeat (split; [done|]). cbv zeta. unfold build_trace.
  split; [|f_equal]; rewrite <- ?app_assoc; simpl; rewrite <- ?app_assoc; reflexivity.
Qed.

(** The signature that goes with the two arguments. *)
Definition signs (certificate_path key_path : option string) (sign_info : option SignEnclaveInfo) : Prop :=
  match certificate_path, key_path with
  | None, None => sign_info = None
  | Some certificate, Some key =>
      exists info, sign_info_new certificate key = Ok info /\ sign_info = Some info
  | _, _ => False
  end.

Lemma sign_info_of_ok certificate_path key_path sign_info :
  sign_info_of certificate_path key_path = Ok sign_info <-> signs certificate_path key_path sign_info.
Proof.
  unfold sign_info_of, signs. destruct certificate_path, key_path; try naive_solver.
  destruct (sign_info_new _ _); naive_solver.
Qed.

(** A builder is made exactly when the Docker daemon answers, the init
    process, the driver of the security module, the kernel and linuxkit are
    files, the artifacts prefix is a directory, the metadata, if given, are a
    file, and the certificate and the key are either both missing or both there
    and accepted; then it keeps the arguments it was given and the signature. *)
Theorem docker2eif_new_accepts docker_image init_path nsm_path kernel_img_path cmdline linuxkit_path
    artifacts_prefix certificate_path key_path img_name img_version metadata_path build_info (l : blog) d :
  (exists l', docker2eif_new docker_image init_path nsm_path kernel_img_path cmdline linuxkit_path
     artifacts_prefix certificate_path key_path img_name img_version metadata_path build_info l =
     (Return (Ok d), l')) <->
  docker_connect = true /\
  Forall (fun path => is_file path = true) [init_path; nsm_path; kernel_img_path; linuxkit_path] /\
  match metadata_path with Some path => is_file path = true | None => True end /\
  is_dir artifacts_prefix = true /\
  exists docker sign_info, docker_new docker_image = Ok docker /\
    signs certificate_path key_path sign_info /\
    d = mk_docker2eif docker_image docker init_path nsm_path kernel_img_path cmdline linuxkit_path
          artifacts_prefix sign_info img_name img_version metadata_path build_info.
Proof.
  rewrite !Forall_cons_iff, Forall_nil.
  unfold docker2eif_new. setoid_rewrite <- sign_info_of_ok.
  destruct (sign_info_of _ _) as [info|e]; unfold docker_failed, docker_new, attempt, bind, of_result,
    print_err, note_build, modify, ret, fail.
  all: destruct docker_connect; simpl; [|naive_solver].
  all: destruct (is_file init_path); simpl; [|naive_solver].
  all: destruct (is_file nsm_path); simpl; [|naive_solver].
  all: destruct (is_file kernel_img_path); simpl; [|naive_solver].
  all: destruct (is_file linuxkit_path); simpl; [|naive_solver].
  all: destruct (is_dir artifacts_prefix); simpl; [|naive_solver].
  all: destruct metadata_path as [path|]; [destruct (is_file path) eqn:?|]; simpl; naive_solver.
Qed.

(** *** Credentials *)

Lemma rsplit_once_spec c s :
  match rsplit_once c s with
  | Some (before, after) => s = (before +:+ String c after)%string /\ c ∉ String.list_ascii_of_string after
  | None => c ∉ String.list_ascii_of_string s
  end.
Proof.
  induction s as [|a s IH]; simpl; [set_solver|].
  destruct (rsplit_once c s) as [[before after]|]; simpl.
  - destruct IH as [-> ?]. done.
  - destruct (Ascii.eqb_spec a c) as [->|Hn]; [done|]. set_solver.
Qed.

Lemma rsplit_once_app c before after :
  c ∉ String.list_ascii_of_string after -> rsplit_once c (before +:+ String c after) = Some (before, after).
Proof.
  intros Hn. induction before as [|a before IH]; simpl.
  - pose proof (rsplit_once_spec c after) as Hs. destruct (rsplit_once c after) as [[x y]|].
    + destruct Hs as [-> _]. exfalso. apply Hn. clear. induction x; simpl; set_solver.
    + by rewrite Ascii.eqb_refl.
  - by rewrite IH.
Qed.

Lemma rsplit_once_none c s : c ∉ String.list_ascii_of_string s -> rsplit_once c s = None.
Proof.
  pose proof (rsplit_once_spec c s) as Hs. destruct (rsplit_once c s) as [[x y]|]; [|done].
  destruct Hs as [-> _]. intros []. induction x; simpl; set_solver.
Qed.

(** A registry that the search passes over. *)
Definition passed_over (host : string) (entry : string * Json) : Prop :=
  str_contains host (fst entry) = true ->
  exists text, decode_auth (snd entry) = Ok text /\ ":"%char ∉ String.list_ascii_of_string text.

(** The entry that has the credentials, and that it is the first such. *)
Definition credentials_at (host user password : string) (entry : string * Json) : Prop :=
  str_contains host (fst entry) = true /\
  decode_auth (snd entry) = Ok (user +:+ ":" +:+ password)%string /\
  ":"%char ∉ String.list_ascii_of_string password.
Definition first_credentials (host user password : string) (auths : list (string * Json)) : Prop :=
  exists before entry after, auths = before ++ entry :: after /\ Forall (passed_over host) before /\
    credentials_at host user password entry.

Lemma first_credentials_here host user password entry auths :
  credentials_at host user password entry -> first_credentials host user password (entry :: auths).
Proof. intros H. by exists [], entry, auths. Qed.

Lemma first_credentials_cons host user password entry auths :
  first_credentials host user password (entry :: auths) <->
  credentials_at host user password entry \/
  passed_over host entry /\ first_credentials host user password auths.
Proof.
  split.
  - intros ([|? before] & e & after & [= -> ->] & Hb & He); [by left|right].
    apply Forall_cons in Hb as [? ?]. split; [done|]. by exists before, e, after.
  - intros [H|(Hp & before & e & after & -> & Hb & He)]; [by apply first_credentials_here|].
    exists (entry :: before), e, after. split; [done|]. by rewrite Forall_cons.
Qed.

(** The credentials are those of the first registry whose name contains the
    host and whose entry has a colon; the last colon separates user name and
    password. The search fails when an earlier registry with the host in its name
    has no text, even if a later one matches. *)
Theorem find_credentials_spec host auths user password :
  find_credentials host auths = Ok (user, password) <-> first_credentials host user password auths.
Proof.
  induction auths as [|[name entry] auths IH].
  - split; [done|]. intros (before & ? & ? & E & _). by destruct before.
  - rewrite first_credentials_cons, <- IH. unfold passed_over, credentials_at. simpl.
    destruct (str_contains host name); simpl; [|naive_solver].
    destruct (decode_auth entry) as [text|e]; simpl; [|naive_solver].
    pose proof (rsplit_once_spec ":" text) as Hs. destruct (rsplit_once ":" text) as [[u p]|] eqn:Er.
    + destruct Hs as [-> Hn]. split.
      * intros [= -> ->]. by left.
      * intros [(_ & [= E] & Hn')|(H & _)].
        { rewrite E, rsplit_once_app in Er; [|done]. by simplify_eq. }
        destruct (H eq_refl) as (text & [= <-] & Ht). by rewrite rsplit_once_none in Er.
    + split; [intros H; right; naive_solver|]. intros [(_ & [= ->] & _)|[_ H]]; [|done].
      destruct Hs. clear. induction user; simpl; set_solver.
Qed.
End Build.

(** ** A system that builds one image

    JSON values are strings and objects; printing adds the double quotes, and
    base64 is the text itself. *)
Module BuildDemo.

Inductive DJson : Type :=
| DNull
| DStr (s : string)
| DObj (fields : list (string * DJson)).

Definition field (name : string) (fields : list (string * DJson)) : option DJson :=
  snd <$> List.find (fun f => String.eqb name (fst f)) fields.

#[local] Instance demo_types : BuildTypes := {| Json := DJson; SignEnclaveInfo := string; EifBuildInfo := unit |}.

Definition demo_image : ImageInspect :=
  mk_inspect (Some (mk_config (Some ["/bin/hello.sh"]) (Some ["PATH=/bin"; "HELLO=hi"]) (Some ["/init"])))%string
    (Some "arm64"%string).

#[local] Instance demo : @BuildSystem demo_types := {|
  j_get j name := match j with DObj fields => field name fields | _ => None end;
  j_as_object j := match j with DObj fields => Some fields | _ => None end;
  j_as_str j := match j with DStr s => Some s | _ => None end;
  j_to_string j := match j with DStr s => show_str s | _ => "null"%string end;
  j_null := DNull;
  json_of_inspect _ := DObj [("Id", DStr "sha256:0123")]%string;
  json_from_file _ := Ok (DObj [("auths", DObj [("registry.example.com", DObj [("auth", DStr "me:pa:ss")])])]%string);
  url_host s := if starts_with "dummy://" s then Some (Some "registry.example.com"%string) else None;
  base64_decode s := Ok (bytes_of s);
  yaml_of_bootstrap _ := "bootstrap yaml"%string;
  yaml_of_customer _ := "customer yaml"%string;
  docker_connect := true;
  runtime_new _ := true;
  docker_inspect _ _ := Some demo_image;
  docker_pull _ _ _ := [];
  docker_build _ _ _ := [];
  tar_gz _ := Ok [];
  sign_info_new c k := Ok (c +:+ k)%string;
  parse_custom_metadata _ := Ok DNull;
  write_eif _ _ := [("PCR0", "aa")]%string;
  EIF_HDR_ARCH_ARM64 := 1;
  env_var name := if String.eqb name "DOCKER_CONFIG" then Some "/root/config.json"%string
                  else if String.eqb name "HOME" then Some "/root"%string else None;
  is_file _ := true;
  is_dir _ := true;
  path_exists _ := true;
  open_for_reading _ := Ok tt;
  temp_file l := Some ("/tmp/" +:+ show_u (Z.of_nat (length l)))%string;
  temp_write _ _ := true;
  run_program _ _ _ := Some (true, ""%string);
|}.

Definition demo_builder : Docker2Eif :=
  mk_docker2eif "hello" (mk_docker "hello:latest") "init" "nsm.ko" "bzImage" "reboot=k" "linuxkit" "/tmp/out"
    None None None None tt.

Definition demo_run := create demo_builder [].

(** A password that contains a colon is cut at its last one: the entry of user
    "me" with password "pa:ss" becomes user "me:pa" with password "ss". *)
Example colon_in_password :
  get_credentials (mk_docker "registry.example.com/hello:v1") = Ok ("me:pa", "ss")%string.
Proof. reflexivity. Qed.

Lemma create_builds_image_witness :
  exists l' files image image1 image2 cmd env flags identity,
    demo_run = (Return (Ok [("PCR0", "aa")]%string), l') /\
    entry_of image = Some (cmd, env) /\
    arch_flags (default ""%string (inspect_architecture image1)) = Ok flags /\
    identity_of demo_builder image2 identity /\
    l' = build_trace demo_builder files cmd env image image1 image2 ++
         [BdEif (eif_input demo_builder flags identity)].
Proof.
  destruct (create_builds_image demo_builder [] (snd demo_run) [("PCR0", "aa")]%string)
    as (files & image & image1 & image2 & cmd & env & flags & identity & H1 & H2 & H3 & H4 & _);
    [vm_compute; reflexivity|].
  exists (snd demo_run), files, image, image1, image2, cmd, env, flags, identity.
  split; [vm_compute; reflexivity|]. split; [exact H1|]. split; [exact H2|]. split; [exact H3|exact H4].
Defined.
End BuildDemo.
