(* ===== verification/BuildCommand.v ===== *)
(** * The build-enclave command (src/src/lib.rs)

    [build_enclaves] prepares the inputs of the image builder of [ImageBuild],
    runs it and prints the measurements. *)
From S2P Require Import Prelude.
From S2P Require Import Logs.
From S2P Require Import RustStd.
From S2P Require Import Failure.
From S2P Require Import CommandsParser.
From S2P Require Import Os.
From S2P Require Import Enclave.
From S2P Require Import ImageBuild.
From stdpp Require Import base list numbers strings sets.
From Stdlib Require Import ZArith Lia.
Local Open Scope Z_scope.
Local Open Scope nitro_scope.

Definition failure_at (subaction : string) (code : NitroCliErrorEnum) (l : Z) : NitroCliFailure :=
  new_nitro_cli_failure subaction code "src/lib.rs" l.

(** The derived Debug text of a builder's error. *)
Definition show_build_error (e : Docker2EifError) : string :=
  match e with
  | DockerErr => "DockerError"
  | DockerfilePathError => "DockerfilePathError"
  | ImagePullError => "ImagePullError"
  | InitPathError => "InitPathError"
  | NsmPathError => "NsmPathError"
  | KernelPathError => "KernelPathError"
  | LinuxkitExecError => "LinuxkitExecError"
  | LinuxkitPathError => "LinuxkitPathError"
  | MetadataPathError => "MetadataPathError"
  | MetadataError msg => "MetadataError(" +:+ show_str msg +:+ ")"
  | ArtifactsPrefixError => "ArtifactsPrefixError"
  | RamfsError => "RamfsError"
  | RemoveFileError => "RemoveFileError"
  | SignImageError msg => "SignImageError(" +:+ show_str msg +:+ ")"
  | SignArgsError => "SignArgsError"
  | UnsupportedArchError => "UnsupportedArchError"
  end.

(** The host: file contents, creating files and directories, the architecture the
    program was compiled for, and the image library's macro that reads the
    configuration of the kernel. *)
Class BuildHost `{BuildTypes} : Type := {
  read_text : string -> result string string;
  create_output : blog -> string -> result string unit;
  create_dir_all : blog -> string -> result string unit;
  target_arch : string;
  generate_build_info : string -> result string EifBuildInfo;
}.

Section Build.
Context `{BT : BuildTypes} `{BS : @BuildSystem BT} `{BH : @BuildHost BT}.

Abbreviation B := (M NitroCliFailure blog).

(* src/src/lib.rs DEFAULT_BLOBS_PATH *)
Definition DEFAULT_BLOBS_PATH : string := "/usr/share/nitro_enclaves/blobs/".

(* src/src/lib.rs blobs_path *)
Definition blobs_path : NitroCliResult string :=
  Ok (default DEFAULT_BLOBS_PATH (env_var "NITRO_CLI_BLOBS")).

Definition make_artifacts (artifacts : string) (l : Z) : B string :=
  let! r := gets (fun s => create_dir_all s artifacts) in
  do! note_build (BdMkdir artifacts (is_ok r));
  do! of_result (rmap_err (fun e => add_info [artifacts; "Create"]%string
        (failure_at ("Could not create artifacts path " +:+ artifacts +:+ ": " +:+ e) FileOperationFailure l)) r);
  ret artifacts.

(* src/src/lib.rs artifacts_path *)
Definition artifacts_path : B string :=
  match env_var "NITRO_CLI_ARTIFACTS" with
  | Some artifacts => make_artifacts artifacts 318
  | None =>
      match env_var "HOME" with
      | Some home => make_artifacts (home +:+ "/.nitro_cli/")%string 328
      | None =>
          fail (failure_at
            "Could not find a folder for the CLI artifacts, set either HOME or NITRO_CLI_ARTIFACTS"
            ArtifactsPathNotSet 336)
      end
  end.

(* src/src/lib.rs:114-118 build_from_docker *)
Definition kernel_image_name : string :=
  if String.eqb target_arch "aarch64" then "Image"
  else if String.eqb target_arch "x86_64" then "bzImage" else "undefined".

Definition build_failed {A} (text : string) (code : NitroCliErrorEnum) (l : Z) (m : M Docker2EifError blog A) : B A :=
  map_err_to (fun err => failure_at (text +:+ show_build_error err) code l) m.

(* src/src/lib.rs build_from_docker *)
Definition build_from_docker `{ToJson EnclaveBuildInfo} (args : BuildEnclavesArgs)
    : B (list (string * string)) :=
  let! blobs_path := of_result (rmap_err (add_subaction "Failed to retrieve blobs path") blobs_path) in
  let cmdline_file_path := (blobs_path +:+ "/cmdline")%string in
  do! of_result (rmap_err (fun e => add_info [cmdline_file_path; "Open"]%string
        (failure_at ("Could not open kernel command line file: " +:+ e) FileOperationFailure 84))
        (open_for_reading cmdline_file_path));
  let! cmdline := of_result (rmap_err (fun e => add_info [cmdline_file_path; "Read"]%string
        (failure_at ("Failed to read kernel command line: " +:+ e) FileOperationFailure 93))
        (read_text cmdline_file_path)) in
  let! file_output := gets (fun s => create_output s (build_output args)) in
  do! note_build (BdCreate (build_output args) (is_ok file_output));
  do! of_result (rmap_err (fun e => add_info [build_output args; "Open"]%string
        (failure_at ("Could not create output file: " +:+ e) FileOperationFailure 107)) file_output);
  let kernel_path := (blobs_path +:+ "/" +:+ kernel_image_name)%string in
  let! build_info := of_result (rmap_err (fun e =>
        failure_at ("Could not generate build info: " +:+ e) EifBuildingError 122)
        (generate_build_info (kernel_path +:+ ".config"))) in
  let! artifacts := artifacts_path in
  let! docker2eif := build_failed "Failed to create EIF image: " EifBuildingError 145
    (docker2eif_new (build_docker_uri args) (blobs_path +:+ "/init")%string (blobs_path +:+ "/nsm.ko")%string
       kernel_path (str_trim cmdline) (blobs_path +:+ "/linuxkit")%string artifacts
       (build_signing_certificate args) (build_private_key args) (build_img_name args)
       (build_img_version args) (build_metadata args) build_info) in
  do! (match build_docker_dir args with
       | Some docker_dir => build_failed "Failed to build docker image: " DockerImageBuildError 155
           (build_docker_image docker2eif docker_dir)
       | None => build_failed "Failed to pull docker image: " DockerImagePullError 162
           (pull_docker_image docker2eif)
       end);
  let! measurements := build_failed "Failed to create EIF image: " EifBuildingError 169 (create docker2eif) in
  do! note_build (BdPrint "Enclave Image successfully created.");
  let! text := of_result (rmap_err (fun err =>
        failure_at ("Failed to display EnclaveBuild data: " +:+ err) SerdeError 179)
        (to_string_pretty (build_info_new measurements))) in
  do! note_build (BdStdout text);
  ret measurements.

(* src/src/lib.rs build_enclaves *)
Definition build_enclaves `{ToJson EnclaveBuildInfo} (args : BuildEnclavesArgs) : B unit :=
  do! note_build (BdPrint "Start building the Enclave Image...");
  let! _ := map_err (add_subaction "Failed to build EIF from docker") (build_from_docker args) in
  ret tt.

(** *** The builder never leaves the process *)

Lemma exits_inspect P d : exits P (inspect d).
Proof. unfold inspect, new_runtime, note_build. exits. Qed.
Hint Resolve exits_inspect : exits.
Lemma exits_append {E} P (e : E) path text : exits P (append_temp e path text).
Proof. unfold append_temp, note_build. exits. Qed.
Lemma exits_new_temp {E} P (e : E) : exits P (new_temp e).
Proof. unfold new_temp, note_build. exits. Qed.
Hint Resolve exits_append exits_new_temp : exits.
Lemma exits_write_config P config : exits P (write_config config).
Proof.
  assert (forall path, exits P (write_lines path config)).
  { intros path. induction config; cbn [write_lines]; exits. }
  unfold write_config. exits.
Qed.
Hint Resolve exits_write_config : exits.
Lemma exits_docker_failed {A} P (m : M DockerError blog A) : exits P m -> exits P (docker_failed m).
Proof. intros Hm. unfold docker_failed, print_err, note_build. exits. Qed.
Lemma exits_ramfs_failed {A} P (m : M YamlGeneratorError blog A) : exits P m -> exits P (ramfs_failed m).
Proof. intros Hm. unfold ramfs_failed, print_err, note_build. exits. Qed.

Lemma exits_create P d : exits P (create d).
Proof.
  assert (forall which args, exits P (linuxkit d which args)).
  { intros. unfold linuxkit, print_err, note_build. exits. }
  unfold create, generate_identity_info, inspect_image. exits.
  all: try (apply exits_docker_failed; unfold load, extract_image, architecture; exits).
  all: try (apply exits_ramfs_failed; unfold get_bootstrap_ramfs, get_customer_ramfs; exits).
  all: unfold note_build; exits.
Qed.

Lemma exits_build P `{ToJson EnclaveBuildInfo} args : exits P (build_enclaves args).
Proof.
  assert (forall d, exits P (pull_image d)).
  { intros. unfold pull_image, new_runtime, print_err, note_build. exits. }
  assert (forall d dir, exits P (build_image d dir)).
  { intros. unfold build_image, new_runtime, note_build. exits. }
  pose proof exits_create.
  unfold build_enclaves, build_from_docker, build_failed, docker2eif_new, pull_docker_image,
    build_docker_image, artifacts_path, make_artifacts, note_build. exits.
  all: try (apply exits_docker_failed; exits).
Qed.

(** ** What the command promises *)

(** How the image got to the Docker daemon: it was built from a directory, it was
    there, or it was pulled. *)
Inductive image_source (image : string) : option string -> blog -> Prop :=
| source_built dir tarball :
    tar_gz dir = Ok tarball -> image_source image (Some dir) [BdBuild image tarball]
| source_local i :
    image_source image None [BdInspect image (Some i); BdPrint "Using the locally available Docker image..."]
| source_pulled inspected credentials :
    inspected = [] \/ inspected = [BdInspect image None] ->
    image_source image None (inspected ++ [BdPull image credentials]).

Lemma new_runtime_ok s u s' : new_runtime s = (Return (Ok u), s') -> s' = s.
Proof. unfold new_runtime, bind, gets. by destruct (runtime_new s); intros [=]. Qed.

Lemma pull_image_source d s u s' :
  pull_image d s = (Return (Ok u), s') ->
  exists evs, s' = s ++ evs /\ image_source (docker_image d) None evs.
Proof.
  unfold pull_image. intros E. apply bind_ok_inv in E as ([i|e] & s1 & E1%try_inv & E).
  - apply inspect_ok in E1 as [_ ->]. injection E as _ <-. rewrite <- app_assoc.
    eexists. split; [reflexivity|]. apply source_local.
  - assert (exists inspected, s1 = s ++ inspected /\ (inspected = [] \/ inspected = [BdInspect (docker_image d) None]))
      as (inspected & -> & Hi).
    { unfold inspect, new_runtime, note_build in E1. unfold bind at 1 2, gets at 1 in E1.
      destruct (runtime_new s); cbn in E1.
      - destruct (docker_inspect _ _) eqn:Ei; cbn in E1; [done|]. injection E1 as _ <-. eauto.
      - injection E1 as _ <-. exists []. rewrite app_nil_r. eauto. }
    apply bind_ok_inv in E as (? & s2 & ->%new_runtime_ok & E).
    apply bind_ok_inv in E as (stream & s3 & Eg & E). unfold gets in Eg. injection Eg as _ <-.
    apply bind_ok_inv in E as (? & s4 & En & [_ ->]%of_result_inv). unfold note_build, modify in En.
    injection En as _ <-. eexists. rewrite <- app_assoc. split; [reflexivity|]. by apply source_pulled.
Qed.

Lemma build_image_source d dir s u s' :
  build_image d dir s = (Return (Ok u), s') ->
  exists evs, s' = s ++ evs /\ image_source (docker_image d) (Some dir) evs.
Proof.
  unfold build_image, build_tarball. intros E. apply bind_ok_inv in E as (? & s2 & ->%new_runtime_ok & E).
  apply bind_ok_inv in E as (tarball & s3 & [Ht%rmap_err_ok_inv ->]%of_result_inv & E).
  apply bind_ok_inv in E as (stream & s4 & Eg & E). unfold gets in Eg. injection Eg as _ <-.
  apply bind_ok_inv in E as (? & s5 & En & [_ ->]%of_result_inv). unfold note_build, modify in En.
  injection En as _ <-. eexists. split; [reflexivity|]. by apply source_built.
Qed.

Lemma docker2eif_new_ok uri init nsm kernel cmdline linuxkit artifacts cert key name version metadata info l d l' :
  docker2eif_new uri init nsm kernel cmdline linuxkit artifacts cert key name version metadata info l =
    (Return (Ok d), l') ->
  l' = l /\ exists docker sign_info, docker_new uri = Ok docker /\ signs cert key sign_info /\
    d = mk_docker2eif uri docker init nsm kernel cmdline linuxkit artifacts sign_info name version metadata info.
Proof.
  unfold docker2eif_new. intros E.
  apply bind_ok_inv in E as (docker & s1 & [E1 ->]%docker_failed_ok_inv%of_result_inv & E).
  repeat match type of E with (if ?b then _ else _) _ = _ => destruct b; [done|] end.
  apply bind_ok_inv in E as (sign_info & s2 & [E2%sign_info_of_ok ->]%of_result_inv & E).
  injection E as <- <-. eauto 6.
Qed.

Lemma artifacts_path_ok l a l' :
  artifacts_path l = (Return (Ok a), l') ->
  (env_var "NITRO_CLI_ARTIFACTS" = Some a \/
   exists home, env_var "HOME" = Some home /\ a = (home +:+ "/.nitro_cli/")%string) /\
  l' = l ++ [BdMkdir a true].
Proof.
  assert (forall p n, make_artifacts p n l = (Return (Ok a), l') -> a = p /\ l' = l ++ [BdMkdir p true]) as Hm.
  { unfold make_artifacts. intros p n E. apply bind_ok_inv in E as (r & s1 & Eg & E).
    unfold gets in Eg. injection Eg as <- <-. apply bind_ok_inv in E as (? & s2 & En & E).
    unfold note_build, modify in En. injection En as _ <-.
    apply bind_ok_inv in E as (? & s3 & [Er%rmap_err_ok_inv ->]%of_result_inv & E).
    injection E as -> <-. by rewrite Er. }
  unfold artifacts_path. destruct (env_var "NITRO_CLI_ARTIFACTS") as [p|].
  - intros [-> ->]%Hm. auto.
  - destruct (env_var "HOME") as [home|]; [|done]. intros [-> ->]%Hm. split; [|done]. right. eauto.
Qed.

(** C36: A build command that succeeds has created the output file and the
    artifacts directory, has had the image built from the given directory, or else
    found it or pulled it, has then run the image builder on the blobs of the
    blobs directory, the trimmed kernel command line and the given signature,
    name, version and metadata, and has printed the measurements of the result. *)
Theorem build_command_builds `{ToJson EnclaveBuildInfo} args l l' m :
  build_from_docker args l = (Return (Ok m), l') ->
  exists blobs cmdline artifacts info docker sign_info source printed,
    blobs_path = Ok blobs /\ read_text (blobs +:+ "/cmdline") = Ok cmdline /\
    generate_build_info ((blobs +:+ "/" +:+ kernel_image_name) +:+ ".config") = Ok info /\
    docker_new (build_docker_uri args) = Ok docker /\
    signs (build_signing_certificate args) (build_private_key args) sign_info /\
    image_source (docker_image docker) (build_docker_dir args) source /\
    to_string_pretty (build_info_new m) = Ok printed /\
    let d := mk_docker2eif (build_docker_uri args) docker (blobs +:+ "/init") (blobs +:+ "/nsm.ko")
               (blobs +:+ "/" +:+ kernel_image_name) (str_trim cmdline) (blobs +:+ "/linuxkit") artifacts
               sign_info (build_img_name args) (build_img_version args) (build_metadata args) info in
    exists l2, create d (l ++ [BdCreate (build_output args) true; BdMkdir artifacts true] ++ source) =
        (Return (Ok m), l2) /\
      l' = l2 ++ [BdPrint "Enclave Image successfully created."; BdStdout printed].
Proof.
  unfold build_from_docker, build_failed. intros E.
  apply bind_ok_inv in E as (blobs & s1 & [Hb%rmap_err_ok_inv ->]%of_result_inv & E).
  apply bind_ok_inv in E as (? & s2 & [_ ->]%of_result_inv & E).
  apply bind_ok_inv in E as (cmdline & s3 & [Hc%rmap_err_ok_inv ->]%of_result_inv & E).
  apply bind_ok_inv in E as (out & s4 & Eg & E). unfold gets in Eg. injection Eg as <- <-.
  apply bind_ok_inv in E as (? & s5 & E5 & E). unfold note_build, modify in E5. injection E5 as _ <-.
  apply bind_ok_inv in E as (? & s6 & [Ho%rmap_err_ok_inv ->]%of_result_inv & E). rewrite Ho in E. cbn [is_ok] in E.
  apply bind_ok_inv in E as (info & s7 & [Hi%rmap_err_ok_inv ->]%of_result_inv & E).
  apply bind_ok_inv in E as (artifacts & s8 & [_ ->]%artifacts_path_ok & E).
  apply bind_ok_inv in E as (d & s9 & (-> & docker & sign_info & Hd & Hs & ->)%map_err_to_ok_inv%docker2eif_new_ok & E).
  apply bind_ok_inv in E as (? & s10 & E10 & E).
  assert (exists source, s10 = (l ++ [BdCreate (build_output args) true]) ++ [BdMkdir artifacts true] ++ source /\
    image_source (docker_image docker) (build_docker_dir args) source) as (source & -> & Hsrc).
  { destruct (build_docker_dir args) as [dir|]; apply map_err_to_ok_inv in E10.
    - unfold build_docker_image in E10. destruct (negb _); [done|].
      apply docker_failed_ok_inv, build_image_source in E10 as (evs & -> & ?). exists evs. by rewrite <- !app_assoc.
    - apply docker_failed_ok_inv, pull_image_source in E10 as (evs & -> & ?). exists evs. by rewrite <- !app_assoc. }
  apply bind_ok_inv in E as (m' & l2 & Ec%map_err_to_ok_inv & E).
  apply bind_ok_inv in E as (? & s12 & E12 & E). unfold note_build, modify in E12. injection E12 as _ <-.
  apply bind_ok_inv in E as (printed & s13 & [Hp%rmap_err_ok_inv ->]%of_result_inv & E).
  unfold note_build in E. injection E as -> <-.
  exists blobs, cmdline, artifacts, info, docker, sign_info, source, printed.
  repeat (split; [done|]). exists l2. split; [|by rewrite <- app_assoc]. rewrite <- Ec. by rewrite <- app_assoc.
Qed.
End Build.

(** ** A build *)

Module Demo.
#[local] Existing Instances BuildDemo.demo_types BuildDemo.demo.
#[local] Instance demo_host : BuildHost := {|
  read_text _ := Ok "reboot=k panic=30 "%string;
  create_output _ _ := Ok tt;
  create_dir_all _ _ := Ok tt;
  target_arch := "x86_64";
  generate_build_info _ := Ok tt;
|}.
#[local] Instance demo_print : ToJson EnclaveBuildInfo := fun _ => Ok "{}"%string.
Definition demo_args : BuildEnclavesArgs :=
  mk_build_args "hello" (Some "docker"%string) "hello.eif" None None None None None.

Lemma build_command_builds_witness :
  exists l' docker sign_info source,
    build_from_docker demo_args [] = (Return (Ok [("PCR0", "aa")]%string), l') /\
    docker_new "hello" = Ok docker /\ signs None None sign_info /\
    image_source (docker_image docker) (Some "docker"%string) source.
Proof.
  set (l' := snd (build_from_docker demo_args [])).
  assert (build_from_docker demo_args [] = (Return (Ok [("PCR0", "aa")]%string), l')) as E
    by (vm_compute; reflexivity).
  destruct (build_command_builds _ _ _ _ E)
    as (blobs & cmdline & artifacts & info & docker & sign_info & source & printed & _ & _ & _ & H1 & H2 & H3 & _).
  exists l', docker, sign_info, source. split; [exact E|]. split; [exact H1|]. split; [exact H2|exact H3].
Defined.
End Demo.
