(* ===== verification/StandaloneBuild.v ===== *)
(** * The stand-alone image builder (src/enclave_build/src/main.rs)

    The program of the crate enclave_build hands its command line to the image
    builder of [ImageBuild]. Every error is a panic. An argument that clap does not
    know has no value (in a debug build asking for it panics). *)
From S2P Require Import Prelude.
From S2P Require Import Logs.
From S2P Require Import RustStd.
From S2P Require Import Failure.
From S2P Require Import CommandsParser.
From S2P Require Import App.
From S2P Require Import ImageBuild.
From S2P Require Import BuildCommand.
From stdpp Require Import base list numbers strings sets.
From Stdlib Require Import ZArith Lia.
Local Open Scope Z_scope.
Local Open Scope nitro_scope.

(* src/enclave_build/src/main.rs:11-123 main *)
Definition image_builder_spec : SubCommand :=
  mk_sub "Docker2Eif builder" [
    mk_arg "docker_image" "tag" true false true [] [];
    mk_arg "init_path" "init" true false true [] [];
    mk_arg "nsm_path" "nsm" true false true [] [];
    mk_arg "kernel_img_path" "kernel" true false true [] [];
    mk_arg "kernel_cfg_path" "kernel_config" true false true [] [];
    mk_arg "cmdline" "cmdline" true false true [] [];
    mk_arg "linuxkit_path" "linuxkit" true false true [] [];
    mk_arg "output" "output" true false true [] [];
    mk_arg "signing-certificate" "signing-certificate" true false false [] [];
    mk_arg "private-key" "private-key" true false false [] [];
    mk_arg "build" "build" true false false [] [];
    mk_arg "pull" "pull" false false false [] ["build"];
    mk_arg "image_name" "name" true false false [] [];
    mk_arg "image_version" "version" true false false [] [];
    mk_arg "metadata" "metadata" true false false [] []]%string.

Section Build.
Context `{BT : BuildTypes} `{BS : @BuildSystem BT} `{BH : @BuildHost BT}.

(** [unwrap] and [expect]: an error is a panic. *)
Definition unwrap {E F A} (m : M E blog A) : M F blog A :=
  let! r := attempt m in
  match r with Ok a => ret a | Err _ => panic end.

Definition unwrap_arg {F} (matches : ArgMatches) (name : string) : M F blog string :=
  match value_of matches name with Some v => ret v | None => panic end.

(* src/enclave_build/src/main.rs:125-177 main *)
Definition standalone_main (matches : ArgMatches) : M Docker2EifError blog unit :=
  let! docker_image := unwrap_arg matches "docker_image" in
  let! init_path := unwrap_arg matches "init_path" in
  let! nsm_path := unwrap_arg matches "nsm_path" in
  let! kernel_img_path := unwrap_arg matches "kernel_img_path" in
  let! kernel_cfg_path := unwrap_arg matches "kernel_cfg_path" in
  let! cmdline := unwrap_arg matches "cmdline" in
  let! linuxkit_path := unwrap_arg matches "linuxkit_path" in
  let! output := unwrap_arg matches "output" in
  let signing_certificate := value_of matches "signing_certificate" in
  let private_key := value_of matches "private_certificate" in
  let img_name := value_of matches "image_name" in
  let img_version := value_of matches "image_version" in
  let metadata := value_of matches "metadata" in
  let! opened := gets (fun s => create_output s output) in
  do! note_build (BdCreate output (is_ok opened));
  do! unwrap (of_result opened);
  let! build_info := unwrap (of_result (generate_build_info kernel_cfg_path)) in
  let! img := unwrap (docker2eif_new docker_image init_path nsm_path kernel_img_path cmdline linuxkit_path "."
    signing_certificate private_key img_name img_version metadata build_info) in
  do! (if is_present matches "build" then
         let! dockerfile_dir := unwrap_arg matches "build" in
         unwrap (build_docker_image img dockerfile_dir)
       else if is_present matches "pull" then unwrap (pull_docker_image img)
       else ret tt);
  let! _ := unwrap (create img) in
  ret tt.

(** ** What the program promises *)

Lemma unwrap_ok {E F A} (m : M E blog A) s a s' :
  (unwrap m : M F blog A) s = (Return (Ok a), s') -> m s = (Return (Ok a), s').
Proof. unfold unwrap. intros H. apply bind_ok_inv in H as ([b|e] & s1 & H1%attempt_inv & H2); [|done]. by injection H2 as -> ->. Qed.

Lemma unwrap_arg_ok {F} matches name s v s' :
  (unwrap_arg matches name : M F blog string) s = (Return (Ok v), s') -> value_of matches name = Some v /\ s' = s.
Proof. unfold unwrap_arg. destruct (value_of matches name); [|done]. by intros [= -> ->]. Qed.

(** How the image got to the daemon, if it had to. *)
Inductive fetched (matches : ArgMatches) (image : string) : blog -> Prop :=
| fetched_build dir evs : value_of matches "build" = Some dir -> image_source image (Some dir) evs ->
    fetched matches image evs
| fetched_pull evs : is_present matches "build" = false -> is_present matches "pull" = true ->
    image_source image None evs -> fetched matches image evs
| fetched_not : is_present matches "build" = false -> is_present matches "pull" = false ->
    fetched matches image [].

Lemma fetch_ok matches img l u l' :
  (if is_present matches "build" then
     let! dockerfile_dir := unwrap_arg matches "build" in unwrap (build_docker_image img dockerfile_dir)
   else if is_present matches "pull" then unwrap (pull_docker_image img)
   else ret tt : M Docker2EifError blog unit) l = (Return (Ok u), l') ->
  exists evs, l' = l ++ evs /\ fetched matches (docker_image (d2e_docker img)) evs.
Proof.
  destruct (is_present matches "build") eqn:Hb; [|destruct (is_present matches "pull") eqn:Hp].
  - intros E. apply bind_ok_inv in E as (dir & s1 & [Hd ->]%unwrap_arg_ok & E%unwrap_ok).
    unfold build_docker_image in E. destruct (negb _); [done|].
    apply docker_failed_ok_inv, build_image_source in E as (evs & -> & ?). eauto using fetched_build.
  - intros E%unwrap_ok. apply docker_failed_ok_inv, pull_image_source in E as (evs & -> & ?).
    eauto using fetched_pull.
  - intros [= _ <-]. exists []. rewrite app_nil_r. eauto using fetched_not.
Qed.

(** C37: the stand-alone builder never signs an image, although it accepts a
    certificate and a key: when arguments that are not declared have no value, a
    run that succeeds has created the output file and built the image of the given
    arguments, fetched as was asked for, with a builder that has no signature,
    whatever --signing-certificate and --private-key say. *)
Theorem standalone_builds_unsigned matches l l' :
  (forall a, a ∉ names image_builder_spec -> value_of matches a = None) ->
  standalone_main matches l = (Return (Ok tt), l') ->
  exists image init nsm kernel config cmdline linuxkit output docker info source measurements,
    map (value_of matches) ["docker_image"; "init_path"; "nsm_path"; "kernel_img_path"; "kernel_cfg_path";
      "cmdline"; "linuxkit_path"; "output"]%string =
      map Some [image; init; nsm; kernel; config; cmdline; linuxkit; output] /\
    docker_new image = Ok docker /\ generate_build_info config = Ok info /\
    fetched matches (docker_image docker) source /\
    create (mk_docker2eif image docker init nsm kernel cmdline linuxkit "." None
              (value_of matches "image_name") (value_of matches "image_version") (value_of matches "metadata") info)
      (l ++ BdCreate output true :: source) = (Return (Ok measurements), l').
Proof.
  intros Hun E. unfold standalone_main in E.
  apply bind_ok_inv in E as (image & ? & [H1 ->]%unwrap_arg_ok & E).
  apply bind_ok_inv in E as (init & ? & [H2 ->]%unwrap_arg_ok & E).
  apply bind_ok_inv in E as (nsm & ? & [H3 ->]%unwrap_arg_ok & E).
  apply bind_ok_inv in E as (kernel & ? & [H4 ->]%unwrap_arg_ok & E).
  apply bind_ok_inv in E as (config & ? & [H5 ->]%unwrap_arg_ok & E).
  apply bind_ok_inv in E as (cmdline & ? & [H6 ->]%unwrap_arg_ok & E).
  apply bind_ok_inv in E as (linuxkit & ? & [H7 ->]%unwrap_arg_ok & E).
  apply bind_ok_inv in E as (output & ? & [H8 ->]%unwrap_arg_ok & E).
  rewrite (Hun "signing_certificate"%string), (Hun "private_certificate"%string) in E by (vm_compute; set_solver).
  apply bind_ok_inv in E as (opened & ? & [= <- <-] & E).
  apply bind_ok_inv in E as (? & ? & [= _ <-] & E).
  apply bind_ok_inv in E as (? & ? & [Ho ->]%unwrap_ok%of_result_inv & E). rewrite Ho in E.
  apply bind_ok_inv in E as (info & ? & [Hi ->]%unwrap_ok%of_result_inv & E).
  apply bind_ok_inv in E as (img & ? & (-> & docker & sign & Hd & Hs & ->)%unwrap_ok%docker2eif_new_ok & E).
  apply bind_ok_inv in E as (? & ? & (source & -> & Hf)%fetch_ok & E).
  apply bind_ok_inv in E as (measurements & ? & Ec%unwrap_ok & [= <-]).
  assert (sign = None) as -> by (unfold signs in Hs; naive_solver).
  exists image, init, nsm, kernel, config, cmdline, linuxkit, output, docker, info, source, measurements.
  split_and!; [by cbn; rewrite H1, H2, H3, H4, H5, H6, H7, H8|done|done|done|].
  cbn [is_ok] in Ec. by rewrite <- app_assoc in Ec.
Qed.
End Build.

(** ** A signed image that is not *)

Module StandaloneDemo.
#[local] Existing Instances BuildDemo.demo_types BuildDemo.demo BuildCommand.Demo.demo_host.
Definition signing_line : ArgMatches :=
  args_of [("docker_image", "hello"); ("init_path", "init"); ("nsm_path", "nsm.ko"); ("kernel_img_path", "bzImage");
    ("kernel_cfg_path", "bzImage.config"); ("cmdline", "quiet"); ("linuxkit_path", "linuxkit");
    ("output", "hello.eif"); ("signing-certificate", "cert.pem"); ("private-key", "key.pem")]%string.

Lemma undeclared_no_value a : a ∉ names image_builder_spec -> value_of signing_line a = None.
Proof.
  assert (forall l : list (string * string), (forall p, p ∈ l -> p.1 <> a) -> filter (fun p => p.1 = a) l = []) as Hf.
  { intros l. induction l as [|p l IH]; intros Hl; [done|].
    rewrite filter_cons_False by (apply Hl; set_solver). apply IH. set_solver. }
  intros Ha. unfold signing_line, args_of. cbn [value_of]. rewrite Hf; [done|].
  intros p Hp <-. apply Ha. rewrite !elem_of_cons, elem_of_nil in Hp.
  destruct_or? Hp; try done; subst; apply list_elem_of_In; vm_compute; tauto.
Qed.

Definition standalone_run := @standalone_main _ BuildDemo.demo _ signing_line [].

(** The certificate and the key are given, and the image is not signed. *)
Lemma standalone_builds_unsigned_witness :
  value_of signing_line "signing-certificate" = Some "cert.pem"%string /\
  exists image init nsm kernel cmdline linuxkit docker info measurements name version metadata before,
    create (mk_docker2eif image docker init nsm kernel cmdline linuxkit "." None name version metadata info) before =
      (Return (Ok measurements), snd standalone_run).
Proof.
  split; [reflexivity|].
  destruct (standalone_builds_unsigned signing_line [] (snd standalone_run) undeclared_no_value)
    as (image & init & nsm & kernel & config & cmdline & linuxkit & output & docker & info & source & m &
        _ & _ & _ & _ & E); [vm_compute; reflexivity|].
  do 13 eexists. exact E.
Defined.
End StandaloneDemo.
