(* ===== verification/Cli.v ===== *)
(** * The library of the CLI (src/src/lib.rs)

    What the sub-commands do: asking the enclave processes for names, attaching
    to a console, terminating everything, describing an image and hashing a
    file. The listing of the sockets directory, the reader of the
    image format library and the hasher are parameters. *)
From S2P Require Import Prelude.
From S2P Require Import Logs.
From S2P Require Import RustStd.
From S2P Require Import Failure.
From S2P Require Import CommandsParser.
From S2P Require Import EnclaveIds.
From S2P Require Import Os.
From S2P Require Import Sample.
From S2P Require Import Wire.
From S2P Require Import Connection.
From S2P Require Import Memory.
From S2P Require Import Events.
From S2P Require Import Enclave.
From S2P Require Import Commands.
From S2P Require Import EventLoop.
From S2P Require Import ClientComm.
From S2P Require Import Console.
From stdpp Require Import base list numbers strings gmap sets.
From Stdlib Require Import ZArith Lia.
Local Open Scope Z_scope.
Local Open Scope nitro_scope.

Abbreviation println := Os.println.
Abbreviation eprintln := Os.eprintln.

Definition failure_at (subaction : string) (code : NitroCliErrorEnum) (l : Z) : NitroCliFailure :=
  new_nitro_cli_failure subaction code "src/lib.rs" l.

(* src/src/lib.rs VMADDR_CID_HYPERVISOR *)
Definition VMADDR_CID_HYPERVISOR : Z := 0.
(* src/src/lib.rs CID_TO_CONSOLE_PORT_OFFSET *)
Definition CID_TO_CONSOLE_PORT_OFFSET : Z := 10000.

(** The sockets directory when it is listed: as [enclave_proc_connect_to_all]
    looks at its entries, and as [terminate_all_enclaves] does, which takes the
    path of each entry that could be read. *)
Class SocketsDir : Type := {
  sockets_dir : log -> result string (list DirEntry);
  sockets_entries : log -> result string (list (option string));
}.

Section Cli.
Context `{Kernel} `{Env} `{SD : SocketsDir} `{Serde EnclaveProcessCommandType}
  `{Serde EnclaveProcessReply} `{Serde unit} `{Serde string}.

(** ** The console *)

(** [u32::try_from] *)
Definition u32_try_from (v : Z) : result string Z :=
  if (0 <=? v) && (v <=? u32_MAX) then Ok v else Err "TryFromIntError(())"%string.

(** The addition wraps, as in a release build. The console is closed when the
    function returns; [false] when it is still being read after so many rounds. *)
(* src/src/lib.rs enclave_console *)
Definition enclave_console (rounds : nat) (enclave_cid : Z) (disconnect_timeout_sec : option Z) : IO bool :=
  let! cid := of_result (rmap_err (fun err =>
    failure_at ("Failed to parse enclave CID: " +:+ err) IntegerParsingError 362) (u32_try_from enclave_cid)) in
  let! console := map_err (add_subaction "Connect to enclave console")
    (console_new VMADDR_CID_HYPERVISOR (u32 (cid + CID_TO_CONSOLE_PORT_OFFSET))) in
  do! println "Successfully connected to the console.";
  let! r := try (map_err (add_subaction "Connect to enclave console")
    (read_to rounds console disconnect_timeout_sec)) in
  match r with
  | Ok false => ret false
  | Ok true => do! console_drop console; ret true
  | Err e => do! console_drop console; fail e
  end.

(* src/src/lib.rs console_enclaves *)
Definition console_enclaves (rounds : nat) (enclave_cid : Z) (disconnect_timeout_sec : option Z) : IO bool :=
  do! println ("Connecting to the console for enclave " +:+ show_u enclave_cid +:+ "...");
  enclave_console rounds enclave_cid disconnect_timeout_sec.

(** ** Names *)

Definition list_sockets : IO (result string (list DirEntry)) := gets (fun w => sockets_dir (w_log w)).

(** The replies are dropped, and with them the connections. *)
(* src/src/lib.rs get_all_enclave_names *)
Definition get_all_enclave_names `{FromJson string} : IO (list string) :=
  let! dir := list_sockets in
  let! '(replies, _) := map_err (fun e => set_action "Get Enclave Names"
      (add_subaction "Failed to send GetEnclaveName command to all enclave processes" e))
    (enclave_proc_command_send_all dir GetEnclaveName (None : option unit)) in
  let! objects := enclave_proc_handle_outputs string replies in
  do! close_all replies;
  ret (map fst objects).

(* src/src/lib.rs get_id_by_name *)
Definition get_id_by_name `{FromJson string} (name : string) : IO string :=
  let! dir := list_sockets in
  let! '(replies, _) := map_err (fun e => set_action "Get Enclave Names"
      (add_subaction "Failed to send GetIDbyName command to all enclave processes" e))
    (enclave_proc_command_send_all dir GetIDbyName (Some name)) in
  let! objects := enclave_proc_handle_outputs string replies in
  do! close_all replies;
  match map fst objects with
  | [id] => ret id
  | [] => fail (failure_at "No enclave matched the given name." EnclaveNamingError 489)
  | _ => fail (failure_at "Conflicting enclave names have been found." EnclaveNamingError 489)
  end.

(** ** Terminating everything *)

(** The loop over the entries: the streams on which the command was sent, the
    entries for which that failed, and how many entries could not be read. *)
(* src/src/lib.rs:398-430 terminate_all_enclaves *)
Fixpoint send_terminate (sockets : list (option string)) : IO (list Z * list string * Z) :=
  match sockets with
  | [] => ret ([], [], 0)
  | None :: sockets =>
      let! '(replies, failed_connections, err_socket_files) := send_terminate sockets in
      ret (replies, failed_connections, err_socket_files + 1)
  | Some path :: sockets =>
      let! stream := attempt (syscall (SysUnixConnect path)) in
      match stream with
      | Err _ =>
          let! '(replies, failed_connections, err_socket_files) := send_terminate sockets in
          ret (replies, path :: failed_connections, err_socket_files)
      | Ok fds =>
          let fd := hd (-1) fds in
          let! sent := try (enclave_proc_command_send_single Terminate (None : option unit) fd) in
          match sent with
          | Err _ =>
              let! _ := close fd in
              let! '(replies, failed_connections, err_socket_files) := send_terminate sockets in
              ret (replies, path :: failed_connections, err_socket_files)
          | Ok _ =>
              let! '(replies, failed_connections, err_socket_files) := send_terminate sockets in
              ret (fd :: replies, failed_connections, err_socket_files)
          end
      end
  end.

(* src/src/lib.rs:433-436 terminate_all_enclaves *)
Fixpoint remove_stale (failed_connections : list string) : IO unit :=
  match failed_connections with
  | [] => ret tt
  | stale_socket :: failed_connections =>
      let! _ := attempt (F := NitroCliFailure) (syscall (SysRemoveFile stale_socket)) in
      remove_stale failed_connections
  end.

(* src/src/lib.rs terminate_all_enclaves *)
Definition terminate_all_enclaves `{FromJson EnclaveTerminateInfo} `{ToJson EnclaveTerminateInfo}
    `{ToJson (list EnclaveTerminateInfo)} : IO unit :=
  let dir := get_sockets_dir_path env_sockets_path in
  let! sockets := gets (fun w => sockets_entries (w_log w)) in
  let! sockets := of_result (rmap_err (fun e => add_info [dir; "Read"]%string
    (failure_at ("Error while accessing sockets directory: " +:+ e) FileOperationFailure 383)) sockets) in
  let! '(replies, failed_connections, err_socket_files) := send_terminate sockets in
  do! remove_stale failed_connections;
  let! r := try (map_err (add_subaction "Failed to handle all enclave processes replies")
    (enclave_process_handle_all_replies EnclaveTerminateInfo replies
       (Z.of_nat (length failed_connections) + err_socket_files) false [0; EACCES])) in
  do! close_all replies;
  match r with
  | Ok _ => ret tt
  | Err e => fail e
  end.
End Cli.

(** ** Describing an image *)

(** The reader of the image format library. Reading the certificate verifies the
    signature, which the reader remembers. *)
Class EifReading `{ImageFormat} : Type := {
  EifReader : Type;
  SignCertificateInfo : Type;
  from_eif : string -> result string EifReader;
  get_pcrs : EifReader -> bool -> result string (list (string * string));
  has_signature_section : EifReader -> bool;
  get_metadata : EifReader -> option EifIdentityInfo;
  header_version : EifReader -> Z;
  check_crc : EifReader -> bool;
  get_certificate_info : EifReader -> list (string * string) -> result string (SignCertificateInfo * EifReader);
  reader_sign_check : EifReader -> option bool;
}.

(* src/src/common/json_output.rs EifDescribeInfo *)
Record EifDescribeInfo `{EifReading} : Type := mk_eif_describe {
  ed_version : Z;
  ed_build_info : EnclaveBuildInfo;
  ed_is_signed : bool;
  ed_cert_info : option SignCertificateInfo;
  ed_crc_check : bool;
  ed_sign_check : option bool;
  ed_img_name : option string;
  ed_img_version : option string;
  ed_metadata : option MetadataDescribeInfo;
}.

(** [BTreeMap::contains_key] *)
Definition contains_key (key : string) (m : list (string * string)) : bool :=
  existsb (fun p => String.eqb key (fst p)) m.

Section Eif.
Context `{IF : ImageFormat} `{ER : @EifReading IF}.

(** What is printed. *)
(* src/src/lib.rs:222-278 describe_eif *)
Definition eif_description (eif_path : string) : NitroCliResult EifDescribeInfo :=
  let? eif_reader := rmap_err (fun e =>
    failure_at ("Failed to initialize EIF reader: " +:+ e) EifParsingError 223) (from_eif eif_path) in
  let? measurements := rmap_err (fun e =>
    failure_at ("Failed to get PCR values: " +:+ e) EifParsingError 237)
    (get_pcrs eif_reader (has_signature_section eif_reader)) in
  let meta := get_metadata eif_reader in
  let info cert_info is_signed sign_check :=
    mk_eif_describe _ _ (header_version eif_reader) (build_info_new measurements) is_signed cert_info
      (check_crc eif_reader) sign_check (eif_img_name <$> meta) (eif_img_version <$> meta)
      (metadata_info_new <$> meta) in
  if contains_key "PCR8" measurements then
    let? '(cert_info, eif_reader) := rmap_err (fun err =>
      failure_at ("Failed to get certificate sigining info: " +:+ err) EifParsingError 270)
      (get_certificate_info eif_reader measurements) in
    Ok (info (Some cert_info) true (reader_sign_check eif_reader))
  else Ok (info None false None).

(* src/src/lib.rs describe_eif *)
Definition describe_eif `{ToJson EifDescribeInfo} (eif_path : string) : IO EifDescribeInfo :=
  let! info := of_result (eif_description eif_path) in
  let! text := of_result (rmap_err (fun err =>
    failure_at ("Failed to display EIF describe data: " +:+ err) SerdeError 284) (to_string_pretty info)) in
  do! println text;
  ret info.
End Eif.

(** ** The hash of a file *)

(** The hasher of the image format library, the certificates of openssl, and the
    contents of files. *)
Class HashTools : Type := {
  Hasher : Type;
  X509 : Type;
  hasher_new : result string Hasher;
  hasher_write : Hasher -> list Z -> result string Hasher;
  tpm_extend : Hasher -> result string (list Z);
  hex_encode : list Z -> string;
  from_pem : list Z -> result string X509;
  to_der : X509 -> result string (list Z);
  file_opens : string -> result string unit;
  file_bytes : string -> result string (list Z);
}.

Section Pcr.
Context `{HT : HashTools}.

(** The name of the register and its value. *)
(* src/src/lib.rs:507-561 get_file_pcr *)
Definition file_pcr (path : string) (pcr_type : PcrType) : NitroCliResult (string * string) :=
  let? hasher := rmap_err (fun e =>
    failure_at ("Could not create hasher: " +:+ e) HasherError 510) hasher_new in
  let? _ := rmap_err (fun e =>
    failure_at ("Failed to open file: " +:+ e) FileOperationFailure 516) (file_opens path) in
  let? buf := rmap_err (fun e =>
    failure_at ("Failed to read file: " +:+ e) FileOperationFailure 523) (file_bytes path) in
  let? '(key, buf) :=
    match pcr_type with
    | DefaultType => Ok ("PCR"%string, buf)
    | SigningCertificate =>
        let? cert := rmap_err (fun e =>
          failure_at ("Failed to deserialize .pem: " +:+ e) HasherError 534) (from_pem buf) in
        let? buf := rmap_err (fun e =>
          failure_at ("Failed to serialize certificate: " +:+ e) HasherError 540) (to_der cert) in
        Ok ("PCR8"%string, buf)
    end in
  let? hasher := rmap_err (fun e =>
    failure_at ("Could not write to hasher: " +:+ e) HasherError 548) (hasher_write hasher buf) in
  let? hash := rmap_err (fun e =>
    failure_at ("Could not get result for hasher: " +:+ e) HasherError 554) (tpm_extend hasher) in
  Ok (key, hex_encode hash).

(* src/src/lib.rs get_file_pcr *)
Definition get_file_pcr `{ToJson (list (string * string))} (path : string) (pcr_type : PcrType)
    : IO (list (string * string)) :=
  let! entry := of_result (file_pcr path pcr_type) in
  let result := [entry] in
  let! text := of_result (rmap_err (fun err =>
    failure_at ("Failed to display PCR(s): " +:+ err) SerdeError 566) (to_string_pretty result)) in
  do! println text;
  ret result.
End Pcr.

(** ** Which calls the client makes *)

(** What collecting the answers does: streams are shut down, texts printed. *)
Definition is_reply (e : Event) : Prop :=
  match e with EvPrint _ _ | EvShutdown _ _ | EvNotify _ => True | _ => False end.

(** Everything but connecting to a console. *)
Definition not_console (e : Event) : Prop :=
  match e with EvSys (SysVsockConnect _ _ _) _ => False | _ => True end.

Definition no_removal (e : Event) : Prop :=
  match e with EvSys (SysRemoveFile _) _ => False | _ => True end.

Section ClientCalls.
Context `{KN : Kernel} `{EV : Env} `{Serde EnclaveProcessCommandType} `{Serde EnclaveProcessReply} `{Serde unit}.

Lemma emits_modify_one {E} (Q : Event -> Prop) e : Q e -> emits Q (modify (add_event e) : M E World unit).
Proof. intros HQ. apply emits_one. intros s. by exists e. Qed.

Lemma emits_send_single {T} `{Serde T} cmd (args : option T) fd :
  emits is_stream (enclave_proc_command_send_single cmd args fd).
Proof. unfold enclave_proc_command_send_single, send_command_bytes. emits. Qed.

Lemma emits_read_replies fuel conn out st : emits is_reply (read_replies fuel conn out st).
Proof.
  revert out st. induction fuel as [|fuel IH]; intros out st; cbn [read_replies]; [emits|].
  unfold eprint. emits; by apply emits_modify_one.
Qed.
Lemma emits_handle_output T `{FromJson T} conn : emits is_reply (enclave_proc_handle_output T conn).
Proof.
  pose proof emits_read_replies. unfold enclave_proc_handle_output, notify_error, emit.
  emits; try by apply emits_modify_one. apply emits_one. intros ?. eexists. by split.
Qed.
Lemma emits_handle_outputs T `{FromJson T} conns : emits is_reply (enclave_proc_handle_outputs T conns).
Proof. pose proof emits_handle_output. induction conns; cbn [enclave_proc_handle_outputs]; emits. Qed.
Lemma emits_print_objects {T} `{ToJson T} (objects : list T) : emits is_reply (print_objects objects).
Proof.
  induction objects; cbn [print_objects]; unfold Os.println, print; emits. by apply emits_modify_one.
Qed.
Lemma emits_all_replies T `{FromJson T} `{ToJson T} `{ToJson (list T)} replies failed vec allowed :
  emits is_reply (enclave_process_handle_all_replies T replies failed vec allowed).
Proof.
  pose proof (emits_handle_outputs T). pose proof (emits_print_objects (T := T)).
  unfold enclave_process_handle_all_replies, Os.println, Os.eprintln, print, eprint.
  emits; by apply emits_modify_one.
Qed.
Lemma emits_close_all fds : emits is_socket (close_all fds).
Proof. induction fds; cbn [close_all]; emits. Qed.

(** *** None of it connects to a console *)

Lemma nc_stream {E T A} `{HasLog T Event} (m : M E T A) : emits is_stream m -> emits not_console m.
Proof. intros Hm. eapply emits_impl; [exact Hm|]. by intros []. Qed.
Lemma nc_socket {E T A} `{HasLog T Event} (m : M E T A) : emits is_socket m -> emits not_console m.
Proof. intros Hm. eapply emits_impl; [exact Hm|]. by intros []. Qed.
Lemma nc_reply {E T A} `{HasLog T Event} (m : M E T A) : emits is_reply m -> emits not_console m.
Proof. intros Hm. eapply emits_impl; [exact Hm|]. by intros []. Qed.
Lemma nc_notify {E T A} `{HasLog T Event} (m : M E T A) : emits is_notify m -> emits not_console m.
Proof. intros Hm. eapply emits_impl; [exact Hm|]. by intros []. Qed.

Lemma nc_write_u64 fd v : emits not_console (write_u64_le fd v).
Proof. apply nc_stream. emits. Qed.
Lemma nc_read_u64 fd : emits not_console (read_u64_le fd).
Proof. unfold read_u64_le. emits. Qed.
Lemma nc_close {E} fd : emits not_console (close fd : M E World Z).
Proof. apply nc_socket. emits. Qed.
Lemma nc_shutdown fd : emits not_console (shutdown fd).
Proof. apply emits_one. intros ?. eexists. by split. Qed.
Lemma nc_send_single {T} `{Serde T} cmd (args : option T) fd :
  emits not_console (enclave_proc_command_send_single cmd args fd).
Proof. apply nc_stream, emits_send_single. Qed.
Lemma nc_handle_outputs T `{FromJson T} conns : emits not_console (enclave_proc_handle_outputs T conns).
Proof. apply nc_reply, emits_handle_outputs. Qed.
Lemma nc_close_all fds : emits not_console (close_all fds).
Proof. apply nc_socket, emits_close_all. Qed.
Hint Resolve nc_read_u64 nc_close nc_shutdown nc_send_single nc_handle_outputs nc_close_all : emits.

Lemma nc_try_sockets entries : emits not_console (try_sockets entries).
Proof. induction entries; cbn [try_sockets]; unfold try_socket; emits; by apply emits_syscall. Qed.
Lemma nc_send_to_each {T} `{Serde T} cmd (args : option T) sockets :
  emits not_console (send_to_each cmd args sockets).
Proof.
  induction sockets; cbn [send_to_each]; unfold send_to; emits. apply emits_one. intros ?. eexists. by split.
Qed.
Lemma nc_wait_reply n epoll : emits not_console (wait_reply n epoll).
Proof.
  induction n; cbn [wait_reply]; unfold emit; emits; [by apply emits_syscall|by apply emits_modify_one].
Qed.
Lemma nc_or_close {A} fds (m : IO A) : emits not_console m -> emits not_console (ClientComm.or_close fds m).
Proof. intros Hm. unfold ClientComm.or_close. emits. Qed.
Lemma nc_collect n epoll replies : emits not_console (collect_confirmations n epoll replies).
Proof.
  pose proof nc_wait_reply.
  revert replies. induction n; intros replies; cbn [collect_confirmations]; emits.
  all: try (apply nc_or_close; emits).
  all: try (apply emits_one; intros ?; eexists; by split).
Qed.
Hint Resolve nc_try_sockets nc_send_to_each nc_collect : emits.

Lemma nc_send_all {T} `{Serde T} dir cmd (args : option T) :
  emits not_console (enclave_proc_command_send_all dir cmd args).
Proof.
  unfold enclave_proc_command_send_all, enclave_proc_connect_to_all. emits; by apply emits_syscall.
Qed.
Lemma nc_get_number cmd e1 e2 e3 l id : emits not_console (get_number cmd e1 e2 e3 l id).
Proof.
  unfold get_number, enclave_proc_connect_to_single, owning. emits. by apply emits_syscall.
Qed.
(** *** Who is asked by a broadcast *)

(** A run has begun to send the command on the stream, if it has an encoding. *)
Definition asked (cmd : EnclaveProcessCommandType) (fd : Z) (w w' : World) : Prop :=
  forall bs, to_vec cmd = Ok bs ->
  exists r, new_in (w_log w) (w_log w') (EvWrite fd (to_le_bytes 8 (Z.of_nat (length bs))) r).

(** Every socket of the directory has been connected to, and the command has been
    sent on the streams. *)
Definition all_asked (cmd : EnclaveProcessCommandType) (entries : list DirEntry) (w w' : World) : Prop :=
  forall p, mk_entry (Some p) false ∈ entries -> ends_with ".sock" p = true ->
  exists r, new_in (w_log w) (w_log w') (EvSys (SysUnixConnect p) r) /\
    forall fds, r = Ok fds -> asked cmd (hd (-1) fds) w w'.

Definition begins (fd : Z) (bs : list Z) (e : Event) : Prop :=
  exists r, e = EvWrite fd (to_le_bytes 8 (Z.of_nat (length bs))) r.

Lemma does_write_u64 fd bs : does (begins fd bs) (write_u64_le fd (Z.of_nat (length bs))).
Proof. apply does_map_err_to, does_one. intros s. eexists. split; [reflexivity|by eexists]. Qed.

Lemma does_send_to {T} `{Serde T} cmd (args : option T) fd bs :
  to_vec cmd = Ok bs -> does (begins fd bs) (send_to cmd args fd).
Proof.
  intros Hb. unfold send_to. apply (does_bind _ not_console).
  - apply does_try. intros s. unfold enclave_proc_command_send_single. rewrite Hb.
    change (bind (of_result (rmap_err ?f (Ok bs))) ?k) with (k bs).
    revert s. apply (does_bind _ not_console).
    + apply (does_bind _ not_console); [apply does_map_err, does_write_u64|]. intros _. apply nc_stream. emits.
    + intros _. apply nc_stream. unfold send_command_bytes. emits.
  - intros a. emits. apply emits_one. intros ?. eexists. by split.
Qed.

Lemma nc_prefix {A} (m : IO A) w r w' : emits not_console m -> m w = (r, w') -> w_log w `prefix_of` w_log w'.
Proof. apply (emits_prefix not_console). Qed.

Lemma asked_within cmd fd w w1 w2 w3 :
  w_log w `prefix_of` w_log w1 -> asked cmd fd w1 w2 -> w_log w2 `prefix_of` w_log w3 -> asked cmd fd w w3.
Proof.
  intros P1 Ha P2 bs Hb. destruct (Ha bs Hb) as (r & Hn). exists r.
  eapply new_in_before; [exact P1|]. by eapply new_in_after.
Qed.

Lemma send_to_each_asks {T} `{Serde T} cmd (args : option T) fd sockets w rs w' :
  fd ∈ sockets -> send_to_each cmd args sockets w = (Return (Ok rs), w') ->
  asked cmd fd w w'.
Proof.
  intros Hin. revert w rs w'. induction Hin as [fd sockets|fd s sockets Hin IH]; intros w rs w' E.
  - intros bs Hb. assert (does (begins fd bs) (send_to_each cmd args (fd :: sockets))) as Hd.
    { cbn [send_to_each]. apply (does_bind _ not_console); [by apply does_try, does_send_to|]. intros a. emits. }
    destruct (Hd w) as (e & Hn & r & ->). rewrite E in Hn. by exists r.
  - cbn [send_to_each] in E. apply bind_ok_inv in E as (r & w1 & E1 & E).
    apply bind_ok_inv in E as (rs' & w2 & E2 & [= _ <-]).
    eapply asked_within; [|by eapply IH|done]. eapply nc_prefix; [|exact E1].
    unfold send_to. emits. apply emits_one. intros ?. eexists. by split.
Qed.

Lemma try_sockets_connects p entries w fds w' :
  mk_entry (Some p) false ∈ entries -> ends_with ".sock" p = true ->
  try_sockets entries w = (Return (Ok fds), w') ->
  exists r, new_in (w_log w) (w_log w') (EvSys (SysUnixConnect p) r) /\ forall ns, r = Ok ns -> hd (-1) ns ∈ fds.
Proof.
  intros Hin Hp. remember (mk_entry (Some p) false) as entry eqn:He. revert w fds w'.
  induction Hin as [entry entries|entry [q []] entries Hin IH]; intros w fds w' E; subst; cbn [try_sockets entry_path entry_is_dir] in E.
  - apply bind_ok_inv in E as (conn & w1 & E1 & E). apply bind_ok_inv in E as (conns & w2 & E2 & [= <- <-]).
    apply nc_prefix in E2; [|emits].
    unfold try_socket in E1. rewrite Hp in E1. cbn [negb] in E1.
    apply bind_ok_inv in E1 as (r & w3 & E3%attempt_inv & E1). unfold syscall in E3. injection E3 as Hr <-.
    rewrite Hr in E1.
    assert (w_log (add_event (EvSys (SysUnixConnect p) r) w) `prefix_of` w_log w1) as P1.
    { eapply nc_prefix; [|exact E1]. emits; by apply emits_syscall. }
    exists r. split.
    + eapply new_in_after; [apply (new_in_one (w_log w))|]. by etrans.
    + intros ns ->. injection E1 as <- <-. by left.
  - destruct q; by eapply IH.
  - destruct q as [q|]; [|by eapply IH].
    apply bind_ok_inv in E as (conn & w1 & E1 & E). apply bind_ok_inv in E as (conns & w2 & E2 & [= <- <-]).
    destruct (IH eq_refl _ _ _ E2) as (r & Hn & Hr). exists r. split.
    + eapply new_in_before; [|exact Hn]. eapply nc_prefix; [|exact E1]. unfold try_socket. emits; by apply emits_syscall.
    + intros ns Hns. destruct conn; [right|]; auto.
Qed.

Lemma send_all_asks {T} `{Serde T} dir cmd (args : option T) w a w' :
  enclave_proc_command_send_all dir cmd args w = (Return (Ok a), w') ->
  exists entries, dir = Ok entries /\ all_asked cmd entries w w'.
Proof.
  intros E. unfold enclave_proc_command_send_all, enclave_proc_connect_to_all in E.
  apply bind_ok_inv in E as (epoll & w1 & E1 & E).
  apply bind_ok_inv in E as (sockets & w2 & E2%map_err_ok_inv & E).
  apply bind_ok_inv in E2 as (entries & w1' & [E0%rmap_err_ok_inv ->]%of_result_inv & E2).
  apply bind_ok_inv in E as (comms & w3 & E3 & E).
  exists entries. split; [done|]. intros p Hin Hp.
  destruct (try_sockets_connects _ _ _ _ _ Hin Hp E2) as (r & Hn & Hr).
  assert (w_log w3 `prefix_of` w_log w') as P4.
  { destruct comms; [by injection E as _ <-|]. eapply nc_prefix; [|exact E]. emits. }
  assert (w_log w `prefix_of` w_log w1) as P1.
  { eapply nc_prefix; [|exact E1]. emits; by apply emits_syscall. }
  pose proof (nc_prefix _ _ _ _ (nc_try_sockets entries) E2) as P2.
  pose proof (nc_prefix _ _ _ _ (nc_send_to_each cmd args sockets) E3) as P3.
  exists r. split.
  - eapply new_in_before; [exact P1|]. eapply new_in_after; [exact Hn|]. by etrans.
  - intros fds Hfds. eapply asked_within; [|by eapply send_to_each_asks; eauto|exact P4]. by etrans.
Qed.
End ClientCalls.

#[export] Hint Resolve emits_send_single emits_all_replies emits_handle_outputs emits_close_all
  nc_close_all nc_handle_outputs nc_send_all nc_get_number : emits.

Section CliCalls.
Context `{KN : Kernel} `{EV : Env} `{SD : SocketsDir} `{Serde EnclaveProcessCommandType}
  `{Serde EnclaveProcessReply} `{Serde unit} `{Serde string}.

Lemma nc_get_id_by_name `{FromJson string} name : emits not_console (get_id_by_name name).
Proof. unfold get_id_by_name, list_sockets. emits. Qed.

Lemma all_names_query `{FromJson string} w names w' :
  get_all_enclave_names w = (Return (Ok names), w') ->
  exists entries conns failed w1 objects w2,
    sockets_dir (w_log w) = Ok entries /\ all_asked GetEnclaveName entries w w1 /\
    enclave_proc_command_send_all (Ok entries) GetEnclaveName (None : option unit) w
      = (Return (Ok (conns, failed)), w1) /\
    enclave_proc_handle_outputs string conns w1 = (Return (Ok objects), w2) /\
    close_all conns w2 = (Return (Ok tt), w') /\ names = map fst objects.
Proof.
  unfold get_all_enclave_names, list_sockets. intros E.
  apply bind_ok_inv in E as (dir & w0 & [= <- <-] & E).
  apply bind_ok_inv in E as ([conns failed] & w1 & E1%map_err_ok_inv & E).
  apply bind_ok_inv in E as (objects & w2 & E2 & E). apply bind_ok_inv in E as ([] & w3 & E3 & [= <- <-]).
  destruct (send_all_asks _ _ _ _ _ _ E1) as (entries & He & Ha). rewrite He in E1.
  by exists entries, conns, failed, w1, objects, w2.
Qed.

(** The only console a CLI connects to. *)
Definition console_of (enclave_cid : Z) (e : Event) : Prop :=
  match e with
  | EvSys (SysVsockConnect _ cid port) _ =>
      cid = 0 /\ port = u32 (enclave_cid + 10000) /\ 0 <= enclave_cid <= u32_MAX
  | _ => True
  end.

Lemma emits_console_read rounds c timeout cid : emits (console_of cid) (read_to rounds c timeout).
Proof.
  assert (forall E fd, emits (console_of cid) (close fd : M E World Z)) as Hc.
  { intros E fd. apply emits_one. intros s. eexists. by split. }
  assert (forall self epoll, emits (console_of cid) (read_loop rounds self epoll)).
  { intros self epoll. induction rounds as [|n IH]; cbn [read_loop]; unfold copy_chunk; emits; by apply emits_syscall. }
  unfold read_to, closing, console_epoll, call_fd, lending. emits; by apply emits_syscall.
Qed.

Lemma emits_console rounds cid timeout : emits (console_of cid) (console_enclaves rounds cid timeout).
Proof.
  unfold console_enclaves, enclave_console, Os.println, print, u32_try_from.
  apply emits_bind; [by apply emits_modify_one|intros _].
  destruct ((0 <=? cid) && (cid <=? u32_MAX)) eqn:Hc; simpl rmap_err.
  2: by apply emits_quiet.
  apply andb_true_iff in Hc as [Hc0%Z.leb_le Hc1%Z.leb_le].
  change (bind (of_result (Ok cid)) ?k) with (k cid). cbv beta.
  pose proof emits_console_read.
  unfold console_new, vsock_set_connect_timeout, call_fd, console_drop.
  emits; try (by apply emits_modify_one); try (apply emits_syscall; done); try (apply emits_syscall; simpl; lia).
  all: apply emits_one; intros ?; eexists; by split.
Qed.

(** *** What terminating everything removes *)

(** The files that were removed, in order. *)
Definition removed (l : log) : list string :=
  omap (fun e => match e with EvSys (SysRemoveFile p) _ => Some p | _ => None end) l.

Lemma no_removal_removed {E A} (m : M E World A) w r w' :
  emits no_removal m -> m w = (r, w') -> removed (w_log w') = removed (w_log w).
Proof. intros Hm. apply (emits_omap no_removal); [done|]. intros e He. destruct e; try done. by destruct call. Qed.

Lemma nr_stream {E T A} `{HasLog T Event} (m : M E T A) : emits is_stream m -> emits no_removal m.
Proof. intros Hm. eapply emits_impl; [exact Hm|]. by intros []. Qed.
Lemma nr_socket {E T A} `{HasLog T Event} (m : M E T A) : emits is_socket m -> emits no_removal m.
Proof. intros Hm. eapply emits_impl; [exact Hm|]. by intros []. Qed.
Lemma nr_reply {E T A} `{HasLog T Event} (m : M E T A) : emits is_reply m -> emits no_removal m.
Proof. intros Hm. eapply emits_impl; [exact Hm|]. by intros []. Qed.

(** What became of the entries: [sent] has the streams with their entries,
    [failed] the entries that could not be reached, and [unread] counts the
    entries that could not be read. *)
Inductive reached : list (option string) -> list (string * Z) -> list string -> Z -> World -> World -> Prop :=
| reached_nil w : reached [] [] [] 0 w w
| reached_unread es sent failed n w w' :
    reached es sent failed n w w' -> reached (None :: es) sent failed (n + 1) w w'
| reached_refused p e es sent failed n w w1 w' :
    syscall (SysUnixConnect p) w = (Return (Err e), w1) ->
    reached es sent failed n w1 w' -> reached (Some p :: es) sent (p :: failed) n w w'
| reached_unsent p fds e rc es sent failed n w w1 w2 w3 w' :
    syscall (SysUnixConnect p) w = (Return (Ok fds), w1) ->
    enclave_proc_command_send_single Terminate (None : option unit) (hd (-1) fds) w1 = (Return (Err e), w2) ->
    (close (hd (-1) fds) : IO Z) w2 = (Return (Ok rc), w3) ->
    reached es sent failed n w3 w' -> reached (Some p :: es) sent (p :: failed) n w w'
| reached_sent p fds es sent failed n w w1 w2 w' :
    syscall (SysUnixConnect p) w = (Return (Ok fds), w1) ->
    enclave_proc_command_send_single Terminate (None : option unit) (hd (-1) fds) w1 = (Return (Ok tt), w2) ->
    reached es sent failed n w2 w' -> reached (Some p :: es) ((p, hd (-1) fds) :: sent) failed n w w'.

Lemma returns_send_single {T} `{Serde T} cmd (args : option T) fd :
  returns (enclave_proc_command_send_single cmd args fd).
Proof.
  assert (forall bs, returns (write_all fd bs)). { intros bs w. by eexists _, _. }
  unfold enclave_proc_command_send_single, send_command_bytes, write_u64_le. returns.
Qed.

Lemma send_terminate_run es w :
  exists sent failed n w', reached es sent failed n w w' /\
    send_terminate es w = (Return (Ok (map snd sent, failed, n)), w').
Proof.
  revert w. induction es as [|[p|] es IH]; intros w; cbn [send_terminate].
  - exists [], [], 0, w. split; [constructor|done].
  - unfold bind at 1, attempt at 1. destruct (syscall (SysUnixConnect p) w) as [r w1] eqn:Ec.
    pose proof (returns_syscall (SysUnixConnect p) w) as (r' & w1' & Er). rewrite Ec in Er. injection Er as -> <-.
    destruct r' as [fds|e].
    + unfold bind at 1, try.
      destruct (returns_send_single Terminate (None : option unit) (hd (-1) fds) w1) as ([[]|e] & w2 & Es);
        rewrite Es; cbv beta iota.
      * destruct (IH w2) as (sent & failed & n & w' & Hr & E). rewrite (bind_run_ok _ _ _ _ _ E).
        exists ((p, hd (-1) fds) :: sent), failed, n, w'. split; [by eapply reached_sent|done].
      * destruct ((close (hd (-1) fds) : IO Z) w2) as [rc w3] eqn:El.
        assert (exists c, rc = Return (Ok c)) as [c ->]. { unfold close in El. injection El as <- _. by eexists. }
        destruct (IH w3) as (sent & failed & n & w' & Hr & E).
        rewrite (bind_run_ok _ _ _ _ _ El), (bind_run_ok _ _ _ _ _ E).
        exists sent, (p :: failed), n, w'. split; [by eapply reached_unsent|done].
    + destruct (IH w1) as (sent & failed & n & w' & Hr & E). rewrite (bind_run_ok _ _ _ _ _ E).
      exists sent, (p :: failed), n, w'. split; [by eapply reached_refused|done].
  - destruct (IH w) as (sent & failed & n & w' & Hr & E). rewrite (bind_run_ok _ _ _ _ _ E).
    exists sent, failed, (n + 1), w'. split; [by constructor|done].
Qed.

Lemma reached_quiet es sent failed n w w' :
  reached es sent failed n w w' -> removed (w_log w') = removed (w_log w) /\ 0 <= n /\
  (n = 0 -> failed = [] -> es = map (fun x => Some (fst x)) sent).
Proof.
  induction 1 as [w|es sent failed n w w' _ (IH & Hn & He)|p e es sent failed n w w1 w' Ec _ (IH & Hn & He)
    |p fds e rc es sent failed n w w1 w2 w3 w' Ec Es El _ (IH & Hn & He)
    |p fds es sent failed n w w1 w2 w' Ec Es _ (IH & Hn & He)]; (split; [|split]); try done; try lia.
  all: try (apply no_removal_removed in Ec; [|by apply emits_syscall]).
  all: try (apply no_removal_removed in Es; [|apply nr_stream, emits_send_single]).
  all: try (apply no_removal_removed in El; [|apply nr_socket; emits]).
  all: try congruence.
  intros Hz Hf. simpl. f_equal. by apply He.
Qed.

Lemma remove_stale_run failed w :
  exists w', remove_stale failed w = (Return (Ok tt), w') /\ removed (w_log w') = removed (w_log w) ++ failed.
Proof.
  revert w. induction failed as [|p failed IH]; intros w; cbn [remove_stale].
  { exists w. by rewrite app_nil_r. }
  unfold bind, attempt, syscall. cbv beta iota. edestruct IH as (w' & E & Hr). exists w'. split; [exact E|].
  rewrite Hr. unfold removed. simpl. by rewrite omap_app, <- app_assoc.
Qed.

Lemma all_replies_none_failed T `{FromJson T} `{ToJson T} `{ToJson (list T)} replies failed vec allowed w objs w' :
  enclave_process_handle_all_replies T replies failed vec allowed w = (Return (Ok objs), w') -> failed <= 0.
Proof.
  unfold enclave_process_handle_all_replies. intros E.
  apply bind_ok_inv in E as (objects & w1 & Eo%handle_outputs_length & E).
  apply bind_ok_inv in E as (? & w2 & _ & E). apply bind_ok_inv in E as (? & w3 & _ & E).
  destruct (0 <? _)%nat; [done|]. destruct (Z.ltb_spec 0 (failed + Z.of_nat (length replies) - Z.of_nat (length objects)));
    [done|lia].
Qed.

(** C19: Terminating all enclaves sends the command to every entry of the sockets
    directory, whatever it is, and deletes exactly those entries, in order, that
    could not be reached or to which the command could not be sent, also when
    only the permission to connect was missing; it succeeds only if every entry
    could be read and got the command, and then deletes nothing. *)
Theorem terminate_all_reaches_everything `{FromJson EnclaveTerminateInfo} `{ToJson EnclaveTerminateInfo}
    `{ToJson (list EnclaveTerminateInfo)} es w r w' :
  sockets_entries (w_log w) = Ok es ->
  terminate_all_enclaves w = (r, w') ->
  exists sent failed n w1, reached es sent failed n w w1 /\
    removed (w_log w') = removed (w_log w) ++ failed /\
    (r = Return (Ok tt) -> es = map (fun x => Some (fst x)) sent /\ failed = []).
Proof.
  intros Hes E. unfold terminate_all_enclaves in E.
  unfold bind at 1, gets in E. rewrite Hes in E. unfold bind at 1, of_result, rmap_err in E.
  destruct (send_terminate_run es w) as (sent & failed & n & w1 & Hr & Es).
  rewrite (bind_run_ok _ _ _ _ _ Es) in E.
  destruct (remove_stale_run failed w1) as (w2 & E2 & R2). rewrite (bind_run_ok _ _ _ _ _ E2) in E.
  destruct (reached_quiet _ _ _ _ _ _ Hr) as (R1 & Hn & He).
  exists sent, failed, n, w1. split; [done|]. rewrite R1 in R2. rewrite <- R2. split.
  - eapply no_removal_removed; [|exact E]. emits.
    + apply nr_reply, emits_all_replies.
    + apply nr_socket, emits_close_all.
  - intros ->. apply bind_ok_inv in E as ([objs|e] & w3 & E3%try_inv & E4).
    + apply map_err_ok_inv, all_replies_none_failed in E3.
      destruct failed as [|p failed]; [|simpl in E3; lia]. split; [|done]. apply He; [simpl in E3; lia|done].
    + by apply bind_ok_inv in E4 as (? & ? & _ & ?).
Qed.
End CliCalls.

(** A directory with an enclave of ours, an unreadable entry, and an enclave of
    somebody else, to which we may not connect. *)
Module Demo.
#[local] Existing Instances sample_env sample_serde_command sample_serde_reply.
Definition mixed_system : Kernel := {|
  k_mmap := sample_mmap; k_munmap _ _ _ := 0; k_ioctl := sample_ioctl; k_close _ _ := 0;
  k_open_device _ := Ok 4; k_vsock_bind _ _ _ := None; k_poll _ _ _ := None; k_accept _ _ := None;
  k_read _ _ _ := None; k_write _ _ _ := None; k_shutdown _ _ := None; k_epoll_add _ _ := None;
  k_epoll_del _ _ := None;
  k_sys l c := match c with
               | SysUnixConnect "/run/nitro_enclaves/2.sock" => Err permission_denied
               | SysUnixConnect _ => Ok [22]
               | _ => Ok []
               end;
  k_interruptions _ := 0%nat; k_peer_credentials _ := Ok (0, 0); k_threads _ := []; k_getuid := 0; k_process_id := 101;
|}.
#[local] Existing Instance mixed_system.
#[local] Instance demo_unit : Serde unit := serde_none unit.
#[local] Instance demo_string : Serde string := serde_none string.
#[local] Instance demo_dir : SocketsDir := {|
  sockets_dir _ := Ok [];
  sockets_entries _ := Ok [Some "/run/nitro_enclaves/1.sock"; None; Some "/run/nitro_enclaves/2.sock"]%string;
|}.
#[local] Instance demo_info : FromJson EnclaveTerminateInfo := fun _ => Ok (mk_terminate_info None "i-1-enc1" true).
#[local] Instance demo_print {T} : ToJson T := fun _ => Ok "{}"%string.

Lemma terminate_all_reaches_everything_witness :
  exists w' sent n w1,
    reached [Some "/run/nitro_enclaves/1.sock"; None; Some "/run/nitro_enclaves/2.sock"]%string
      sent ["/run/nitro_enclaves/2.sock"]%string n world0 w1 /\
    removed (w_log w') = ["/run/nitro_enclaves/2.sock"]%string.
Proof.
  assert (sockets_entries (w_log world0) =
    Ok [Some "/run/nitro_enclaves/1.sock"; None; Some "/run/nitro_enclaves/2.sock"]%string) as Hes by reflexivity.
  destruct (terminate_all_reaches_everything _ world0 (fst (terminate_all_enclaves world0)) (snd (terminate_all_enclaves world0)) Hes (surjective_pairing _))
    as (sent & failed & n & w1 & Hr & Hd & _).
  assert (removed (w_log (snd (terminate_all_enclaves world0))) = ["/run/nitro_enclaves/2.sock"]%string) as R
    by (vm_compute; reflexivity).
  rewrite R in Hd. simpl in Hd. subst failed.
  exists (snd (terminate_all_enclaves world0)), sent, n, w1. split; [exact Hr|exact R].
Defined.
End Demo.
