(* ===== verification/NameConversation.v ===== *)
(** * Looking names up, seen from both ends

    To find an enclave by its name, the command line asks every enclave process,
    and those whose enclave has that name answer with its ID; to list the names in
    use it asks every process for its own. Each process serves its end of the
    connection on a kernel and in a world of its own. *)
From S2P Require Import Prelude.
From S2P Require Import RustStd.
From S2P Require Import Failure.
From S2P Require Import CommandsParser.
From S2P Require Import EnclaveIds.
From S2P Require Import Os.
From S2P Require Import Sample.
From S2P Require Import Wire.
From S2P Require Import Connection.
From S2P Require Import Memory.
From S2P Require Import EifWriter.
From S2P Require Import Logs.
From S2P Require Import Boot.
From S2P Require Import Events.
From S2P Require Import Enclave.
From S2P Require Import Commands.
From S2P Require Import Listener.
From S2P Require Import EventLoop.
From S2P Require Import ClientComm.
From S2P Require Import Conversation.
From S2P Require Import Console.
From S2P Require Import Cli.
From stdpp Require Import base list numbers strings gmap.
From Stdlib Require Import ZArith Lia.
Local Open Scope Z_scope.
Local Open Scope nitro_scope.

(** What is asked of every process: its name, or its ID if it has this name. *)
Inductive Question : Type := NameOf | IdOf (name : string).

Section Names.
Context `{IF : ImageFormat} `{IT : @ImageTools IF}
  `{SC : Serde EnclaveProcessCommandType} `{!SerdeLaws EnclaveProcessCommandType}
  `{SU : Serde unit} `{SR : Serde EnclaveProcessReply} `{!SerdeLaws EnclaveProcessReply}
  `{SA : Serde RunEnclavesArgs} `{SD : Serde DescribeEnclavesArgs} `{SS : Serde string} `{!SerdeLaws string}
  `{ToJson EnclaveRunInfo} `{ToJson EnclaveTerminateInfo} `{ToJson EnclaveDescribeInfo}
  `{TS : ToJson string} `{FS : FromJson string}.

Definition question_command (q : Question) : EnclaveProcessCommandType :=
  match q with NameOf => GetEnclaveName | IdOf _ => GetIDbyName end.
Definition answer (q : Question) (m : EnclaveManager) : option string :=
  match q with
  | NameOf => Some (enclave_name m)
  | IdOf name => if decide (enclave_name m = name) then Some (enclave_id m) else None
  end.
Definition send_question (KC : Kernel) (q : Question) (comm : Z) : IO unit :=
  match q with
  | NameOf => enclave_proc_command_send_single (H := KC) GetEnclaveName (None : option unit) comm
  | IdOf name => enclave_proc_command_send_single (H := KC) GetIDbyName (Some name) comm
  end.

(** These bytes come back on [comm] when the question is sent there and a process
    whose enclave has the manager [m] serves the other end and goes on. *)
Inductive answered_by (KC : Kernel) (q : Question) (comm : Z) (m : EnclaveManager) : list Z -> Prop :=
| answered_by_process (KS : Kernel) (ES : Env) connection sfd creds wc wc' s w c w1 s' w2 :
    input_stream (guarded (data connection)) = Some sfd -> k_peer_credentials (Kernel := KS) sfd = Ok creds ->
    ls_manager s = m ->
    send_question KC q comm wc = (Return (Ok tt), wc') ->
    w_in w !! sfd = Some (sent comm wc wc') ->
    handle_new_connection (H := KS) sfd w = (Return (Ok c), w1) ->
    handle_connection (H := KS) connection (s, w1) = (Return (Ok Continue), (s', w2)) ->
    answered_by KC q comm m (sent sfd w w2).

(** The replies that make an answer. *)
Definition answers (a : option string) (rs : list EnclaveProcessReply) : Prop :=
  match a with
  | Some a => exists text, to_string_pretty a = Ok text /\ rs = [StdOutMessage (text +:+ String LF "")]
  | None => rs = []
  end.

(** What the question is on the wire, after the two copies of the command. *)
Definition question_args (q : Question) (ab : list Z) : Prop :=
  match q with NameOf => ab = [] | IdOf name => exists b, to_vec name = Ok b /\ ab = frame b end.

Lemma send_question_sent KC q comm wc wc' :
  send_question KC q comm wc = (Return (Ok tt), wc') ->
  exists cb ab, to_vec (question_command q) = Ok cb /\ question_args q ab /\
    sent comm wc wc' = frame cb ++ frame cb ++ ab.
Proof.
  destruct q; intros (cb & ab & Hcb & Hab & L & _)%(send_single_sent (KN := KC));
    apply sent_written in L; eauto.
Qed.

Section Process.
Context (KS : Kernel) (ES : Env).

Lemma confirm_sent action connection fd s w s' w' :
  input_stream (guarded (data connection)) = Some fd ->
  confirm (H := KS) action connection (s, w) = (Return (Ok tt), (s', w')) ->
  s' = s /\ w_in w' = w_in w /\
  written fd (w_log w') = written fd (w_log w) ++ to_le_bytes 8 MSG_ENCLAVE_CONFIRM.
Proof.
  intros Hfd [-> E%map_err_ok_inv]%lift_inv. by apply (write_u64_sent (KN := KS) _ _ fd) in E as [? ?].
Qed.

Lemma print_json_told text err l connection fd s w s' w' :
  input_stream (guarded (data connection)) = Some fd ->
  print_json (H := KS) text err l connection (s, w) = (Return (Ok tt), (s', w')) ->
  s' = s /\ exists rs, answers (Some text) rs /\ told fd rs w w'.
Proof.
  intros Hfd E. apply bind_ok_inv in E as (t & [s1 w1] & [Et%rmap_err_ok_inv [= -> ->]]%of_result_inv & E).
  apply lift_inv in E as [-> E]. apply (write_reply_told (KN := KS) _ _ fd) in E; [|done].
  split; [done|]. eexists. split; [by exists t|done].
Qed.

Lemma question_answered q ab connection fd s w code s' w' :
  input_stream (guarded (data connection)) = Some fd -> question_args q ab -> w_in w !! fd = Some ab ->
  handle_command (H := KS) (question_command q) connection (s, w) = (Return (Ok (code, false)), (s', w')) ->
  code = 0 /\ exists w1 rs, answers (answer q (ls_manager s)) rs /\
    written fd (w_log w1) = written fd (w_log w) ++ to_le_bytes 8 MSG_ENCLAVE_CONFIRM /\ told fd rs w1 w'.
Proof.
  intros Hfd Hab Hin E. destruct q as [|name]; cbn [question_command handle_command] in E.
  - apply bind_ok_inv in E as ([] & [s1 w1] & (-> & _ & L1)%(confirm_sent _ _ fd) & E); [|done].
    apply bind_ok_inv in E as (s0 & [s2 w2] & [= <- <- <-] & E).
    apply bind_ok_inv in E as ([] & [s3 w3] & (-> & rs & Ha & T)%(print_json_told _ _ _ _ fd) & [= <- <- <-]); [|done].
    split; [done|]. by exists w1, rs.
  - apply bind_ok_inv in E as ([] & [s1 w1] & (-> & I1 & L1)%(confirm_sent _ _ fd) & E); [|done].
    apply bind_ok_inv in E as (name' & [s2 w2] & [-> Er%map_err_ok_inv]%lift_inv & E).
    destruct Hab as (b & Hb & ->).
    destruct (conn_read_takes connection fd name name' b w1 w2 Hfd Hb) as [-> L2]; [by rewrite I1|done|].
    apply bind_ok_inv in E as (s0 & [s3 w3] & [= <- <- <-] & E).
    apply bind_ok_inv in E as ([] & [s4 w4] & Ep & [= <- <- <-]). split; [done|].
    rewrite <- L2 in L1. cbn [answer]. destruct (decide (enclave_name (ls_manager s) = name)) as [Hn|Hn].
    + rewrite bool_decide_true in Ep by done.
      apply (print_json_told _ _ _ _ fd) in Ep as (-> & rs & Ha & T); [|done]. by exists w2, rs.
    + rewrite bool_decide_false in Ep by done. injection Ep as <- <-. exists w2, []. by split_and!; [| |apply told_same].
Qed.
End Process.

(** The bytes that come back: the confirmation, the answer, the status. *)
Lemma answered_bytes KC q comm m bytes :
  answered_by KC q comm m bytes ->
  exists rs bss, answers (answer q m) rs /\ Forall2 (fun r bs => to_vec r = Ok bs) (rs ++ [Status 0]) bss /\
    bytes = to_le_bytes 8 MSG_ENCLAVE_CONFIRM ++ flat_map frame bss.
Proof.
  intros [KS ES connection sfd creds wc wc' s w c w1 s' w2 Hfd Hcr <- Ea Hin El Eh].
  apply send_question_sent in Ea as (cb & ab & Hcb & Hab & Hs). rewrite Hs in Hin.
  assert (question_command q <> ConnectionListenerStop /\ question_command q <> NotPermitted /\
    read_only (question_command q) = true /\ replies_status (question_command q) = true) as (Hn1 & Hn2 & Hro & Hrs)
    by by destruct q.
  destruct (listener_takes_copy (KN := KS) _ cb sfd (frame cb ++ ab) w c w1 Hcb Hn1 Hin El) as (-> & Hin1 & L1).
  destruct (connection_continues (KN := KS) connection sfd s w1 s' w2 Hfd Eh) as (cmd & w3 & code & w4 & Er & Ehc & Ew).
  destruct (read_command_takes_copy (KN := KS) connection sfd creds (question_command q) cb ab w1 cmd w3)
    as (-> & I3 & L3); try done; [by auto|].
  destruct (question_answered KS ES q ab connection sfd s w3 code s' w4 Hfd Hab) as (-> & w5 & rs & Ha & L5 & T);
    [by rewrite I3, lookup_insert_eq|done|].
  rewrite Hrs in Ew. apply (write_reply_told (KN := KS) _ _ sfd) in Ew; [|done].
  destruct (told_trans sfd _ _ _ _ _ T Ew) as (bss & Hb & Lb). exists rs, bss. split; [done|]. split; [done|].
  apply sent_written. by rewrite Lb, L5, L3, L1, <- app_assoc.
Qed.

(** ** The client, with all processes *)

(** A process that was asked: the client's end of the connection, the manager of
    its enclave and the bytes that it sent. *)
Record Asked : Type := mk_asked {
  asked_comm : Z;
  asked_manager : EnclaveManager;
  asked_bytes : list Z;
}.

(** Every process was asked [q], on a connection of its own, has confirmed, and the
    rest of its answer is still to be read. *)
Definition all_asked (KC : Kernel) (q : Question) (procs : list Asked) (v : World) : Prop :=
  NoDup (map asked_comm procs) /\
  Forall (fun p => answered_by KC q (asked_comm p) (asked_manager p) (asked_bytes p) /\
                   w_in v !! asked_comm p = Some (drop 8 (asked_bytes p))) procs.

Section Client.
Context (KC : Kernel) `{DD : SocketsDir}.
Context (shutdown_succeeds : forall l fd, k_shutdown (Kernel := KC) l fd = None).
(** The JSON parser reads what the printer wrote, and rejects the empty text. *)
Context (json_read : forall (x : string) text, to_string_pretty x = Ok text -> from_json (text +:+ String LF "") = Ok x).
Context (json_empty : exists e, from_json (T := string) "" = Err e).

Lemma answer_read q comm m bytes v :
  answered_by KC q comm m bytes -> w_in v !! comm = Some (drop 8 bytes) ->
  exists v', enclave_proc_handle_output (H := KC) string comm v = (Return (Ok (answer q m, Some 0)), v') /\
    w_in v' = <[comm := []]> (w_in v).
Proof.
  intros (rs & bss & Ha & Hb & ->)%answered_bytes Hin.
  rewrite (drop_app_length' _ _ 8) in Hin by by rewrite length_to_le_bytes.
  destruct (handle_output_replies (H := KC) string (rs ++ [Status 0]) bss comm v Hb Hin shutdown_succeeds)
    as (v' & E & _ & I). exists v'. split; [|done]. rewrite E.
  destruct (answer q m) as [a|]; cbn [answers] in Ha.
  - destruct Ha as (text & Ht & ->). cbn [app stdout_of status_of foldr fold_left]. rewrite str_app_nil_r. by rewrite (json_read _ _ Ht).
  - subst rs. cbn. by destruct json_empty as [e ->].
Qed.

Lemma answers_read q procs : forall v, all_asked KC q procs v ->
  exists v', enclave_proc_handle_outputs (H := KC) string (map asked_comm procs) v =
    (Return (Ok (map (fun a => (a, 0)) (omap (fun p => answer q (asked_manager p)) procs))), v').
Proof.
  induction procs as [|p procs IH]; intros v [Hn Hf]; [by eexists|].
  apply NoDup_cons in Hn as [Hp Hn]. apply Forall_cons in Hf as [[Ha Hin] Hf].
  destruct (answer_read q _ _ _ v Ha Hin) as (v1 & E1 & I1).
  destruct (IH v1) as (v2 & E2).
  { split; [done|]. rewrite Forall_forall in Hf |- *. intros p' Hp'. destruct (Hf p' Hp') as [Ha' Hin'].
    split; [done|]. rewrite I1, lookup_insert_ne; [done|]. intros Heq. apply Hp. rewrite Heq.
    apply list_elem_of_In, in_map, list_elem_of_In, Hp'. }
  exists v2. cbn [map enclave_proc_handle_outputs]. rewrite (bind_run_ok _ _ _ _ _ E1).
  rewrite (bind_run_ok _ _ _ _ _ E2). cbn. by destruct (answer q (asked_manager p)).
Qed.

Lemma close_all_total fds : forall w, exists w', close_all (H := KC) fds w = (Return (Ok tt), w').
Proof. induction fds as [|fd fds IH]; intros w; cbn [close_all]; [by eexists|]. apply IH. Qed.

(** The IDs that are answered. *)
Lemma ids_filter name procs :
  omap (fun p => answer (IdOf name) (asked_manager p)) procs =
  map enclave_id (List.filter (fun m => bool_decide (enclave_name m = name)) (map asked_manager procs)).
Proof.
  induction procs as [|p procs IH]; [done|]. cbn [map List.filter].
  unfold omap in *. cbn [list_omap]. rewrite IH. cbn [answer].
  destruct (decide (enclave_name (asked_manager p) = name)) as [Hn|Hn];
    [by rewrite bool_decide_true|by rewrite bool_decide_false].
Qed.

(** C6: a name is looked up correctly: when every enclave process that took part in
    the lookup was asked for the ID of the enclave of that name, on a connection
    of its own, in whatever order they confirmed, then the command line obtains an
    ID exactly when one of those processes, and no other, has an enclave of that
    name, and it is the ID of that enclave; otherwise it is told that there is
    none, or that there are several. *)
Theorem id_by_name_conversation name procs failed v w1 :
  enclave_proc_command_send_all (H := KC) (sockets_dir (w_log v)) GetIDbyName (Some name) v =
    (Return (Ok (map asked_comm procs, failed)), w1) ->
  all_asked KC (IdOf name) procs w1 ->
  fst (get_id_by_name (H := KC) name v) =
    match List.filter (fun m => bool_decide (enclave_name m = name)) (map asked_manager procs) with
    | [m] => Return (Ok (enclave_id m))
    | [] => Return (Err (Cli.failure_at "No enclave matched the given name." EnclaveNamingError 489))
    | _ => Return (Err (Cli.failure_at "Conflicting enclave names have been found." EnclaveNamingError 489))
    end.
Proof.
  intros Es Ha. unfold get_id_by_name, list_sockets. unfold bind at 1, gets at 1.
  erewrite bind_run_ok; [|unfold map_err; by rewrite Es].
  destruct (answers_read _ _ _ Ha) as (w2 & E2). erewrite bind_run_ok; [|exact E2].
  destruct (close_all_total (map asked_comm procs) w2) as (w3 & E3). erewrite bind_run_ok; [|exact E3].
  rewrite map_map, map_id, ids_filter.
  by destruct (List.filter _ _) as [|? [|]].
Qed.

(** The names in use are those of all processes that were asked. *)
Theorem all_names_conversation procs failed v w1 :
  enclave_proc_command_send_all (H := KC) (sockets_dir (w_log v)) GetEnclaveName (None : option unit) v =
    (Return (Ok (map asked_comm procs, failed)), w1) ->
  all_asked KC NameOf procs w1 ->
  fst (get_all_enclave_names (H := KC) v) = Return (Ok (map (fun p => enclave_name (asked_manager p)) procs)).
Proof.
  intros Es Ha. unfold get_all_enclave_names, list_sockets. unfold bind at 1, gets at 1.
  erewrite bind_run_ok; [|unfold map_err; by rewrite Es].
  destruct (answers_read _ _ _ Ha) as (w2 & E2). erewrite bind_run_ok; [|exact E2].
  destruct (close_all_total (map asked_comm procs) w2) as (w3 & E3). erewrite bind_run_ok; [|exact E3].
  by rewrite map_map, map_id.
Qed.
End Client.
End Names.

(** ** Witness *)

Module NameDemo.
#[local] Existing Instances sample_format sample_tools sample_env sample_serde_command sample_serde_reply.
#[local] Instance no_units : Serde unit := serde_none unit.
#[local] Instance no_runs : Serde RunEnclavesArgs := serde_none _.
#[local] Instance no_describes : Serde DescribeEnclavesArgs := serde_none _.
#[local] Instance run_json : ToJson EnclaveRunInfo := fun _ => Ok "{}"%string.
#[local] Instance end_json : ToJson EnclaveTerminateInfo := fun _ => Ok "{}"%string.
#[local] Instance describe_json : ToJson EnclaveDescribeInfo := fun _ => Ok "{}"%string.
#[local] Instance name_serde : Serde string := serde_one "app"%string.
Definition id : string := "i-0000000000000000-enc5".
#[local] Instance id_json : ToJson string := json_one id.
#[local] Instance id_read : FromJson string := read_one id.
#[local] Instance two_sockets : SocketsDir := {|
  sockets_dir _ := Ok [mk_entry (Some "app.sock") false; mk_entry (Some "db.sock") false]%string;
  sockets_entries _ := Ok [];
|}.

(** The client's kernel connects the two sockets to the streams 22 and 23, and the
    second process is the first to confirm. *)
Definition client : Kernel := {|
  k_mmap := k_mmap (Kernel := sample_system);
  k_munmap := k_munmap (Kernel := sample_system);
  k_ioctl := k_ioctl (Kernel := sample_system);
  k_close := k_close (Kernel := sample_system);
  k_open_device := k_open_device (Kernel := sample_system);
  k_vsock_bind := k_vsock_bind (Kernel := sample_system);
  k_poll := k_poll (Kernel := sample_system);
  k_accept := k_accept (Kernel := sample_system);
  k_read := k_read (Kernel := sample_system);
  k_write := k_write (Kernel := sample_system);
  k_shutdown _ _ := None;
  k_epoll_add := k_epoll_add (Kernel := sample_system);
  k_epoll_del := k_epoll_del (Kernel := sample_system);
  k_sys l c :=
    match c with
    | SysUnixConnect path => Ok [if String.eqb path "app.sock" then 22 else 23]
    | SysEpollWait _ => Ok [if existsb (fun e => match e with EvEpollDel _ _ => true | _ => false end) l then 22 else 23]
    | _ => k_sys (Kernel := sample_system) l c
    end;
  k_interruptions := k_interruptions (Kernel := sample_system);
  k_peer_credentials := k_peer_credentials (Kernel := sample_system);
  k_threads := k_threads (Kernel := sample_system);
  k_getuid := 1000;
  k_process_id := 4243;
|}.

Definition loop_of (name id : string) : @LoopState sample_format :=
  set_manager (mk_manager _ id name (enclave_handle sample_manager)) sample_loop.
Definition question (comm : Z) := send_question client (IdOf "app") comm world0.
Definition process_world (comm : Z) : World := sample_world (sent comm world0 (snd (question comm))).
Definition listened (comm : Z) := handle_new_connection (H := sample_system) 9 (process_world comm).
Definition served (comm : Z) (s : LoopState) :=
  handle_connection (H := sample_system) sample_connection (s, snd (listened comm)).
Definition asked (comm : Z) (s : LoopState) : Asked :=
  mk_asked comm (ls_manager s) (sent 9 (process_world comm) (snd (snd (served comm s)))).
Definition app : Asked := asked 22 (loop_of "app" id).
Definition db : Asked := asked 23 (loop_of "db" "i-0000000000000000-enc6").
Definition client_world : World := mk_world [] ∅ {[22 := asked_bytes app; 23 := asked_bytes db]}.
Definition sent_all := enclave_proc_command_send_all (H := client) (sockets_dir []) GetIDbyName (Some "app"%string) client_world.

Lemma app_answered : answered_by client (IdOf "app") 22 (asked_manager app) (asked_bytes app).
Proof.
  apply (answered_by_process client (IdOf "app") 22 _ sample_system sample_env sample_connection 9 (1000, 1000)
    world0 (snd (question 22)) (loop_of "app" id) (process_world 22) GetIDbyName (snd (listened 22))
    (fst (snd (served 22 (loop_of "app" id))))); vm_compute; reflexivity.
Qed.
Lemma db_answered : answered_by client (IdOf "app") 23 (asked_manager db) (asked_bytes db).
Proof.
  apply (answered_by_process client (IdOf "app") 23 _ sample_system sample_env sample_connection 9 (1000, 1000)
    world0 (snd (question 23)) (loop_of "db" "i-0000000000000000-enc6") (process_world 23) GetIDbyName
    (snd (listened 23)) (fst (snd (served 23 (loop_of "db" "i-0000000000000000-enc6")))));
    vm_compute; reflexivity.
Qed.

Lemma id_by_name_conversation_witness :
  fst sent_all = Return (Ok ([23; 22], 0)) /\
  fst (get_id_by_name (H := client) "app" client_world) = Return (Ok id).
Proof.
  split; [vm_compute; reflexivity|].
  refine (@id_by_name_conversation sample_format sample_tools sample_serde_command sample_serde_command_laws
    no_units sample_serde_reply sample_serde_reply_laws no_runs no_describes name_serde (serde_one_laws _)
    run_json end_json describe_json id_json id_read client two_sockets _ (read_json_one id) _
    "app"%string [db; app] 0 client_world (snd sent_all) _ _).
  - done.
  - by eexists.
  - vm_compute. reflexivity.
  - split; [vm_compute; repeat constructor; set_solver|].
    apply Forall_cons. split; [split; [exact db_answered|vm_compute; reflexivity]|].
    apply Forall_cons. split; [split; [exact app_answered|vm_compute; reflexivity]|]. constructor.
Defined.
End NameDemo.
