(* ===== verification/Main.v ===== *)
(** * The entry point of the CLI (src/src/main.rs)

    One definition per sub-command. Every failure leaves the process through
    [ok_or_exit_with_errno]. The state is the world and, for the build, the log of
    the image builder. [rounds] bounds the loops that wait for others (the console
    and, in the child, the enclave process); [false] means that such a loop has
    not ended by then. *)
From S2P Require Import Prelude.
From S2P Require Import Logs.
From S2P Require Import RustStd.
From S2P Require Import Failure.
From S2P Require Import DocumentErrors.
From S2P Require Import CommandsParser.
From S2P Require Import EnclaveIds.
From S2P Require Import Os.
From S2P Require Import Sample.
From S2P Require Import Wire.
From S2P Require Import Connection.
From S2P Require Import Memory.
From S2P Require Import Events.
From S2P Require Import Enclave.
From S2P Require Import Commands.
From S2P Require Import EventLoop.
From S2P Require Import Process.
From S2P Require Import ClientComm.
From S2P Require Import Conversation.
From S2P Require Import Console.
From S2P Require Import Logger.
From S2P Require Import ImageBuild.
From S2P Require Import BuildCommand.
From S2P Require Import Cli.
From stdpp Require Import base list numbers strings gmap sets.
From Stdlib Require Import ZArith Lia.
Local Open Scope Z_scope.
Local Open Scope nitro_scope.

Definition failure_at (subaction : string) (code : NitroCliErrorEnum) (l : Z) : NitroCliFailure :=
  new_nitro_cli_failure subaction code "src/main.rs" l.

(* src/src/main.rs RUN_ENCLAVE_STR *)
Definition RUN_ENCLAVE_STR : string := "Run Enclave".
(* src/src/main.rs DESCRIBE_ENCLAVE_STR *)
Definition DESCRIBE_ENCLAVE_STR : string := "Describe Enclave".
(* src/src/main.rs DESCRIBE_EIF_STR *)
Definition DESCRIBE_EIF_STR : string := "Describe EIF".
(* src/src/main.rs TERMINATE_ENCLAVE_STR *)
Definition TERMINATE_ENCLAVE_STR : string := "Terminate Enclave".
(* src/src/main.rs TERMINATE_ALL_ENCLAVES_STR *)
Definition TERMINATE_ALL_ENCLAVES_STR : string := "Terminate All Enclaves".
(* src/src/main.rs BUILD_ENCLAVE_STR *)
Definition BUILD_ENCLAVE_STR : string := "Build Enclave".
(* src/src/main.rs ENCLAVE_CONSOLE_STR *)
Definition ENCLAVE_CONSOLE_STR : string := "Enclave Console".
(* src/src/main.rs EXPLAIN_ERR_STR *)
Definition EXPLAIN_ERR_STR : string := "Explain Error".
(* src/src/main.rs NEW_NAME_STR *)
Definition NEW_NAME_STR : string := "New Enclave Name".
(* src/src/main.rs FILE_PCR_STR *)
Definition FILE_PCR_STR : string := "File PCR".

(** The configuration file of a run: opening it and decoding it. *)
Class ConfigFiles : Type := {
  ConfigFile : Type;
  config_open : string -> result string ConfigFile;
  config_read : ConfigFile -> result string RunEnclavesArgs;
}.

(** The error with a sub-action and an action added. *)
Definition labelled {A} (subaction action : string) (m : IO A) : IO A :=
  map_err (fun e => set_action action (add_subaction subaction e)) m.

(** [ok_or_exit_with_errno(None)] on the result of a call. *)
Definition or_exit `{Env} {A} (m : IO A) : IO A :=
  let! r := try m in
  ok_or_exit_with_errno None r.

Section Main.
Context `{IF : ImageFormat} `{IT : @ImageTools IF} `{KN : Kernel} `{EV : Env} `{SD : SocketsDir}
  `{CF : ConfigFiles} `{ER : @EifReading IF} `{HT : HashTools}
  `{BT : BuildTypes} `{BS : @BuildSystem BT} `{BH : @BuildHost BT} `{LL : LoggingLibrary}
  `{Serde EnclaveProcessCommandType} `{Serde EnclaveProcessReply} `{Serde unit} `{Serde string}
  `{Serde RunEnclavesArgs} `{Serde DescribeEnclavesArgs}
  `{FromJson string} `{ToJson string}
  `{FromJson EnclaveRunInfo} `{ToJson EnclaveRunInfo} `{ToJson (list EnclaveRunInfo)}
  `{FromJson EnclaveTerminateInfo} `{ToJson EnclaveTerminateInfo} `{ToJson (list EnclaveTerminateInfo)}
  `{FromJson EnclaveDescribeInfo} `{ToJson EnclaveDescribeInfo} `{ToJson (list EnclaveDescribeInfo)}
  `{ToJson EifDescribeInfo} `{ToJson (list (string * string))} `{ToJson EnclaveBuildInfo}.

(** What the argument parsers learn about names: the enclave processes are asked
    when a name is given, and only then. *)
Definition ids_by_name (args : ArgMatches) : IO (string -> NitroCliResult string) :=
  match value_of args "enclave-name" with
  | Some name =>
      let! id := try (get_id_by_name name) in
      ret (fun _ => id)
  | None => ret (fun name => Ok name)
  end.

(** Lines of standard error. *)
Fixpoint eprint_lines (lines : list string) : IO unit :=
  match lines with
  | [] => ret tt
  | line :: lines => do! eprintln line; eprint_lines lines
  end.

(** The run: its console is shown when that was asked for. *)
(* src/src/main.rs:66-137 main *)
Definition run_enclave_command (rounds : nat) (logger : Mutex string) (args : ArgMatches) : IO bool :=
  do! eprint_lines (run_args_notice args);
  let! run_args := or_exit (labelled "Failed to construct RunEnclave arguments" RUN_ENCLAVE_STR
    (of_result (run_args_new_with config_open config_read args))) in
  let! comm := or_exit (labelled "Failed to spawn enclave process" RUN_ENCLAVE_STR
    (enclave_proc_spawn logger rounds)) in
  match comm with
  | None => ret false
  | Some comm =>
      let! names := or_exit (labelled "Failed to handle all enclave process replies" "Get Enclaves Name"
        get_all_enclave_names) in
      let! name :=
        match new_enclave_name run_args names with
        | Some r => or_exit (labelled "Failed to assign a new enclave name" NEW_NAME_STR (of_result r))
        | None => panic
        end in
      let run_args := mk_run_args (run_eif_path run_args) (run_enclave_cid run_args) (run_memory_mib run_args)
        (run_cpu_ids run_args) (run_debug_mode run_args) (run_attach_console run_args)
        (run_cpu_count run_args) (Some name) in
      do! or_exit (labelled "Failed to send single command" RUN_ENCLAVE_STR
            (enclave_proc_command_send_single Run (Some run_args) comm));
      let! run_info := or_exit (labelled "Failed to handle all enclave process replies" RUN_ENCLAVE_STR
        (enclave_process_handle_all_replies EnclaveRunInfo [comm] 0 false [0])) in
      let! enclave_cid := or_exit (of_result (ok_or (ri_enclave_cid <$> head run_info)
        (failure_at "Enclave CID was not reported" EnclaveConsoleConnectionFailure 123))) in
      if run_attach_console run_args then
        or_exit (labelled "Failed to connect to enclave console" ENCLAVE_CONSOLE_STR
          (console_enclaves rounds enclave_cid None))
      else ret true
  end.

(* src/src/main.rs:138-187 main *)
Definition terminate_enclave_command (args : ArgMatches) : IO bool :=
  if is_present args "all" then
    do! or_exit (labelled "Failed to terminate all running enclaves" TERMINATE_ALL_ENCLAVES_STR
          terminate_all_enclaves);
    ret true
  else
    let! ids := ids_by_name args in
    let! terminate_args := or_exit (labelled "Failed to construct TerminateEnclave arguments"
      TERMINATE_ENCLAVE_STR (of_result (terminate_args_new_with ids args))) in
    let! comm := or_exit (labelled "Failed to connect to enclave process" TERMINATE_ENCLAVE_STR
      (enclave_proc_connect_to_single (terminate_enclave_id terminate_args))) in
    do! or_exit (labelled "Failed to send single command" TERMINATE_ENCLAVE_STR
          (enclave_proc_command_send_single Terminate (None : option unit) comm));
    do! or_exit (labelled "Failed to handle all enclave process replies" TERMINATE_ENCLAVE_STR
          (enclave_process_handle_all_replies EnclaveTerminateInfo [comm] 0 false [0]));
    ret true.

(* src/src/main.rs:188-215 main *)
Definition describe_enclaves_command (args : ArgMatches) : IO bool :=
  let describe_args := describe_args_new_with args in
  let! dir := list_sockets in
  let! '(comms, comm_errors) := or_exit (labelled "Failed to send DescribeEnclave command to all enclave processes"
      DESCRIBE_ENCLAVE_STR (enclave_proc_command_send_all dir Describe (Some describe_args))) in
  do! or_exit (labelled "Failed to handle all enclave process replies" DESCRIBE_ENCLAVE_STR
        (enclave_process_handle_all_replies EnclaveDescribeInfo comms comm_errors true [0]));
  ret true.

(** [unwrap] on a missing path panics. *)
(* src/src/main.rs:230-241 main *)
Definition describe_eif_command (args : ArgMatches) : IO bool :=
  match value_of args "eif-path" with
  | None => panic
  | Some eif_path =>
      do! or_exit (labelled "Failed to describe EIF" DESCRIBE_EIF_STR (describe_eif eif_path));
      ret true
  end.

(* src/src/main.rs:242-279 main *)
Definition console_command (rounds : nat) (args : ArgMatches) : IO bool :=
  let! ids := ids_by_name args in
  let! console_args := or_exit (labelled "Failed to construct Console arguments" ENCLAVE_CONSOLE_STR
    (of_result (console_args_new_with ids args))) in
  let! enclave_cid := or_exit (labelled "Failed to retrieve enclave CID" ENCLAVE_CONSOLE_STR
    (enclave_proc_get_cid (console_enclave_id console_args))) in
  let! enclave_flags := or_exit (labelled "Failed to retrieve enclave flags" ENCLAVE_CONSOLE_STR
    (enclave_proc_get_flags (console_enclave_id console_args))) in
  do! (if Z.land enclave_flags NE_ENCLAVE_DEBUG_MODE =? 0 then
         or_exit (labelled "Failed to connect to enclave console" ENCLAVE_CONSOLE_STR
           (fail (failure_at
             "The enclave was not started with the debug flag set, include '--debug-mode' in the run-enclave command"
             EnclaveConsoleConnectionFailure 262)))
       else ret tt);
  or_exit (labelled "Failed to connect to enclave console" ENCLAVE_CONSOLE_STR
    (console_enclaves rounds enclave_cid (console_disconnect_timeout_sec console_args))).

(* src/src/main.rs:280-294 main *)
Definition pcr_command (args : ArgMatches) : IO bool :=
  let! pcr_args := or_exit (labelled "Failed to construct PCR arguments" FILE_PCR_STR
    (of_result (pcr_args_new_with args))) in
  do! or_exit (labelled "Failed to get the PCR hash of the file contents" FILE_PCR_STR
        (get_file_pcr (pcr_path pcr_args) (pcr_type pcr_args)));
  ret true.

(* src/src/main.rs:295-303 main *)
Definition explain_command (args : ArgMatches) : IO bool :=
  let! explain_args := or_exit (labelled "Failed to construct Explain arguments" EXPLAIN_ERR_STR
    (of_result (explain_args_new_with args))) in
  do! eprintln (explain_error (explain_error_code_str explain_args));
  ret true.

(** The builder's computation runs on its own log. *)
(* src/src/main.rs:216-229 main *)
Definition build_enclave_command (args : ArgMatches) : IOS blog bool :=
  let! build_args := lift (or_exit (labelled "Failed to construct BuildEnclave arguments" BUILD_ENCLAVE_STR
    (of_result (build_args_new_with args)))) in
  let! r := try (zoom fst (fun l s => (l, snd s)) (build_enclaves build_args)) in
  do! lift (or_exit (labelled "Failed to build enclave" BUILD_ENCLAVE_STR (of_result r)));
  ret true.

(** The sub-command and its arguments are what clap made of the command line. *)
(* src/src/main.rs main *)
Definition main (rounds : nat) (subcommand : option (string * ArgMatches)) : IOS blog bool :=
  let! logger := lift (or_exit (map_err (set_action "Logger initialization") init_logger)) in
  let! id := lift (or_exit (map_err (set_action "Update CLI Process Logger ID")
    (of_result (update_logger_id (logger_id logger) ("nitro-cli:" +:+ show_u k_process_id))))) in
  match subcommand with
  | Some (name, args) =>
      if String.eqb name "run-enclave" then lift (run_enclave_command rounds id args)
      else if String.eqb name "terminate-enclave" then lift (terminate_enclave_command args)
      else if String.eqb name "describe-enclaves" then lift (describe_enclaves_command args)
      else if String.eqb name "build-enclave" then build_enclave_command args
      else if String.eqb name "describe-eif" then lift (describe_eif_command args)
      else if String.eqb name "console" then lift (console_command rounds args)
      else if String.eqb name "pcr" then lift (pcr_command args)
      else if String.eqb name "explain" then lift (explain_command args)
      else ret true
  | None => ret true
  end.

(** ** Lemmas *)

Lemma emits_or_exit {A} (Q : Event -> Prop) (m : IO A) :
  emits Q m -> (forall e, is_notify e -> Q e) -> emits Q (or_exit m).
Proof.
  intros Hm HQ. unfold or_exit. emits. eapply emits_impl; [apply emits_ok_or_exit|done].
Qed.

Lemma or_exit_ok {A} (m : IO A) w a w' :
  or_exit m w = (Return (Ok a), w') -> m w = (Return (Ok a), w').
Proof.
  unfold or_exit. intros E. apply bind_ok_inv in E as ([b|e] & w1 & E1%try_inv & E2); [injection E2 as <- <-; done|].
  unfold ok_or_exit_with_errno in E2. by apply bind_ok_inv in E2 as (? & ? & _ & ?).
Qed.

Lemma labelled_ok {A} s a (m : IO A) w x w' :
  labelled s a m w = (Return (Ok x), w') -> m w = (Return (Ok x), w').
Proof. apply map_err_ok_inv. Qed.

Lemma nc_or_exit {A} s a (m : IO A) : emits not_console m -> emits not_console (or_exit (labelled s a m)).
Proof. intros Hm. apply emits_or_exit; [unfold labelled; emits|by intros []]. Qed.

Lemma errs_or_exit {A} (m : IO A) : errs (fun _ => False) (or_exit m).
Proof. unfold or_exit, ok_or_exit_with_errno, notify_error, emit. errs. Qed.

(** C35: The console of an enclave is shown only when it runs in debug mode: if
    the console command connects a vsock socket, then the enclave process that was
    asked has answered with a CID and with flags that have the debug bit, and the
    connection goes to the hypervisor, to the port of that CID. *)
Theorem console_needs_debug_mode rounds args w r w' fd cid port a :
  console_command rounds args w = (r, w') ->
  EvSys (SysVsockConnect fd cid port) a ∈ w_log w' -> EvSys (SysVsockConnect fd cid port) a ∉ w_log w ->
  exists id enclave_cid flags w1 w2 w3,
    enclave_proc_get_cid id w1 = (Return (Ok enclave_cid), w2) /\
    enclave_proc_get_flags id w2 = (Return (Ok flags), w3) /\
    Z.land flags NE_ENCLAVE_DEBUG_MODE <> 0 /\
    cid = 0 /\ port = u32 (enclave_cid + 10000) /\ 0 <= enclave_cid <= u32_MAX.
Proof.
  unfold console_command. set (e := EvSys _ a). intros E He Hn.
  eapply (bind_reaches not_console _ _ _ _ _ e) in E as (ids & w1 & _ & E & Hn1); [|unfold ids_by_name|by intros []|done|done].
  2: { pose proof nc_get_id_by_name. emits. }
  eapply (bind_reaches not_console _ _ _ _ _ e) in E as (cargs & w2 & _ & E & Hn2); [|apply nc_or_exit; emits|by intros []|done|done].
  eapply (bind_reaches not_console _ _ _ _ _ e) in E as (ecid & w3 & E3 & E & Hn3); [|apply nc_or_exit, nc_get_number|by intros []|done|done].
  eapply (bind_reaches not_console _ _ _ _ _ e) in E as (flags & w4 & E4 & E & Hn4); [|apply nc_or_exit, nc_get_number|by intros []|done|done].
  apply or_exit_ok, labelled_ok in E3, E4.
  eapply (bind_reaches not_console _ _ _ _ _ e) in E as (u & w5 & E5 & E & Hn5); [|destruct (_ =? 0); [apply nc_or_exit|]; emits|by intros []|done|done].
  destruct (Z.eqb_spec (Z.land flags NE_ENCLAVE_DEBUG_MODE) 0) as [Hz|Hz].
  { apply or_exit_ok, labelled_ok in E5. done. }
  eexists _, ecid, flags, w2, w3, w4. split; [exact E3|]. split; [exact E4|]. split; [done|].
  eapply (emits_new (console_of ecid) _ _ _ _ e) in E; [exact E|apply emits_or_exit; [|by intros []]|done|done].
  unfold labelled. apply emits_map_err, emits_console.
Qed.


(** *** Leaving the process *)

(** The last thing in the log is the message, and the status is that of an error. *)
Definition reported (code : Z) (w : World) : Prop :=
  exists l msg error, w_log w = l ++ [EvNotify msg] /\ code = error_discriminant error.

Lemma exits_syscall P c : exits P (syscall c).
Proof. by apply exits_returned. Qed.
Lemma exits_write_all P fd bs : exits P (write_all fd bs).
Proof. by apply exits_returned. Qed.
Lemma exits_read_exact P fd n : exits P (read_exact fd n).
Proof. apply exits_returned. intros s. unfold read_exact. by destruct (_ <=? _)%nat. Qed.
Lemma exits_close {E} P fd : exits P (close fd : M E World Z).
Proof. by apply exits_returned. Qed.
Lemma exits_shutdown P fd : exits P (shutdown fd).
Proof. by apply exits_returned. Qed.
Hint Resolve exits_syscall exits_write_all exits_read_exact exits_close exits_shutdown : exits.

Lemma exits_send_single P {T} `{Serde T} cmd (args : option T) fd :
  exits P (enclave_proc_command_send_single cmd args fd).
Proof. unfold enclave_proc_command_send_single, send_command_bytes, write_u64_le. exits. Qed.
Lemma exits_read_u64 P fd : exits P (read_u64_le fd).
Proof. unfold read_u64_le. exits. Qed.
Hint Resolve exits_send_single exits_read_u64 : exits.

Lemma exits_read_replies P fuel conn out st : exits P (read_replies fuel conn out st).
Proof.
  revert out st. induction fuel; intros out st; cbn [read_replies]; unfold receive_from_stream, eprint; exits.
Qed.
Lemma exits_handle_outputs P T `{FromJson T} conns : exits P (enclave_proc_handle_outputs T conns).
Proof.
  pose proof exits_read_replies.
  induction conns; cbn [enclave_proc_handle_outputs]; unfold enclave_proc_handle_output, notify_error, emit; exits.
Qed.
Lemma exits_all_replies P T `{FromJson T} `{ToJson T} `{ToJson (list T)} replies failed vec allowed :
  exits P (enclave_process_handle_all_replies T replies failed vec allowed).
Proof.
  assert (forall objects : list T, exits P (print_objects objects)) as Hp.
  { induction objects; cbn [print_objects]; unfold Os.println, print; exits. }
  pose proof (exits_handle_outputs P T).
  unfold enclave_process_handle_all_replies, Os.println, Os.eprintln, print, eprint. exits.
Qed.
Lemma exits_close_all P fds : exits P (close_all fds).
Proof. induction fds; cbn [close_all]; exits. Qed.
Hint Resolve exits_handle_outputs exits_all_replies exits_close_all : exits.

Lemma exits_send_all P {T} `{Serde T} dir cmd (args : option T) :
  exits P (enclave_proc_command_send_all dir cmd args).
Proof.
  assert (forall entries, exits P (try_sockets entries)).
  { induction entries; cbn [try_sockets]; unfold try_socket; exits. }
  assert (forall sockets, exits P (send_to_each cmd args sockets)).
  { induction sockets; cbn [send_to_each]; unfold send_to; exits. by apply exits_returned. }
  assert (forall n epoll, exits P (wait_reply n epoll)).
  { induction n; intros; cbn [wait_reply]; unfold emit; exits. }
  assert (forall n epoll replies, exits P (collect_confirmations n epoll replies)).
  { induction n; intros; cbn [collect_confirmations]; unfold ClientComm.or_close; exits; by apply exits_returned. }
  unfold enclave_proc_command_send_all, enclave_proc_connect_to_all. exits.
Qed.
Hint Resolve exits_send_all : exits.

Lemma exits_or_exit {A} (m : IO A) : exits (fun _ _ => False) m -> exits reported (or_exit m).
Proof.
  intros Hm s c s' E. unfold or_exit, bind, try in E.
  destruct (m s) as [[r|c1|] s1] eqn:Em; [|by apply Hm in Em|done].
  destruct r as [a|e]; [done|]. simpl in E. injection E as <- <-.
  eexists (w_log s1), _, (error_code e). split; [reflexivity|done].
Qed.

Ltac or_exits := exits; repeat (apply exits_or_exit; unfold labelled; exits).

Lemma exits_ids args : exits reported (ids_by_name args).
Proof. unfold ids_by_name, get_id_by_name, list_sockets. exits. Qed.
Lemma exits_connect P id : exits P (enclave_proc_connect_to_single id).
Proof. unfold enclave_proc_connect_to_single. exits. Qed.
Lemma exits_get_number P cmd e1 e2 e3 l id : exits P (get_number cmd e1 e2 e3 l id).
Proof. pose proof exits_connect. unfold get_number, owning. exits. Qed.
Lemma exits_console P rounds cid timeout : exits P (console_enclaves rounds cid timeout).
Proof.
  assert (forall c, exits P (vsock_set_connect_timeout c CONSOLE_CONNECT_TIMEOUT)).
  { intros c. unfold vsock_set_connect_timeout. exits. }
  assert (forall c epoll, exits P (read_loop rounds c epoll)).
  { intros c epoll. induction rounds; cbn [read_loop]; unfold copy_chunk; exits. }
  unfold console_enclaves, enclave_console, console_new, call_fd, read_to, closing, console_epoll, lending, console_drop,
    Os.println, print.
  repeat (unfold call_fd; exits).
Qed.
Hint Resolve exits_ids exits_connect exits_get_number exits_console : exits.

Lemma exits_lift {A} (m : IO A) :
  exits reported m -> exits (fun c (s : blog * World) => reported c (snd s)) (lift m : IOS blog A).
Proof.
  intros Hm [b w] c s' E. unfold lift, zoom in E. simpl in E. destruct (m w) as [r w1] eqn:Em.
  injection E as -> <-. by eapply Hm.
Qed.

Lemma errs_lift {A} P (m : IO A) : errs P m -> errs P (lift m : IOS blog A).
Proof.
  intros Hm [b w] e s' E. unfold lift, zoom in E. simpl in E. destruct (m w) as [r w1] eqn:Em.
  injection E as -> _. by eapply Hm.
Qed.

Lemma errs_eprint_lines P lines : errs P (eprint_lines lines).
Proof. induction lines; cbn [eprint_lines]; unfold Os.eprintln, eprint; errs. Qed.

Lemma main_no_error rounds subcommand : errs (fun _ => False) (main rounds subcommand).
Proof.
  pose proof @errs_or_exit. pose proof errs_eprint_lines.
  unfold main, run_enclave_command, terminate_enclave_command, describe_enclaves_command,
    describe_eif_command, console_command, pcr_command, explain_command, build_enclave_command,
    ids_by_name, list_sockets, Os.eprintln, eprint.
  errs; try (apply errs_lift; errs).
Qed.

Lemma exits_init_logger P : exits P init_logger.
Proof.
  assert (forall fd A (m : IO A), exits P m -> exits P (Logger.or_close fd m)) as Ho.
  { intros fd A m Hm. unfold Logger.or_close. exits. }
  unfold init_logger, log_writer_new, open_log_file. exits.
  all: apply Ho; exits. all: by apply exits_returned.
Qed.

Lemma exits_terminate args : exits reported (terminate_enclave_command args).
Proof.
  assert (forall P sockets, exits P (send_terminate sockets)).
  { intros P sockets. induction sockets; cbn [send_terminate]; exits. }
  assert (forall P failed, exits P (remove_stale failed)).
  { intros P failed. induction failed; cbn [remove_stale]; exits. }
  unfold terminate_enclave_command, terminate_all_enclaves. or_exits.
Qed.
Lemma exits_describe args : exits reported (describe_enclaves_command args).
Proof. unfold describe_enclaves_command, list_sockets. or_exits. Qed.
Lemma exits_describe_eif args : exits reported (describe_eif_command args).
Proof. unfold describe_eif_command, describe_eif, Os.println, print. or_exits. Qed.
Lemma exits_console_command rounds args : exits reported (console_command rounds args).
Proof. unfold console_command. or_exits. Qed.
Lemma exits_pcr args : exits reported (pcr_command args).
Proof. unfold pcr_command, get_file_pcr, Os.println, print. or_exits. Qed.
Lemma exits_explain args : exits reported (explain_command args).
Proof. unfold explain_command, Os.eprintln, eprint. or_exits. Qed.
Lemma exits_build_command args :
  exits (fun c (s : blog * World) => reported c (snd s)) (build_enclave_command args).
Proof.
  pose proof exits_build.
  unfold build_enclave_command. exits; try (apply exits_lift; or_exits). apply exits_zoom. apply exits_build.
Qed.

Lemma exits_main rounds subcommand :
  fst <$> subcommand <> Some "run-enclave"%string ->
  exits (fun c (s : blog * World) => reported c (snd s)) (main rounds subcommand).
Proof.
  pose proof exits_init_logger. pose proof exits_terminate. pose proof exits_describe.
  pose proof exits_describe_eif. pose proof exits_console_command. pose proof exits_pcr.
  pose proof exits_explain. pose proof exits_build_command.
  intros Hn. unfold main.
  apply exits_bind; [apply exits_lift; or_exits|intros logger].
  apply exits_bind; [apply exits_lift; or_exits|intros id].
  destruct subcommand as [[name args]|]; [|exits].
  destruct (String.eqb_spec name "run-enclave") as [->|_]; [by destruct Hn|].
  exits; apply exits_lift; eauto.
Qed.

(** C34: Every failure of a command other than the run is reported: when such a
    command leaves the process, it has printed an error message just before, and
    the exit status is the number of an error; the main function never passes an
    error on to the runtime. *)
Theorem failures_are_reported rounds subcommand s :
  let '(r, s') := main rounds subcommand s in
  match r with
  | Return (Ok _) | Panic => True
  | Return (Err _) => False
  | Exit code => (fst <$> subcommand) = Some "run-enclave"%string \/ reported code (snd s')
  end.
Proof.
  destruct (main rounds subcommand s) as [[[b|e]|code|] s'] eqn:E; try done; [by eapply main_no_error|].
  destruct (decide ((fst <$> subcommand) = Some "run-enclave"%string)) as [|Hn]; [by left|right].
  by eapply (exits_main rounds subcommand Hn) in E.
Qed.

(** The arguments with the name that was chosen. *)
Definition with_name (name : string) (a : RunEnclavesArgs) : RunEnclavesArgs :=
  mk_run_args (run_eif_path a) (run_enclave_cid a) (run_memory_mib a) (run_cpu_ids a) (run_debug_mode a)
    (run_attach_console a) (run_cpu_count a) (Some name).

(** A line of standard error. *)
Definition notice (line : string) : Event := EvPrint true (line +:+ String LF "").

Lemma eprint_lines_run lines w a w' : eprint_lines lines w = (Return (Ok a), w') -> w' = grow w (map notice lines).
Proof.
  revert w. induction lines as [|line lines IH]; intros w E; cbn [eprint_lines] in E.
  { injection E as _ <-. by rewrite grow_nil. }
  apply bind_ok_inv in E as ([] & w1 & [= <-] & ->%IH).
  change (grow (grow w [notice line]) (map notice lines) = grow w (map notice (line :: lines))).
  by rewrite grow_grow.
Qed.

(** The name that is chosen: the first candidate that nobody has. *)
Lemma new_name_ok parsed names w name w' :
  (match new_enclave_name parsed names with
   | Some r => or_exit (labelled "Failed to assign a new enclave name" NEW_NAME_STR (of_result r))
   | None => panic
   end) w = (Return (Ok name), w') ->
  w' = w /\ exists n, name = candidate (base_name parsed) n /\ (candidate (base_name parsed) n ∉ names) /\
    forall i, (i < n)%nat -> candidate (base_name parsed) i ∈ names.
Proof.
  intros E. assert (w' = w /\ find_free_name (S (length names)) names (base_name parsed) 0 (base_name parsed) = Some name)
    as [-> Hname].
  { unfold new_enclave_name in E. destruct (find_free_name _ _ _ _ _) as [n|]; [|done].
    apply or_exit_ok, labelled_ok in E. cbn in E. by injection E as -> ->. }
  split; [done|]. pose proof (find_free_name_spec names (base_name parsed) (S (length names)) 0) as Hs.
  change (candidate (base_name parsed) 0) with (base_name parsed) in Hs. rewrite Hname in Hs.
  destruct Hs as (n & _ & -> & Hn & Hall). exists n. split_and!; try done. intros i Hi. apply Hall. lia.
Qed.

(** C16: A run that succeeds has printed the notices of the argument parser and
    started a process: it has made a socket pair, left one end open across the
    fork, forked as the parent and closed that end. It has then connected to every
    socket of the directory, asked for the names and taken a name that none of the
    answers had, the first candidate of that kind. On its end of the pair it has
    written the run command and the arguments of the command line with that name,
    and then received replies up to the end of the stream, whose text is the
    description of an enclave and whose last status is 0. It has shut the stream
    down, printed the description, and attached to the console of the CID it names
    if that was asked for. *)
Theorem run_command_flow rounds logger args w w' :
  run_enclave_command rounds logger args w = (Return (Ok true), w') ->
  exists parsed comm names n replies info text cb ab evs w1 w2 w3 w4 w5,
    run_args_new_with config_open config_read args = Ok parsed /\
    (w1 = grow w (map notice (run_args_notice args) ++ evs) /\ spawned comm evs) /\
    (exists entries conns failed wq objects wa,
      sockets_dir (w_log w1) = Ok entries /\ all_asked GetEnclaveName entries w1 wq /\
      enclave_proc_command_send_all (Ok entries) GetEnclaveName (None : option unit) w1
        = (Return (Ok (conns, failed)), wq) /\
      enclave_proc_handle_outputs string conns wq = (Return (Ok objects), wa) /\
      close_all conns wa = (Return (Ok tt), w2) /\ names = map fst objects) /\
    (let name := candidate (base_name parsed) n in
      (name ∉ names) /\ (forall i, (i < n)%nat -> candidate (base_name parsed) i ∈ names) /\
      to_vec Run = Ok cb /\ to_vec (with_name name parsed) = Ok ab /\
      sent comm w2 w3 = frame cb ++ frame cb ++ frame ab) /\
    (heard comm replies w3 w4 /\ from_json (stdout_of replies) = Ok info /\ status_of None replies = Some 0) /\
    (to_string_pretty info = Ok text /\
      w5 = grow w4 [EvShutdown comm None; EvPrint false (text +:+ String LF "")]) /\
    (if run_attach_console parsed then console_enclaves rounds (ri_enclave_cid info) None w5 = (Return (Ok true), w')
     else w' = w5).
Proof.
  unfold run_enclave_command. intros E.
  apply bind_ok_inv in E as ([] & w0 & ->%eprint_lines_run & E).
  apply bind_ok_inv in E as (parsed & w0' & [E0 ->]%or_exit_ok%labelled_ok%of_result_inv & E).
  apply bind_ok_inv in E as (comm & w1 & E1%or_exit_ok%labelled_ok & E).
  destruct comm as [comm|]; [|done]. apply spawn_parent in E1 as (evs & -> & Hs). rewrite grow_grow in E.
  apply bind_ok_inv in E as (names & w2 & E2%or_exit_ok%labelled_ok%all_names_query & E).
  apply bind_ok_inv in E as (name & w2' & [-> Hn]%new_name_ok & E).
  apply bind_ok_inv in E as ([] & w3 & E4%or_exit_ok%labelled_ok & E).
  apply send_single_sent in E4 as (cb & ab' & Hcb & (ab & Hab & ->) & Hsent%sent_written & _).
  apply bind_ok_inv in E as (infos & w5 & E5%or_exit_ok%labelled_ok%single_reply_success & E).
  destruct E5 as (info & text & rs & w4 & -> & Hh & Hj & Hst & Ht & ->).
  apply bind_ok_inv in E as (cid & w6 & [E6%ok_or_inv ->]%or_exit_ok%of_result_inv & E). injection E6 as <-.
  destruct Hn as (n & -> & Hfree & Htaken).
  exists parsed, comm, names, n, rs, info, text, cb, ab, evs.
  eexists _, w2, w3, w4, _. split_and!; try done.
  change (add_event ?e2 (add_event ?e1 w4)) with (grow (grow w4 [e1]) [e2]) in E. rewrite grow_grow in E.
  cbn [run_attach_console app] in E. destruct (run_attach_console parsed); [by apply or_exit_ok, labelled_ok in E|].
  by injection E as <-.
Qed.
End Main.

(** ** Runs of commands *)

Module Demo.
#[local] Existing Instances sample_format sample_tools sample_env sample_serde_command sample_serde_reply.
#[local] Instance demo_kernel : Kernel := sample_system.
#[local] Instance demo_serde_unit : Serde unit := serde_none unit.
#[local] Instance demo_serde_string : Serde string := serde_none string.
#[local] Instance demo_serde_describe : Serde DescribeEnclavesArgs := serde_none DescribeEnclavesArgs.
#[local] Instance demo_serde_run : Serde RunEnclavesArgs := {|
  to_vec _ := Ok [1];
  from_slice _ := Err "not needed"%string;
|}.
#[local] Instance demo_dir : SocketsDir := {| sockets_dir _ := Ok []; sockets_entries _ := Ok [] |}.
#[local] Instance demo_string : FromJson string := fun s => Ok s.
#[local] Instance demo_info : FromJson EnclaveRunInfo := fun _ => Ok (mk_run_info "hello" "i-1-enc1" 77 16 2 [1; 3] 512).
#[local] Instance demo_print {T} : ToJson T := fun _ => Ok "{}"%string.
#[local] Instance demo_config : ConfigFiles := {|
  ConfigFile := unit;
  config_open _ := Err "no such file"%string;
  config_read _ := Err "no such file"%string;
|}.

(** An enclave in debug mode with CID 16. *)
Definition console_world : World := mk_world [] ∅ {[22 := to_le_bytes 8 16 ++ to_le_bytes 8 1]}.
Definition console_args : ArgMatches := args_of [("enclave-id", "i-1-enc1")]%string.

Lemma console_needs_debug_mode_witness :
  fst (console_command 1 console_args console_world) = Return (Ok true) /\
  exists id enclave_cid flags w1 w2 w3,
    enclave_proc_get_cid id w1 = (Return (Ok enclave_cid), w2) /\
    enclave_proc_get_flags id w2 = (Return (Ok flags), w3) /\
    Z.land flags NE_ENCLAVE_DEBUG_MODE <> 0 /\ 10016 = u32 (enclave_cid + 10000).
Proof.
  split; [vm_compute; reflexivity|].
  destruct (console_needs_debug_mode 1 console_args console_world (fst (console_command 1 console_args console_world))
    (snd (console_command 1 console_args console_world)) (-1) 0 10016 (Ok []))
    as (id & cid & flags & w1 & w2 & w3 & H1 & H2 & H3 & _ & H4 & _).
  - apply surjective_pairing.
  - apply list_elem_of_In. vm_compute. tauto.
  - intros X. apply list_elem_of_In in X. exact X.
  - exists id, cid, flags, w1, w2, w3. split; [exact H1|]. split; [exact H2|]. split; [exact H3|exact H4].
Defined.

(** One enclave named "hello" runs already, and the process of the run answers with
    success; the CID is to be chosen. *)
#[local] Instance run_kernel : Kernel := with_sys sample_system (fun l c =>
  match c with SysEpollWait _ => Ok [22; 1] | _ => k_sys (Kernel := sample_system) l c end).
#[local] Instance one_enclave : SocketsDir := {|
  sockets_dir _ := Ok [mk_entry (Some "/run/nitro_enclaves/1.sock"%string) false];
  sockets_entries _ := Ok [];
|}.
Definition run_world : World :=
  mk_world [] ∅ {[20 := frame (reply_bytes (StdOutMessage "{}")) ++ frame (reply_bytes (Status 0));
    22 := to_le_bytes 8 MSG_ENCLAVE_CONFIRM ++ frame (reply_bytes (StdOutMessage "hello")) ++ frame (reply_bytes (Status 0))]}.
Definition run_args : ArgMatches :=
  args_of [("cpu-count", "2"); ("memory", "512"); ("eif-path", "images/hello.eif"); ("enclave-cid", "0")]%string.

Lemma run_command_flow_witness :
  exists w' parsed comm (names : list string) n replies ab evs w1 w2 w3 w4,
    run_enclave_command (SD := one_enclave) 1 (mk_mutex false ""%string) run_args run_world = (Return (Ok true), w') /\
    run_args_new_with config_open config_read run_args = Ok parsed /\
    w1 = grow run_world (map notice (run_args_notice run_args) ++ evs) /\ spawned comm evs /\
    all_asked GetEnclaveName [mk_entry (Some "/run/nitro_enclaves/1.sock"%string) false] w1 w2 /\
    (candidate (base_name parsed) n ∉ names) /\ to_vec (with_name (candidate (base_name parsed) n) parsed) = Ok ab /\
    heard comm replies w3 w4 /\ status_of None replies = Some 0.
Proof.
  set (w' := snd (run_enclave_command (SD := one_enclave) 1 (mk_mutex false ""%string) run_args run_world)).
  assert (run_enclave_command (SD := one_enclave) 1 (mk_mutex false ""%string) run_args run_world = (Return (Ok true), w')) as E
    by (vm_compute; reflexivity).
  destruct (run_command_flow (SD := one_enclave) _ _ _ _ _ E) as (parsed & comm & names & n & replies & info & text & cb & ab & evs &
    w1 & w2 & w3 & w4 & w5 & H1 & [H2 H3] & (entries & ? & ? & wq & ? & ? & Hd & Ha & _) & (H4 & _ & _ & H5 & _) & (H6 & _ & H7) & _).
  injection Hd as <-.
  exists w', parsed, comm, names, n, replies, ab, evs, w1, wq, w3, w4.
  exact (conj E (conj H1 (conj H2 (conj H3 (conj Ha (conj H4 (conj H5 (conj H6 H7)))))))).
Defined.

(** The second enclave of the image gets a number. *)
Example second_name :
  match fst (get_all_enclave_names (SD := one_enclave) run_world) with
  | Return (Ok names) => names = ["hello"]%string
  | _ => False
  end.
Proof. vm_compute. reflexivity. Qed.
End Demo.
