(* ===== verification/VsockProxy.v ===== *)
(** * The vsock proxy (src/vsock_proxy)

    A server on the parent instance that forwards vsock connections of an
    enclave to one TCP end point, which an allowlist must name. The name
    service, the clock and the sockets are the class [Net], whose answers may
    depend on everything that happened before; yaml_rust is the class [YamlLib].
    The state of a computation is the log of what it did. Every connection is
    served by a thread of the pool; the closure given to the pool is [relay_job],
    a computation of its own. *)
From S2P Require Import Prelude.
From S2P Require Import Logs.
From S2P Require Import RustStd.
From S2P Require Import CommandsParser.
From stdpp Require Import base list numbers strings.
From Stdlib Require Import ZArith Lia.
Local Open Scope Z_scope.
Local Open Scope nitro_scope.

(** ** The network *)

(** [std::net::IpAddr]; the payload is the address as a number. *)
Inductive IpAddr : Type :=
| V4 (a : Z)
| V6 (a : Z).

#[export] Instance IpAddr_eq_dec : EqDecision IpAddr.
Proof. solve_decision. Defined.

Definition is_ipv4 (a : IpAddr) : bool := match a with V4 _ => true | V6 _ => false end.

(** A record of a DNS answer: its address, when it has one, and its TTL in
    seconds. *)
Abbreviation DnsRecord := (option IpAddr * Z)%type.

(** What was asked of the network and what it answered. [NetExecute] is the
    start of a worker thread; [select] answers which of the two descriptors are
    ready for reading. *)
Inductive NetEvent : Type :=
| NetNow (t : Z)
| NetLookup (name : string) (answer : option (list DnsRecord))
| NetBind (cid port : Z) (fd : option Z)
| NetAccept (listener : Z) (client : option Z)
| NetExecute (client : Z) (addr : IpAddr) (port : Z)
| NetConnect (addr : IpAddr) (port : Z) (fd : option Z)
| NetSelect (fd1 fd2 : Z) (ready : option (bool * bool))
| NetRead (fd : Z) (answer : option (list Z))
| NetWrite (fd : Z) (bytes : list Z) (written : bool).

Abbreviation netlog := (list NetEvent).

Class Net : Type := {
  (** [idna::domain_to_ascii] *)
  net_idna : string -> option string;
  (** Whether the resolver can be set up from the system's configuration. *)
  net_resolver : netlog -> bool;
  net_lookup : netlog -> string -> option (list DnsRecord);
  (** [Utc::now()], in nanoseconds. *)
  net_now : netlog -> Z;
  net_bind : netlog -> Z -> Z -> option Z;
  net_accept : netlog -> Z -> option Z;
  net_connect : netlog -> IpAddr -> Z -> option Z;
  net_select : netlog -> Z -> Z -> option (bool * bool);
  (** One read into a buffer of [BUFF_SIZE] bytes. *)
  net_read : netlog -> Z -> option (list Z);
  net_write : netlog -> Z -> list Z -> bool;
  (** [File::open] of the configuration, and what reading it gives. *)
  net_open : string -> option (option string);
}.

(** What the code uses of yaml_rust: indexing by a key, which answers a bad
    value when there is none, and the three conversions. *)
Class YamlLib : Type := {
  Yaml : Type;
  load_from_str : string -> option (list Yaml);
  y_index : Yaml -> string -> Yaml;
  y_as_vec : Yaml -> option (list Yaml);
  y_as_str : Yaml -> option string;
  y_as_i64 : Yaml -> option Z;
}.

Abbreviation P := (M string netlog).

(** Ask the network and note the answer. *)
Definition ask {A} (f : netlog -> A) (e : A -> NetEvent) : P A :=
  fun l => (Return (Ok (f l)), l ++ [e (f l)]).

(** ** Name resolution (src/vsock_proxy/src/dns.rs) *)

(* src/vsock_proxy/src/lib.rs IpAddrType *)
Inductive IpAddrType : Type := IPAddrV4Only | IPAddrV6Only | IPAddrMixed.

#[export] Instance IpAddrType_eq_dec : EqDecision IpAddrType.
Proof. solve_decision. Defined.

(** Times and durations in nanoseconds. *)
(* src/vsock_proxy/src/dns.rs DnsResolutionInfo *)
Record DnsResolutionInfo : Type := mk_dns {
  dns_ip_addr : IpAddr;
  dns_ttl : Z;
  last_dns_resolution_time : Z;
}.

(** [Duration::seconds] *)
Definition seconds (n : Z) : Z := n * 10 ^ 9.

Section Dns.
Context `{Net}.

Definition utc_now : P Z := ask net_now NetNow.

(* src/vsock_proxy/src/dns.rs DnsResolutionInfo::is_expired *)
Definition is_expired (info : DnsResolutionInfo) : P bool :=
  let! t := utc_now in
  ret (last_dns_resolution_time info + dns_ttl info <? t).

(* src/vsock_proxy/src/dns.rs DnsResolutionInfo::new *)
Definition dns_new (new_ip_addr : IpAddr) (new_ttl : Z) : P DnsResolutionInfo :=
  let! t := utc_now in
  ret (mk_dns new_ip_addr new_ttl t).

(** The records that carry an address. *)
(* src/vsock_proxy/src/dns.rs:65-73 resolve *)
Fixpoint resolve_records (records : list DnsRecord) : P (list DnsResolutionInfo) :=
  match records with
  | [] => ret []
  | (Some ip_addr, ttl) :: records =>
      let! info := dns_new ip_addr (seconds ttl) in
      let! infos := resolve_records records in
      ret (info :: infos)
  | (None, _) :: records => resolve_records records
  end.

(** The choice among the addresses found. *)
(* src/vsock_proxy/src/dns.rs:76-98 resolve *)
Definition accepted (ip_addr_type : IpAddrType) (rresults : list DnsResolutionInfo)
    : result string (list DnsResolutionInfo) :=
  if bool_decide (rresults = []) then Err "DNS lookup returned no IP addresses!"%string
  else if bool_decide (IPAddrMixed = ip_addr_type) then Ok rresults
  else
    let rresults_with_ipv4 := List.filter (fun r => is_ipv4 (dns_ip_addr r)) rresults in
    let rresults_with_ipv6 := List.filter (fun r => negb (is_ipv4 (dns_ip_addr r))) rresults in
    if bool_decide (IPAddrV4Only = ip_addr_type) && negb (bool_decide (rresults_with_ipv4 = []))
    then Ok rresults_with_ipv4
    else if bool_decide (IPAddrV6Only = ip_addr_type) && negb (bool_decide (rresults_with_ipv6 = []))
    then Ok rresults_with_ipv6
    else Err "No accepted IP was found."%string.

(* src/vsock_proxy/src/dns.rs resolve *)
Definition resolve (addr : string) (ip_addr_type : IpAddrType) : P (list DnsResolutionInfo) :=
  let! addr := of_result (ok_or (net_idna addr) "Could not parse domain name"%string) in
  let! configured := gets net_resolver in
  do! (if configured then ret tt else fail "Error while initializing DNS resolver!"%string);
  let! records := ask (fun l => net_lookup l addr) (NetLookup addr) in
  let! records := of_result (ok_or records "DNS lookup failed!"%string) in
  let! rresults := resolve_records records in
  of_result (accepted ip_addr_type rresults).

(* src/vsock_proxy/src/dns.rs resolve_single *)
Definition resolve_single (addr : string) (ip_addr_type : IpAddrType) : P DnsResolutionInfo :=
  let! rresults := resolve addr ip_addr_type in
  of_result (ok_or (head rresults) ("Unable to resolve the DNS name: " +:+ addr)%string).
End Dns.

(** ** The proxy (src/vsock_proxy/src/proxy.rs) *)

(* src/vsock_proxy/src/proxy.rs:21-21 BUFF_SIZE *)
Definition BUFF_SIZE : Z := 8192.
(* src/vsock_proxy/src/proxy.rs:22-22 VSOCK_PROXY_CID *)
Definition VSOCK_PROXY_CID : Z := 3.

Inductive SockType : Type := SockStream | SockDatagram | SockSeqPacket | SockRaw | SockRdm.

(** The pool is its number of workers. *)
(* src/vsock_proxy/src/proxy.rs Proxy *)
Record Proxy : Type := mk_proxy {
  local_port : Z;
  remote_host : string;
  remote_port : Z;
  dns_resolution_info : option DnsResolutionInfo;
  pool : Z;
  sock_type : SockType;
  ip_addr_type : IpAddrType;
}.

Definition not_allowed : string := "The given address and port are not allowed".

Section Proxy.
Context `{Net} `{YamlLib}.

(** The loop over the services. A match of the addresses only makes a log
    message; the search goes on. *)
(* src/vsock_proxy/src/proxy.rs:48-82 check_allowlist *)
Fixpoint check_services (remote_host : string) (remote_port : Z) (remote_addr : IpAddr)
    (ip_addr_type : IpAddrType) (services : list Yaml) : P IpAddr :=
  match services with
  | [] => fail not_allowed
  | raw_service :: services =>
      let! addr := of_result (ok_or (y_as_str (y_index raw_service "address")) "No address field"%string) in
      let! port := of_result (ok_or (y_as_i64 (y_index raw_service "port"))
        "No port field or invalid type"%string) in
      let port := u16 port in
      if negb (port =? remote_port) then
        check_services remote_host remote_port remote_addr ip_addr_type services
      else if String.eqb addr remote_host then ret remote_addr
      else
        let! rresults := try (resolve addr ip_addr_type) in
        let remote_addr_matched :=
          find (fun r => bool_decide (dns_ip_addr r = remote_addr))
            (match rresults with Ok rs => rs | Err _ => [] end) in
        match remote_addr_matched with
        | Some _ => check_services remote_host remote_port remote_addr ip_addr_type services
        | None => check_services remote_host remote_port remote_addr ip_addr_type services
        end
  end.

(** The services of a configuration file; indexing an empty list of documents
    panics. *)
(* src/vsock_proxy/src/proxy.rs:33-42 check_allowlist *)
Definition load_services (config_file : string) : P (list Yaml) :=
  let! f := of_result (ok_or (net_open config_file) "Could not open the file"%string) in
  let! content := of_result (ok_or f "Could not read the file"%string) in
  let! docs := of_result (ok_or (load_from_str content) "Bad yaml format"%string) in
  match docs with
  | [] => panic
  | doc :: _ => of_result (ok_or (y_as_vec (y_index doc "allowlist")) "No allowlist field"%string)
  end.

(* src/vsock_proxy/src/proxy.rs check_allowlist *)
Definition check_allowlist (remote_host : string) (remote_port : Z) (config_file : option string)
    (ip_addr_type : IpAddrType) : P IpAddr :=
  match config_file with
  | None => fail not_allowed
  | Some config_file =>
      let! services := load_services config_file in
      let! dns_result := resolve_single remote_host ip_addr_type in
      check_services remote_host remote_port (dns_ip_addr dns_result) ip_addr_type services
  end.

(* src/vsock_proxy/src/proxy.rs Proxy::new *)
Definition proxy_new (local_port : Z) (remote_host : string) (remote_port num_workers : Z)
    (ip_addr_type : IpAddrType) : result string Proxy :=
  Ok (mk_proxy local_port remote_host remote_port None num_workers SockStream ip_addr_type).

(* src/vsock_proxy/src/proxy.rs Proxy::sock_listen *)
Definition sock_listen (self : Proxy) : P Z :=
  let! fd := ask (fun l => net_bind l VSOCK_PROXY_CID (local_port self))
    (NetBind VSOCK_PROXY_CID (local_port self)) in
  of_result (ok_or fd ("Could not bind to VsockAddr { cid: " +:+ show_u VSOCK_PROXY_CID +:+
    ", port: " +:+ show_u (local_port self) +:+ " }")%string).

Definition set_dns (info : DnsResolutionInfo) (self : Proxy) : Proxy :=
  mk_proxy (local_port self) (remote_host self) (remote_port self) (Some info) (pool self)
    (sock_type self) (ip_addr_type self).

(** The address to connect to, and the proxy with its refreshed resolution. *)
(* src/vsock_proxy/src/proxy.rs:142-163 Proxy::sock_accept *)
Definition target_address (self : Proxy) : P (IpAddr * Proxy) :=
  let! dns_needs_resolution :=
    match dns_resolution_info self with None => ret true | Some info => is_expired info end in
  if (dns_needs_resolution : bool) then
    let! dns_resolution := resolve_single (remote_host self) (ip_addr_type self) in
    ret (dns_ip_addr dns_resolution, set_dns dns_resolution self)
  else
    let! info := of_result (ok_or (dns_resolution_info self) "DNS resolution failed!"%string) in
    ret (dns_ip_addr info, self).

(* src/vsock_proxy/src/proxy.rs Proxy::sock_accept *)
Definition sock_accept (listener : Z) (self : Proxy) : P Proxy :=
  let! client := ask (fun l => net_accept l listener) (NetAccept listener) in
  let! client := of_result (ok_or client "Could not accept connection"%string) in
  let! '(remote_addr, self) := target_address self in
  do! ask (fun _ => tt) (fun _ => NetExecute client remote_addr (remote_port self));
  ret self.

(** *** One connection *)

(* src/vsock_proxy/src/proxy.rs transfer *)
Definition transfer (src dst : Z) : P bool :=
  let! nbytes := ask (fun l => net_read l src) (NetRead src) in
  match default [] nbytes with
  | [] => ret true
  | bytes =>
      let! written := ask (fun l => net_write l dst bytes) (NetWrite dst bytes) in
      ret (negb written)
  end.

(** The loop of the worker, for at most [fuel] rounds: whether it has ended. *)
(* src/vsock_proxy/src/proxy.rs:180-195 Proxy::sock_accept *)
Fixpoint relay (fuel : nat) (client_socket server_socket : Z) : P bool :=
  match fuel with
  | O => ret false
  | S fuel =>
      let! ready := ask (fun l => net_select l client_socket server_socket)
        (NetSelect client_socket server_socket) in
      match ready with
      | None => panic
      | Some (client_ready, server_ready) =>
          let! disconnected :=
            (if (client_ready : bool) then transfer client_socket server_socket else ret false) in
          let! disconnected :=
            (if (server_ready : bool) then transfer server_socket client_socket else ret disconnected) in
          if (disconnected : bool) then ret true else relay fuel client_socket server_socket
      end
  end.

(* src/vsock_proxy/src/proxy.rs:168-197 Proxy::sock_accept *)
Definition relay_job (fuel : nat) (ty : SockType) (client : Z) (addr : IpAddr) (port : Z) : P bool :=
  match ty with
  | SockStream =>
      let! server := ask (fun l => net_connect l addr port) (NetConnect addr port) in
      match server with
      | None => panic
      | Some server => relay fuel client server
      end
  | _ => panic
  end.

(** ** The program (src/vsock_proxy/src/main.rs) *)

(** The accept loop, for at most [fuel] connections; it has no other end than
    an error. *)
Fixpoint accept_loop (fuel : nat) (listener : Z) (proxy : Proxy) : P Proxy :=
  match fuel with
  | O => ret proxy
  | S fuel =>
      let! proxy := map_err (String.append "Could not accept connection: ") (sock_accept listener proxy) in
      accept_loop fuel listener proxy
  end.

(** [unwrap] of an argument that clap guarantees. *)
Definition required (args : ArgMatches) (name : string) : P string :=
  match value_of args name with None => panic | Some v => ret v end.

(* src/vsock_proxy/src/main.rs:81-87 main *)
Definition ip_addr_type_of (args : ArgMatches) : IpAddrType :=
  match is_present args "ipv4", is_present args "ipv6" with
  | true, false => IPAddrV4Only
  | false, true => IPAddrV6Only
  | _, _ => IPAddrMixed
  end.

(* src/vsock_proxy/src/main.rs main *)
Definition proxy_main (fuel : nat) (matches : ArgMatches) : P Proxy :=
  let! local_port := required matches "local_port" in
  let! local_port := of_result (rmap_err (fun _ => "Local port is not valid"%string)
    (parse_u32 local_port)) in
  let ip_addr_type := ip_addr_type_of matches in
  let! remote_addr := required matches "remote_addr" in
  let! remote_port := required matches "remote_port" in
  let! remote_port := of_result (rmap_err (fun _ => "Remote port is not valid"%string)
    (parse_u16 remote_port)) in
  let! num_workers := required matches "workers" in
  let! num_workers := of_result (rmap_err (fun _ => "Number of workers is not valid"%string)
    (parse_u64 num_workers)) in
  if num_workers =? 0 then fail "Number of workers must not be 0"%string
  else
    do! map_err (String.append "Error at checking the allowlist: ")
          (check_allowlist remote_addr remote_port (value_of matches "config_file") ip_addr_type);
    let! proxy := of_result (rmap_err (String.append "Could not create proxy: ")
      (proxy_new local_port remote_addr remote_port num_workers ip_addr_type)) in
    let! listener := map_err (String.append "Could not listen for connections: ") (sock_listen proxy) in
    accept_loop fuel listener proxy.
End Proxy.

(** ** Properties *)

(** [a] is of the permitted family. *)
Definition permitted (ty : IpAddrType) (a : IpAddr) : Prop :=
  match ty with
  | IPAddrV4Only => is_ipv4 a = true
  | IPAddrV6Only => is_ipv4 a = false
  | IPAddrMixed => True
  end.

(** A lookup of [host] that was made gave the address [a], of the permitted family. *)
Definition resolved `{Net} (l : netlog) (host : string) (ty : IpAddrType) (a : IpAddr) : Prop :=
  exists name records ttl, net_idna host = Some name /\ NetLookup name (Some records) ∈ l /\
    (Some a, ttl) ∈ records /\ permitted ty a.

(** The file names the host and the port, as the code compares them. *)
Definition allowlisted `{Net} `{YamlLib} (config host : string) (port : Z) : Prop :=
  exists content doc docs services service n,
    net_open config = Some (Some content) /\ load_from_str content = Some (doc :: docs) /\
    y_as_vec (y_index doc "allowlist") = Some services /\ service ∈ services /\
    y_as_str (y_index service "address") = Some host /\
    y_as_i64 (y_index service "port") = Some n /\ u16 n = port.

Definition not_execute (e : NetEvent) : Prop := match e with NetExecute _ _ _ => False | _ => True end.
Definition is_now (e : NetEvent) : Prop := match e with NetNow _ => True | _ => False end.

Lemma emits_ask {A} (Q : NetEvent -> Prop) (f : netlog -> A) e :
  (forall a, Q (e a)) -> emits Q (ask f e : P A).
Proof. intros HQ. apply emits_one. intros s. exists (e (f s)). split; [reflexivity|apply HQ]. Qed.
#[export] Hint Extern 1 (emits _ (ask _ _)) => apply emits_ask; intros ?; exact I : emits.

Section ProxyLemmas.
Context `{Net} `{YamlLib}.

Lemma emits_resolve_records records : emits is_now (resolve_records records).
Proof.
  induction records as [|[[a|] ttl] records IH]; simpl; unfold dns_new, utc_now; emits.
Qed.
Hint Resolve emits_resolve_records : emits.

Lemma emits_resolve addr ty : emits not_execute (resolve addr ty).
Proof.
  assert (forall records, emits not_execute (resolve_records records)).
  { intros. eapply emits_impl; [apply emits_resolve_records|]. by intros []. }
  unfold resolve. emits.
Qed.
Hint Resolve emits_resolve : emits.

Lemma emits_resolve_single addr ty : emits not_execute (resolve_single addr ty).
Proof. unfold resolve_single. emits. Qed.
Hint Resolve emits_resolve_single : emits.

Lemma emits_check_services host port a ty services :
  emits not_execute (check_services host port a ty services).
Proof. induction services; simpl; emits. Qed.
Hint Resolve emits_check_services : emits.

Lemma emits_check_allowlist host port config ty :
  emits not_execute (check_allowlist host port config ty).
Proof. unfold check_allowlist, load_services. emits. Qed.

Hint Resolve emits_check_allowlist : emits.

Lemma emits_target_address p : emits not_execute (target_address p).
Proof. unfold target_address, is_expired, utc_now. emits. Qed.

Lemma resolve_records_ok records l infos l' :
  resolve_records records l = (Return (Ok infos), l') ->
  forall i, i ∈ infos -> exists ttl, (Some (dns_ip_addr i), ttl) ∈ records /\ dns_ttl i = seconds ttl.
Proof.
  revert l infos l'. induction records as [|[[a|] ttl] records IH]; intros l infos l' Er i Hi; simpl in Er.
  - m_inv. by apply elem_of_nil in Hi.
  - unfold dns_new, utc_now, ask in Er. m_inv. apply elem_of_cons in Hi as [->|Hi].
    + eexists. split; [by left|done].
    + edestruct IH as (ttl' & ? & ?); [eassumption|exact Hi|]. exists ttl'. split; [by right|done].
  - edestruct IH as (ttl' & ? & ?); [exact Er|exact Hi|]. exists ttl'. split; [by right|done].
Qed.

Lemma accepted_ok ty found infos :
  accepted ty found = Ok infos ->
  infos <> [] /\ forall i, i ∈ infos -> i ∈ found /\ permitted ty (dns_ip_addr i).
Proof.
  unfold accepted. intros E.
  repeat case_bool_decide; simplify_eq; simpl in *; simplify_eq; (split; [done|]);
    intros i Hi; try (split; [exact Hi|done]);
    rewrite list_elem_of_In, filter_In in Hi; destruct Hi as [Hi Hf];
    (split; [by apply list_elem_of_In|]); simpl; first [exact Hf | by apply negb_true_iff].
Qed.

(** What [resolve] returns comes from one lookup, of the permitted family. *)
Lemma resolve_ok addr ty l infos l' :
  resolve addr ty l = (Return (Ok infos), l') ->
  infos <> [] /\
  exists name records evs, net_idna addr = Some name /\
    l' = l ++ NetLookup name (Some records) :: evs /\
    forall i, i ∈ infos -> permitted ty (dns_ip_addr i) /\
      exists ttl, (Some (dns_ip_addr i), ttl) ∈ records /\ dns_ttl i = seconds ttl.
Proof.
  unfold resolve, ask, of_result. intros Er. m_inv.
  destruct (net_idna addr) as [name|] eqn:En; simpl in *; simplify_eq.
  match goal with X : ok_or (net_lookup ?l0 ?n) _ = _ |- _ =>
    rename l0 into l, n into name;
    destruct (net_lookup l name) as [records|] eqn:El; [|done] end.
  match goal with X : ok_or (Some _) _ = Ok _ |- _ => simpl in X; injection X as <- end.
  match goal with X : (if ?b then _ else _) _ = _ |- _ => destruct b; [|done] end. m_inv.
  match goal with X : resolve_records ?rs ?l1 = (Return (Ok ?os), ?l3) |- _ =>
    rename os into found, l3 into l2, X into Ef end.
  pose proof (resolve_records_ok _ _ _ _ Ef) as Hall.
  destruct (emits_resolve_records records (l ++ [NetLookup name (Some records)])) as (evs & Ev & _).
  rewrite Ef in Ev. cbn in Ev.
  destruct (accepted ty found) as [os|] eqn:Ea; simplify_eq.
  destruct (accepted_ok _ _ _ Ea) as [Hne Hin].
  split; [done|]. exists name, records, evs. split; [done|].
  split; [unfold log_of, has_log_list; by rewrite <- app_assoc|].
  intros i Hi. destruct (Hin i Hi) as [Hi' Hp]. split; [exact Hp|]. by apply Hall.
Qed.

Lemma resolve_single_ok addr ty l info l' :
  resolve_single addr ty l = (Return (Ok info), l') ->
  exists name records evs ttl, net_idna addr = Some name /\
    l' = l ++ NetLookup name (Some records) :: evs /\
    (Some (dns_ip_addr info), ttl) ∈ records /\ dns_ttl info = seconds ttl /\
    permitted ty (dns_ip_addr info).
Proof.
  unfold resolve_single. intros Er. o_inv.
  match goal with X : resolve _ _ _ = (Return (Ok ?os), _) |- _ =>
    rename os into infos; apply resolve_ok in X as (_ & name & records & evs & En & El & Hall) end.
  destruct infos as [|i infos]; simpl in *; simplify_eq.
  destruct (Hall info) as (Hp & ttl & Hin & Ht); [by left|]. naive_solver.
Qed.

Lemma check_services_ok host port a ty services l ip l' :
  check_services host port a ty services l = (Return (Ok ip), l') ->
  exists service n, service ∈ services /\ y_as_str (y_index service "address") = Some host /\
    y_as_i64 (y_index service "port") = Some n /\ u16 n = port.
Proof.
  revert l. induction services as [|s services IH]; intros l Ec; [done|].
  cbn [check_services] in Ec. o_inv.
  match goal with X : y_as_str _ = Some ?x, Y : y_as_i64 _ = Some ?y |- _ =>
    rename x into addr, y into n end.
  assert (forall l, check_services host port a ty services l = (Return (Ok ip), l') ->
    exists service n, service ∈ s :: services /\ y_as_str (y_index service "address") = Some host /\
      y_as_i64 (y_index service "port") = Some n /\ u16 n = port) as Hrec.
  { intros l1 E1. destruct (IH _ E1) as (service & m & Hin & ?). exists service, m. split; [by right|done]. }
  destruct (negb _) eqn:En; [by eapply Hrec|].
  destruct (String.eqb_spec addr host) as [->|_].
  - apply negb_false_iff, Z.eqb_eq in En. exists s, n. split; [by left|done].
  - m_inv. case_match; by eapply Hrec.
Qed.

Lemma check_allowlist_ok host port config ty l ip l' :
  check_allowlist host port config ty l = (Return (Ok ip), l') ->
  exists file, config = Some file /\ allowlisted file host port.
Proof.
  unfold check_allowlist. destruct config as [file|]; [|done]. intros Ec. m_inv.
  match goal with X : load_services _ _ = _ |- _ => unfold load_services in X; o_inv end.
  match goal with X : check_services _ _ _ _ _ _ = _ |- _ =>
    apply check_services_ok in X as (service & n & ?) end.
  match goal with X : (match ?x with [] => _ | _ => _ end) _ = _ |- _ =>
    destruct x as [|doc docs]; [done|] end.
  o_inv. exists file. split; [done|]. exists a2, doc, docs, a, service, n. done.
Qed.

Lemma target_address_ok p l a p' l' :
  target_address p l = (Return (Ok (a, p')), l') ->
  exists info, a = dns_ip_addr info /\ dns_resolution_info p' = Some info /\
    ((p' = p /\ exists t, l' = l ++ [NetNow t] /\ t <= last_dns_resolution_time info + dns_ttl info) \/
     (p' = set_dns info p /\ exists evs name records evs' ttl, net_idna (remote_host p) = Some name /\
        l' = l ++ evs ++ NetLookup name (Some records) :: evs' /\
        (Some a, ttl) ∈ records /\ dns_ttl info = seconds ttl /\ permitted (ip_addr_type p) a)).
Proof.
  unfold target_address. intros Et. o_inv.
  match goal with X : (if ?b then _ else _) _ = _ |- _ => destruct b eqn:Eb end; o_inv.
  - assert (exists evs, s = l ++ evs) as [evs ->].
    { destruct (dns_resolution_info p) as [info|]; m_inv.
      - unfold is_expired, utc_now, ask in *. m_inv. eauto.
      - exists []. by rewrite app_nil_r. }
    match goal with X : resolve_single _ _ _ = _ |- _ =>
      apply resolve_single_ok in X as (name & records & evs' & ttl & En & El & Hin & Ht & Hp) end.
    eexists. split; [done|]. split; [done|]. right. split; [done|].
    exists evs, name, records, evs', ttl. by rewrite El, <- app_assoc.
  - match goal with X : dns_resolution_info _ = Some ?i |- _ => rename i into info, X into Ei; rewrite Ei in * end.
    match goal with X : is_expired _ _ = _ |- _ => unfold is_expired, utc_now, ask in X; m_inv end.
    simpl in *. simplify_eq. exists info. split; [done|]. split; [done|]. left. split; [done|].
    eexists. split; [done|]. match goal with X : (_ <? _) = false |- _ => by apply Z.ltb_ge in X end.
Qed.

(** The resolution that the proxy keeps was looked up. *)
Definition dns_known (l : netlog) (p : Proxy) : Prop :=
  forall info, dns_resolution_info p = Some info ->
    resolved l (remote_host p) (ip_addr_type p) (dns_ip_addr info).

Lemma resolved_app l l2 host ty a : resolved l host ty a -> resolved (l ++ l2) host ty a.
Proof.
  intros (name & records & ttl & ? & Hin & ?). exists name, records, ttl.
  split; [done|]. split; [apply elem_of_app; by left|done].
Qed.

Lemma target_address_known p l a p' l' :
  target_address p l = (Return (Ok (a, p')), l') -> dns_known l p ->
  resolved l' (remote_host p) (ip_addr_type p) a /\ dns_known l' p' /\
  remote_host p' = remote_host p /\ ip_addr_type p' = ip_addr_type p /\ remote_port p' = remote_port p.
Proof.
  intros (info & -> & Hi & [[-> (t & -> & _)]|(-> & evs & name & records & evs' & ttl & En & -> & Hin & _ & Hp)])
    %target_address_ok Hk.
  - split_and!; try done; [by apply resolved_app, Hk|].
    intros info' Hi'. by apply resolved_app, Hk.
  - assert (resolved (l ++ evs ++ NetLookup name (Some records) :: evs') (remote_host p) (ip_addr_type p)
      (dns_ip_addr info)) as Hr.
    { exists name, records, ttl. split_and!; try done. apply elem_of_app. right. apply elem_of_app. right. by left. }
    split_and!; try done. intros info' Hi'. simpl in *. by simplify_eq.
Qed.

(** One round of the accept loop: it ends in an error and no worker was
    started, or a worker was started towards a resolved address. *)
Lemma sock_accept_cases listener p l r l' :
  dns_known l p -> sock_accept listener p l = (r, l') ->
  exists evs, Forall not_execute evs /\
    match r with
    | Return (Ok p') => exists c a, l' = l ++ evs ++ [NetExecute c a (remote_port p)] /\
        resolved l' (remote_host p) (ip_addr_type p) a /\ dns_known l' p' /\
        remote_host p' = remote_host p /\ ip_addr_type p' = ip_addr_type p /\
        remote_port p' = remote_port p
    | _ => l' = l ++ evs
    end.
Proof.
  intros Hk. unfold sock_accept, bind at 1, ask at 1.
  set (l1 := l ++ [NetAccept listener (net_accept l listener)]).
  destruct (net_accept l listener) as [c|]; unfold of_result, bind; simpl; [|intros [= <- <-]; exists [NetAccept listener None]; by split; [repeat constructor|]].
  destruct (emits_target_address p l1) as (evs & El & F). unfold log_of, has_log_list in El.
  assert (dns_known l1 p) as Hk1 by (intros info Hi; by apply resolved_app, Hk).
  assert (Forall not_execute ([NetAccept listener (Some c)] ++ evs)) as F' by (by constructor).
  destruct (target_address p l1) as [[[[a p']|e]|code|] l2] eqn:Et; simpl in *; subst l2 l1;
    [|intros [= <- <-]; eexists; split; [exact F'|]; by rewrite <- app_assoc..].
  destruct (target_address_known _ _ _ _ _ Et Hk1) as (Hr & Hk' & Eh & Ety & Ep).
  unfold ask, ret. intros [= <- <-]. eexists. split; [exact F'|]. exists c, a.
  rewrite Ep. split; [by rewrite <- !app_assoc|].
  split_and!; try done; [by apply resolved_app|].
  intros info Hi. by apply resolved_app, Hk'.
Qed.

Lemma emits_accept_loop fuel listener p : emits (fun _ => True) (accept_loop fuel listener p).
Proof.
  assert (forall p, emits (fun _ => True) (target_address p)).
  { intros. by eapply emits_impl; [apply emits_target_address|]. }
  revert p. induction fuel; intros p; simpl; unfold sock_accept; emits.
Qed.

Lemma accept_loop_executes fuel listener p l r l' c a port :
  dns_known l p -> accept_loop fuel listener p l = (r, l') -> NetExecute c a port ∈ l' ->
  NetExecute c a port ∉ l ->
  port = remote_port p /\ resolved l' (remote_host p) (ip_addr_type p) a.
Proof.
  revert p l. induction fuel as [|fuel IH]; intros p l Hk Er Hin Hn; simpl in Er;
    [unfold ret in Er; by simplify_eq|].
  unfold bind, map_err in Er. destruct (sock_accept listener p l) as [r1 l1] eqn:Es.
  destruct (sock_accept_cases _ _ _ _ _ Hk Es) as (evs & F & Hc).
  assert (NetExecute c a port ∉ l ++ evs) as Hn'.
  { intros [?|Hx]%elem_of_app; [done|]. by eapply (proj1 (Forall_forall _ _) F) in Hx. }
  destruct r1 as [[p'|e]|code|]; simplify_eq; try done.
  destruct Hc as (c' & a' & -> & Hr & Hk' & Eh & Ety & Ep). rewrite app_assoc in *.
  destruct (decide (c = c' /\ a = a' /\ port = remote_port p)) as [(-> & -> & ->)|Hne].
  - split; [done|]. destruct (emits_accept_loop fuel listener p'
      ((l ++ evs) ++ [NetExecute c' a' (remote_port p)])) as (evs' & El & _).
    rewrite Er in El. unfold log_of, has_log_list in El. simpl in El. subst l'. by apply resolved_app.
  - rewrite <- Eh, <- Ety, <- Ep. eapply IH; [exact Hk'|exact Er|exact Hin|].
    intros [?|Hx%list_elem_of_singleton]%elem_of_app; [done|naive_solver].
Qed.
End ProxyLemmas.
#[export] Hint Resolve emits_resolve emits_resolve_single emits_check_allowlist : emits.

(** The bytes read from and written to a descriptor, in order. *)
Definition received_on (fd : Z) (l : netlog) : list Z :=
  flat_map (fun e => match e with NetRead fd' (Some bs) => if fd =? fd' then bs else [] | _ => [] end) l.
Definition sent_on (fd : Z) (l : netlog) : list Z :=
  flat_map (fun e => match e with NetWrite fd' bs true => if fd =? fd' then bs else [] | _ => [] end) l.
Definition selects (l : netlog) : nat :=
  length (List.filter (fun e => match e with NetSelect _ _ _ => true | _ => false end) l).

Definition write_failed (e : NetEvent) : Prop :=
  match e with NetWrite _ _ false => True | _ => False end.
Definition write_ok (e : NetEvent) : Prop :=
  match e with NetWrite _ _ false => False | _ => True end.
(** The peer closed the connection, or reading failed. *)
Definition read_ended (e : NetEvent) : Prop :=
  match e with NetRead _ None | NetRead _ (Some []) => True | _ => False end.

Lemma received_app fd l1 l2 : received_on fd (l1 ++ l2) = received_on fd l1 ++ received_on fd l2.
Proof. apply flat_map_app. Qed.
Lemma sent_app fd l1 l2 : sent_on fd (l1 ++ l2) = sent_on fd l1 ++ sent_on fd l2.
Proof. apply flat_map_app. Qed.
Lemma selects_app l1 l2 : selects (l1 ++ l2) = (selects l1 + selects l2)%nat.
Proof. unfold selects. by rewrite List.filter_app, length_app. Qed.

(** Both directions of a log are faithful. *)
Definition faithful (client server : Z) (l : netlog) : Prop :=
  Forall write_ok l ->
  sent_on server l = received_on client l /\ sent_on client l = received_on server l.

Lemma faithful_app client server l1 l2 :
  faithful client server l1 -> faithful client server l2 -> faithful client server (l1 ++ l2).
Proof.
  intros F1 F2 [W1 W2]%Forall_app. destruct (F1 W1) as [A1 B1], (F2 W2) as [A2 B2].
  by rewrite !sent_app, !received_app, A1, A2, B1, B2.
Qed.

(** A service that has an address and a port, and whether they are these. *)
Definition service_ok `{YamlLib} (s : Yaml) : bool :=
  match y_as_str (y_index s "address"), y_as_i64 (y_index s "port") with
  | Some _, Some _ => true
  | _, _ => false
  end.
Definition names_service `{YamlLib} (host : string) (port : Z) (s : Yaml) : bool :=
  match y_as_str (y_index s "address"), y_as_i64 (y_index s "port") with
  | Some a, Some n => String.eqb a host && (u16 n =? port)
  | _, _ => false
  end.

Section RelayLemmas.
Context `{Net}.

Lemma resolve_returns addr ty l : exists r l', resolve addr ty l = (Return r, l').
Proof.
  assert (forall records l, exists infos l', resolve_records records l = (Return (Ok infos), l')) as Hr.
  { clear. induction records as [|[[a|] ttl] records IH]; intros l; simpl; [by repeat eexists| |apply IH].
    unfold dns_new, utc_now, ask, bind, ret. destruct (IH (l ++ [NetNow (net_now l)])) as (infos & l' & ->).
    by repeat eexists. }
  unfold resolve, bind, of_result, gets, ask.
  destruct (net_idna addr) as [name|]; simpl; [|by repeat eexists].
  destruct (net_resolver l); simpl; [|by repeat eexists].
  destruct (net_lookup l name) as [records|]; simpl; [|by repeat eexists].
  destruct (Hr records (l ++ [NetLookup name (Some records)])) as (infos & l' & ->). by repeat eexists.
Qed.

(** One direction of a round. *)
Lemma transfer_run src dst l : src <> dst ->
  exists b evs, transfer src dst l = (Return (Ok b), l ++ evs) /\ selects evs = 0%nat /\
    (b = true -> Exists (fun e => read_ended e \/ write_failed e) evs) /\
    (Forall write_ok evs -> sent_on dst evs = received_on src evs) /\
    sent_on src evs = [] /\ received_on dst evs = [].
Proof.
  intros Hne. unfold transfer, ask, bind, ret.
  assert ((src =? dst) = false /\ (dst =? src) = false) as [E1 E2] by (by rewrite !Z.eqb_neq).
  destruct (net_read l src) as [[|b bs]|] eqn:Er; cbn [default id from_option].
  1,3: eexists true, [_]; (split; [done|]); split_and!; intros; simpl;
    rewrite ?Z.eqb_refl, ?E1, ?E2; try done; by left; left.
  set (l1 := l ++ _). destruct (net_write l1 dst (b :: bs)) eqn:Ew; simpl;
    eexists _, [NetRead src (Some (b :: bs)); NetWrite dst (b :: bs) _];
    (split; [unfold l1; rewrite <- app_assoc; done|]); split_and!; intros; simpl;
    rewrite ?Z.eqb_refl, ?E1, ?E2, ?app_nil_r; try done.
  - right. left. by right.
  - match goal with F : Forall write_ok _ |- _ => inversion F as [|? ? _ F2]; by inversion F2 end.
Qed.

(** One direction of a round, if its source is ready. *)
Lemma direction (ready : bool) src dst d l : src <> dst ->
  exists b evs, (if ready then transfer src dst else ret d) l = (Return (Ok b), l ++ evs) /\
    selects evs = 0%nat /\
    (b = true -> d = true \/ Exists (fun e => read_ended e \/ write_failed e) evs) /\
    (Forall write_ok evs -> sent_on dst evs = received_on src evs) /\
    sent_on src evs = [] /\ received_on dst evs = [].
Proof.
  intros Hne. destruct ready.
  - destruct (transfer_run src dst l Hne) as (b & evs & E & ?). exists b, evs. naive_solver.
  - exists d, []. rewrite app_nil_r. split_and!; auto.
Qed.
End RelayLemmas.

(** The event in question is logged after the first part of the computation. *)
Ltac reach :=
  match goal with
  | X : bind ?m ?k ?s = _, Hn : ?e ∉ _, Hin : ?e ∈ _ |- _ =>
      let Hm := fresh in let Hr := fresh in
      assert (emits not_execute m) as Hm by (unfold required, sock_listen; emits);
      pose proof (bind_reaches not_execute m k s _ _ e Hm (fun F : not_execute e => F) Hn X Hin) as Hr;
      clear X Hn Hm; destruct Hr as (? & ? & ? & ? & ?)
  end.

Section ProxyProperties.
Context `{Net} `{YamlLib}.

(** C29: whatever the proxy is started with and whatever the network answers,
    a worker is only started when the configuration file lists the host and,
    modulo 2^16, the port that were asked for, and only towards this port and an
    address of the permitted family that a lookup of this host gave. *)
Theorem proxy_serves_only_allowed fuel (args : ArgMatches) r l c a port :
  proxy_main fuel args [] = (r, l) -> NetExecute c a port ∈ l ->
  exists host file text,
    value_of args "remote_addr" = Some host /\ value_of args "config_file" = Some file /\
    value_of args "remote_port" = Some text /\ parse_u16 text = Ok port /\
    allowlisted file host port /\ resolved l host (ip_addr_type_of args) a.
Proof.
  intros Em Hin. assert (NetExecute c a port ∉ ([] : netlog)) as Hn by apply not_elem_of_nil.
  unfold proxy_main in Em.
  do 7 reach. case_match; [unfold fail in *; by simplify_eq|]. do 3 reach.
  unfold proxy_new, required in *. o_inv. repeat case_match; try done. o_inv.
  match goal with X : check_allowlist _ _ _ _ _ = _ |- _ =>
    apply check_allowlist_ok in X as (file & Ef & Hl) end.
  match goal with X : accept_loop _ _ ?q ?s = _, Hn : _ ∉ _ |- _ =>
    assert (dns_known s q) as Hk by (intros ? [=]);
    destruct (accept_loop_executes _ _ _ _ _ _ _ _ _ Hk X Hin Hn) as [Eq Hr] end.
  simpl in Eq, Hr. subst port.
  unfold ret in *. simplify_eq. naive_solver.
Qed.

(** A successful [sock_accept] hands the new client to a worker that is to
    connect to an address which is, at this moment, either the cached one, and
    then its time to live has not run out by the clock read in this call, or
    a permitted one of a lookup made in this call, which becomes the cached
    one with the TTL of its record. *)
Theorem sock_accept_fresh listener p l p' l' :
  sock_accept listener p l = (Return (Ok p'), l') ->
  exists client info evs,
    dns_resolution_info p' = Some info /\
    l' = l ++ NetAccept listener (Some client) :: evs ++
           [NetExecute client (dns_ip_addr info) (remote_port p)] /\
    ((p' = p /\ exists t, evs = [NetNow t] /\ t <= last_dns_resolution_time info + dns_ttl info) \/
     (p' = set_dns info p /\ exists before name records after ttl,
        evs = before ++ NetLookup name (Some records) :: after /\
        net_idna (remote_host p) = Some name /\ (Some (dns_ip_addr info), ttl) ∈ records /\
        dns_ttl info = seconds ttl /\ permitted (ip_addr_type p) (dns_ip_addr info))).
Proof.
  unfold sock_accept. intros Es. apply bind_ok_inv in Es as (oc & l1 & Ea & Es).
  unfold ask in Ea. injection Ea as <- <-. o_inv.
  match goal with X : net_accept _ _ = Some ?x |- _ => rename x into client; rewrite X in * end.
  match goal with a : (IpAddr * Proxy)%type |- _ => destruct a as [addr q] end.
  match goal with X : target_address _ _ = _ |- _ =>
    apply target_address_ok in X as (info & -> & Hi & Hc) end.
  o_inv. unfold ask in *. simplify_eq.
  destruct Hc as [(-> & t & -> & Ht)|(-> & before & name & records & after & ttl & En & -> & Hin & Ht & Hp)];
    [exists client, info, [NetNow t] | exists client, info, (before ++ NetLookup name (Some records) :: after)];
    (split; [exact Hi|]).
  - split; [by rewrite <- !app_assoc|]. left. eauto.
  - split; [rewrite <- !app_assoc; done|]. right. split; [done|].
    exists before, name, records, after, ttl. done.
Qed.

(** C30: a worker forwards faithfully. Whatever [select] reports and however the
    streams answer, as long as no write fails the bytes written to either side
    are those read from the other side, in order and complete; the worker only
    ends when a side has closed, a read or a write has failed, and only panics
    when [select] fails; and until then it makes a round per [select]. *)
Theorem relay_forwards fuel client server l :
  client <> server ->
  exists r evs, relay fuel client server l = (r, l ++ evs) /\
    faithful client server evs /\
    match r with
    | Return (Ok true) => Exists (fun e => read_ended e \/ write_failed e) evs
    | Return (Ok false) => selects evs = fuel
    | Panic => last evs = Some (NetSelect client server None)
    | _ => False
    end.
Proof.
  intros Hne. revert l. induction fuel as [|fuel IH]; intros l; cbn [relay].
  { eexists _, []. rewrite app_nil_r. by split_and!. }
  unfold bind at 1, ask. destruct (net_select l client server) as [[cr sr]|] eqn:Es; cbv beta iota.
  2: { eexists _, [NetSelect client server None]. by split_and!. }
  set (sel := NetSelect client server (Some (cr, sr))).
  destruct (direction cr client server false (l ++ [sel]) Hne) as (d1 & e1 & E1 & S1 & D1 & F1 & G1 & H1).
  destruct (direction sr server client d1 ((l ++ [sel]) ++ e1) (not_eq_sym Hne))
    as (d2 & e2 & E2 & S2 & D2 & F2 & G2 & H2).
  rewrite (bind_run_ok _ _ _ _ _ E1), (bind_run_ok _ _ _ _ _ E2). rewrite <- !app_assoc.
  set (round := [sel] ++ e1 ++ e2).
  assert (faithful client server round) as Hf.
  { apply faithful_app; [by split|]. apply faithful_app; intros W.
    - by rewrite (F1 W), G1, H1.
    - by rewrite (F2 W), G2, H2. }
  destruct d2.
  - exists (Return (Ok true)), round. split_and!; try done.
    apply Exists_app. right. apply Exists_app. destruct (D2 eq_refl) as [->|?]; [left|by right].
    by destruct (D1 eq_refl).
  - destruct (IH (l ++ round)) as (r & evs & Er & Fr & Cr). exists r, (round ++ evs).
    rewrite Er, app_assoc. split; [done|]. split; [by apply faithful_app|].
    destruct r as [[[]|]|code|]; try done.
    + apply Exists_app. by right.
    + rewrite selects_app, Cr. unfold round. by rewrite !selects_app, S1, S2.
    + by rewrite last_app, Cr.
Qed.

(** For a list of services that all have an address and a port, the search
    of [check_allowlist] admits the server exactly when one of them has its name
    and, modulo 2^16, its port. The addresses that the names resolve to play no
    part, although the code looks them up. *)
Theorem allowlist_by_name host port a ty services l :
  forallb service_ok services = true ->
  exists l', check_services host port a ty services l =
    (Return (if existsb (names_service host port) services then Ok a else Err not_allowed), l').
Proof.
  revert l. induction services as [|s services IH]; intros l Hok; [by eexists|].
  apply andb_true_iff in Hok as [Hs Hok]. cbn [check_services existsb].
  unfold service_ok in Hs. unfold names_service at 1.
  destruct (y_as_str _) as [addr|]; [|done]. destruct (y_as_i64 _) as [n|]; [|done].
  unfold bind at 1 2, of_result, ok_or. destruct (Z.eqb_spec (u16 n) port) as [Ep|_]; simpl.
  2: { rewrite andb_false_r. by apply IH. }
  destruct (String.eqb_spec addr host) as [_|_]; simpl; [by eexists|].
  unfold bind, try. destruct (resolve_returns addr ty l) as (r & l1 & ->).
  destruct (find _ _); by apply IH.
Qed.
End ProxyProperties.

(** ** Witnesses *)

(** A network with one name server answer, TTL 60; the file lists the host
    "kms" and the port 443. Documents are lists of fields. *)
Definition sample_net : Net := {|
  net_idna h := Some h;
  net_resolver _ := true;
  net_lookup _ _ := Some [(None, 5); (Some (V6 1), 60); (Some (V4 7), 60)];
  net_now _ := 1000;
  net_bind _ _ _ := Some 3;
  net_accept _ _ := Some 4;
  net_connect _ _ _ := Some 5;
  net_select _ _ _ := Some (true, false);
  net_read l _ := if (length l <? 4)%nat then Some [1; 2] else None;
  net_write _ _ _ := true;
  net_open _ := Some (Some "services"%string);
|}.

Inductive SampleYaml : Type :=
| YStr (s : string)
| YInt (n : Z)
| YVec (l : list SampleYaml)
| YHash (l : list (string * SampleYaml))
| YBad.

Definition sample_service (host : string) (port : Z) : SampleYaml :=
  YHash [("address"%string, YStr host); ("port"%string, YInt port)].

Definition sample_yaml : YamlLib := {|
  Yaml := SampleYaml;
  load_from_str _ := Some [YHash [("allowlist"%string, YVec [sample_service "other" 443; sample_service "kms" 443])]];
  y_index y k :=
    match y with
    | YHash l => match find (fun p => String.eqb (fst p) k) l with Some p => snd p | None => YBad end
    | _ => YBad
    end;
  y_as_vec y := match y with YVec l => Some l | _ => None end;
  y_as_str y := match y with YStr s => Some s | _ => None end;
  y_as_i64 y := match y with YInt n => Some n | _ => None end;
|}.

Definition sample_proxy_args : ArgMatches := {|
  value_of k :=
    if String.eqb k "local_port" then Some "8000"%string
    else if String.eqb k "remote_addr" then Some "kms"%string
    else if String.eqb k "remote_port" then Some "443"%string
    else if String.eqb k "workers" then Some "4"%string
    else if String.eqb k "config_file" then Some "config"%string else None;
  values_of _ := None;
  is_present k := String.eqb k "ipv4";
|}.

Definition sample_proxy : Proxy :=
  mk_proxy 8000 "kms" 443 (Some (mk_dns (V4 7) (seconds 60) 900)) 4 SockStream IPAddrV4Only.

Lemma proxy_serves_only_allowed_witness :
  exists r l, @proxy_main sample_net sample_yaml 2 sample_proxy_args [] = (r, l) /\
    NetExecute 4 (V4 7) 443 ∈ l /\ @allowlisted sample_net sample_yaml "config" "kms" 443.
Proof.
  eexists _, _. split; [vm_compute; reflexivity|].
  match goal with |- ?x ∈ ?l /\ _ => assert (x ∈ l) as Hin by (apply list_elem_of_In; vm_compute; tauto) end.
  split; [exact Hin|].
  destruct (@proxy_serves_only_allowed sample_net sample_yaml 2 sample_proxy_args _ _ _ _ _ eq_refl Hin)
    as (host & file & text & Eh & Ef & _ & _ & Hl & _).
  injection Eh as <-. injection Ef as <-. exact Hl.
Defined.

Lemma sock_accept_fresh_witness :
  exists p' l', @sock_accept sample_net 3 sample_proxy [] = (Return (Ok p'), l') /\
    exists info, dns_resolution_info p' = Some info.
Proof.
  eexists _, _. split; [vm_compute; reflexivity|].
  destruct (@sock_accept_fresh sample_net 3 sample_proxy [] _ _ eq_refl) as (c & info & evs & Hi & _).
  exists info. exact Hi.
Defined.

Lemma relay_forwards_witness :
  4 <> 5 /\ exists evs, @relay sample_net 9 4 5 [] = (Return (Ok true), evs) /\
    sent_on 5 evs = [1; 2] /\ received_on 4 evs = [1; 2].
Proof.
  split; [done|]. destruct (@relay_forwards sample_net 9 4 5 [] ltac:(done)) as (r & evs & E & F & _).
  assert (@relay sample_net 9 4 5 [] = (Return (Ok true), snd (@relay sample_net 9 4 5 []))) as E2
    by (vm_compute; reflexivity).
  rewrite E2 in E. injection E as <- <-. exists (snd (@relay sample_net 9 4 5 [])). split; [exact E2|].
  split; [by vm_compute|by vm_compute].
Defined.

Lemma allowlist_by_name_witness :
  exists l', @check_services sample_net sample_yaml "alias" 443 (V4 7) IPAddrMixed
    [sample_service "other" 443; sample_service "kms" 443] [] = (Return (Err not_allowed), l').
Proof.
  exact (@allowlist_by_name sample_net sample_yaml "alias" 443 (V4 7) IPAddrMixed
    [sample_service "other" 443; sample_service "kms" 443] [] eq_refl).
Defined.
