(* ===== verification/Executer.v ===== *)
(** * The command executer (src/samples/command_executer)

    A tool that runs shell commands in an enclave and copies files to and from
    it: a server inside the enclave, a client on the parent instance, and a
    protocol of lengths and bytes between them. [recv] and [send] move as many
    bytes as the system likes and may be interrupted; the class [ExecSystem]
    chooses. Every loop over them is given [fuel] rounds, and a computation that
    runs out of fuel ends in [Running], which no handler of the code catches. *)
From S2P Require Import Prelude.
From S2P Require Import RustStd.
From S2P Require Import Logs.
From S2P Require Import CommandsParser.
From stdpp Require Import base list numbers strings gmap.
From Stdlib Require Import ZArith Lia Ascii.
Local Open Scope Z_scope.
Local Open Scope nitro_scope.

(** ** The system *)

(** What one [send] or [recv] does. *)
Inductive Xfer : Type :=
| Moved (n : Z)
| Interrupted
| Failure (err : string).

Inductive XEvent : Type :=
| XSend (fd : Z) (bytes : list Z)
| XRecv (fd : Z) (bytes : list Z)
| XInterrupted (fd : Z)
| XSocket (fd : result string Z)
| XConnect (fd cid port : Z) (err : option string)
| XBind (fd cid port : Z) (err : option string)
| XListen (fd backlog : Z) (err : option string)
| XAccept (fd : Z) (client : result string Z)
| XShutdown (fd : Z) (err : option string)
| XClose (fd : Z) (err : option string)
| XSleep (secs : Z)
| XCommand (command : string) (wait : bool)
| XPrint (to_stderr : bool) (msg : string).

Abbreviation xlog := (list XEvent).

(** Output of a process: the two streams and the exit code, if it has one. *)
Abbreviation ProcessOutput := (list Z * list Z * option Z)%type.

Class ExecSystem : Type := {
  x_send : xlog -> Z -> list Z -> Xfer;
  x_recv : xlog -> Z -> Z -> Xfer;
  x_socket : xlog -> result string Z;
  x_connect : xlog -> Z -> Z -> Z -> option string;
  x_bind : xlog -> Z -> Z -> Z -> option string;
  x_listen : xlog -> Z -> Z -> option string;
  x_accept : xlog -> Z -> result string Z;
  x_shutdown : xlog -> Z -> option string;
  x_close : xlog -> Z -> option string;
  (** [sh -c command]: waiting for its output, or only starting it. *)
  x_output : xlog -> string -> result string ProcessOutput;
  x_spawn : xlog -> string -> option string;
  (** The error of a call on a file, if there is one. *)
  x_open_error : xlog -> string -> option string;
  x_metadata_error : xlog -> string -> option string;
  x_read_error : xlog -> string -> option string;
  x_not_found : string;
  x_create_error : xlog -> string -> option string;
  x_write_error : xlog -> string -> option string;
}.

(** The calls made so far, the bytes that each peer has sent and that are still
    unread, and the contents of the files. *)
Record XState : Type := mk_xstate {
  x_log : xlog;
  x_in : gmap Z (list Z);
  x_files : gmap string (list Z);
}.

#[export] Instance has_log_xstate : HasLog XState XEvent := x_log.

Inductive Ending : Type :=
| Failed (msg : string)
| Running.

Abbreviation X := (M Ending XState).

Definition note (e : XEvent) (s : XState) : XState := mk_xstate (x_log s ++ [e]) (x_in s) (x_files s).
Definition set_input (fd : Z) (bs : list Z) (s : XState) : XState :=
  mk_xstate (x_log s) (<[fd := bs]> (x_in s)) (x_files s).
Definition set_file (path : string) (bs : list Z) (s : XState) : XState :=
  mk_xstate (x_log s) (x_in s) (<[path := bs]> (x_files s)).

(** ** Arguments and results (command_parser.rs) *)

(* src/samples/command_executer/src/command_parser.rs ListenArgs *)
Record ListenArgs : Type := mk_listen_args { listen_port : Z }.

(* src/samples/command_executer/src/command_parser.rs RunArgs *)
Record RunArgs : Type := mk_exec_args {
  exec_cid : Z;
  exec_port : Z;
  exec_command : string;
  exec_no_wait : bool;
}.

(* src/samples/command_executer/src/command_parser.rs FileArgs *)
Record FileArgs : Type := mk_file_args {
  file_cid : Z;
  file_port : Z;
  localfile : string;
  remotefile : string;
}.

(* src/samples/command_executer/src/command_parser.rs CommandOutput *)
Record CommandOutput : Type := mk_output {
  out_stdout : string;
  out_stderr : string;
  out_rc : option Z;
}.

(* src/samples/command_executer/src/command_parser.rs CommandOutput::new *)
Definition output_new (stdout stderr : string) (code : Z) : CommandOutput :=
  mk_output stdout stderr (Some code).

(* src/samples/command_executer/src/command_parser.rs CommandOutput::new_from *)
Definition output_new_from (output : ProcessOutput) : result string CommandOutput :=
  let '(stdout, stderr, code) := output in
  let? stdout := from_utf8 stdout in
  let? stderr := from_utf8 stderr in
  Ok (mk_output stdout stderr code).

(* src/samples/command_executer/src/command_parser.rs parse_cid *)
Definition parse_cid (args : ArgMatches) : result string Z :=
  let? port := ok_or (value_of args "cid") "Could not find cid argument"%string in
  rmap_err (fun _ => "cid is not a number"%string) (parse_u32 port).

(* src/samples/command_executer/src/command_parser.rs parse_port *)
Definition parse_port (args : ArgMatches) : result string Z :=
  let? port := ok_or (value_of args "port") "Could not find port argument"%string in
  rmap_err (fun _ => "port is not a number"%string) (parse_u32 port).

(* src/samples/command_executer/src/command_parser.rs parse_command *)
Definition parse_command (args : ArgMatches) : result string string :=
  ok_or (value_of args "command") "Could not find command argument"%string.

(* src/samples/command_executer/src/command_parser.rs parse_no_wait *)
Definition parse_no_wait (args : ArgMatches) : bool := is_present args "no-wait".

(* src/samples/command_executer/src/command_parser.rs parse_localfile *)
Definition parse_localfile (args : ArgMatches) : result string string :=
  ok_or (value_of args "localpath") "Could not find localpath"%string.

(* src/samples/command_executer/src/command_parser.rs parse_remotefile *)
Definition parse_remotefile (args : ArgMatches) : result string string :=
  ok_or (value_of args "remotepath") "Could not find remotepath"%string.

(* src/samples/command_executer/src/command_parser.rs ListenArgs::new_with *)
Definition listen_args_new_with (args : ArgMatches) : result string ListenArgs :=
  let? port := parse_port args in
  Ok (mk_listen_args port).

(* src/samples/command_executer/src/command_parser.rs RunArgs::new_with *)
Definition exec_args_new_with (args : ArgMatches) : result string RunArgs :=
  let? cid := parse_cid args in
  let? port := parse_port args in
  let? command := parse_command args in
  Ok (mk_exec_args cid port command (parse_no_wait args)).

(* src/samples/command_executer/src/command_parser.rs FileArgs::new_with *)
Definition file_args_new_with (args : ArgMatches) : result string FileArgs :=
  let? cid := parse_cid args in
  let? port := parse_port args in
  let? localfile := parse_localfile args in
  let? remotefile := parse_remotefile args in
  Ok (mk_file_args cid port localfile remotefile).

(** [serde_json::to_string] and [serde_json::from_str] of a result. *)
Class OutputJson : Type := {
  json_of_output : CommandOutput -> result string string;
  output_of_json : string -> result string CommandOutput;
}.

(** The text is a Rust string, and reading inverts writing. *)
Class OutputJsonLaws `{OutputJson} : Prop := {
  output_json_utf8 : forall o s, json_of_output o = Ok s -> utf8_valid (bytes_of s) = true;
  output_json_roundtrip : forall o s, json_of_output o = Ok s -> output_of_json s = Ok o;
}.

(** ** Moving bytes (protocol_helpers.rs) *)

(* src/samples/command_executer/src/lib.rs BUF_MAX_LEN *)
Definition BUF_MAX_LEN : Z := 8192.

Section Protocol.
Context `{ExecSystem} (fuel : nat).

(** One [send] of a non-empty buffer on a blocking stream moves at least one
    byte; the number of bytes moved, 0 when it was interrupted. *)
Definition send (fd : Z) (bytes : list Z) : X nat :=
  fun s =>
    match x_send (x_log s) fd bytes with
    | Moved n =>
        let n := Z.to_nat (Z.max 1 (Z.min n (Z.of_nat (length bytes)))) in
        (Return (Ok n), note (XSend fd (take n bytes)) s)
    | Interrupted => (Return (Ok 0%nat), note (XInterrupted fd) s)
    | Failure e => (Return (Err (Failed e)), s)
    end.

(** One [recv] into [room] bytes: the bytes moved, none when it was interrupted
    or when the peer has closed the connection and everything is read. *)
Definition recv (fd : Z) (room : Z) : X (list Z) :=
  fun s =>
    let avail := default [] (x_in s !! fd) in
    match x_recv (x_log s) fd room with
    | Moved n =>
        let n := Z.to_nat (Z.min (Z.max 1 n) room) in
        (Return (Ok (take n avail)), note (XRecv fd (take n avail)) (set_input fd (drop n avail) s))
    | Interrupted => (Return (Ok []), note (XInterrupted fd) s)
    | Failure e => (Return (Err (Failed e)), s)
    end.

(** The loop on [&buf[send_bytes..len]]. *)
Fixpoint send_rest (rounds : nat) (fd : Z) (rest : list Z) : X unit :=
  match rest, rounds with
  | [], _ => ret tt
  | _, O => fail Running
  | _, S rounds =>
      let! size := send fd rest in
      send_rest rounds fd (drop size rest)
  end.

(** Slicing beyond the buffer panics. *)
(* src/samples/command_executer/src/protocol_helpers.rs send_loop *)
Definition send_loop (fd : Z) (buf : list Z) (len : Z) : X unit :=
  if Z.of_nat (length buf) <? len then panic else send_rest fuel fd (take (Z.to_nat len) buf).

(** The loop on [&mut buf[recv_bytes..len]], where [need] bytes are missing. *)
Fixpoint recv_rest (rounds : nat) (fd : Z) (need : Z) (got : list Z) : X (list Z) :=
  if need <=? 0 then ret got
  else
    match rounds with
    | O => fail Running
    | S rounds =>
        let! bytes := recv fd need in
        recv_rest rounds fd (need - Z.of_nat (length bytes)) (got ++ bytes)
    end.

(** The buffer has [cap] bytes; its first [len] bytes are the result. *)
(* src/samples/command_executer/src/protocol_helpers.rs recv_loop *)
Definition recv_loop (fd : Z) (cap len : Z) : X (list Z) :=
  if cap <? len then panic else recv_rest fuel fd len [].

(** Nine bytes are sent, of which the last is always zero. *)
(* src/samples/command_executer/src/protocol_helpers.rs send_u64 *)
Definition send_u64 (fd val : Z) : X unit := send_loop fd (to_le_bytes 8 val ++ [0]) 9.

(* src/samples/command_executer/src/protocol_helpers.rs recv_u64 *)
Definition recv_u64 (fd : Z) : X Z :=
  let! buf := recv_loop fd 9 9 in
  ret (from_le_bytes (take 8 buf)).

(* src/samples/command_executer/src/protocol_helpers.rs send_i32 *)
Definition send_i32 (fd val : Z) : X unit := send_loop fd (to_le_bytes 4 (u32 val)) 4.

(* src/samples/command_executer/src/protocol_helpers.rs recv_i32 *)
Definition recv_i32 (fd : Z) : X Z :=
  let! buf := recv_loop fd 4 4 in
  ret (i32 (from_le_bytes buf)).

(** ** Files *)

Definition open_file (path : string) : X (result string unit) :=
  gets (fun s =>
    match x_open_error (x_log s) path, x_files s !! path with
    | Some e, _ => Err e
    | None, Some _ => Ok tt
    | None, None => Err x_not_found
    end).

(** What is in an open file at this moment. *)
Definition content_of (path : string) (s : XState) : list Z := default [] (x_files s !! path).

Definition file_size (path : string) : X (result string Z) :=
  gets (fun s =>
    match x_metadata_error (x_log s) path with
    | Some e => Err e
    | None => Ok (Z.of_nat (length (content_of path s)))
    end).

(** [read_exact] of [n] bytes, [progress] bytes into the file. *)
Definition read_file (path : string) (progress n : Z) : X (result string (list Z)) :=
  gets (fun s =>
    let rest := drop (Z.to_nat progress) (content_of path s) in
    match x_read_error (x_log s) path with
    | Some e => Err e
    | None =>
        if n <=? Z.of_nat (length rest) then Ok (take (Z.to_nat n) rest)
        else Err "failed to fill whole buffer"%string
    end).

Definition create_file (path : string) : X (result string unit) :=
  fun s =>
    match x_create_error (x_log s) path with
    | Some e => (Return (Ok (Err e)), s)
    | None => (Return (Ok (Ok tt)), set_file path [] s)
    end.

(** [write_all] appends to the file just created. *)
Definition append_file (path : string) (bytes : list Z) : X unit :=
  fun s =>
    match x_write_error (x_log s) path with
    | Some e => (Return (Err (Failed ("Could not write " +:+ e))), s)
    | None => (Return (Ok tt), set_file path (default [] (x_files s !! path) ++ bytes) s)
    end.

(** The loop that sends a file, of which [progress] bytes of [filesize] have been
    sent. *)
(* src/samples/command_executer/src/lib.rs:146-156 recv_file_server *)
Fixpoint send_content (rounds : nat) (fd : Z) (path : string) (progress filesize : Z) : X unit :=
  if filesize <=? progress then ret tt
  else
    match rounds with
    | O => fail Running
    | S rounds =>
        let tmpsize := Z.min BUF_MAX_LEN (filesize - progress) in
        let! buf := read_file path progress tmpsize in
        let! buf := of_result (rmap_err (fun err => Failed ("Could not read " +:+ err)) buf) in
        do! send_loop fd buf tmpsize;
        send_content rounds fd path (progress + tmpsize) filesize
    end.

(** The loop that receives the [remaining] bytes of a file. *)
(* src/samples/command_executer/src/lib.rs:176-186 send_file_server *)
Fixpoint recv_content (rounds : nat) (fd : Z) (path : string) (remaining : Z) : X unit :=
  if remaining <=? 0 then ret tt
  else
    match rounds with
    | O => fail Running
    | S rounds =>
        let tmpsize := Z.min BUF_MAX_LEN remaining in
        let! bytes := recv_loop fd BUF_MAX_LEN tmpsize in
        do! append_file path bytes;
        recv_content rounds fd path (remaining - tmpsize)
    end.

(** What every request begins with: a length and a text. *)
Definition recv_text (fd : Z) : X string :=
  let! len := recv_u64 fd in
  let! buf := recv_loop fd BUF_MAX_LEN len in
  of_result (rmap_err Failed (from_utf8 buf)).

Definition send_text (fd : Z) (text : string) : X unit :=
  let buf := bytes_of text in
  do! send_u64 fd (Z.of_nat (length buf));
  send_loop fd buf (Z.of_nat (length buf)).
End Protocol.

(** ** The server (lib.rs) *)

(* src/samples/command_executer/src/lib.rs CmdId *)
Inductive CmdId : Type := RunCmd | RecvFile | SendFile | RunCmdNoWait.

Definition cmd_id (c : CmdId) : Z :=
  match c with RunCmd => 0 | RecvFile => 1 | SendFile => 2 | RunCmdNoWait => 3 end.

(** [CmdId::from_u64] *)
Definition cmd_from_u64 (n : Z) : option CmdId :=
  if n =? 0 then Some RunCmd else if n =? 1 then Some RecvFile
  else if n =? 2 then Some SendFile else if n =? 3 then Some RunCmdNoWait else None.

Definition emit_x (e : XEvent) : X unit := modify (note e).
Definition print_x (msg : string) : X unit := emit_x (XPrint false msg).
Definition println_x (msg : string) : X unit := print_x (msg +:+ String LF "")%string.
Definition eprintln_x (msg : string) : X unit := emit_x (XPrint true (msg +:+ String LF "")%string).

(** [?] on a result whose error is turned into a message. *)
Definition or_fail {A} (msg : string) (r : result string A) : X A :=
  of_result (rmap_err (fun err => Failed (msg +:+ err)%string) r).

(** A system call that answers or gives the text of its error. *)
Definition call {A} (f : xlog -> A) (e : A -> XEvent) : X A :=
  fun s => (Return (Ok (f (x_log s))), note (e (f (x_log s))) s).

(** An error of a handler is printed; running out of fuel is not an error. *)
Definition report_error (m : X unit) : X unit :=
  fun s =>
    match m s with
    | (Return (Err (Failed e)), s') => eprintln_x ("Error " +:+ e)%string s'
    | r => r
    end.

Section Server.
Context `{ExecSystem} `{OutputJson} (fuel : nat).

(* src/samples/command_executer/src/lib.rs:93-115 run_server *)
Definition execute (command : string) (no_wait : bool) : X CommandOutput :=
  if no_wait then
    let! output := call (fun l => x_spawn l command) (fun _ => XCommand command false) in
    match output with
    | Some _ => ret (output_new "" ("Could not execute the command " +:+ command)%string 1)
    | None => ret (output_new "" "" 0)
    end
  else
    let! output := call (fun l => x_output l command) (fun _ => XCommand command true) in
    let! output := or_fail ("Could not execute the command " +:+ command +:+ ": ")%string output in
    of_result (rmap_err Failed (output_new_from output)).

(* src/samples/command_executer/src/lib.rs run_server *)
Definition run_server (fd : Z) (no_wait : bool) : X unit :=
  let! command := recv_text fuel fd in
  let! command_output := execute command no_wait in
  let! json_output := or_fail "Could not serialize the output: " (json_of_output command_output) in
  send_text fuel fd json_output.

(* src/samples/command_executer/src/lib.rs recv_file_server *)
Definition recv_file_server (fd : Z) : X unit :=
  let! path := recv_text fuel fd in
  let! file := open_file path in
  do! or_fail "Could not open file " file;
  let! filesize := file_size path in
  let! filesize := or_fail "Could not get file metadata " filesize in
  do! send_u64 fuel fd filesize;
  do! println_x ("Sending file " +:+ path +:+ " - size " +:+ show_u filesize)%string;
  send_content fuel fuel fd path 0 filesize.

(* src/samples/command_executer/src/lib.rs send_file_server *)
Definition send_file_server (fd : Z) : X unit :=
  let! path := recv_text fuel fd in
  let! file := create_file path in
  do! or_fail "Could not open file " file;
  let! filesize := recv_u64 fuel fd in
  do! println_x ("Receiving file " +:+ path +:+ " - size " +:+ show_u filesize)%string;
  recv_content fuel fuel fd path filesize.

(** One connection: the client's descriptor is not closed. *)
(* src/samples/command_executer/src/lib.rs:207-245 listen *)
Definition serve_client (fd : Z) : X unit :=
  let! id := fun s =>
    match recv_u64 fuel fd s with
    | (Return (Ok id), s') => (Return (Ok (Some id)), s')
    | (Return (Err (Failed e)), s') => (do! eprintln_x ("Error " +:+ e)%string; ret None) s'
    | (Return (Err Running), s') => (Return (Err Running), s')
    | (Exit c, s') => (Exit c, s')
    | (Panic, s') => (Panic, s')
    end in
  match id with
  | None => ret tt
  | Some id =>
      match cmd_from_u64 id with
      | None => eprintln_x "Error no such command"
      | Some RunCmd => report_error (run_server fd false)
      | Some RecvFile => report_error (recv_file_server fd)
      | Some SendFile => report_error (send_file_server fd)
      | Some RunCmdNoWait => report_error (run_server fd true)
      end
  end.

(** The accept loop, for at most [clients] clients. *)
Fixpoint serve_clients (clients : nat) (socket_fd : Z) : X unit :=
  match clients with
  | O => fail Running
  | S clients =>
      let! fd := call (fun l => x_accept l socket_fd) (XAccept socket_fd) in
      let! fd := or_fail "Accept failed: " fd in
      do! serve_client fd;
      serve_clients clients socket_fd
  end.

(* src/samples/command_executer/src/lib.rs VMADDR_CID_ANY *)
Definition VMADDR_CID_ANY : Z := 0xFFFFFFFF.
(* src/samples/command_executer/src/lib.rs BACKLOG *)
Definition BACKLOG : Z := 128.

Definition none_or_fail (msg : string) (err : option string) : X unit :=
  match err with Some e => fail (Failed (msg +:+ e)%string) | None => ret tt end.

(* src/samples/command_executer/src/lib.rs listen *)
Definition listen (clients : nat) (args : ListenArgs) : X unit :=
  let! socket_fd := call x_socket XSocket in
  let! socket_fd := or_fail "Create socket failed: " socket_fd in
  let! bound := call (fun l => x_bind l socket_fd VMADDR_CID_ANY (listen_port args))
    (XBind socket_fd VMADDR_CID_ANY (listen_port args)) in
  do! none_or_fail "Bind failed: " bound;
  let! listening := call (fun l => x_listen l socket_fd BACKLOG) (XListen socket_fd BACKLOG) in
  do! none_or_fail "Listen failed: " listening;
  serve_clients clients socket_fd.

(** ** The client *)

(* src/samples/command_executer/src/lib.rs MAX_CONNECTION_ATTEMPTS *)
Definition MAX_CONNECTION_ATTEMPTS : nat := 5.

(* src/samples/command_executer/src/lib.rs VsockSocket::drop *)
Definition socket_drop (fd : Z) : X unit :=
  let! err := call (fun l => x_shutdown l fd) (XShutdown fd) in
  do! match err with
      | Some e => eprintln_x ("Failed to shut socket down: " +:+ e)%string
      | None => ret tt
      end;
  let! err := call (fun l => x_close l fd) (XClose fd) in
  match err with
  | Some e => eprintln_x ("Failed to close socket: " +:+ e)%string
  | None => ret tt
  end.

(** Round [i] of the loop; a socket that could not be connected is dropped at
    the end of its round. *)
Fixpoint connect_attempts (attempts : nat) (i cid port : Z) (err_msg : string) : X Z :=
  match attempts with
  | O => fail (Failed err_msg)
  | S attempts =>
      let! fd := call x_socket XSocket in
      let! fd := or_fail "Failed to create the socket: " fd in
      let! err := call (fun l => x_connect l fd cid port) (XConnect fd cid port) in
      match err with
      | None => ret fd
      | Some e =>
          do! emit_x (XSleep (Z.shiftl 1 i));
          do! socket_drop fd;
          connect_attempts attempts (i + 1) cid port ("Failed to connect: " +:+ e)%string
      end
  end.

(* src/samples/command_executer/src/lib.rs vsock_connect *)
Definition vsock_connect (cid port : Z) : X Z :=
  connect_attempts MAX_CONNECTION_ATTEMPTS 0 cid port "".

(** Run [m] on a connected socket, which is dropped when [m] returns. *)
Definition with_socket {A} (cid port : Z) (m : Z -> X A) : X A :=
  let! fd := vsock_connect cid port in
  let! r := try (m fd) in
  do! socket_drop fd;
  of_result r.

(** The loop that receives the text of the result; every chunk is decoded by
    itself. *)
(* src/samples/command_executer/src/lib.rs:271-279 run *)
Fixpoint recv_json (rounds : nat) (fd to_recv : Z) (json_output : string) : X string :=
  if to_recv <=? 0 then ret json_output
  else
    match rounds with
    | O => fail Running
    | S rounds =>
        let recv_len := Z.min BUF_MAX_LEN to_recv in
        let! buf := recv_loop fuel fd BUF_MAX_LEN recv_len in
        let! chunk := of_result (rmap_err Failed (from_utf8 buf)) in
        recv_json rounds fd (to_recv - recv_len) (json_output +:+ chunk)%string
    end.

(* src/samples/command_executer/src/lib.rs run *)
Definition run (args : RunArgs) : X Z :=
  with_socket (exec_cid args) (exec_port args) (fun socket_fd =>
    do! send_u64 fuel socket_fd (cmd_id (if exec_no_wait args then RunCmdNoWait else RunCmd));
    do! send_text fuel socket_fd (exec_command args);
    let! len := recv_u64 fuel socket_fd in
    let! json_output := recv_json fuel socket_fd len "" in
    let! output := or_fail "Could not deserialize the output: " (output_of_json json_output) in
    do! print_x (out_stdout output);
    do! emit_x (XPrint true (out_stderr output));
    ret (default 0 (out_rc output))).

(* src/samples/command_executer/src/lib.rs recv_file *)
Definition recv_file (args : FileArgs) : X unit :=
  let! file := create_file (localfile args) in
  do! or_fail "Could not open localfile " file;
  with_socket (file_cid args) (file_port args) (fun socket_fd =>
    do! send_u64 fuel socket_fd (cmd_id RecvFile);
    do! send_text fuel socket_fd (remotefile args);
    let! filesize := recv_u64 fuel socket_fd in
    do! println_x ("Receiving file " +:+ remotefile args +:+ "(saving to " +:+ localfile args +:+
          ") - size " +:+ show_u filesize)%string;
    recv_content fuel fuel socket_fd (localfile args) filesize).

(* src/samples/command_executer/src/lib.rs send_file *)
Definition send_file (args : FileArgs) : X unit :=
  let! file := open_file (localfile args) in
  do! or_fail "Could not open localfile " file;
  with_socket (file_cid args) (file_port args) (fun socket_fd =>
    do! send_u64 fuel socket_fd (cmd_id SendFile);
    do! send_text fuel socket_fd (remotefile args);
    let! filesize := file_size (localfile args) in
    let! filesize := or_fail "Could not get file metadate " filesize in
    do! send_u64 fuel socket_fd filesize;
    do! println_x ("Sending file " +:+ localfile args +:+ "(sending to " +:+ remotefile args +:+
          ") - size " +:+ show_u filesize)%string;
    send_content fuel fuel socket_fd (localfile args) 0 filesize).

(** [unwrap]: an error is a panic, except for having run out of fuel. *)
Definition unwrap_x {A} (m : X A) : X A :=
  fun s =>
    match m s with
    | (Return (Err (Failed _)), s') => (Panic, s')
    | r => r
    end.

(** The program; [subcommand] is the name of the subcommand and its arguments. *)
(* src/samples/command_executer/src/main.rs main *)
Definition executer_main (clients : nat) (subcommand : option (string * ArgMatches)) : X unit :=
  match subcommand with
  | Some (name, args) =>
      if String.eqb name "listen" then
        let! a := unwrap_x (of_result (rmap_err Failed (listen_args_new_with args))) in
        unwrap_x (listen clients a)
      else if String.eqb name "run" then
        let! a := unwrap_x (of_result (rmap_err Failed (exec_args_new_with args))) in
        let! rc := unwrap_x (run a) in
        exit rc
      else if String.eqb name "recv-file" then
        let! a := unwrap_x (of_result (rmap_err Failed (file_args_new_with args))) in
        unwrap_x (recv_file a)
      else if String.eqb name "send-file" then
        let! a := unwrap_x (of_result (rmap_err Failed (file_args_new_with args))) in
        unwrap_x (send_file a)
      else ret tt
  | None => ret tt
  end.
End Server.

(** ** What sending and receiving amount to *)

(** The bytes sent on a descriptor. *)
Definition xsent (fd : Z) (l : xlog) : list Z :=
  flat_map (fun e => match e with XSend fd' bs => if fd =? fd' then bs else [] | _ => [] end) l.

Definition unread (fd : Z) (s : XState) : list Z := default [] (x_in s !! fd).

Lemma unread_note fd e s : unread fd (note e s) = unread fd s.
Proof. done. Qed.
Lemma unread_set_input fd bs s : unread fd (set_input fd bs s) = bs.
Proof. unfold unread, set_input. simpl. by rewrite lookup_insert_eq. Qed.

Lemma xsent_app fd l1 l2 : xsent fd (l1 ++ l2) = xsent fd l1 ++ xsent fd l2.
Proof. apply flat_map_app. Qed.

(** From [s] to [s'], the bytes [out] were sent on [fd], the bytes [inp] were
    taken from its input, and files and other descriptors are as before. *)
Definition exchange (fd : Z) (inp out : list Z) (s s' : XState) : Prop :=
  xsent fd (x_log s') = xsent fd (x_log s) ++ out /\ unread fd s = inp ++ unread fd s' /\
  x_files s' = x_files s /\ x_log s `prefix_of` x_log s'.

Lemma exchange_refl fd s : exchange fd [] [] s s.
Proof. unfold exchange. by rewrite app_nil_r. Qed.

Lemma exchange_trans fd i1 o1 i2 o2 s1 s2 s3 :
  exchange fd i1 o1 s1 s2 -> exchange fd i2 o2 s2 s3 -> exchange fd (i1 ++ i2) (o1 ++ o2) s1 s3.
Proof.
  intros (A1 & B1 & C1 & D1) (A2 & B2 & C2 & D2). unfold exchange.
  rewrite A2, A1, B1, B2, C2, C1, !app_assoc. split_and!; try done. by etrans.
Qed.

Lemma exchange_trans_out fd i o1 o2 s1 s2 s3 :
  exchange fd [] o1 s1 s2 -> exchange fd i o2 s2 s3 -> exchange fd i (o1 ++ o2) s1 s3.
Proof. apply (exchange_trans fd []). Qed.

(** An event that sends nothing. *)
Lemma exchange_note fd e s : xsent fd [e] = [] -> exchange fd [] [] s (note e s).
Proof.
  intros E. unfold exchange, note. simpl. rewrite xsent_app, E. split_and!; try done. by eexists.
Qed.

(** A number, as nine bytes. *)
Definition u64_frame (v : Z) : list Z := to_le_bytes 8 v ++ [0].
Definition text_frame (s : string) : list Z :=
  u64_frame (Z.of_nat (length (bytes_of s))) ++ bytes_of s.

Lemma length_u64_frame v : length (u64_frame v) = 9%nat.
Proof. reflexivity. Qed.

(** Every transfer moves bytes. *)
Class Moving `{ExecSystem} : Prop := {
  send_moves : forall l fd bs, exists n, x_send l fd bs = Moved n;
  recv_moves : forall l fd n, exists k, x_recv l fd n = Moved k;
}.

Section Transfer.
Context `{ExecSystem} (fuel : nat).

Lemma send_ok fd bytes s n s' :
  bytes <> [] -> send fd bytes s = (Return (Ok n), s') ->
  exchange fd [] (take n bytes) s s' /\ (x_send (x_log s) fd bytes <> Interrupted -> (0 < n)%nat).
Proof.
  unfold send. intros Hne E. destruct (x_send _ _ _) eqn:Ex; simplify_eq; split; try done.
  - unfold exchange, note. simpl. rewrite xsent_app. simpl. rewrite Z.eqb_refl, app_nil_r.
    split_and!; try done. by eexists.
  - intros _. destruct bytes; [done|]. simpl length. lia.
  - by apply exchange_note.
Qed.

Lemma send_rest_ok rounds fd rest s s' :
  send_rest rounds fd rest s = (Return (Ok tt), s') -> exchange fd [] rest s s'.
Proof.
  revert rest s. induction rounds as [|rounds IH]; intros [|b rest] s E; simpl in E;
    unfold ret, fail in E; simplify_eq; try apply exchange_refl.
  apply bind_ok_inv in E as (n & s1 & E1 & E2). apply send_ok in E1 as [E1 _]; [|done].
  rewrite <- (take_drop n (b :: rest)). eapply exchange_trans_out; [exact E1|by apply IH].
Qed.

Lemma send_rest_total `{!Moving} rounds fd rest s :
  (length rest <= rounds)%nat -> exists s', send_rest rounds fd rest s = (Return (Ok tt), s').
Proof.
  revert rest s. induction rounds as [|rounds IH]; intros [|b rest] s Hl; simpl in Hl;
    cbn [send_rest]; try (by eexists); [lia|].
  destruct (send fd (b :: rest) s) as [r s1] eqn:E. destruct (send_moves (x_log s) fd (b :: rest)) as [k Ek].
  assert (exists n, r = Return (Ok n)) as [n ->] by (unfold send in E; rewrite Ek in E; simplify_eq; eauto).
  apply send_ok in E as E'; [|done]. destruct E' as [_ Hn]. rewrite (bind_run_ok _ _ _ _ _ E).
  apply IH. rewrite length_drop. simpl. specialize (Hn ltac:(by rewrite Ek)). lia.
Qed.

Lemma recv_ok fd room s bs s' :
  0 < room -> recv fd room s = (Return (Ok bs), s') ->
  exchange fd bs [] s s' /\ Z.of_nat (length bs) <= room /\
  (x_recv (x_log s) fd room <> Interrupted -> bs = [] -> unread fd s = []).
Proof.
  unfold recv. intros Hr E. fold (unread fd s) in E. destruct (x_recv _ _ _) eqn:Ex; simplify_eq.
  - set (k := Z.to_nat _) in *. assert (0 < k)%nat by lia.
    split_and!.
    + unfold exchange. split_and!; [simpl; by rewrite xsent_app| |done|by eexists].
      by rewrite unread_note, unread_set_input, take_drop.
    + rewrite length_take. lia.
    + intros _ E. destruct (unread fd s); [done|]. by destruct k; [lia|].
  - split_and!; [by apply exchange_note|simpl; lia|done].
Qed.

Lemma recv_rest_ok rounds fd need got s bs s' :
  recv_rest rounds fd need got s = (Return (Ok bs), s') ->
  exists chunk, bs = got ++ chunk /\ exchange fd chunk [] s s' /\ Z.of_nat (length chunk) = Z.max 0 need.
Proof.
  revert need got s. induction rounds as [|rounds IH]; intros need got s E; simpl in E;
    destruct (Z.leb_spec need 0); unfold ret, fail in E; simplify_eq;
    try (exists []; rewrite app_nil_r; split_and!; [done|apply exchange_refl|simpl; lia]).
  apply bind_ok_inv in E as (b1 & s1 & E1 & E2). apply recv_ok in E1 as (E1 & Hl & _); [|done].
  apply IH in E2 as (chunk & -> & E2 & Hc). exists (b1 ++ chunk).
  rewrite app_assoc. split; [done|]. split; [by apply (exchange_trans _ _ [] _ [] _ s1)|].
  rewrite length_app. lia.
Qed.

Lemma recv_rest_total `{!Moving} rounds fd need got s :
  (Z.to_nat need <= rounds)%nat -> need <= Z.of_nat (length (unread fd s)) ->
  exists bs s', recv_rest rounds fd need got s = (Return (Ok bs), s').
Proof.
  revert need got s. induction rounds as [|rounds IH]; intros need got s Hf Hl; cbn [recv_rest];
    destruct (Z.leb_spec need 0); try (by eexists _, _); [lia|].
  destruct (recv fd need s) as [r s1] eqn:E. destruct (recv_moves (x_log s) fd need) as [k Ek].
  assert (exists n, r = Return (Ok n)) as [b1 ->] by (unfold recv in E; rewrite Ek in E; simplify_eq; eauto).
  apply recv_ok in E as E'; [|done]. destruct E' as ((_ & Hu & _) & Hb & Hn).
  rewrite (bind_run_ok _ _ _ _ _ E). specialize (Hn ltac:(by rewrite Ek)).
  assert (b1 <> []) as Hne by (intros ->; rewrite Hn in Hl by done; simpl in Hl; lia).
  apply IH; [destruct b1; [done|simpl in *; lia]|]. rewrite Hu, length_app in Hl. lia.
Qed.

Lemma exchange_unread fd bs out rest s s' :
  unread fd s = bs ++ rest -> exchange fd bs out s s' -> unread fd s' = rest.
Proof. intros E (_ & E' & _). rewrite E in E'. by apply app_inv_head in E'. Qed.

Lemma send_loop_ok fd buf len s s' :
  send_loop fuel fd buf len s = (Return (Ok tt), s') -> exchange fd [] (take (Z.to_nat len) buf) s s'.
Proof. unfold send_loop. case_match; [done|]. apply send_rest_ok. Qed.

Lemma send_loop_total `{!Moving} fd buf len s :
  len <= Z.of_nat (length buf) -> (length buf <= fuel)%nat ->
  exists s', send_loop fuel fd buf len s = (Return (Ok tt), s').
Proof.
  intros Hl Hf. unfold send_loop. destruct (Z.ltb_spec (Z.of_nat (length buf)) len); [lia|].
  apply send_rest_total. rewrite length_take. lia.
Qed.

(** The bytes that are asked for are received when they are there. *)
Lemma recv_loop_total `{!Moving} fd cap bs rest s :
  unread fd s = bs ++ rest -> Z.of_nat (length bs) <= cap -> (length bs <= fuel)%nat ->
  exists s', recv_loop fuel fd cap (Z.of_nat (length bs)) s = (Return (Ok bs), s') /\
    exchange fd bs [] s s'.
Proof.
  intros Hu Hc Hf. unfold recv_loop. destruct (Z.ltb_spec cap (Z.of_nat (length bs))); [lia|].
  destruct (recv_rest_total fuel fd (Z.of_nat (length bs)) [] s) as (got & s' & E);
    [lia|rewrite Hu, length_app; lia|].
  exists s'. rewrite E. apply recv_rest_ok in E as (chunk & -> & Ex & Hl). simpl.
  assert (chunk = bs) as ->; [|done].
  destruct Ex as (_ & Hx & _). rewrite Hu in Hx. apply app_inj_1 in Hx as [-> _]; [done|]. lia.
Qed.

(** Numbers and texts. *)
Lemma send_u64_ok fd v s s' :
  send_u64 fuel fd v s = (Return (Ok tt), s') -> exchange fd [] (u64_frame v) s s'.
Proof. intros E. by apply send_loop_ok in E. Qed.

Lemma send_text_ok fd text s s' :
  send_text fuel fd text s = (Return (Ok tt), s') -> exchange fd [] (text_frame text) s s'.
Proof.
  unfold send_text. intros E. m_inv. apply send_u64_ok in E0. apply send_loop_ok in E1.
  rewrite Nat2Z.id, firstn_all in E1. by eapply exchange_trans_out.
Qed.

Lemma send_u64_total `{!Moving} fd v s :
  (9 <= fuel)%nat -> exists s', send_u64 fuel fd v s = (Return (Ok tt), s').
Proof. intros Hf. unfold send_u64. by apply send_loop_total. Qed.

Lemma send_text_total `{!Moving} fd text s :
  (9 <= fuel)%nat -> (length (bytes_of text) <= fuel)%nat ->
  exists s', send_text fuel fd text s = (Return (Ok tt), s').
Proof.
  intros Hf Ht. unfold send_text. destruct (send_u64_total fd (Z.of_nat (length (bytes_of text))) s Hf)
    as (s1 & E). rewrite (bind_run_ok _ _ _ _ _ E). by apply send_loop_total.
Qed.

Lemma recv_u64_total `{!Moving} fd v rest s :
  unread fd s = u64_frame v ++ rest -> 0 <= v <= u64_MAX -> (9 <= fuel)%nat ->
  exists s', recv_u64 fuel fd s = (Return (Ok v), s') /\ exchange fd (u64_frame v) [] s s'.
Proof.
  intros Hu Hv Hf. destruct (recv_loop_total fd 9 (u64_frame v) rest s Hu) as (s' & E & Ex); [done|done|].
  exists s'. split; [|done]. unfold recv_u64. rewrite (bind_run_ok _ _ _ _ _ E). unfold ret.
  do 3 f_equal. unfold u64_frame. rewrite take_app_length'; [|by rewrite length_to_le_bytes].
  apply le_bytes_roundtrip. unfold u64_MAX in Hv. simpl. lia.
Qed.

Lemma recv_text_total `{!Moving} fd text rest s :
  unread fd s = text_frame text ++ rest -> utf8_valid (bytes_of text) = true ->
  Z.of_nat (length (bytes_of text)) <= BUF_MAX_LEN ->
  (9 <= fuel)%nat -> (length (bytes_of text) <= fuel)%nat ->
  exists s', recv_text fuel fd s = (Return (Ok text), s') /\ exchange fd (text_frame text) [] s s'.
Proof.
  intros Hu Hv Hb H9 Hf. unfold text_frame in *. rewrite <- app_assoc in Hu.
  destruct (recv_u64_total fd _ _ s Hu) as (s1 & E1 & X1); [unfold u64_MAX, BUF_MAX_LEN in *; lia|done|].
  pose proof (exchange_unread _ _ _ _ _ _ Hu X1) as Hu1.
  destruct (recv_loop_total fd BUF_MAX_LEN _ _ s1 Hu1 Hb Hf) as (s2 & E2 & X2).
  exists s2. unfold recv_text. rewrite (bind_run_ok _ _ _ _ _ E1), (bind_run_ok _ _ _ _ _ E2).
  unfold of_result. rewrite from_utf8_ok by done. split; [done|].
  by apply (exchange_trans _ _ [] _ [] _ s1).
Qed.

(** Contents of files. *)
Lemma send_content_ok rounds fd path content progress s s' :
  x_files s !! path = Some content -> 0 <= progress ->
  send_content fuel rounds fd path progress (Z.of_nat (length content)) s = (Return (Ok tt), s') ->
  exchange fd [] (drop (Z.to_nat progress) content) s s'.
Proof.
  revert progress s. induction rounds as [|rounds IH]; intros progress s Hc Hp E; cbn [send_content] in E;
    (destruct (Z.leb_spec (Z.of_nat (length content)) progress);
      [injection E as <-; rewrite drop_ge by lia; apply exchange_refl|]); [done|].
  set (n := Z.min _ _) in E. assert (0 < n <= BUF_MAX_LEN) by (unfold n, BUF_MAX_LEN; lia).
  apply bind_ok_inv in E as (buf & s1 & [= Hb <-] & E).
  apply bind_ok_inv in E as (bytes & s1 & [Hr%rmap_err_ok_inv ->]%of_result_inv & E).
  apply bind_ok_inv in E as ([] & s2 & X1%send_loop_ok & E).
  rewrite Hr in Hb. unfold content_of in Hb. rewrite Hc in Hb. simpl in Hb.
  destruct (x_read_error _ _); [done|]. destruct (Z.leb_spec n (Z.of_nat (length (drop (Z.to_nat progress) content))));
    [injection Hb as <-|done].
  rewrite take_take, Nat.min_id in X1.
  apply IH in E; [|by destruct X1 as (_ & _ & -> & _)|lia].
  rewrite Z2Nat.inj_add, <- drop_drop in E by lia.
  rewrite <- (take_drop (Z.to_nat n) (drop (Z.to_nat progress) content)). by eapply exchange_trans_out.
Qed.

(** Files can be written. *)
Lemma recv_content_total `{!Moving} rounds fd path content rest s :
  (forall l, x_write_error l path = None) -> unread fd s = content ++ rest ->
  (length content <= rounds)%nat -> (length content <= fuel)%nat ->
  exists s', recv_content fuel rounds fd path (Z.of_nat (length content)) s = (Return (Ok tt), s') /\
    unread fd s' = rest /\ xsent fd (x_log s') = xsent fd (x_log s) /\
    (content <> [] -> x_files s' !! path = Some (default [] (x_files s !! path) ++ content)) /\
    (content = [] -> x_files s' = x_files s).
Proof.
  intros Hw. revert content s. induction rounds as [|rounds IH]; intros content s Hu Hl Hf;
    cbn [recv_content]; destruct (Z.leb_spec (Z.of_nat (length content)) 0) as [Hz|Hz];
    try (destruct content; [|simpl in Hz; lia]; exists s; by split_and!); [lia|].
  set (n := Z.min BUF_MAX_LEN (Z.of_nat (length content))).
  assert (0 < n <= Z.of_nat (length content) /\ n <= BUF_MAX_LEN) as [Hn Hc] by (unfold n, BUF_MAX_LEN; lia).
  set (bs := take (Z.to_nat n) content). set (more := drop (Z.to_nat n) content).
  assert (Z.of_nat (length bs) = n) as Hb by (unfold bs; rewrite length_take; lia).
  rewrite <- (take_drop (Z.to_nat n) content), <- app_assoc in Hu. fold bs more in Hu.
  destruct (recv_loop_total fd BUF_MAX_LEN bs _ s Hu) as (s1 & E & X1); [lia|lia|].
  rewrite Hb in E. rewrite (bind_run_ok _ _ _ _ _ E).
  pose proof (exchange_unread _ _ _ _ _ _ Hu X1) as Hu1. destruct X1 as (X1 & _ & F1 & _).
  unfold bind at 1, append_file. rewrite Hw. cbv beta iota.
  set (s2 := set_file path _ s1).
  destruct (IH more s2) as (s3 & E3 & U3 & X3 & F3 & F3'); [done|unfold more; rewrite length_drop; lia..|].
  replace (Z.of_nat (length content) - n) with (Z.of_nat (length more)) by (unfold more; rewrite length_drop; lia).
  exists s3. split; [exact E3|]. split; [exact U3|]. split; [rewrite X3; simpl; by rewrite X1, app_nil_r|].
  split; [|intros ->; simpl in Hz; lia]. intros _.
  rewrite <- (take_drop (Z.to_nat n) content). fold bs more.
  assert (x_files s2 !! path = Some (default [] (x_files s !! path) ++ bs)) as F2.
  { simpl. by rewrite lookup_insert_eq, F1. }
  destruct (decide (more = [])) as [Em|Em].
  - rewrite (F3' Em), F2, Em, app_nil_r. done.
  - rewrite (F3 Em), F2. simpl. by rewrite <- app_assoc.
Qed.
End Transfer.

(** Computations that move no bytes and leave the files alone. *)
Definition quiet {A} (m : X A) : Prop := forall fd s, exchange fd [] [] s (snd (m s)).

Lemma quiet_bind {A B} (m : X A) (k : A -> X B) :
  quiet m -> (forall a, quiet (k a)) -> quiet (bind m k).
Proof.
  intros Hm Hk fd s. specialize (Hm fd s). unfold bind.
  destruct (m s) as [[[a|e]|c|] s1]; simpl in *; try done.
  eapply (exchange_trans _ [] [] [] []); [exact Hm|apply Hk].
Qed.
Lemma quiet_ret {A} (a : A) : quiet (ret a).
Proof. intros fd s. apply exchange_refl. Qed.
Lemma quiet_fail {A} e : quiet (fail e : X A).
Proof. intros fd s. apply exchange_refl. Qed.
Lemma quiet_of_result {A} (r : result Ending A) : quiet (of_result r).
Proof. intros fd s. apply exchange_refl. Qed.
Lemma quiet_emit e : (forall fd, xsent fd [e] = []) -> quiet (emit_x e).
Proof. intros He fd s. by apply exchange_note. Qed.
Lemma quiet_call {A} (f : xlog -> A) e : (forall a fd, xsent fd [e a] = []) -> quiet (call f e).
Proof. intros He fd s. by apply exchange_note. Qed.

Ltac quiet :=
  repeat match goal with
  | |- quiet (bind _ _) => apply quiet_bind; [|intros ?]
  | |- quiet (match ?x with _ => _ end) => destruct x
  | |- quiet (or_fail _ _) => apply quiet_of_result
  | |- quiet (call _ _) => by apply quiet_call
  | |- quiet (emit_x _) => by apply quiet_emit
  | |- quiet (println_x _) => by apply quiet_emit
  | |- quiet (eprintln_x _) => by apply quiet_emit
  | |- quiet (ret _) => apply quiet_ret
  | |- quiet (fail _) => apply quiet_fail
  | |- quiet (of_result _) => apply quiet_of_result
  end.

Section Sockets.
Context `{ExecSystem}.

Lemma quiet_socket_drop fd : quiet (socket_drop fd).
Proof. unfold socket_drop. quiet. Qed.

Lemma socket_drop_run fd s : exists s', socket_drop fd s = (Return (Ok tt), s').
Proof.
  unfold socket_drop, bind, call, eprintln_x, emit_x, modify, ret.
  destruct (x_shutdown _ _); destruct (x_close _ _); by eexists.
Qed.

Lemma quiet_vsock_connect cid port : quiet (vsock_connect cid port).
Proof.
  unfold vsock_connect. generalize MAX_CONNECTION_ATTEMPTS 0 (""%string).
  induction n; intros i e; simpl; quiet; try apply quiet_socket_drop. auto.
Qed.

Lemma quiet_ok {A} (m : X A) s a s' fd : quiet m -> m s = (Return (Ok a), s') -> exchange fd [] [] s s'.
Proof. intros Hm E. specialize (Hm fd s). by rewrite E in Hm. Qed.

(** A computation on a connected socket that succeeded. *)
Lemma with_socket_ok {A} cid port (m : Z -> X A) s a s' :
  with_socket cid port m s = (Return (Ok a), s') ->
  exists fd s1 s2, vsock_connect cid port s = (Return (Ok fd), s1) /\
    exchange fd [] [] s s1 /\ m fd s1 = (Return (Ok a), s2) /\ exchange fd [] [] s2 s'.
Proof.
  unfold with_socket. intros E. o_inv.
  match goal with X : try _ _ = _ |- _ => apply try_inv in X end.
  match goal with X : vsock_connect _ _ _ = (Return (Ok ?x), _) |- _ => rename x into fd, X into Ec end.
  simplify_eq. exists fd. do 2 eexists.
  split; [exact Ec|]. split; [eapply quiet_ok; [apply quiet_vsock_connect|exact Ec]|].
  split; [eassumption|]. eapply quiet_ok; [apply quiet_socket_drop|eassumption].
Qed.

Lemma send_file_ok fuel args s s' :
  send_file fuel args s = (Return (Ok tt), s') ->
  exists fd s1 content, vsock_connect (file_cid args) (file_port args) s = (Return (Ok fd), s1) /\
    x_files s !! localfile args = Some content /\
    exchange fd [] (u64_frame (cmd_id SendFile) ++ text_frame (remotefile args) ++
      u64_frame (Z.of_nat (length content)) ++ content) s s'.
Proof.
  unfold send_file, or_fail. intros E.
  apply bind_ok_inv in E as (file & s0 & [= Ho <-] & E).
  apply bind_ok_inv in E as ([] & s0 & [Hok%rmap_err_ok_inv ->]%of_result_inv & E). rewrite Hok in Ho.
  destruct (x_open_error _ _); [done|]. destruct (x_files s !! localfile args) as [content|] eqn:Hc; [|done].
  apply with_socket_ok in E as (fd & s1 & s2 & Ec & X1 & Em & X2).
  apply bind_ok_inv in Em as ([] & s3 & Y1%send_u64_ok & Em).
  apply bind_ok_inv in Em as ([] & s4 & Y2%send_text_ok & Em).
  assert (x_files s4 !! localfile args = Some content) as Hc4.
  { destruct Y2 as (_ & _ & -> & _), Y1 as (_ & _ & -> & _), X1 as (_ & _ & -> & _). exact Hc. }
  apply bind_ok_inv in Em as (size & s5 & [= Hsize <-] & Em).
  apply bind_ok_inv in Em as (filesize & s5 & [Hf%rmap_err_ok_inv ->]%of_result_inv & Em). rewrite Hf in Hsize.
  destruct (x_metadata_error _ _); [done|]. unfold content_of in Hsize. rewrite Hc4 in Hsize. injection Hsize as <-.
  apply bind_ok_inv in Em as ([] & s6 & Y3%send_u64_ok & Em).
  apply bind_ok_inv in Em as ([] & s7 & Y4 & Em).
  eapply (quiet_ok _ _ _ _ fd) in Y4; [|by apply quiet_emit].
  apply (send_content_ok _ _ _ _ content) in Em as Y5;
    [|destruct Y4 as (_ & _ & -> & _), Y3 as (_ & _ & -> & _); exact Hc4|done].
  exists fd, s1, content. split; [exact Ec|]. split; [done|].
  eapply exchange_trans_out in X2; [|exact Y5]. eapply exchange_trans_out in X2; [|exact Y4].
  eapply exchange_trans_out in X2; [|exact Y3]. eapply exchange_trans_out in X2; [|exact Y2].
  eapply exchange_trans_out in X2; [|exact Y1]. eapply exchange_trans_out in X2; [|exact X1].
  by rewrite !app_nil_l, app_nil_r, <- ?app_assoc in X2.
Qed.
End Sockets.

(** ** The server receives what the client sent *)

Section ServerLemmas.
Context `{ExecSystem} `{!Moving} (fuel : nat) (Hfuel : (9 <= fuel)%nat).

Lemma unread_quiet {A} (m : X A) s a s' fd : quiet m -> m s = (Return (Ok a), s') -> unread fd s' = unread fd s.
Proof. intros Hm E. destruct (quiet_ok _ _ _ _ fd Hm E) as (_ & Hu & _). by rewrite Hu. Qed.

Lemma send_file_server_total fd path content rest s :
  (forall l p, x_create_error l p = None) -> (forall l p, x_write_error l p = None) ->
  unread fd s = text_frame path ++ u64_frame (Z.of_nat (length content)) ++ content ++ rest ->
  utf8_valid (bytes_of path) = true -> Z.of_nat (length (bytes_of path)) <= BUF_MAX_LEN ->
  (length (bytes_of path) <= fuel)%nat -> (length content <= fuel)%nat ->
  Z.of_nat (length content) <= u64_MAX ->
  exists s', send_file_server fuel fd s = (Return (Ok tt), s') /\
    x_files s' !! path = Some content /\ unread fd s' = rest /\
    xsent fd (x_log s') = xsent fd (x_log s).
Proof.
  intros Hc Hw Hu Hv Hp Hfp Hfc Hlen. unfold send_file_server.
  destruct (recv_text_total fuel fd path _ s Hu Hv Hp Hfuel Hfp) as (s1 & E1 & X1).
  rewrite (bind_run_ok _ _ _ _ _ E1). pose proof (exchange_unread _ _ _ _ _ _ Hu X1) as U1.
  unfold bind at 1, create_file. rewrite Hc. cbv beta iota. set (s2 := set_file path [] s1).
  unfold bind at 1, or_fail, of_result, rmap_err. change (unread fd s1) with (unread fd s2) in U1.
  destruct (recv_u64_total fuel fd (Z.of_nat (length content)) _ s2 U1) as (s3 & E3 & X3); [lia|done|].
  rewrite (bind_run_ok _ _ _ _ _ E3). pose proof (exchange_unread _ _ _ _ _ _ U1 X3) as U3.
  unfold bind at 1. cbn [println_x emit_x print_x modify]. set (s4 := note _ s3).
  change (unread fd s3) with (unread fd s4) in U3.
  destruct (recv_content_total fuel fuel fd path content rest s4) as (s5 & E5 & U5 & X5 & F5 & F5'); try done.
  exists s5. split; [exact E5|]. split_and!; [|exact U5|].
  - destruct X3 as (_ & _ & F3 & _). assert (x_files s4 !! path = Some []) as F4.
    { simpl. rewrite F3. simpl. by rewrite lookup_insert_eq. }
    destruct (decide (content = [])) as [->|Hne]; [by rewrite F5'|by rewrite F5, F4].
  - rewrite X5. simpl. rewrite xsent_app. simpl. rewrite app_nil_r.
    destruct X3 as (-> & _ & _), X1 as (X1 & _ & _). simpl. by rewrite X1, !app_nil_r.
Qed.

(** A total computation that only sends, and what it sends. *)
Lemma send_text_run fd text s :
  (length (bytes_of text) <= fuel)%nat ->
  exists s', send_text fuel fd text s = (Return (Ok tt), s') /\ exchange fd [] (text_frame text) s s'.
Proof.
  intros Hf. destruct (send_text_total fuel fd text s Hfuel Hf) as (s' & E).
  exists s'. split; [exact E|by apply send_text_ok in E].
Qed.

Lemma exchange_grows fd i o s s' e : exchange fd i o s s' -> e ∈ x_log s -> e ∈ x_log s'.
Proof. intros (_ & _ & _ & evs & ->) He. apply elem_of_app. by left. Qed.

Lemma run_server_total `{OutputJson} fd command out err rc j rest s :
  unread fd s = text_frame command ++ rest ->
  utf8_valid (bytes_of command) = true -> Z.of_nat (length (bytes_of command)) <= BUF_MAX_LEN ->
  (forall l, x_output l command = Ok (bytes_of out, bytes_of err, rc)) ->
  utf8_valid (bytes_of out) = true -> utf8_valid (bytes_of err) = true ->
  json_of_output (mk_output out err rc) = Ok j ->
  (length (bytes_of command) <= fuel)%nat -> (length (bytes_of j) <= fuel)%nat ->
  exists s', run_server fuel fd false s = (Return (Ok tt), s') /\
    exchange fd (text_frame command) (text_frame j) s s' /\ XCommand command true ∈ x_log s'.
Proof.
  intros Hu Hv Hl Ho Hvo Hve Hj Hfc Hfj. unfold run_server.
  destruct (recv_text_total fuel fd command _ s Hu Hv Hl Hfuel Hfc) as (s1 & E1 & X1).
  rewrite (bind_run_ok _ _ _ _ _ E1). set (s2 := note (XCommand command true) s1).
  assert (execute command false s1 = (Return (Ok (mk_output out err rc)), s2)) as E2.
  { unfold execute, call, bind at 1. rewrite Ho. unfold bind, or_fail, of_result, output_new_from. simpl.
    by rewrite !from_utf8_ok. }
  rewrite (bind_run_ok _ _ _ _ _ E2). unfold bind, or_fail, of_result. rewrite Hj. simpl.
  destruct (send_text_run fd j s2 Hfj) as (s3 & E3 & X3). exists s3. split; [exact E3|].
  assert (exchange fd [] [] s1 s2) as X2 by by apply exchange_note.
  split; [|eapply exchange_grows; [exact X3|]; simpl; set_solver].
  pose proof (exchange_trans _ _ _ _ _ _ _ _ X1 X2) as X. rewrite !app_nil_r in X.
  pose proof (exchange_trans _ _ _ _ _ _ _ _ X X3) as Y. by rewrite !app_nil_r in Y.
Qed.

(** A text that fits the buffer is received in one piece. *)
Lemma recv_json_total fd j rest s :
  unread fd s = bytes_of j ++ rest -> utf8_valid (bytes_of j) = true ->
  Z.of_nat (length (bytes_of j)) <= BUF_MAX_LEN -> (length (bytes_of j) <= fuel)%nat ->
  exists s', recv_json fuel fuel fd (Z.of_nat (length (bytes_of j))) "" s = (Return (Ok j), s') /\
    exchange fd (bytes_of j) [] s s'.
Proof.
  intros Hu Hv Hl Hf. assert (forall n t, recv_json fuel n fd 0 t = ret t) as Hend by by intros [].
  assert (exists n, fuel = S n) as [n En] by (exists (pred fuel); lia).
  replace (recv_json fuel fuel fd) with (recv_json fuel (S n) fd) by by rewrite En. cbn [recv_json].
  destruct (Z.leb_spec (Z.of_nat (length (bytes_of j))) 0) as [Hz|Hz].
  { exists s. destruct j; [|by simpl in Hz; lia]. split; [done|apply exchange_refl]. }
  rewrite Z.min_r by done.
  destruct (recv_loop_total fuel fd BUF_MAX_LEN (bytes_of j) rest s Hu Hl Hf) as (s1 & E1 & X1).
  rewrite (bind_run_ok _ _ _ _ _ E1). unfold bind at 1, of_result. rewrite from_utf8_ok by done. simpl.
  rewrite Z.sub_diag, Hend. by exists s1.
Qed.

Lemma run_total `{OutputJsonLaws} args out err rc j s s1 fd rest :
  exec_no_wait args = false ->
  json_of_output (mk_output out err rc) = Ok j -> Z.of_nat (length (bytes_of j)) <= BUF_MAX_LEN ->
  (length (bytes_of (exec_command args)) <= fuel)%nat -> (length (bytes_of j) <= fuel)%nat ->
  vsock_connect (exec_cid args) (exec_port args) s = (Return (Ok fd), s1) ->
  unread fd s1 = text_frame j ++ rest ->
  exists s', run fuel args s = (Return (Ok (default 0 rc)), s') /\
    xsent fd (x_log s') = xsent fd (x_log s1) ++ u64_frame (cmd_id RunCmd) ++ text_frame (exec_command args) /\
    XPrint false out ∈ x_log s' /\ XPrint true err ∈ x_log s'.
Proof.
  intros Hn Hj Hl Hfc Hfj Ec Hu. unfold run, with_socket. rewrite (bind_run_ok _ _ _ _ _ Ec), Hn.
  destruct (send_u64_total fuel fd (cmd_id RunCmd) s1 Hfuel) as (s2 & E2).
  pose proof (send_u64_ok _ _ _ _ _ E2) as X2.
  destruct (send_text_run fd (exec_command args) s2 Hfc) as (s3 & E3 & X3).
  pose proof (exchange_trans_out _ _ _ _ _ _ _ X2 X3) as X.
  assert (unread fd s3 = text_frame j ++ rest) as U3 by (destruct X as (_ & U & _); simpl in U; by rewrite <- U).
  unfold text_frame in U3. rewrite <- app_assoc in U3.
  destruct (recv_u64_total fuel fd _ _ s3 U3) as (s4 & E4 & X4); [unfold u64_MAX, BUF_MAX_LEN in *; lia|done|].
  pose proof (exchange_unread _ _ _ _ _ _ U3 X4) as U4.
  destruct (recv_json_total fd j rest s4 U4 (output_json_utf8 _ _ Hj) Hl Hfj) as (s5 & E5 & X5).
  set (s6 := note (XPrint true err) (note (XPrint false out) s5)).
  assert ((do! send_u64 fuel fd (cmd_id RunCmd);
    do! send_text fuel fd (exec_command args);
    let! len := recv_u64 fuel fd in
    let! json_output := recv_json fuel fuel fd len "" in
    let! output := or_fail "Could not deserialize the output: " (output_of_json json_output) in
    do! print_x (out_stdout output);
    do! emit_x (XPrint true (out_stderr output));
    ret (default 0 (out_rc output))) s1 = (Return (Ok (default 0 rc)), s6)) as Em.
  { rewrite (bind_run_ok _ _ _ _ _ E2), (bind_run_ok _ _ _ _ _ E3), (bind_run_ok _ _ _ _ _ E4),
      (bind_run_ok _ _ _ _ _ E5).
    unfold or_fail. by rewrite (output_json_roundtrip _ _ Hj). }
  unfold bind at 1, try. rewrite Em. destruct (socket_drop_run fd s6) as (s7 & E7).
  pose proof (quiet_ok _ _ _ _ fd (quiet_socket_drop fd) E7) as X7.
  exists s7. unfold bind, of_result. split; [by rewrite E7|].
  assert (xsent fd (x_log s6) = xsent fd (x_log s5)) as X6.
  { simpl. rewrite !xsent_app. simpl. by rewrite !app_nil_r. }
  split; [|split; eapply exchange_grows; [exact X7|simpl; set_solver|exact X7|simpl; set_solver]].
  destruct X7 as (-> & _), X5 as (X5 & _), X4 as (X4 & _), X as (X & _).
  by rewrite X6, X5, X4, X, !app_nil_r.
Qed.

Lemma serve_client_id `{OutputJson} fd c rest s :
  unread fd s = u64_frame (cmd_id c) ++ rest ->
  exists s1, exchange fd (u64_frame (cmd_id c)) [] s s1 /\
    serve_client fuel fd s =
      report_error (match c with
                    | RunCmd => run_server fuel fd false
                    | RecvFile => recv_file_server fuel fd
                    | SendFile => send_file_server fuel fd
                    | RunCmdNoWait => run_server fuel fd true
                    end) s1.
Proof.
  intros Hu. destruct (recv_u64_total fuel fd (cmd_id c) rest s Hu) as (s1 & E & Ex);
    [by destruct c|done|].
  exists s1. split; [done|]. unfold serve_client, bind. rewrite E. by destruct c.
Qed.
End ServerLemmas.

(** C31: a file that the client sends arrives: when [send_file] succeeds over
    the connection [fd], and a server whose transfers move bytes and whose files
    can be created and written reads what the client sent on it, then serving
    this client ends normally, and the remote file is the local file; nothing
    beyond the request is consumed, and nothing is sent back. The path fits the
    server's buffer of 8192 bytes. The fuel must reach the lengths of the path and of the file, whatever the sizes of the
    single transfers on both ends. *)
Theorem upload_roundtrip (SC SS : ExecSystem) `{OutputJson} `{!@Moving SS} fuelc fuels
    (args : FileArgs) (s s1 s' v : XState) fd sfd content rest :
  @send_file SC fuelc args s = (Return (Ok tt), s') ->
  @vsock_connect SC (file_cid args) (file_port args) s = (Return (Ok fd), s1) ->
  x_files s !! localfile args = Some content ->
  (forall l p, @x_create_error SS l p = None) -> (forall l p, @x_write_error SS l p = None) ->
  utf8_valid (bytes_of (remotefile args)) = true ->
  Z.of_nat (length (bytes_of (remotefile args))) <= BUF_MAX_LEN ->
  Z.of_nat (length content) <= u64_MAX ->
  (9 + length (bytes_of (remotefile args)) + length content <= fuels)%nat ->
  unread sfd v = drop (length (xsent fd (x_log s))) (xsent fd (x_log s')) ++ rest ->
  exists v', @serve_client SS _ fuels sfd v = (Return (Ok tt), v') /\
    x_files v' !! remotefile args = Some content /\ unread sfd v' = rest /\
    xsent sfd (x_log v') = xsent sfd (x_log v).
Proof.
  intros (fd' & s1' & content' & Ec & Hl & Hx & _)%send_file_ok Ec' Hl' Hc Hw Hv Hp Hlen Hf Hu.
  rewrite Ec in Ec'. rewrite Hl in Hl'. simplify_eq. rewrite Hx, drop_app_length, <- !app_assoc in Hu.
  destruct (@serve_client_id SS _ fuels ltac:(lia) _ sfd SendFile _ _ Hu) as (v1 & X1 & ->).
  pose proof (exchange_unread _ _ _ _ _ _ Hu X1) as U1.
  destruct (@send_file_server_total SS _ fuels ltac:(lia) sfd _ content rest v1 Hc Hw U1)
    as (v2 & E2 & F2 & U2 & X2); try done; try lia.
  exists v2. unfold report_error. rewrite E2. split_and!; try done.
  rewrite X2. destruct X1 as (-> & _ & _). by rewrite app_nil_r.
Qed.

(** C32: a command of at most 8192 bytes, whose end the client waits for, makes the
    round trip: a server that can run it reads the request, runs it and answers
    with its encoded result; a client that is connected and to which this answer
    arrives sends exactly this request, prints what the command printed and
    returns its exit code, 0 when it has none, provided that the encoded result,
    too, fits the buffer of 8192 bytes. A longer command makes the server panic
    ([oversized_request_panics]), and a run that does not wait prints nothing. *)
Theorem run_roundtrip (SC SS : ExecSystem) `{OutputJsonLaws} `{!@Moving SC} `{!@Moving SS} fuel
    (args : RunArgs) out err rc j (v : XState) sfd rest (s s1 : XState) fd rest' :
  exec_no_wait args = false ->
  utf8_valid (bytes_of (exec_command args)) = true ->
  Z.of_nat (length (bytes_of (exec_command args))) <= BUF_MAX_LEN ->
  (forall l, @x_output SS l (exec_command args) = Ok (bytes_of out, bytes_of err, rc)) ->
  utf8_valid (bytes_of out) = true -> utf8_valid (bytes_of err) = true ->
  json_of_output (mk_output out err rc) = Ok j -> Z.of_nat (length (bytes_of j)) <= BUF_MAX_LEN ->
  (9 + length (bytes_of (exec_command args)) + length (bytes_of j) <= fuel)%nat ->
  unread sfd v = u64_frame (cmd_id RunCmd) ++ text_frame (exec_command args) ++ rest ->
  @vsock_connect SC (exec_cid args) (exec_port args) s = (Return (Ok fd), s1) ->
  unread fd s1 = text_frame j ++ rest' ->
  (exists v', @serve_client SS _ fuel sfd v = (Return (Ok tt), v') /\ unread sfd v' = rest /\
    xsent sfd (x_log v') = xsent sfd (x_log v) ++ text_frame j /\
    XCommand (exec_command args) true ∈ x_log v') /\
  (exists s', @run SC _ fuel args s = (Return (Ok (default 0 rc)), s') /\
    xsent fd (x_log s') = xsent fd (x_log s1) ++ u64_frame (cmd_id RunCmd) ++ text_frame (exec_command args) /\
    XPrint false out ∈ x_log s' /\ XPrint true err ∈ x_log s').
Proof.
  intros Hn Hvc Hlc Ho Hvo Hve Hj Hlj Hf Hu Ec Hr. split.
  - destruct (@serve_client_id SS _ fuel ltac:(lia) _ sfd RunCmd _ _ Hu) as (v1 & X1 & ->).
    pose proof (exchange_unread _ _ _ _ _ _ Hu X1) as U1.
    destruct (@run_server_total SS _ fuel ltac:(lia) _ sfd _ out err rc j rest v1 U1)
      as (v2 & E2 & X2 & Hin); try done; try lia.
    exists v2. unfold report_error. rewrite E2.
    split_and!; [done|by eapply exchange_unread| |done].
    destruct X2 as (-> & _), X1 as (-> & _). by rewrite app_nil_r.
  - apply (@run_total SC _ fuel ltac:(lia) _ _ args out err rc j s s1 fd rest'); try done; lia.
Qed.

(** ** Requests that stop the server *)

Section Stops.
Context `{ExecSystem} `{!Moving}.

(** A receiver that is owed more than there will ever be. *)
Lemma recv_rest_starves rounds fd need got s :
  Z.of_nat (length (unread fd s)) < need ->
  exists s', recv_rest rounds fd need got s = (Return (Err Running), s').
Proof.
  revert need got s. induction rounds as [|rounds IH]; intros need got s Hl; cbn [recv_rest];
    (destruct (Z.leb_spec need 0); [lia|]); [by eexists|].
  destruct (recv fd need s) as [r s1] eqn:E. destruct (recv_moves (x_log s) fd need) as [k Ek].
  assert (exists n, r = Return (Ok n)) as [b1 ->] by (unfold recv in E; rewrite Ek in E; simplify_eq; eauto).
  apply recv_ok in E as E'; [|done]. destruct E' as ((_ & Hu & _) & _).
  rewrite (bind_run_ok _ _ _ _ _ E). apply IH. rewrite Hu, length_app in Hl. lia.
Qed.

Lemma bind_err {A B} (m : X A) (k : A -> X B) s e s' :
  m s = (Return (Err e), s') -> bind m k s = (Return (Err e), s').
Proof. unfold bind. by intros ->. Qed.
Lemma bind_panic {A B} (m : X A) (k : A -> X B) s s' : m s = (Panic, s') -> bind m k s = (Panic, s').
Proof. unfold bind. by intros ->. Qed.

(** A client that closes its connection before it has sent the nine bytes
    of a command blocks the server for ever: [recv] then answers with no bytes
    and no error, and the loop goes on; however long it runs, it does not get
    to the end of this client, and so to no other client. *)
Theorem closed_client_blocks_server `{OutputJson} fuel clients fd socket_fd s :
  (length (unread fd s) < 9)%nat ->
  x_accept (x_log s) socket_fd = Ok fd ->
  exists s', serve_clients fuel clients socket_fd s = (Return (Err Running), s').
Proof.
  intros Hl Ha. destruct clients as [|clients]; [by eexists|]. cbn [serve_clients].
  unfold bind at 1, call. rewrite Ha. unfold bind at 1, or_fail, of_result, rmap_err.
  set (s1 := note _ s).
  destruct (recv_rest_starves fuel fd 9 [] s1) as (s2 & E); [change (unread fd s1) with (unread fd s); lia|].
  exists s2. apply bind_err. unfold serve_client, recv_u64, recv_loop. unfold bind at 1.
  by rewrite (bind_err _ _ _ _ _ E).
Qed.

(** A request that announces more than 8192 bytes of text makes the server
    panic, since it slices its buffer with the length it was told. *)
Theorem oversized_request_panics `{OutputJson} fuel c fd len rest s :
  (9 <= fuel)%nat -> BUF_MAX_LEN < len <= u64_MAX ->
  unread fd s = u64_frame (cmd_id c) ++ u64_frame len ++ rest ->
  exists s', serve_client fuel fd s = (Panic, s').
Proof.
  intros Hf Hlen Hu. destruct (serve_client_id fuel Hf fd c _ s Hu) as (s1 & X1 & ->).
  pose proof (exchange_unread _ _ _ _ _ _ Hu X1) as U1.
  destruct (recv_u64_total fuel fd len rest s1 U1) as (s2 & E2 & _); [unfold BUF_MAX_LEN in *; lia|done|].
  exists s2. assert (recv_text fuel fd s1 = (Panic, s2)) as Et.
  { unfold recv_text. rewrite (bind_run_ok _ _ _ _ _ E2). unfold recv_loop.
    by destruct (Z.ltb_spec BUF_MAX_LEN len); [|lia]. }
  unfold report_error, run_server, recv_file_server, send_file_server.
  by destruct c; rewrite (bind_panic _ _ _ _ Et).
Qed.

(** A result that does not fit the buffer is decoded in pieces of 8192
    bytes, so that [run] fails when a piece ends inside a character, although
    the text as a whole is well formed. *)
Theorem split_character_fails_run `{OutputJson} fuel args len piece rest s s1 fd :
  (9 <= fuel)%nat -> (length (bytes_of (exec_command args)) <= fuel)%nat ->
  (Z.to_nat BUF_MAX_LEN <= fuel)%nat ->
  vsock_connect (exec_cid args) (exec_port args) s = (Return (Ok fd), s1) ->
  BUF_MAX_LEN < len <= u64_MAX ->
  Z.of_nat (length piece) = BUF_MAX_LEN -> utf8_valid piece = false ->
  unread fd s1 = u64_frame len ++ piece ++ rest ->
  exists e s', run fuel args s = (Return (Err (Failed e)), s').
Proof.
  intros H9 Hfc Hfb Ec Hlen Hp Hv Hu. unfold run, with_socket. rewrite (bind_run_ok _ _ _ _ _ Ec).
  set (c := cmd_id _).
  destruct (send_u64_total fuel fd c s1 H9) as (s2 & E2). pose proof (send_u64_ok _ _ _ _ _ E2) as X2.
  destruct (send_text_run fuel H9 fd (exec_command args) s2 Hfc) as (s3 & E3 & X3).
  pose proof (exchange_trans_out _ _ _ _ _ _ _ X2 X3) as (_ & U & _). simpl in U. rewrite Hu in U.
  destruct (recv_u64_total fuel fd len _ s3 (eq_sym U)) as (s4 & E4 & X4); [unfold BUF_MAX_LEN in *; lia|done|].
  pose proof (exchange_unread _ _ _ _ _ _ (eq_sym U) X4) as U4.
  destruct (recv_loop_total fuel fd BUF_MAX_LEN piece rest s4 U4) as (s5 & E5 & _); [lia|lia|].
  assert (exists e, from_utf8 piece = Err e) as [e Ee].
  { unfold utf8_valid, from_utf8 in *. destruct (utf8_check _ _ _ _) as [[? ?]|]; [by eexists|done]. }
  assert (exists n, fuel = S n) as [n En] by (exists (pred fuel); lia).
  assert (recv_json fuel fuel fd len "" s4 = (Return (Err (Failed e)), s5)) as Ej.
  { replace (recv_json fuel fuel fd) with (recv_json fuel (S n) fd) by by rewrite En. cbn [recv_json].
    destruct (Z.leb_spec len 0); [unfold BUF_MAX_LEN in *; lia|]. rewrite Z.min_l by lia.
    rewrite Hp in E5. rewrite (bind_run_ok _ _ _ _ _ E5). unfold bind, of_result. by rewrite Ee. }
  destruct (socket_drop_run fd s5) as (s6 & E6). exists e, s6.
  unfold bind at 1, try. rewrite (bind_run_ok _ _ _ _ _ E2), (bind_run_ok _ _ _ _ _ E3),
    (bind_run_ok _ _ _ _ _ E4), (bind_err _ _ _ _ _ Ej).
  by rewrite (bind_run_ok _ _ _ _ _ E6).
Qed.
End Stops.

(** ** Witnesses *)

(** A system that moves bytes in small pieces and on which every call succeeds;
    the command prints "hi" and ends with code 3. *)
Definition sample_exec : ExecSystem := {|
  x_send _ _ _ := Moved 3;
  x_recv _ _ _ := Moved 2;
  x_socket _ := Ok 5;
  x_connect _ _ _ _ := None;
  x_bind _ _ _ _ := None;
  x_listen _ _ _ := None;
  x_accept _ _ := Ok 6;
  x_shutdown _ _ := None;
  x_close _ _ := None;
  x_output _ _ := Ok (bytes_of "hi", [], Some 3);
  x_spawn _ _ := None;
  x_open_error _ _ := None;
  x_metadata_error _ _ := None;
  x_read_error _ _ := None;
  x_not_found := "not found";
  x_create_error _ _ := None;
  x_write_error _ _ := None;
|}.

#[local] Instance sample_exec_moving : @Moving sample_exec.
Proof. split; intros; by eexists. Qed.

(** Only the result of the sample command is ever encoded. *)
Definition sample_output : CommandOutput := mk_output "hi" "" (Some 3).
Definition sample_json : OutputJson := {|
  json_of_output o :=
    match o with
    | mk_output out err (Some 3) =>
        if String.eqb out "hi" && String.eqb err "" then Ok "{hi,,3}"%string else Err "unsupported"%string
    | _ => Err "unsupported"%string
    end;
  output_of_json _ := Ok sample_output;
|}.

#[local] Instance sample_json_laws : @OutputJsonLaws sample_json.
Proof.
  assert (forall o s, @json_of_output sample_json o = Ok s -> o = sample_output /\ s = "{hi,,3}"%string) as Hinv.
  { intros [out err [rc|]] s; simpl; [|done].
    destruct (decide (rc = 3)) as [->|Hn]; [|intros E; exfalso; repeat case_match; simplify_eq; done].
    destruct (String.eqb_spec out "hi") as [->|]; [|done].
    destruct (String.eqb_spec err "") as [->|]; [|done]. intros [= <-]. done. }
  split; intros o s E; apply Hinv in E as [-> ->]; [by vm_compute|done].
Qed.

Definition sample_file_args : FileArgs := mk_file_args 16 5005 "local" "remote".
Definition client_state : XState := mk_xstate [] ∅ {[ "local"%string := [1; 2; 3; 4; 5] ]}.
Definition sent_state : XState := snd (@send_file sample_exec 60 sample_file_args client_state).
Definition server_state (request : list Z) : XState := mk_xstate [] {[ 6 := request ]} ∅.

Lemma upload_roundtrip_witness :
  exists v', @serve_client sample_exec sample_json 60 6 (server_state (xsent 5 (x_log sent_state)))
               = (Return (Ok tt), v') /\ x_files v' !! "remote"%string = Some [1; 2; 3; 4; 5].
Proof.
  assert (@send_file sample_exec 60 sample_file_args client_state = (Return (Ok tt), sent_state)) as E
    by (vm_compute; reflexivity).
  destruct (@upload_roundtrip sample_exec sample_exec sample_json sample_exec_moving 60 60
    sample_file_args client_state (snd (@vsock_connect sample_exec 16 5005 client_state)) sent_state
    (server_state (xsent 5 (x_log sent_state))) 5 6 [1; 2; 3; 4; 5] [] E ltac:(vm_compute; reflexivity)
    ltac:(vm_compute; reflexivity) ltac:(reflexivity) ltac:(reflexivity) ltac:(vm_compute; reflexivity)
    ltac:(vm_compute; congruence) ltac:(vm_compute; congruence) ltac:(vm_compute; lia)
    ltac:(vm_compute; reflexivity)) as (v' & Ev & Fv & _).
  exists v'. split; [exact Ev|exact Fv].
Defined.

Definition sample_exec_args : RunArgs := mk_exec_args 16 5005 "echo" false.
Definition answered_state : XState :=
  mk_xstate [] {[ 5 := text_frame "{hi,,3}" ]} ∅.

Lemma run_roundtrip_witness :
  exists s', @run sample_exec sample_json 60 sample_exec_args answered_state = (Return (Ok 3), s') /\
    XPrint false "hi" ∈ x_log s'.
Proof.
  destruct (@run_roundtrip sample_exec sample_exec sample_json sample_json_laws sample_exec_moving
    sample_exec_moving 60 sample_exec_args "hi" "" (Some 3) "{hi,,3}"
    (server_state (u64_frame 0 ++ text_frame "echo")) 6 [] answered_state
    (snd (@vsock_connect sample_exec 16 5005 answered_state)) 5 []
    eq_refl ltac:(vm_compute; reflexivity) ltac:(vm_compute; congruence) ltac:(reflexivity)
    ltac:(vm_compute; reflexivity) ltac:(vm_compute; reflexivity) ltac:(vm_compute; reflexivity)
    ltac:(vm_compute; congruence) ltac:(vm_compute; lia) ltac:(vm_compute; reflexivity)
    ltac:(vm_compute; reflexivity) ltac:(vm_compute; reflexivity)) as (_ & s' & E & _ & Hp & _).
  exists s'. split; [exact E|exact Hp].
Defined.

Lemma closed_client_blocks_server_witness :
  exists s', @serve_clients sample_exec sample_json 1000 2 4 (server_state [0; 0]) = (Return (Err Running), s').
Proof.
  apply (@closed_client_blocks_server sample_exec sample_exec_moving sample_json 1000 2 6 4);
    [vm_compute; lia|reflexivity].
Defined.

Lemma oversized_request_panics_witness :
  exists s', @serve_client sample_exec sample_json 20 6 (server_state (u64_frame 0 ++ u64_frame 8193)) = (Panic, s').
Proof.
  apply (@oversized_request_panics sample_exec sample_exec_moving sample_json 20 RunCmd 6 8193 []);
    [lia|unfold BUF_MAX_LEN, u64_MAX; lia|vm_compute; reflexivity].
Defined.

(** 8191 letters and the first byte of a two-byte character. *)
Definition split_piece : list Z := repeat 97 8191 ++ [0xC3].

Lemma split_character_fails_run_witness :
  exists e s', @run sample_exec sample_json (Z.to_nat 9000) sample_exec_args
    (mk_xstate [] {[ 5 := u64_frame 8193 ++ split_piece ++ [0xA9] ]} ∅) = (Return (Err (Failed e)), s').
Proof.
  apply (@split_character_fails_run sample_exec sample_exec_moving sample_json (Z.to_nat 9000) sample_exec_args
    8193 split_piece [0xA9] _
    (snd (@vsock_connect sample_exec 16 5005 (mk_xstate [] {[ 5 := u64_frame 8193 ++ split_piece ++ [0xA9] ]} ∅))) 5);
    [lia|vm_compute; lia|unfold BUF_MAX_LEN; lia|vm_compute; reflexivity
    |unfold BUF_MAX_LEN, u64_MAX; lia|vm_compute; reflexivity|vm_compute; reflexivity|vm_compute; reflexivity].
Defined.
