(* ===== verification/ExecuterApp.v ===== *)
(** * The command line of the command executer (src/samples/command_executer/src/utils.rs)

    The sub-commands that its macro create_app declares, and what the parsers of
    [Executer] make of a command line that clap accepts. The macro's help texts,
    and the trait ExitGracefully, which nothing uses, are left out. *)
From S2P Require Import Prelude.
From S2P Require Import RustStd.
From S2P Require Import CommandsParser.
From S2P Require Import App.
From S2P Require Import Executer.
From stdpp Require Import base list strings sets.
From Stdlib Require Import ZArith Lia.
Local Open Scope string_scope.
Local Open Scope nitro_scope.

(** An argument with a value that must be given. *)
Definition needed (name : string) : ArgSpec := mk_arg name name true false true [] [].

(* src/samples/command_executer/src/utils.rs:26-35 create_app! *)
Definition listen_spec : SubCommand := mk_sub "listen" [needed "port"].

(* src/samples/command_executer/src/utils.rs:36-66 create_app! *)
Definition run_spec : SubCommand :=
  mk_sub "run" [needed "port"; needed "cid"; needed "command";
    mk_arg "no-wait" "no-wait" false false false [] []].

(* src/samples/command_executer/src/utils.rs:67-98 create_app! *)
Definition recv_file_spec : SubCommand :=
  mk_sub "recv-file" [needed "port"; needed "cid"; needed "localpath"; needed "remotepath"].

(* src/samples/command_executer/src/utils.rs:99-130 create_app! *)
Definition send_file_spec : SubCommand :=
  mk_sub "send-file" [needed "port"; needed "cid"; needed "localpath"; needed "remotepath"].

(* src/samples/command_executer/src/utils.rs:21-25 create_app! *)
Definition executer_app : list SubCommand := [listen_spec; run_spec; recv_file_spec; send_file_spec].

(** A needed argument has a value on an accepted command line. *)
Lemma needed_given sub args name :
  accepted sub args -> needed name ∈ sub_args sub -> is_Some (value_of args name).
Proof. intros Ha Hin. apply (accepted_takes _ _ Ha _ Hin eq_refl), (accepted_required _ _ Ha _ Hin eq_refl). Qed.

(** The argument is the text of a 32-bit number. *)
Definition u32_given (args : ArgMatches) (name : string) : Prop :=
  exists text v, value_of args name = Some text /\ parse_u32 text = Ok v.

(** The parsers of the two numbers differ in their messages. *)
Lemma number_given args name absent malformed :
  is_ok (let? text := ok_or (value_of args name) absent in rmap_err (fun _ => malformed) (parse_u32 text)
         : result string Z) = true <-> u32_given args name.
Proof.
  unfold u32_given. destruct (value_of args name) as [t|]; simpl; [|split; [done|by intros (? & ? & [=] & _)]].
  destruct (parse_u32 t) as [v|e] eqn:E; simpl; split; try done; [intros _; by exists t, v|].
  intros (? & v & [= <-] & E'). congruence.
Qed.

(** On a command line that clap accepts the parsers fail, and the program panics,
    for one reason only: a CID or a port that is no 32-bit number. *)
Theorem executer_parsers_find_arguments args :
  (accepted listen_spec args -> is_ok (listen_args_new_with args) = true <-> u32_given args "port") /\
  (accepted run_spec args ->
     is_ok (exec_args_new_with args) = true <-> u32_given args "cid" /\ u32_given args "port") /\
  (forall sub, sub = recv_file_spec \/ sub = send_file_spec -> accepted sub args ->
     is_ok (file_args_new_with args) = true <-> u32_given args "cid" /\ u32_given args "port").
Proof.
  pose proof (number_given args "port" "Could not find port argument" "port is not a number") as Hp.
  pose proof (number_given args "cid" "Could not find cid argument" "cid is not a number") as Hc.
  fold (parse_port args) in Hp. fold (parse_cid args) in Hc. rewrite <- Hp, <- Hc. split_and!.
  - intros _. unfold listen_args_new_with. by destruct (parse_port args).
  - intros Ha. destruct (needed_given _ _ "command" Ha) as [c Hcmd]; [set_solver|].
    unfold exec_args_new_with, parse_command. rewrite Hcmd.
    destruct (parse_cid args), (parse_port args); simpl; naive_solver.
  - intros sub Hs Ha.
    assert (is_Some (value_of args "localpath") /\ is_Some (value_of args "remotepath")) as [[l Hl] [r Hr]].
    { split; eapply needed_given; try exact Ha; destruct Hs as [-> | ->]; set_solver. }
    unfold file_args_new_with, parse_localfile, parse_remotefile. rewrite Hl, Hr.
    destruct (parse_cid args), (parse_port args); simpl; naive_solver.
Qed.
